(** * QUIC frame codec (net/quic/frame.c): encoders, decoders, dispatch

    A shallow embedding of the frame layer of the kernel QUIC
    implementation.  Integers are [Z] with the C wrap-around written out,
    byte strings are [list Z] (every element in [0, 256)), structures are
    records and the socket is threaded explicitly through every encoder and
    decoder. *)

From Stdlib Require Import ZArith List Lia Bool.
Import ListNotations.
Open Scope Z_scope.

Set Implicit Arguments.

(** ** Machine integers *)

Definition u8 (x : Z) : Z := x mod 2 ^ 8.
Definition u32 (x : Z) : Z := x mod 2 ^ 32.
Definition u64 (x : Z) : Z := x mod 2 ^ 64.

Definition is_byte (b : Z) : Prop := 0 <= b < 256.
Definition bytes_ok (l : list Z) : Prop := Forall is_byte l.

Definition len_of {A : Type} (l : list A) : Z := Z.of_nat (length l).

(** Errno values of the kernel (include/uapi/asm-generic/errno*.h). *)
Definition ENOMEM : Z := 12.
Definition EINVAL : Z := 22.
Definition EPIPE : Z := 32.
Definition EPROTONOSUPPORT : Z := 93.

(** ** Variable-length integers (number.h) *)

(** Big-endian image of the low [n] bytes of [v]. *)
Fixpoint be_bytes (n : nat) (v : Z) : list Z :=
  match n with
  | O => []
  | S k => Z.shiftr v (8 * Z.of_nat k) mod 256 :: be_bytes k v
  end.

Definition be_value (l : list Z) : Z :=
  fold_left (fun acc b => acc * 256 + b) l 0.

(** [*p |= c] on the first byte of a buffer. *)
Definition or_first (c : Z) (l : list Z) : list Z :=
  match l with
  | [] => []
  | b :: t => Z.lor b c :: t
  end.

(** [*p &= 0x3f] on the first byte of a buffer. *)
Definition mask_first (l : list Z) : list Z :=
  match l with
  | [] => []
  | b :: t => Z.land b 63 :: t
  end.

(** Modelled from the spec: number.h is not part of the sources at hand.
    [quic_var_len] is the size of the smallest class (1, 2, 4 or 8 bytes)
    that holds the value (4.1, "choose the smallest class that holds
    value"). *)
Definition quic_var_len (num : Z) : Z :=
  if num <? 64 then 1
  else if num <? 16384 then 2
  else if num <? 1073741824 then 4
  else 8.

(** Modelled from the spec: number.h is not part of the sources at hand.
    [quic_put_var] writes the value big-endian in the smallest class and
    stores the class in the two most significant bits of the first byte; the
    result is the list of bytes written (the C function returns the
    advanced pointer). *)
Definition quic_put_var (num : Z) : list Z :=
  if num <? 64 then [u8 num]
  else if num <? 16384 then or_first 64 (be_bytes 2 num)
  else if num <? 1073741824 then or_first 128 (be_bytes 4 num)
  else or_first 192 (be_bytes 8 num).

(** Modelled from the spec: number.h is not part of the sources at hand.
    [quic_get_var p len] peeks the first byte, derives the class from its
    top two bits, requires [len >= class], reads the value big-endian with
    the class bits masked out, and returns the value with the advanced
    cursor and the decremented remaining length; [None] on truncation
    (4.1).  With [len = 0] the class is at least 1, so the answer is [None]
    whatever the peeked byte is. *)
Definition quic_get_var (p : list Z) (len : Z) : option (Z * list Z * Z) :=
  let n := Z.shiftl 1 (Z.shiftr (hd 0 p) 6) in
  if len <? n then None
  else Some (be_value (mask_first (firstn (Z.to_nat n) p)),
             skipn (Z.to_nat n) p, len - n).

(** [quic_put_data p data len]: [memcpy] of [len] bytes. *)
Definition quic_put_data (data : list Z) (len : Z) : list Z :=
  firstn (Z.to_nat len) data.


(** ** Frame types and bit masks (frame.h) *)

(** Modelled from the spec: frame.h is not part of the sources at hand; the
    type bytes are those of sections 3, 4.3 and 4.4 (RFC 9000, 19). *)
Definition QUIC_FRAME_PADDING : Z := 0x00.
Definition QUIC_FRAME_PING : Z := 0x01.
Definition QUIC_FRAME_ACK : Z := 0x02.
Definition QUIC_FRAME_ACK_ECN : Z := 0x03.
Definition QUIC_FRAME_RESET_STREAM : Z := 0x04.
Definition QUIC_FRAME_STOP_SENDING : Z := 0x05.
Definition QUIC_FRAME_CRYPTO : Z := 0x06.
Definition QUIC_FRAME_NEW_TOKEN : Z := 0x07.
Definition QUIC_FRAME_STREAM : Z := 0x08.
Definition QUIC_FRAME_MAX_DATA : Z := 0x10.
Definition QUIC_FRAME_MAX_STREAM_DATA : Z := 0x11.
Definition QUIC_FRAME_MAX_STREAMS_BIDI : Z := 0x12.
Definition QUIC_FRAME_MAX_STREAMS_UNI : Z := 0x13.
Definition QUIC_FRAME_DATA_BLOCKED : Z := 0x14.
Definition QUIC_FRAME_STREAM_DATA_BLOCKED : Z := 0x15.
Definition QUIC_FRAME_STREAMS_BLOCKED_BIDI : Z := 0x16.
Definition QUIC_FRAME_STREAMS_BLOCKED_UNI : Z := 0x17.
Definition QUIC_FRAME_NEW_CONNECTION_ID : Z := 0x18.
Definition QUIC_FRAME_RETIRE_CONNECTION_ID : Z := 0x19.
Definition QUIC_FRAME_PATH_CHALLENGE : Z := 0x1a.
Definition QUIC_FRAME_PATH_RESPONSE : Z := 0x1b.
Definition QUIC_FRAME_CONNECTION_CLOSE : Z := 0x1c.
Definition QUIC_FRAME_CONNECTION_CLOSE_APP : Z := 0x1d.
Definition QUIC_FRAME_HANDSHAKE_DONE : Z := 0x1e.
Definition QUIC_FRAME_BASE_MAX : Z := QUIC_FRAME_HANDSHAKE_DONE.

(** Modelled from the spec: the subflags of the STREAM type byte, OFF
    (0x04), LEN (0x02) and FIN (0x01) (section 3). *)
Definition QUIC_STREAM_BIT_FIN : Z := 0x01.
Definition QUIC_STREAM_BIT_LEN : Z := 0x02.
Definition QUIC_STREAM_BIT_OFF : Z := 0x04.

(** Modelled from the spec: the two low bits of a stream id, the
    server bit and the unidirectional bit (4.5, MAX_STREAMS). *)
Definition QUIC_STREAM_TYPE_SERVER_MASK : Z := 0x01.
Definition QUIC_STREAM_TYPE_UNI_MASK : Z := 0x02.

(** [x & mask] read as a C condition. *)
Definition has_bit (x mask : Z) : bool := negb (Z.land x mask =? 0).

(** ** Data model *)

(** A two-element C array indexed by a flag ([udp_sk[2]], [addr[2]]). *)
Record two (A : Type) := { slot0 : A; slot1 : A }.

Definition slot_get {A} (i : bool) (t : two A) : A :=
  if i then slot1 t else slot0 t.

Definition slot_set {A} (i : bool) (v : A) (t : two A) : two A :=
  if i then {| slot0 := slot0 t; slot1 := v |}
  else {| slot0 := v; slot1 := slot1 t |}.

Record quic_gap_ack_block := { gab_start : Z; gab_end : Z }.

(** The packet-number map as its accessors show it: [pn_gabs] is the array
    filled by [quic_pnmap_num_gabs], whose length is the returned count. *)
Record quic_pnmap := {
  base_pn : Z;
  max_pn_seen : Z;
  min_pn_seen : Z;
  max_pn_ts : Z;
  pn_gabs : list quic_gap_ack_block
}.

Record quic_token := { tk_data : list Z; tk_len : Z }.

(** Modelled from the spec: stream.h is not part of the sources at hand;
    the stream states are those of RFC 9000, 3.1 and 3.2, of which
    frame.c names RESET_SENT and RESET_RECVD. *)
Inductive quic_stream_send_state :=
| QUIC_STREAM_SEND_STATE_READY
| QUIC_STREAM_SEND_STATE_SEND
| QUIC_STREAM_SEND_STATE_SENT
| QUIC_STREAM_SEND_STATE_RECVD
| QUIC_STREAM_SEND_STATE_RESET_SENT
| QUIC_STREAM_SEND_STATE_RESET_RECVD.

Inductive quic_stream_recv_state :=
| QUIC_STREAM_RECV_STATE_RECV
| QUIC_STREAM_RECV_STATE_SIZE_KNOWN
| QUIC_STREAM_RECV_STATE_RECVD
| QUIC_STREAM_RECV_STATE_READ
| QUIC_STREAM_RECV_STATE_RESET_RECVD
| QUIC_STREAM_RECV_STATE_RESET_READ.

Record quic_stream := {
  stream_id : Z;
  send_offset : Z;
  send_max_bytes : Z;
  send_data_blocked : Z;
  send_state : quic_stream_send_state;
  recv_max_bytes : Z;
  recv_bytes : Z;
  recv_window : Z;
  recv_state : quic_stream_recv_state
}.

Record quic_stream_table := {
  st_streams : list quic_stream;
  send_stream_active : Z;
  send_max_streams_uni : Z;
  send_streams_uni : Z;
  send_max_streams_bidi : Z;
  send_streams_bidi : Z;
  recv_max_streams_uni : Z;
  recv_max_streams_bidi : Z
}.

(** One entry of a connection-ID set, with what
    [quic_connection_id_append (id_set, number, sk, conn_id, len)] is given. *)
Record quic_connection_id := { cid_number : Z; cid_data : list Z }.

Record quic_connection_id_set := {
  cid_list : list quic_connection_id;
  max_count : Z
}.

Record quic_path_addr := {
  entropy : list Z;
  pending : bool;
  active : bool;
  addr : two (list Z)
}.

(** An outbound frame: the bytes put into the skb and its [QUIC_SND_CB]
    control block ([alloc_skb] hands the block out zeroed). *)
Record frame_buf := {
  fb_data : list Z;
  fb_frame_type : Z;
  fb_stream : option Z;
  fb_stream_offset : Z;
  fb_data_bytes : Z;
  fb_err_code : Z
}.

(** An inbound buffer.  [data] is the memory from [skb->data] on, the [len]
    bytes of the payload first and whatever lies behind them after; only
    the first [len] bytes belong to the packet. *)
Record sk_buff := { data : list Z; len : Z }.

(** A payload of [b] followed in memory by [slack]. *)
Definition mk_skb (b slack : list Z) : sk_buff :=
  {| data := b ++ slack; len := len_of b |}.

Record quic_outqueue := {
  ack_delay_exponent : Z;
  close_errcode : Z;
  close_frame : Z;
  close_phrase : option (list Z);
  outq_max_bytes : Z;
  outq_data_blocked : Z;
  ctrl_list : list (frame_buf * bool);
  retransmit_checks : list (Z * Z * Z * Z)
}.

Record quic_inqueue := {
  inq_max_bytes : Z;
  inq_bytes : Z;
  inq_window : Z
}.

Record quic_paths := {
  src : quic_path_addr;
  dst : quic_path_addr;
  udp_sk : two (option Z);
  udp_sock_puts : list (option Z);
  sk_saddr : list Z;
  sk_daddr : list Z
}.

(** Modelled from the spec: socket.h is not part of the sources at hand; the
    state enumeration "including USER_CLOSED" (section 6), the other states
    kept by their number. *)
Inductive quic_state :=
| QUIC_STATE_USER_CLOSED
| QUIC_STATE_OTHER (n : Z).

Record sock_common := {
  sk_err : Z;
  sk_state : quic_state;
  state_change_wakeups : nat;
  write_space_wakeups : nat;
  is_serv : bool;
  packet_max_payload : Z;
  addr_len : Z
}.

(** What the kernel decides for the code: the random stream read by
    [get_random_bytes], the outcome of the successive atomic allocations
    ([true]: served; an exhausted list serves every request), the clock
    [jiffies_to_usecs (jiffies)], and the bytes found in an uninitialised
    automatic array.

    [faulted] is raised where the code does what C leaves undefined and
    the kernel answers with an oops or a panic: a store through a null
    pointer, a write past the end of an automatic array.  The C function
    does not return from there: a result computed with the mark raised
    stands for no run of the code.  The frame layer never lowers the
    mark. *)
Record environment := {
  rng : nat -> Z;
  rng_pos : nat;
  allocs : list bool;
  now_usecs : Z;
  stack : list Z;
  faulted : bool
}.

Record sock := {
  pnmap : quic_pnmap;
  outq : quic_outqueue;
  inq : quic_inqueue;
  streams : quic_stream_table;
  source : quic_connection_id_set;
  dest : quic_connection_id_set;
  token : quic_token;
  ticket : quic_token;
  paths : quic_paths;
  common : sock_common;
  env : environment
}.

(** *** Field updates *)

Definition set_outq (v : quic_outqueue) (sk : sock) : sock :=
  {| pnmap := pnmap sk; outq := v; inq := inq sk; streams := streams sk;
     source := source sk; dest := dest sk; token := token sk;
     ticket := ticket sk; paths := paths sk; common := common sk;
     env := env sk |}.

Definition set_inq (v : quic_inqueue) (sk : sock) : sock :=
  {| pnmap := pnmap sk; outq := outq sk; inq := v; streams := streams sk;
     source := source sk; dest := dest sk; token := token sk;
     ticket := ticket sk; paths := paths sk; common := common sk;
     env := env sk |}.

Definition set_streams (v : quic_stream_table) (sk : sock) : sock :=
  {| pnmap := pnmap sk; outq := outq sk; inq := inq sk; streams := v;
     source := source sk; dest := dest sk; token := token sk;
     ticket := ticket sk; paths := paths sk; common := common sk;
     env := env sk |}.

Definition set_source (v : quic_connection_id_set) (sk : sock) : sock :=
  {| pnmap := pnmap sk; outq := outq sk; inq := inq sk; streams := streams sk;
     source := v; dest := dest sk; token := token sk;
     ticket := ticket sk; paths := paths sk; common := common sk;
     env := env sk |}.

Definition set_dest (v : quic_connection_id_set) (sk : sock) : sock :=
  {| pnmap := pnmap sk; outq := outq sk; inq := inq sk; streams := streams sk;
     source := source sk; dest := v; token := token sk;
     ticket := ticket sk; paths := paths sk; common := common sk;
     env := env sk |}.

Definition set_token (v : quic_token) (sk : sock) : sock :=
  {| pnmap := pnmap sk; outq := outq sk; inq := inq sk; streams := streams sk;
     source := source sk; dest := dest sk; token := v;
     ticket := ticket sk; paths := paths sk; common := common sk;
     env := env sk |}.

Definition set_ticket (v : quic_token) (sk : sock) : sock :=
  {| pnmap := pnmap sk; outq := outq sk; inq := inq sk; streams := streams sk;
     source := source sk; dest := dest sk; token := token sk;
     ticket := v; paths := paths sk; common := common sk;
     env := env sk |}.

Definition set_paths (v : quic_paths) (sk : sock) : sock :=
  {| pnmap := pnmap sk; outq := outq sk; inq := inq sk; streams := streams sk;
     source := source sk; dest := dest sk; token := token sk;
     ticket := ticket sk; paths := v; common := common sk;
     env := env sk |}.

Definition set_common (v : sock_common) (sk : sock) : sock :=
  {| pnmap := pnmap sk; outq := outq sk; inq := inq sk; streams := streams sk;
     source := source sk; dest := dest sk; token := token sk;
     ticket := ticket sk; paths := paths sk; common := v;
     env := env sk |}.

Definition set_env (v : environment) (sk : sock) : sock :=
  {| pnmap := pnmap sk; outq := outq sk; inq := inq sk; streams := streams sk;
     source := source sk; dest := dest sk; token := token sk;
     ticket := ticket sk; paths := paths sk; common := common sk;
     env := v |}.

Definition set_allocs (v : list bool) (e : environment) : environment :=
  {| rng := rng e; rng_pos := rng_pos e; allocs := v;
     now_usecs := now_usecs e; stack := stack e; faulted := faulted e |}.

Definition set_rng_pos (v : nat) (e : environment) : environment :=
  {| rng := rng e; rng_pos := v; allocs := allocs e;
     now_usecs := now_usecs e; stack := stack e; faulted := faulted e |}.

Definition set_faulted (v : bool) (e : environment) : environment :=
  {| rng := rng e; rng_pos := rng_pos e; allocs := allocs e;
     now_usecs := now_usecs e; stack := stack e; faulted := v |}.

Definition set_outq_max_bytes (mb blocked : Z) (q : quic_outqueue)
  : quic_outqueue :=
  {| ack_delay_exponent := ack_delay_exponent q;
     close_errcode := close_errcode q; close_frame := close_frame q;
     close_phrase := close_phrase q; outq_max_bytes := mb;
     outq_data_blocked := blocked; ctrl_list := ctrl_list q;
     retransmit_checks := retransmit_checks q |}.

Definition set_ctrl_list (v : list (frame_buf * bool)) (q : quic_outqueue)
  : quic_outqueue :=
  {| ack_delay_exponent := ack_delay_exponent q;
     close_errcode := close_errcode q; close_frame := close_frame q;
     close_phrase := close_phrase q; outq_max_bytes := outq_max_bytes q;
     outq_data_blocked := outq_data_blocked q; ctrl_list := v;
     retransmit_checks := retransmit_checks q |}.

Definition set_retransmit_checks (v : list (Z * Z * Z * Z))
  (q : quic_outqueue) : quic_outqueue :=
  {| ack_delay_exponent := ack_delay_exponent q;
     close_errcode := close_errcode q; close_frame := close_frame q;
     close_phrase := close_phrase q; outq_max_bytes := outq_max_bytes q;
     outq_data_blocked := outq_data_blocked q; ctrl_list := ctrl_list q;
     retransmit_checks := v |}.

Definition set_inq_max_bytes (v : Z) (q : quic_inqueue) : quic_inqueue :=
  {| inq_max_bytes := v; inq_bytes := inq_bytes q;
     inq_window := inq_window q |}.

Definition set_send_offset (v : Z) (s : quic_stream) : quic_stream :=
  {| stream_id := stream_id s; send_offset := v;
     send_max_bytes := send_max_bytes s;
     send_data_blocked := send_data_blocked s; send_state := send_state s;
     recv_max_bytes := recv_max_bytes s; recv_bytes := recv_bytes s;
     recv_window := recv_window s; recv_state := recv_state s |}.

Definition set_send_max_bytes (mb blocked : Z) (s : quic_stream)
  : quic_stream :=
  {| stream_id := stream_id s; send_offset := send_offset s;
     send_max_bytes := mb; send_data_blocked := blocked;
     send_state := send_state s;
     recv_max_bytes := recv_max_bytes s; recv_bytes := recv_bytes s;
     recv_window := recv_window s; recv_state := recv_state s |}.

Definition set_send_state (v : quic_stream_send_state) (s : quic_stream)
  : quic_stream :=
  {| stream_id := stream_id s; send_offset := send_offset s;
     send_max_bytes := send_max_bytes s;
     send_data_blocked := send_data_blocked s; send_state := v;
     recv_max_bytes := recv_max_bytes s; recv_bytes := recv_bytes s;
     recv_window := recv_window s; recv_state := recv_state s |}.

Definition set_recv_max_bytes (v : Z) (s : quic_stream) : quic_stream :=
  {| stream_id := stream_id s; send_offset := send_offset s;
     send_max_bytes := send_max_bytes s;
     send_data_blocked := send_data_blocked s; send_state := send_state s;
     recv_max_bytes := v; recv_bytes := recv_bytes s;
     recv_window := recv_window s; recv_state := recv_state s |}.

Definition set_recv_state (v : quic_stream_recv_state) (s : quic_stream)
  : quic_stream :=
  {| stream_id := stream_id s; send_offset := send_offset s;
     send_max_bytes := send_max_bytes s;
     send_data_blocked := send_data_blocked s; send_state := send_state s;
     recv_max_bytes := recv_max_bytes s; recv_bytes := recv_bytes s;
     recv_window := recv_window s; recv_state := v |}.

Definition set_st_streams (v : list quic_stream) (t : quic_stream_table)
  : quic_stream_table :=
  {| st_streams := v; send_stream_active := send_stream_active t;
     send_max_streams_uni := send_max_streams_uni t;
     send_streams_uni := send_streams_uni t;
     send_max_streams_bidi := send_max_streams_bidi t;
     send_streams_bidi := send_streams_bidi t;
     recv_max_streams_uni := recv_max_streams_uni t;
     recv_max_streams_bidi := recv_max_streams_bidi t |}.

Definition set_send_stream_active (v : Z) (t : quic_stream_table)
  : quic_stream_table :=
  {| st_streams := st_streams t; send_stream_active := v;
     send_max_streams_uni := send_max_streams_uni t;
     send_streams_uni := send_streams_uni t;
     send_max_streams_bidi := send_max_streams_bidi t;
     send_streams_bidi := send_streams_bidi t;
     recv_max_streams_uni := recv_max_streams_uni t;
     recv_max_streams_bidi := recv_max_streams_bidi t |}.

Definition set_send_streams_uni (v : Z) (t : quic_stream_table)
  : quic_stream_table :=
  {| st_streams := st_streams t; send_stream_active := send_stream_active t;
     send_max_streams_uni := v; send_streams_uni := v;
     send_max_streams_bidi := send_max_streams_bidi t;
     send_streams_bidi := send_streams_bidi t;
     recv_max_streams_uni := recv_max_streams_uni t;
     recv_max_streams_bidi := recv_max_streams_bidi t |}.

Definition set_send_streams_bidi (v : Z) (t : quic_stream_table)
  : quic_stream_table :=
  {| st_streams := st_streams t; send_stream_active := send_stream_active t;
     send_max_streams_uni := send_max_streams_uni t;
     send_streams_uni := send_streams_uni t;
     send_max_streams_bidi := v; send_streams_bidi := v;
     recv_max_streams_uni := recv_max_streams_uni t;
     recv_max_streams_bidi := recv_max_streams_bidi t |}.

Definition set_recv_max_streams_uni (v : Z) (t : quic_stream_table)
  : quic_stream_table :=
  {| st_streams := st_streams t; send_stream_active := send_stream_active t;
     send_max_streams_uni := send_max_streams_uni t;
     send_streams_uni := send_streams_uni t;
     send_max_streams_bidi := send_max_streams_bidi t;
     send_streams_bidi := send_streams_bidi t;
     recv_max_streams_uni := v;
     recv_max_streams_bidi := recv_max_streams_bidi t |}.

Definition set_recv_max_streams_bidi (v : Z) (t : quic_stream_table)
  : quic_stream_table :=
  {| st_streams := st_streams t; send_stream_active := send_stream_active t;
     send_max_streams_uni := send_max_streams_uni t;
     send_streams_uni := send_streams_uni t;
     send_max_streams_bidi := send_max_streams_bidi t;
     send_streams_bidi := send_streams_bidi t;
     recv_max_streams_uni := recv_max_streams_uni t;
     recv_max_streams_bidi := v |}.

Definition set_cid_list (v : list quic_connection_id)
  (s : quic_connection_id_set) : quic_connection_id_set :=
  {| cid_list := v; max_count := max_count s |}.

Definition set_entropy (v : list Z) (p : quic_path_addr) : quic_path_addr :=
  {| entropy := v; pending := pending p; active := active p;
     addr := addr p |}.

(** [path->pending = 0; memset (&path->addr[!path->active], 0, n)]. *)
Definition path_settle (n : Z) (p : quic_path_addr) : quic_path_addr :=
  {| entropy := entropy p; pending := false; active := active p;
     addr := slot_set (negb (active p)) (repeat 0 (Z.to_nat n)) (addr p) |}.

Definition set_sk_err_state (e : Z) (st : quic_state) (wake : nat)
  (c : sock_common) : sock_common :=
  {| sk_err := e; sk_state := st; state_change_wakeups := wake;
     write_space_wakeups := write_space_wakeups c; is_serv := is_serv c;
     packet_max_payload := packet_max_payload c; addr_len := addr_len c |}.

Definition set_write_space_wakeups (v : nat) (c : sock_common)
  : sock_common :=
  {| sk_err := sk_err c; sk_state := sk_state c;
     state_change_wakeups := state_change_wakeups c;
     write_space_wakeups := v; is_serv := is_serv c;
     packet_max_payload := packet_max_payload c; addr_len := addr_len c |}.

Definition set_sk_err (e : Z) (c : sock_common) : sock_common :=
  set_sk_err_state e (sk_state c) (state_change_wakeups c) c.

Definition set_src (v : quic_path_addr) (p : quic_paths) : quic_paths :=
  {| src := v; dst := dst p; udp_sk := udp_sk p;
     udp_sock_puts := udp_sock_puts p; sk_saddr := sk_saddr p;
     sk_daddr := sk_daddr p |}.

Definition set_dst (v : quic_path_addr) (p : quic_paths) : quic_paths :=
  {| src := src p; dst := v; udp_sk := udp_sk p;
     udp_sock_puts := udp_sock_puts p; sk_saddr := sk_saddr p;
     sk_daddr := sk_daddr p |}.

(** [quic_udp_sock_put (qs->udp_sk[i]); qs->udp_sk[i] = NULL]. *)
Definition udp_sock_release (i : bool) (p : quic_paths) : quic_paths :=
  {| src := src p; dst := dst p; udp_sk := slot_set i None (udp_sk p);
     udp_sock_puts := udp_sock_puts p ++ [slot_get i (udp_sk p)];
     sk_saddr := sk_saddr p; sk_daddr := sk_daddr p |}.

(** [quic_set_sk_addr (sk, a, src)]: the socket's local ([src] true) or
    peer address becomes [a]. *)
Definition quic_set_sk_addr (a : list Z) (local : bool) (p : quic_paths)
  : quic_paths :=
  {| src := src p; dst := dst p; udp_sk := udp_sk p;
     udp_sock_puts := udp_sock_puts p;
     sk_saddr := if local then a else sk_saddr p;
     sk_daddr := if local then sk_daddr p else a |}.

(** ** Kernel services *)

(** The code runs into undefined behaviour: the fault is recorded. *)
Definition kernel_fault (sk : sock) : sock :=
  set_env (set_faulted true (env sk)) sk.

(** One [GFP_ATOMIC] allocation ([alloc_skb], [kmemdup], [skb_clone]): the
    next entry of the environment decides whether it is served. *)
Definition alloc_atomic (sk : sock) : bool * sock :=
  match allocs (env sk) with
  | [] => (true, sk)
  | ok :: rest => (ok, set_env (set_allocs rest (env sk)) sk)
  end.

(** [get_random_bytes (buf, n)]: the next [n] bytes of the random stream. *)
Definition get_random_bytes (n : nat) (sk : sock) : list Z * sock :=
  (map (fun i => u8 (rng (env sk) i)) (seq (rng_pos (env sk)) n),
   set_env (set_rng_pos (rng_pos (env sk) + n)%nat (env sk)) sk).

(** [strlen] of the C string stored in [s] (the bytes before the first
    NUL; a list without NUL stands for a string ending where the list
    ends). *)
Fixpoint strlen (s : list Z) : Z :=
  match s with
  | [] => 0
  | c :: r => if c =? 0 then 0 else 1 + strlen r
  end.

(** ** Collaborators *)

(** A [struct quic_stream *] as the stream getters return it: [NULL], an
    [ERR_PTR], or the stream of the table with the given id. *)
Inductive stream_ptr :=
| STREAM_NULL
| STREAM_ERR (e : Z)
| STREAM_AT (id : Z).

Definition IS_ERR (p : stream_ptr) : bool :=
  match p with STREAM_ERR _ => true | _ => false end.

Definition PTR_ERR (p : stream_ptr) : Z :=
  match p with STREAM_ERR e => e | _ => 0 end.

(** A cloned buffer handed to reassembly with its [QUIC_RCV_CB]. *)
Record rcv_frag := {
  rf_payload : list Z;
  rf_stream : stream_ptr;
  rf_stream_fin : bool;
  rf_stream_offset : Z
}.

(** The collaborators whose code and policy lie outside frame.c and are
    not fixed by the frame layer: the stream getters (which may create a
    stream or refuse), the reassembly queue, and the classifier of frames
    that ask for an immediate acknowledgement. *)
Record collaborators := {
  quic_stream_recv_get :
    quic_stream_table -> Z -> bool -> stream_ptr * quic_stream_table;
  quic_stream_send_get :
    quic_stream_table -> Z -> Z -> bool -> stream_ptr * quic_stream_table;
  quic_inq_reasm_tail : sock -> rcv_frag -> Z * sock;
  quic_frame_ack_immediate : Z -> bool
}.

(** Modelled from the spec: stream.c is not part of the sources at hand;
    [Streams.find (id)] looks the stream up by its id. *)
Definition quic_stream_find (t : quic_stream_table) (id : Z)
  : option quic_stream :=
  find (fun s => stream_id s =? id) (st_streams t).

(** A store [stream->field = v] through a pointer into the table: the
    first stream with that id is updated. *)
Fixpoint stream_update (f : quic_stream -> quic_stream) (id : Z)
  (l : list quic_stream) : list quic_stream :=
  match l with
  | [] => []
  | s :: r => if stream_id s =? id then f s :: r
              else s :: stream_update f id r
  end.

Definition stream_store (f : quic_stream -> quic_stream) (id : Z) (sk : sock)
  : sock :=
  set_streams
    (set_st_streams (stream_update f id (st_streams (streams sk)))
       (streams sk)) sk.

(** A store through the pointer a getter returned.  A store through
    [NULL] or an [ERR_PTR] dereferences an address that is not mapped: the
    kernel faults, and no stream is written. *)
Definition stream_store_at (f : quic_stream -> quic_stream) (p : stream_ptr)
  (sk : sock) : sock :=
  match p with
  | STREAM_AT id => stream_store f id sk
  | STREAM_NULL | STREAM_ERR _ => kernel_fault sk
  end.

(** Modelled from the spec: connection-ID sets are kept outside frame.c
    ("ordered by seqno; dense", with [last_number], [first_number],
    [append], [remove], section 6).  The numbers read from an empty set are
    taken as 0. *)
Definition quic_connection_id_last_number (s : quic_connection_id_set) : Z :=
  cid_number (last (cid_list s) {| cid_number := 0; cid_data := [] |}).

(** Modelled from the spec: [first_number], the number of the first
    entry of the set. *)
Definition quic_connection_id_first_number (s : quic_connection_id_set) : Z :=
  cid_number (hd {| cid_number := 0; cid_data := [] |} (cid_list s)).

(** Modelled from the spec: [remove (seqno)] drops the entry with that
    number. *)
Definition quic_connection_id_remove (s : quic_connection_id_set) (number : Z)
  : quic_connection_id_set :=
  set_cid_list
    (filter (fun c => negb (cid_number c =? number)) (cid_list s)) s.

(** The two sets of a socket, [quic_source (sk)] and [quic_dest (sk)]. *)
Inductive id_set_ref := ID_SOURCE | ID_DEST.

Definition id_set_get (r : id_set_ref) (sk : sock) : quic_connection_id_set :=
  match r with ID_SOURCE => source sk | ID_DEST => dest sk end.

Definition id_set_put (r : id_set_ref) (s : quic_connection_id_set)
  (sk : sock) : sock :=
  match r with ID_SOURCE => set_source s sk | ID_DEST => set_dest s sk end.

(** Modelled from the spec: [append] allocates the entry, which may fail
    with [-ENOMEM], and links it at the tail of the set;
    [quic_connection_id_append (id_set, number, sk, conn_id, len)]. *)
Definition quic_connection_id_append (r : id_set_ref) (number : Z)
  (conn_id : list Z) (cid_len : Z) (sk : sock) : Z * sock :=
  let (ok, sk1) := alloc_atomic sk in
  if ok then
    (0, id_set_put r
          (set_cid_list
             (cid_list (id_set_get r sk1)
              ++ [{| cid_number := number;
                     cid_data := firstn (Z.to_nat cid_len) conn_id |}])
             (id_set_get r sk1)) sk1)
  else (- ENOMEM, sk1).

(** Modelled from the spec: [OutQ.ctrl_tail (buf, urgent)] queues the frame
    in FIFO order (section 5). *)
Definition quic_outq_ctrl_tail (sk : sock) (skb : frame_buf) (urgent : bool)
  : sock :=
  set_outq (set_ctrl_list (ctrl_list (outq sk) ++ [(skb, urgent)]) (outq sk))
    sk.

(** Modelled from the spec: [OutQ.retransmit_check (largest, smallest,
    ack_pn, delay)] is outside frame.c; the calls are recorded in order. *)
Definition quic_outq_retransmit_check (sk : sock)
  (largest smallest ack_largest ack_delay : Z) : sock :=
  set_outq
    (set_retransmit_checks
       (retransmit_checks (outq sk)
        ++ [(largest, smallest, ack_largest, ack_delay)]) (outq sk)) sk.

(** Modelled from the spec: [quic_set_state] of socket.h moves the
    connection to the given state. *)
Definition quic_set_state (sk : sock) (st : quic_state) : sock :=
  set_common
    (set_sk_err_state (sk_err (common sk)) st
       (state_change_wakeups (common sk)) (common sk)) sk.

(** [sk->sk_state_change (sk)]: one wake-up of the state-change waiters. *)
Definition sk_state_change (sk : sock) : sock :=
  set_common
    (set_sk_err_state (sk_err (common sk)) (sk_state (common sk))
       (S (state_change_wakeups (common sk))) (common sk)) sk.

(** [sk->sk_write_space (sk)]: one wake-up of the writers. *)
Definition sk_write_space (sk : sock) : sock :=
  set_common
    (set_write_space_wakeups (S (write_space_wakeups (common sk)))
       (common sk)) sk.

(** Modelled from the spec: the classifiers are macros of frame.h;
    [ack_eliciting] holds of every type but PADDING, ACK and
    CONNECTION_CLOSE (4.7). *)
Definition quic_frame_ack_eliciting (type : Z) : bool :=
  negb ((type =? QUIC_FRAME_PADDING) || (type =? QUIC_FRAME_ACK)
        || (type =? QUIC_FRAME_ACK_ECN)
        || (type =? QUIC_FRAME_CONNECTION_CLOSE)
        || (type =? QUIC_FRAME_CONNECTION_CLOSE_APP)).

(** Modelled from the spec: [non_probing], every type but
    PATH_CHALLENGE, PATH_RESPONSE, NEW_CONNECTION_ID and PADDING (4.7). *)
Definition quic_frame_non_probing (type : Z) : bool :=
  negb ((type =? QUIC_FRAME_PATH_CHALLENGE)
        || (type =? QUIC_FRAME_PATH_RESPONSE)
        || (type =? QUIC_FRAME_NEW_CONNECTION_ID)
        || (type =? QUIC_FRAME_PADDING)).

(** ** Encoders *)

(** The typed payload behind the [void *data] of an encoder. *)
Record quic_msginfo := {
  mi_stream : Z;          (* info->stream, by the id of the stream *)
  mi_msg : list Z;        (* the bytes left in info->msg *)
  mi_flag_fin : bool;     (* info->flag & QUIC_STREAM_FLAG_FIN *)
  mi_fault : bool         (* the user memory behind info->msg faults *)
}.

Record quic_errinfo := { ei_stream_id : Z; ei_errcode : Z }.

Inductive frame_data :=
| DATA_NONE
| DATA_U32 (v : Z)
| DATA_U64 (v : Z)
| DATA_TOKEN (t : quic_token)
| DATA_MSGINFO (info : quic_msginfo)
| DATA_ERRINFO (info : quic_errinfo)
| DATA_INQ (q : quic_inqueue)
| DATA_OUTQ (q : quic_outqueue)
| DATA_STREAM (s : quic_stream)
| DATA_PATH (local : bool)
| DATA_ENTROPY (e : list Z).

Definition frame_result : Type := option frame_buf * sock.

Definition skb_of (bytes : list Z) : frame_buf :=
  {| fb_data := bytes; fb_frame_type := 0; fb_stream := None;
     fb_stream_offset := 0; fb_data_bytes := 0; fb_err_code := 0 |}.

(** [skb = alloc_skb (frame_len, GFP_ATOMIC); if (!skb) return NULL;
    skb_put_data (skb, frame, frame_len); return skb;] *)
Definition skb_put_frame (frame : list Z) (sk : sock) : frame_result :=
  let (ok, sk1) := alloc_atomic sk in
  if ok then (Some (skb_of frame), sk1) else (None, sk1).

(** [u8 frame[n]; p = quic_put_var (frame, ...); ...]: the frame is
    assembled in an automatic array of [n] bytes before the skb is
    allocated.  A frame of more than [n] bytes is written past the end of
    the array: the fault is recorded and no frame is handed out, the
    allocator not being reached.  Otherwise the encoder goes on with [k].

    The array is written out for the encoders whose frame can exceed it:
    two VarInts in [frame[10]], three in [frame[20]], the reason phrase in
    [frame[100]].  A type byte and one VarInt or eight bytes of entropy
    take at most 9 bytes of [frame[10]], and NEW_CONNECTION_ID at most 50
    of [frame[100]]. *)
Definition frame_array (n : Z) (frame : list Z) (sk : sock)
  (k : frame_result) : frame_result :=
  if len_of frame >? n then (None, kernel_fault sk) else k.

(** The ACK ranges behind the first one, from the highest gap block down;
    the argument is the array of gap blocks read from its last entry to
    its first. *)
Fixpoint ack_ranges (rgabs : list quic_gap_ack_block) : list Z :=
  match rgabs with
  | [] => []
  | g :: below =>
      quic_put_var (u64 (gab_end g - gab_start g))
      ++ match below with
         | [] => quic_put_var (u64 (gab_start g - 2))
         | g' :: _ => quic_put_var (u64 (gab_start g - gab_end g' - 2))
         end
      ++ ack_ranges below
  end.

Definition quic_frame_ack_create (sk : sock) (d : frame_data) (type : Z)
  : frame_result :=
  let map := pnmap sk in
  let gabs := pn_gabs map in
  let num_gabs := len_of gabs in
  let largest := u32 (max_pn_seen map) in
  let pn_ts := u32 (max_pn_ts map) in
  let smallest :=
    if num_gabs =? 0 then u32 (min_pn_seen map)
    else u32 (base_pn map
              + gab_end (last gabs {| gab_start := 0; gab_end := 0 |})) in
  let range := u32 (largest - smallest) in
  let (ok, sk1) := alloc_atomic sk in
  if negb ok then (None, sk1)
  else
    let pn_ts := u32 (now_usecs (env sk) - pn_ts) in
    let pn_ts := pn_ts / 2 ^ ack_delay_exponent (outq sk) in
    (Some (skb_of (quic_put_var type ++ quic_put_var largest
                   ++ quic_put_var pn_ts ++ quic_put_var num_gabs
                   ++ quic_put_var range ++ ack_ranges (rev gabs))), sk1).

Definition quic_frame_ping_create (sk : sock) (d : frame_data) (type : Z)
  : frame_result :=
  skb_put_frame (quic_put_var type) sk.

(** [skb_put_zero (skb, n)] followed by a write of [w] at [skb->data]. *)
Definition overlay (w zeros : list Z) : list Z :=
  firstn (length zeros) (w ++ skipn (length w) zeros).

Definition quic_frame_padding_create (sk : sock) (d : frame_data) (type : Z)
  : frame_result :=
  match d with
  | DATA_U32 frame_len =>
      let (ok, sk1) := alloc_atomic sk in
      if negb ok then (None, sk1)
      else (Some (skb_of (overlay (quic_put_var type)
                            (repeat 0 (Z.to_nat (u32 (frame_len + 1)))))),
            sk1)
  | _ => (None, sk)
  end.

Definition quic_frame_new_token_create (sk : sock) (d : frame_data) (type : Z)
  : frame_result :=
  match d with
  | DATA_TOKEN token =>
      let (ok, sk1) := alloc_atomic sk in
      if negb ok then (None, sk1)
      else (Some (skb_of (quic_put_var type ++ quic_put_var (tk_len token)
                          ++ quic_put_data (tk_data token) (tk_len token))),
            sk1)
  | _ => (None, sk)
  end.

Definition quic_frame_stream_create (sk : sock) (d : frame_data) (type : Z)
  : frame_result :=
  match d with
  | DATA_MSGINFO info =>
      match quic_stream_find (streams sk) (mi_stream info) with
      | None => (None, sk)
      | Some stream =>
          let max_frame_len := u32 (packet_max_payload (common sk)) in
          let hlen := 1 + quic_var_len (stream_id stream) in
          let off := negb (send_offset stream =? 0) in
          let type := if off then Z.lor type QUIC_STREAM_BIT_OFF else type in
          let hlen :=
            if off then hlen + quic_var_len (send_offset stream) else hlen in
          let type := Z.lor type QUIC_STREAM_BIT_LEN in
          let hlen := u32 (hlen + quic_var_len max_frame_len) in
          let msg_len := u32 (len_of (mi_msg info)) in
          let fits := msg_len <=? u32 (max_frame_len - hlen) in
          let type :=
            if fits && mi_flag_fin info
            then Z.lor type QUIC_STREAM_BIT_FIN else type in
          let msg_len := if fits then msg_len else u32 (max_frame_len - hlen) in
          let (ok, sk1) := alloc_atomic sk in
          if negb ok then (None, sk1)
          else
            let with_off := has_bit type QUIC_STREAM_BIT_OFF in
            let hdr :=
              quic_put_var type ++ quic_put_var (stream_id stream)
              ++ (if with_off then quic_put_var (send_offset stream) else [])
              ++ quic_put_var msg_len in
            if mi_fault info
            then (None, sk1)
            else
              (Some {| fb_data := hdr ++ firstn (Z.to_nat msg_len) (mi_msg info);
                       fb_frame_type := type;
                       fb_stream := Some (stream_id stream);
                       fb_stream_offset :=
                         if with_off then send_offset stream else 0;
                       fb_data_bytes := msg_len;
                       fb_err_code := 0 |},
               stream_store
                 (set_send_offset (u64 (send_offset stream + msg_len)))
                 (mi_stream info) sk1)
      end
  | _ => (None, sk)
  end.

Definition quic_frame_handshake_done_create (sk : sock) (d : frame_data)
  (type : Z) : frame_result :=
  skb_put_frame (quic_put_var type) sk.

Definition quic_frame_crypto_create (sk : sock) (d : frame_data) (type : Z)
  : frame_result :=
  match d with
  | DATA_TOKEN ticket =>
      let (ok, sk1) := alloc_atomic sk in
      if negb ok then (None, sk1)
      else (Some (skb_of (quic_put_var type ++ quic_put_var 0
                          ++ quic_put_var (tk_len ticket)
                          ++ quic_put_data (tk_data ticket) (tk_len ticket))),
            sk1)
  | _ => (None, sk)
  end.

Definition quic_frame_retire_connection_id_create (sk : sock)
  (d : frame_data) (type : Z) : frame_result :=
  match d with
  | DATA_U64 number =>
      let frame := quic_put_var type ++ quic_put_var number in
      let (ok, sk1) := alloc_atomic sk in
      if negb ok then (None, sk1)
      else (Some (skb_of frame),
            set_dest (quic_connection_id_remove (dest sk1) number) sk1)
  | _ => (None, sk)
  end.

(** [conn_id] is filled by [get_random_bytes]; [token] is an automatic
    array that nothing writes before it is copied into the frame, so its
    16 bytes are those the environment left on the stack. *)
Definition quic_frame_new_connection_id_create (sk : sock) (d : frame_data)
  (type : Z) : frame_result :=
  match d with
  | DATA_U64 prior =>
      let token := firstn 16 (stack (env sk)) in
      let seqno := u64 (quic_connection_id_last_number (source sk) + 1) in
      let (conn_id, sk1) := get_random_bytes 16 sk in
      let frame :=
        quic_put_var type ++ quic_put_var seqno ++ quic_put_var prior
        ++ quic_put_var 16 ++ quic_put_data conn_id 16
        ++ quic_put_data token 16 in
      let (ok, sk2) := alloc_atomic sk1 in
      if negb ok then (None, sk2)
      else
        let (err, sk3) :=
          quic_connection_id_append ID_SOURCE seqno conn_id 16 sk2 in
        if negb (err =? 0) then (None, sk3)
        else (Some (skb_of frame), sk3)
  | _ => (None, sk)
  end.

Definition quic_frame_path_response_create (sk : sock) (d : frame_data)
  (type : Z) : frame_result :=
  match d with
  | DATA_ENTROPY e =>
      skb_put_frame (quic_put_var type ++ quic_put_data e 8) sk
  | _ => (None, sk)
  end.

Definition path_get (local : bool) (sk : sock) : quic_path_addr :=
  if local then src (paths sk) else dst (paths sk).

Definition path_put (local : bool) (p : quic_path_addr) (sk : sock) : sock :=
  set_paths (if local then set_src p (paths sk) else set_dst p (paths sk)) sk.

Definition quic_frame_path_challenge_create (sk : sock) (d : frame_data)
  (type : Z) : frame_result :=
  match d with
  | DATA_PATH local =>
      let (e, sk1) := get_random_bytes 8 sk in
      let sk2 := path_put local (set_entropy e (path_get local sk1)) sk1 in
      skb_put_frame (quic_put_var type ++ quic_put_data e 8) sk2
  | _ => (None, sk)
  end.

Definition quic_frame_reset_stream_create (sk : sock) (d : frame_data)
  (type : Z) : frame_result :=
  match d with
  | DATA_ERRINFO info =>
      match quic_stream_find (streams sk) (ei_stream_id info) with
      | None => (None, sk)
      | Some stream =>
          let frame :=
            quic_put_var type ++ quic_put_var (ei_stream_id info)
            ++ quic_put_var (ei_errcode info)
            ++ quic_put_var (send_offset stream) in
          frame_array 20 frame sk
            (let (ok, sk1) := alloc_atomic sk in
             if negb ok then (None, sk1)
             else
               (Some {| fb_data := frame; fb_frame_type := 0;
                        fb_stream := Some (stream_id stream);
                        fb_stream_offset := 0; fb_data_bytes := 0;
                        fb_err_code := ei_errcode info |},
                if send_stream_active (streams sk1) =? stream_id stream
                then set_streams (set_send_stream_active (-1) (streams sk1))
                       sk1
                else sk1))
      end
  | _ => (None, sk)
  end.

Definition quic_frame_stop_sending_create (sk : sock) (d : frame_data)
  (type : Z) : frame_result :=
  match d with
  | DATA_ERRINFO info =>
      let frame :=
        quic_put_var type ++ quic_put_var (ei_stream_id info)
        ++ quic_put_var (ei_errcode info) in
      frame_array 10 frame sk (skb_put_frame frame sk)
  | _ => (None, sk)
  end.

Definition quic_frame_max_data_create (sk : sock) (d : frame_data) (type : Z)
  : frame_result :=
  match d with
  | DATA_INQ q =>
      skb_put_frame (quic_put_var type ++ quic_put_var (inq_max_bytes q)) sk
  | _ => (None, sk)
  end.

Definition quic_frame_max_stream_data_create (sk : sock) (d : frame_data)
  (type : Z) : frame_result :=
  match d with
  | DATA_STREAM stream =>
      let frame :=
        quic_put_var type ++ quic_put_var (stream_id stream)
        ++ quic_put_var (recv_max_bytes stream) in
      frame_array 10 frame sk (skb_put_frame frame sk)
  | _ => (None, sk)
  end.

Definition quic_frame_max_streams_uni_create (sk : sock) (d : frame_data)
  (type : Z) : frame_result :=
  match d with
  | DATA_U64 max => skb_put_frame (quic_put_var type ++ quic_put_var max) sk
  | _ => (None, sk)
  end.

Definition quic_frame_max_streams_bidi_create (sk : sock) (d : frame_data)
  (type : Z) : frame_result :=
  match d with
  | DATA_U64 max => skb_put_frame (quic_put_var type ++ quic_put_var max) sk
  | _ => (None, sk)
  end.

(** [close_phrase] holds the characters of the C string; the bytes
    copied are the string with its terminating NUL. *)
Definition quic_frame_connection_close_create (sk : sock) (d : frame_data)
  (type : Z) : frame_result :=
  let q := outq sk in
  let phrase_len :=
    match close_phrase q with
    | Some s => u32 (strlen s + 1)
    | None => 0
    end in
  let phrase :=
    match close_phrase q with
    | Some s => s ++ [0]
    | None => []
    end in
  let frame :=
    quic_put_var type ++ quic_put_var (close_errcode q)
    ++ (if type =? QUIC_FRAME_CONNECTION_CLOSE
        then quic_put_var (close_frame q) else [])
    ++ quic_put_var phrase_len ++ quic_put_data phrase phrase_len in
  frame_array 100 frame sk (skb_put_frame frame sk).

Definition quic_frame_data_blocked_create (sk : sock) (d : frame_data)
  (type : Z) : frame_result :=
  match d with
  | DATA_OUTQ q =>
      skb_put_frame (quic_put_var type ++ quic_put_var (outq_max_bytes q)) sk
  | _ => (None, sk)
  end.

Definition quic_frame_stream_data_blocked_create (sk : sock) (d : frame_data)
  (type : Z) : frame_result :=
  match d with
  | DATA_STREAM stream =>
      let frame :=
        quic_put_var type ++ quic_put_var (stream_id stream)
        ++ quic_put_var (send_max_bytes stream) in
      frame_array 10 frame sk (skb_put_frame frame sk)
  | _ => (None, sk)
  end.

Definition quic_frame_streams_blocked_uni_create (sk : sock) (d : frame_data)
  (type : Z) : frame_result :=
  match d with
  | DATA_U32 max =>
      skb_put_frame
        (quic_put_var type ++ quic_put_var (u32 (Z.shiftr max 2 + 1))) sk
  | _ => (None, sk)
  end.

Definition quic_frame_streams_blocked_bidi_create (sk : sock) (d : frame_data)
  (type : Z) : frame_result :=
  match d with
  | DATA_U32 max =>
      skb_put_frame
        (quic_put_var type ++ quic_put_var (u32 (Z.shiftr max 2 + 1))) sk
  | _ => (None, sk)
  end.

(** *** The dispatch table, encoder column *)

Definition frame_create_fn : Type := sock -> frame_data -> Z -> frame_result.

(** The [frame_create] members of [quic_frame_ops], by type byte. *)
Definition quic_frame_ops_create : list frame_create_fn :=
  [ quic_frame_padding_create;            (* 0x00 *)
    quic_frame_ping_create;
    quic_frame_ack_create;
    quic_frame_ack_create;                (* ack_ecn *)
    quic_frame_reset_stream_create;
    quic_frame_stop_sending_create;
    quic_frame_crypto_create;
    quic_frame_new_token_create;
    quic_frame_stream_create;
    quic_frame_stream_create;
    quic_frame_stream_create;
    quic_frame_stream_create;
    quic_frame_stream_create;
    quic_frame_stream_create;
    quic_frame_stream_create;
    quic_frame_stream_create;
    quic_frame_max_data_create;           (* 0x10 *)
    quic_frame_max_stream_data_create;
    quic_frame_max_streams_bidi_create;
    quic_frame_max_streams_uni_create;
    quic_frame_data_blocked_create;
    quic_frame_stream_data_blocked_create;
    quic_frame_streams_blocked_bidi_create;
    quic_frame_streams_blocked_uni_create;
    quic_frame_new_connection_id_create;
    quic_frame_retire_connection_id_create;
    quic_frame_path_challenge_create;
    quic_frame_path_response_create;
    quic_frame_connection_close_create;
    quic_frame_connection_close_create;
    quic_frame_handshake_done_create ].

Definition set_fb_frame_type (t : Z) (b : frame_buf) : frame_buf :=
  {| fb_data := fb_data b; fb_frame_type := t; fb_stream := fb_stream b;
     fb_stream_offset := fb_stream_offset b;
     fb_data_bytes := fb_data_bytes b; fb_err_code := fb_err_code b |}.

(** [type] is a [u8]: every caller passes a value in [0, 256). *)
Definition quic_frame_create (sk : sock) (type : Z) (d : frame_data)
  : frame_result :=
  if type >? QUIC_FRAME_BASE_MAX then (None, sk)
  else
    let (r, sk1) :=
      nth (Z.to_nat type) quic_frame_ops_create
        (fun s _ _ => (None, s)) sk d type in
    match r with
    | None => (None, sk1)
    | Some skb =>
        (Some (if fb_frame_type skb =? 0 then set_fb_frame_type type skb
               else skb), sk1)
    end.

(** ** Decoders *)

Notation "' pat <- e ;; k" :=
  (match e with Some pat => k | None => None end)
  (at level 61, pat pattern, e at next level, right associativity).

(** [skb_pull (skb, n)]: drops [n] bytes from the front; refused (buffer
    unchanged) when [n] exceeds [skb->len]. *)
Definition skb_pull (skb : sk_buff) (n : Z) : sk_buff :=
  if n >? len skb then skb
  else {| data := skipn (Z.to_nat n) (data skb); len := len skb - n |}.

(** *** The validated reads at the head of each decoder

    Every decoder starts with a chain of [quic_get_var] calls and bounds
    checks, each of which leaves with [-EINVAL]; the chain is given here as
    a function to the values read, the cursor [p] and the remaining
    [len]. *)

Definition get_var1 (skb : sk_buff) : option (Z * list Z * Z) :=
  quic_get_var (data skb) (len skb).

Definition get_var2 (skb : sk_buff) : option (Z * Z * list Z * Z) :=
  '(a, p, len) <- quic_get_var (data skb) (len skb) ;;
  '(b, p, len) <- quic_get_var p len ;;
  Some (a, b, p, len).

Definition get_var3 (skb : sk_buff) : option (Z * Z * Z * list Z * Z) :=
  '(a, p, len) <- quic_get_var (data skb) (len skb) ;;
  '(b, p, len) <- quic_get_var p len ;;
  '(c, p, len) <- quic_get_var p len ;;
  Some (a, b, c, p, len).

(** CRYPTO: offset (which must be 0), length, and the message-type byte
    [*p], read whether or not a byte of the payload is left. *)
Definition quic_frame_crypto_parse (skb : sk_buff)
  : option (Z * list Z * Z) :=
  '(offset, p, len) <- quic_get_var (data skb) (len skb) ;;
  if negb (offset =? 0) then None
  else
    '(length, p, len) <- quic_get_var p len ;;
    if length >? len then None
    else if negb (hd 0 p =? 4) then None
    else Some (length, p, len).

(** STREAM: stream id, offset, payload length. *)
Definition quic_frame_stream_parse (skb : sk_buff) (type : Z)
  : option (Z * Z * Z * list Z * Z) :=
  '(stream_id, p, len) <- quic_get_var (data skb) (len skb) ;;
  '(offset, p, len) <-
     (if has_bit type QUIC_STREAM_BIT_OFF then quic_get_var p len
      else Some (0, p, len)) ;;
  '(payload_len, p, len) <-
     (if has_bit type QUIC_STREAM_BIT_LEN
      then '(payload_len, p, len) <- quic_get_var p len ;;
           if payload_len >? len then None else Some (payload_len, p, len)
      else Some (len, p, len)) ;;
  Some (stream_id, offset, payload_len, p, len).

(** ACK: largest, delay, count (at most 16) and first range. *)
Definition quic_frame_ack_parse (skb : sk_buff)
  : option (Z * Z * Z * Z * list Z * Z) :=
  '(largest, p, len) <- quic_get_var (data skb) (len skb) ;;
  '(delay, p, len) <- quic_get_var p len ;;
  '(count, p, len) <- quic_get_var p len ;;
  if count >? 16 then None
  else
    '(range, p, len) <- quic_get_var p len ;;
    Some (largest, delay, count, range, p, len).

(** NEW_CONNECTION_ID: seqno, prior, length with [length + 16 <= len]. *)
Definition quic_frame_new_connection_id_parse (skb : sk_buff)
  : option (Z * Z * Z * list Z * Z) :=
  '(seqno, p, len) <- quic_get_var (data skb) (len skb) ;;
  '(prior, p, len) <- quic_get_var p len ;;
  '(length, p, len) <- quic_get_var p len ;;
  if length + 16 >? len then None
  else Some (seqno, prior, length, p, len).

(** NEW_TOKEN: length, at most what is left. *)
Definition quic_frame_new_token_parse (skb : sk_buff)
  : option (Z * list Z * Z) :=
  '(length, p, len) <- quic_get_var (data skb) (len skb) ;;
  if length >? len then None else Some (length, p, len).

(** PATH_CHALLENGE and PATH_RESPONSE: eight bytes of entropy. *)
Definition quic_frame_path_parse (skb : sk_buff) : option (list Z * Z) :=
  if len skb <? 8 then None
  else Some (firstn 8 (data skb), len skb - 8).

(** CONNECTION_CLOSE: error code, frame type (0x1c only) and phrase
    length, as read. *)
Definition quic_frame_connection_close_header (skb : sk_buff) (type : Z)
  : option (Z * Z * Z * list Z * Z) :=
  '(err_code, p, len) <- quic_get_var (data skb) (len skb) ;;
  '(ftype, p, len) <-
     (if type =? QUIC_FRAME_CONNECTION_CLOSE then quic_get_var p len
      else Some (0, p, len)) ;;
  '(phrase_len, p, len) <- quic_get_var p len ;;
  Some (err_code, ftype, phrase_len, p, len).

(** CONNECTION_CLOSE: the header and the checks on the phrase,
    [phrase_len > len], and for a phrase that is not empty
    [phrase_len > 80 || *(p + phrase_len - 1) != 0]. *)
Definition quic_frame_connection_close_parse (skb : sk_buff) (type : Z)
  : option (Z * Z * Z * list Z * Z) :=
  '(err_code, ftype, phrase_len, p, len) <-
     quic_frame_connection_close_header skb type ;;
  if phrase_len >? len then None
  else if negb (phrase_len =? 0)
          && ((phrase_len >? 80)
              || negb (nth (Z.to_nat (phrase_len - 1)) p 0 =? 0))
  then None
  else Some (err_code, ftype, phrase_len, p, len).

Definition frame_process_result : Type := Z * sock.

Section Decoders.

Variable ops : collaborators.

Definition quic_frame_crypto_process (sk : sock) (skb : sk_buff) (type : Z)
  : frame_process_result :=
  match quic_frame_crypto_parse skb with
  | None => (- EINVAL, sk)
  | Some (length, p, len') =>
      let (ok, sk1) := alloc_atomic sk in        (* kmemdup *)
      if negb ok then (- ENOMEM, sk1)
      else
        let sk2 :=
          set_ticket {| tk_data := firstn (Z.to_nat length) p;
                        tk_len := length |} sk1 in
        let len' := len' - length in
        (len skb - len', sk2)
  end.

Definition quic_frame_stream_process (sk : sock) (skb : sk_buff) (type : Z)
  : frame_process_result :=
  match quic_frame_stream_parse skb type with
  | None => (- EINVAL, sk)
  | Some (stream_id, offset, payload_len, p, len') =>
      let (stream, st) :=
        quic_stream_recv_get ops (streams sk) stream_id
          (is_serv (common sk)) in
      let sk1 := set_streams st sk in
      match stream with
      | STREAM_NULL => (- EINVAL, sk1)
      | _ =>
          let (ok, sk2) := alloc_atomic sk1 in   (* skb_clone *)
          if negb ok then (- ENOMEM, sk2)
          else
            let nskb :=
              {| rf_payload := firstn (Z.to_nat payload_len) p;
                 rf_stream := stream;
                 rf_stream_fin := has_bit type QUIC_STREAM_BIT_FIN;
                 rf_stream_offset := offset |} in
            let (err, sk3) := quic_inq_reasm_tail ops sk2 nskb in
            if negb (err =? 0) then (err, sk3)
            else
              let len' := len' - payload_len in
              (len skb - len', sk3)
      end
  end.

(** The loop over the [count] further ranges of an ACK; [false] when a
    gap or range is truncated, with the checks made until then kept. *)
Fixpoint quic_frame_ack_ranges (count : nat) (sk : sock) (p : list Z)
  (len' smallest : Z) : bool * sock * list Z * Z :=
  match count with
  | O => (true, sk, p, len')
  | S rest =>
      match quic_get_var p len' with
      | None => (false, sk, p, len')
      | Some (gap, p1, len1) =>
          match quic_get_var p1 len1 with
          | None => (false, sk, p1, len1)
          | Some (range, p2, len2) =>
              let largest := u64 (smallest - gap - 2) in
              let smallest := u64 (largest - range) in
              quic_frame_ack_ranges rest
                (quic_outq_retransmit_check sk largest smallest 0 0)
                p2 len2 smallest
          end
      end
  end.

Definition quic_frame_ack_process (sk : sock) (skb : sk_buff) (type : Z)
  : frame_process_result :=
  match quic_frame_ack_parse skb with
  | None => (- EINVAL, sk)
  | Some (largest, delay, count, range, p, len') =>
      let smallest := u64 (largest - range) in
      let sk1 := quic_outq_retransmit_check sk largest smallest largest delay in
      match quic_frame_ack_ranges (Z.to_nat count) sk1 p len' smallest with
      | (false, sk2, _, _) => (- EINVAL, sk2)
      | (true, sk2, p, len') =>
          if type =? QUIC_FRAME_ACK_ECN then
            match ('(_, p, l) <- quic_get_var p len' ;;
                   '(_, p, l) <- quic_get_var p l ;;
                   '(_, p, l) <- quic_get_var p l ;; Some l) with
            | None => (- EINVAL, sk2)
            | Some len' => (len skb - len', sk2)
            end
          else (len skb - len', sk2)
      end
  end.

(** [for (; first < prior; first++)]: one RETIRE_CONNECTION_ID frame per
    number, queued on the control list; the count is [prior - first]. *)
Fixpoint quic_frame_retire_prior (n : nat) (sk : sock) (first : Z)
  : bool * sock :=
  match n with
  | O => (true, sk)
  | S rest =>
      match quic_frame_create sk QUIC_FRAME_RETIRE_CONNECTION_ID
              (DATA_U64 first) with
      | (None, sk1) => (false, sk1)
      | (Some nskb, sk1) =>
          quic_frame_retire_prior rest (quic_outq_ctrl_tail sk1 nskb true)
            (u64 (first + 1))
      end
  end.

Definition quic_frame_new_connection_id_process (sk : sock) (skb : sk_buff)
  (type : Z) : frame_process_result :=
  match quic_frame_new_connection_id_parse skb with
  | None => (- EINVAL, sk)
  | Some (seqno, prior, length, p, len') =>
      let conn_id := p in
      if negb (seqno =? quic_connection_id_last_number (dest sk) + 1)
         || (prior >? seqno)
      then (- EINVAL, sk)
      else
        let (err, sk1) :=
          quic_connection_id_append ID_DEST seqno conn_id length sk in
        if negb (err =? 0) then (err, sk1)
        else
          let first := quic_connection_id_first_number (dest sk1) in
          let len' := len' - (length + 16) in
          if prior <=? first then (len skb - len', sk1)
          else
            match quic_frame_retire_prior (Z.to_nat (prior - first)) sk1
                    first with
            | (false, sk2) => (- ENOMEM, sk2)
            | (true, sk2) => (len skb - len', sk2)
            end
  end.

Definition quic_frame_retire_connection_id_process (sk : sock)
  (skb : sk_buff) (type : Z) : frame_process_result :=
  match get_var1 skb with
  | None => (- EINVAL, sk)
  | Some (seqno, p, len') =>
      let last := u32 (quic_connection_id_last_number (source sk)) in
      let first := u32 (quic_connection_id_first_number (source sk)) in
      if negb (seqno =? first) || (seqno =? last) then (- EINVAL, sk)
      else
        let sk1 :=
          set_source (quic_connection_id_remove (source sk) seqno) sk in
        if u64 (last - seqno) >=? max_count (source sk1)
        then (len skb - len', sk1)
        else
          let seqno := u64 (seqno + 1) in
          match quic_frame_create sk1 QUIC_FRAME_NEW_CONNECTION_ID
                  (DATA_U64 seqno) with
          | (None, sk2) => (- ENOMEM, sk2)
          | (Some nskb, sk2) =>
              (len skb - len', quic_outq_ctrl_tail sk2 nskb true)
          end
  end.

Definition quic_frame_new_token_process (sk : sock) (skb : sk_buff)
  (type : Z) : frame_process_result :=
  match quic_frame_new_token_parse skb with
  | None => (- EINVAL, sk)
  | Some (length, p, len') =>
      let (ok, sk1) := alloc_atomic sk in        (* kmemdup *)
      if negb ok then (- ENOMEM, sk1)
      else
        let sk2 :=
          set_token {| tk_data := firstn (Z.to_nat length) p;
                       tk_len := length |} sk1 in
        let len' := len' - length in
        (len skb - len', sk2)
  end.

Definition quic_frame_handshake_done_process (sk : sock) (skb : sk_buff)
  (type : Z) : frame_process_result :=
  (0, sk).

Definition quic_frame_padding_process (sk : sock) (skb : sk_buff) (type : Z)
  : frame_process_result :=
  (len skb, sk).

Definition quic_frame_ping_process (sk : sock) (skb : sk_buff) (type : Z)
  : frame_process_result :=
  (0, sk).

Definition quic_frame_path_challenge_process (sk : sock) (skb : sk_buff)
  (type : Z) : frame_process_result :=
  match quic_frame_path_parse skb with
  | None => (- EINVAL, sk)
  | Some (entropy, len') =>
      match quic_frame_create sk QUIC_FRAME_PATH_RESPONSE
              (DATA_ENTROPY entropy) with
      | (None, sk1) => (- ENOMEM, sk1)
      | (Some fskb, sk1) =>
          (len skb - len', quic_outq_ctrl_tail sk1 fskb true)
      end
  end.

(** The getter's answer is tested with [IS_ERR] only: a null pointer is
    not an error pointer and reaches the store [stream->recv.state]. *)
Definition quic_frame_reset_stream_process (sk : sock) (skb : sk_buff)
  (type : Z) : frame_process_result :=
  match get_var3 skb with
  | None => (- EINVAL, sk)
  | Some (stream_id, errcode, finalsz, p, len') =>
      let (stream, st) :=
        quic_stream_recv_get ops (streams sk) stream_id
          (is_serv (common sk)) in
      let sk1 := set_streams st sk in
      if IS_ERR stream then (PTR_ERR stream, sk1)
      else
        (len skb - len',
         stream_store_at (set_recv_state QUIC_STREAM_RECV_STATE_RESET_RECVD)
           stream sk1)
  end.

(** As for RESET_STREAM, a null [stream] passes [IS_ERR]; it reaches the
    store [stream->send.state] once the RESET_STREAM frame is created. *)
Definition quic_frame_stop_sending_process (sk : sock) (skb : sk_buff)
  (type : Z) : frame_process_result :=
  match get_var2 skb with
  | None => (- EINVAL, sk)
  | Some (stream_id, errcode, p, len') =>
      let (stream, st) :=
        quic_stream_send_get ops (streams sk) stream_id 0
          (is_serv (common sk)) in
      let sk1 := set_streams st sk in
      if IS_ERR stream then (PTR_ERR stream, sk1)
      else
        let info := {| ei_stream_id := stream_id; ei_errcode := errcode |} in
        match quic_frame_create sk1 QUIC_FRAME_RESET_STREAM
                (DATA_ERRINFO info) with
        | (None, sk2) => (- ENOMEM, sk2)
        | (Some nskb, sk2) =>
            let sk3 :=
              stream_store_at
                (set_send_state QUIC_STREAM_SEND_STATE_RESET_SENT)
                stream sk2 in
            (len skb - len', quic_outq_ctrl_tail sk3 nskb true)
        end
  end.

Definition quic_frame_max_data_process (sk : sock) (skb : sk_buff) (type : Z)
  : frame_process_result :=
  match get_var1 skb with
  | None => (- EINVAL, sk)
  | Some (max_bytes, p, len') =>
      (len skb - len',
       if max_bytes >=? outq_max_bytes (outq sk)
       then set_outq (set_outq_max_bytes max_bytes 0 (outq sk)) sk
       else sk)
  end.

Definition quic_frame_max_stream_data_process (sk : sock) (skb : sk_buff)
  (type : Z) : frame_process_result :=
  match get_var2 skb with
  | None => (- EINVAL, sk)
  | Some (stream_id, max_bytes, p, len') =>
      match quic_stream_find (streams sk) stream_id with
      | None => (- EINVAL, sk)
      | Some stream =>
          (len skb - len',
           if max_bytes >=? send_max_bytes stream
           then stream_store (set_send_max_bytes max_bytes 0) stream_id sk
           else sk)
      end
  end.

(** The next creatable stream id, [((max - 1) << 2) | ...], is computed by
    the source and not used. *)
Definition quic_frame_max_streams_uni_process (sk : sock) (skb : sk_buff)
  (type : Z) : frame_process_result :=
  match get_var1 skb with
  | None => (- EINVAL, sk)
  | Some (max, p, len') =>
      (len skb - len',
       if max <? send_max_streams_uni (streams sk) then sk
       else sk_write_space
              (set_streams (set_send_streams_uni max (streams sk)) sk))
  end.

Definition quic_frame_max_streams_bidi_process (sk : sock) (skb : sk_buff)
  (type : Z) : frame_process_result :=
  match get_var1 skb with
  | None => (- EINVAL, sk)
  | Some (max, p, len') =>
      (len skb - len',
       if max <? send_max_streams_bidi (streams sk) then sk
       else sk_write_space
              (set_streams (set_send_streams_bidi max (streams sk)) sk))
  end.

(** The phrase is copied into a local buffer that is dropped on return. *)
Definition quic_frame_connection_close_process (sk : sock) (skb : sk_buff)
  (type : Z) : frame_process_result :=
  match quic_frame_connection_close_parse skb type with
  | None => (- EINVAL, sk)
  | Some (err_code, ftype, phrase_len, p, len') =>
      let sk1 := set_common (set_sk_err (- EPIPE) (common sk)) sk in
      let sk2 := quic_set_state sk1 QUIC_STATE_USER_CLOSED in
      let sk3 := sk_state_change sk2 in
      let len' := len' - phrase_len in
      (len skb - len', sk3)
  end.

Definition quic_frame_data_blocked_process (sk : sock) (skb : sk_buff)
  (type : Z) : frame_process_result :=
  match get_var1 skb with
  | None => (- EINVAL, sk)
  | Some (max_bytes, p, len') =>
      let recv_max_bytes := inq_max_bytes (inq sk) in
      let sk1 :=
        set_inq
          (set_inq_max_bytes
             (u64 (inq_bytes (inq sk) + inq_window (inq sk))) (inq sk)) sk in
      match quic_frame_create sk1 QUIC_FRAME_MAX_DATA (DATA_INQ (inq sk1)) with
      | (None, sk2) =>
          (- ENOMEM, set_inq (set_inq_max_bytes recv_max_bytes (inq sk2)) sk2)
      | (Some fskb, sk2) =>
          (len skb - len', quic_outq_ctrl_tail sk2 fskb true)
      end
  end.

Definition quic_frame_stream_data_blocked_process (sk : sock)
  (skb : sk_buff) (type : Z) : frame_process_result :=
  match get_var2 skb with
  | None => (- EINVAL, sk)
  | Some (stream_id, max_bytes, p, len') =>
      match quic_stream_find (streams sk) stream_id with
      | None => (- EINVAL, sk)
      | Some stream =>
          let recv_max_bytes := recv_max_bytes stream in
          let new_max := u64 (recv_bytes stream + recv_window stream) in
          let sk1 := stream_store (set_recv_max_bytes new_max) stream_id sk in
          if negb (recv_max_bytes =? new_max) then
            match quic_frame_create sk1 QUIC_FRAME_MAX_STREAM_DATA
                    (DATA_STREAM (set_recv_max_bytes new_max stream)) with
            | (None, sk2) =>
                (- ENOMEM,
                 stream_store (set_recv_max_bytes recv_max_bytes) stream_id
                   sk2)
            | (Some fskb, sk2) =>
                (len skb - len', quic_outq_ctrl_tail sk2 fskb true)
            end
          else (len skb - len', sk1)
      end
  end.

Definition quic_frame_streams_blocked_uni_process (sk : sock)
  (skb : sk_buff) (type : Z) : frame_process_result :=
  match get_var1 skb with
  | None => (- EINVAL, sk)
  | Some (max, p, len') =>
      if max <? recv_max_streams_uni (streams sk) then (len skb - len', sk)
      else
        match quic_frame_create sk QUIC_FRAME_MAX_STREAMS_UNI
                (DATA_U64 max) with
        | (None, sk1) => (- ENOMEM, sk1)
        | (Some fskb, sk1) =>
            let sk2 := quic_outq_ctrl_tail sk1 fskb true in
            (len skb - len',
             set_streams (set_recv_max_streams_uni max (streams sk2)) sk2)
        end
  end.

Definition quic_frame_streams_blocked_bidi_process (sk : sock)
  (skb : sk_buff) (type : Z) : frame_process_result :=
  match get_var1 skb with
  | None => (- EINVAL, sk)
  | Some (max, p, len') =>
      if max <? recv_max_streams_bidi (streams sk) then (len skb - len', sk)
      else
        match quic_frame_create sk QUIC_FRAME_MAX_STREAMS_BIDI
                (DATA_U64 max) with
        | (None, sk1) => (- ENOMEM, sk1)
        | (Some fskb, sk1) =>
            let sk2 := quic_outq_ctrl_tail sk1 fskb true in
            (len skb - len',
             set_streams (set_recv_max_streams_bidi max (streams sk2)) sk2)
        end
  end.

(** [memcmp (path->entropy, entropy, 8) == 0]. *)
Definition entropy_eq (a b : list Z) : bool :=
  if list_eq_dec Z.eq_dec (firstn 8 a) (firstn 8 b) then true else false.

Definition quic_frame_path_response_process (sk : sock) (skb : sk_buff)
  (type : Z) : frame_process_result :=
  match quic_frame_path_parse skb with
  | None => (- EINVAL, sk)
  | Some (e, len') =>
      let n := addr_len (common sk) in
      let path := src (paths sk) in      (* source address validation *)
      let sk1 :=
        if entropy_eq (entropy path) e && pending path then
          let path := path_settle n path in
          set_paths
            (quic_set_sk_addr (slot_get (active path) (addr path)) true
               (udp_sock_release (negb (active path))
                  (set_src path (paths sk)))) sk
        else sk in
      let path := dst (paths sk1) in     (* dest address validation *)
      let sk2 :=
        if entropy_eq (entropy path) e && pending path then
          let path := path_settle n path in
          set_paths
            (quic_set_sk_addr (slot_get (active path) (addr path)) false
               (set_dst path (paths sk1))) sk1
        else sk1 in
      (len skb - len', sk2)
  end.

(** *** The dispatch table, decoder column *)

Definition frame_process_fn : Type := sock -> sk_buff -> Z -> frame_process_result.

(** The [frame_process] members of [quic_frame_ops], by type byte. *)
Definition quic_frame_ops_process : list frame_process_fn :=
  [ quic_frame_padding_process;            (* 0x00 *)
    quic_frame_ping_process;
    quic_frame_ack_process;
    quic_frame_ack_process;                (* ack_ecn *)
    quic_frame_reset_stream_process;
    quic_frame_stop_sending_process;
    quic_frame_crypto_process;
    quic_frame_new_token_process;
    quic_frame_stream_process;
    quic_frame_stream_process;
    quic_frame_stream_process;
    quic_frame_stream_process;
    quic_frame_stream_process;
    quic_frame_stream_process;
    quic_frame_stream_process;
    quic_frame_stream_process;
    quic_frame_max_data_process;           (* 0x10 *)
    quic_frame_max_stream_data_process;
    quic_frame_max_streams_bidi_process;
    quic_frame_max_streams_uni_process;
    quic_frame_data_blocked_process;
    quic_frame_stream_data_blocked_process;
    quic_frame_streams_blocked_bidi_process;
    quic_frame_streams_blocked_uni_process;
    quic_frame_new_connection_id_process;
    quic_frame_retire_connection_id_process;
    quic_frame_path_challenge_process;
    quic_frame_path_response_process;
    quic_frame_connection_close_process;
    quic_frame_connection_close_process;
    quic_frame_handshake_done_process ].

(** ** The frame processing loop *)

Record quic_packet_info := {
  pki_ack_eliciting : bool;
  pki_ack_immediate : bool;
  pki_non_probing : bool
}.

Definition pki_update (type : Z) (pki : quic_packet_info)
  : quic_packet_info :=
  let elicit := quic_frame_ack_eliciting type in
  {| pki_ack_eliciting := if elicit then true else pki_ack_eliciting pki;
     pki_ack_immediate :=
       if elicit && quic_frame_ack_immediate ops type then true
       else pki_ack_immediate pki;
     pki_non_probing :=
       if quic_frame_non_probing type then true else pki_non_probing pki |}.

(** The body of [while (1)], at most [fuel] times; [None] when the fuel
    runs out before the loop leaves.  A fault raised in a decoder is
    carried by the socket it returns, and stays on it to the end. *)
Fixpoint quic_frame_process_loop (fuel : nat) (sk : sock) (skb : sk_buff)
  (pki : quic_packet_info) : option (Z * sock * quic_packet_info) :=
  match fuel with
  | O => None
  | S rest =>
      let type := hd 0 (data skb) in
      let skb := skb_pull skb 1 in
      if type >? QUIC_FRAME_BASE_MAX then Some (- EPROTONOSUPPORT, sk, pki)
      else
        let (ret, sk1) :=
          nth (Z.to_nat type) quic_frame_ops_process
            (fun s _ _ => (- EPROTONOSUPPORT, s)) sk skb type in
        if ret <? 0 then Some (ret, sk1, pki)
        else
          let pki := pki_update type pki in
          let skb := skb_pull skb ret in
          if len skb <=? 0 then Some (0, sk1, pki)
          else quic_frame_process_loop rest sk1 skb pki
  end.

(** Every turn of the loop drops the type byte, so [skb->len] turns are
    enough. *)
Definition quic_frame_process (sk : sock) (skb : sk_buff)
  (pki : quic_packet_info) : option (Z * sock * quic_packet_info) :=
  if len skb =? 0 then Some (- EINVAL, sk, pki)
  else quic_frame_process_loop (Z.to_nat (len skb)) sk skb pki.

End Decoders.

(** ** Sample states

    A client socket with one open stream and one connection ID on each
    side, and collaborators that find the streams of the table and accept
    every fragment; the concrete instances below are evaluated on them. *)

Definition sample_stream (id off recv_max : Z) : quic_stream :=
  {| stream_id := id; send_offset := off; send_max_bytes := 1000;
     send_data_blocked := 0; send_state := QUIC_STREAM_SEND_STATE_READY;
     recv_max_bytes := recv_max; recv_bytes := 10; recv_window := 50;
     recv_state := QUIC_STREAM_RECV_STATE_RECV |}.

Definition sample_path : quic_path_addr :=
  {| entropy := repeat 0 8; pending := false; active := false;
     addr := {| slot0 := []; slot1 := [] |} |}.

Definition sample_env (served : list bool) (garbage : list Z) : environment :=
  {| rng := fun i => 160 + Z.of_nat i; rng_pos := 0; allocs := served;
     now_usecs := 0; stack := garbage; faulted := false |}.

Definition sample_sock (served : list bool) (garbage : list Z) : sock :=
  {| pnmap := {| base_pn := 0; max_pn_seen := 7; min_pn_seen := 7;
                 max_pn_ts := 0; pn_gabs := [] |};
     outq := {| ack_delay_exponent := 3; close_errcode := 10;
                close_frame := 0; close_phrase := None;
                outq_max_bytes := 100; outq_data_blocked := 0;
                ctrl_list := []; retransmit_checks := [] |};
     inq := {| inq_max_bytes := 100; inq_bytes := 20; inq_window := 200 |};
     streams := {| st_streams := [sample_stream 4 0 100; sample_stream 8 60 60];
                   send_stream_active := 4;
                   send_max_streams_uni := 1; send_streams_uni := 1;
                   send_max_streams_bidi := 1; send_streams_bidi := 1;
                   recv_max_streams_uni := 1; recv_max_streams_bidi := 1 |};
     source := {| cid_list := [{| cid_number := 0; cid_data := [1; 2] |}];
                  max_count := 8 |};
     dest := {| cid_list := [{| cid_number := 0; cid_data := [3; 4] |}];
                max_count := 8 |};
     token := {| tk_data := [9; 9]; tk_len := 2 |};
     ticket := {| tk_data := [4; 1]; tk_len := 2 |};
     paths := {| src := sample_path; dst := sample_path;
                 udp_sk := {| slot0 := None; slot1 := None |};
                 udp_sock_puts := []; sk_saddr := []; sk_daddr := [] |};
     common := {| sk_err := 0; sk_state := QUIC_STATE_OTHER 1;
                  state_change_wakeups := 0; write_space_wakeups := 0;
                  is_serv := false; packet_max_payload := 1200;
                  addr_len := 4 |};
     env := sample_env served garbage |}.

Definition sample_ops : collaborators :=
  {| quic_stream_recv_get := fun t id _ =>
       (match quic_stream_find t id with
        | Some _ => STREAM_AT id
        | None => STREAM_NULL
        end, t);
     quic_stream_send_get := fun t id _ _ =>
       (match quic_stream_find t id with
        | Some _ => STREAM_AT id
        | None => STREAM_ERR (- EINVAL)
        end, t);
     quic_inq_reasm_tail := fun sk _ => (0, sk);
     quic_frame_ack_immediate := fun _ => false |}.

Definition pki_zero : quic_packet_info :=
  {| pki_ack_eliciting := false; pki_ack_immediate := false;
     pki_non_probing := false |}.

(** ** Vocabulary of the statements *)

(** The [count] (gap, range) pairs that follow the first range of an ACK
    frame, when all of them can be read. *)
Fixpoint ack_read_ranges (count : nat) (p : list Z) (len' : Z)
  : option (list (Z * Z) * list Z * Z) :=
  match count with
  | O => Some ([], p, len')
  | S rest =>
      '(gap, p, len') <- quic_get_var p len' ;;
      '(range, p, len') <- quic_get_var p len' ;;
      '(pairs, p, len') <- ack_read_ranges rest p len' ;;
      Some ((gap, range) :: pairs, p, len')
  end.

(** The checks the pairs ask for, as the ACK contract words them:
    [largest = smallest - gap - 2; smallest = largest - range;
    retransmit_check (largest, smallest, 0, 0)], in 64-bit arithmetic. *)
Fixpoint ack_range_checks (smallest : Z) (pairs : list (Z * Z))
  : list (Z * Z * Z * Z) :=
  match pairs with
  | [] => []
  | (gap, range) :: rest =>
      let largest := u64 (smallest - gap - 2) in
      let smallest := u64 (largest - range) in
      (largest, smallest, 0, 0) :: ack_range_checks smallest rest
  end.

(** The socket after the given calls of [OutQ.retransmit_check], in order. *)
Definition retransmit_checked (sk : sock) (calls : list (Z * Z * Z * Z))
  : sock :=
  fold_left
    (fun s c =>
       match c with
       | (largest, smallest, ack_largest, ack_delay) =>
           quic_outq_retransmit_check s largest smallest ack_largest ack_delay
       end) calls sk.

(** The room left for stream data in a packet, the number of bytes the
    STREAM encoder takes from the message, and the type byte it emits, as
    [quic_frame_stream_create] computes them. *)
Definition stream_frame_room (sk : sock) (stream : quic_stream) : Z :=
  let max_frame_len := u32 (packet_max_payload (common sk)) in
  let hlen := 1 + quic_var_len (stream_id stream) in
  let hlen :=
    if negb (send_offset stream =? 0)
    then hlen + quic_var_len (send_offset stream) else hlen in
  u32 (max_frame_len - u32 (hlen + quic_var_len max_frame_len)).

Definition stream_frame_msg_len (sk : sock) (stream : quic_stream)
  (info : quic_msginfo) : Z :=
  if u32 (len_of (mi_msg info)) <=? stream_frame_room sk stream
  then u32 (len_of (mi_msg info)) else stream_frame_room sk stream.

Definition stream_frame_type (sk : sock) (stream : quic_stream)
  (info : quic_msginfo) (type : Z) : Z :=
  let off := negb (send_offset stream =? 0) in
  let t1 := if off then Z.lor type QUIC_STREAM_BIT_OFF else type in
  let t2 := Z.lor t1 QUIC_STREAM_BIT_LEN in
  if (u32 (len_of (mi_msg info)) <=? stream_frame_room sk stream)
     && mi_flag_fin info
  then Z.lor t2 QUIC_STREAM_BIT_FIN else t2.

(** The RETIRE_CONNECTION_ID frame for a number, as [quic_frame_create]
    hands it out, and the numbers [first], [first + 1], ... below [prior]. *)
Definition retire_connection_id_frame (number : Z) : frame_buf :=
  set_fb_frame_type QUIC_FRAME_RETIRE_CONNECTION_ID
    (skb_of (quic_put_var QUIC_FRAME_RETIRE_CONNECTION_ID
             ++ quic_put_var number)).

Definition retired_numbers (first prior : Z) : list Z :=
  map (fun i => first + Z.of_nat i) (seq 0 (Z.to_nat (prior - first))).

(** One turn of the retirement loop when the frame is allocated. *)
Definition retire_one (sk : sock) (number : Z) : sock :=
  quic_outq_ctrl_tail
    (set_dest (quic_connection_id_remove (dest sk) number) sk)
    (retire_connection_id_frame number) true.

(** The buffer a decoder is handed for an encoded frame: the dispatcher
    has stripped the type byte, [rest] is what follows the frame in the
    packet and [slack] what lies in memory behind the packet. *)
Definition decoder_input (fb : frame_buf) (rest slack : list Z) : sk_buff :=
  mk_skb (tl (fb_data fb) ++ rest) slack.

(** The decoder of the dispatch table for a type byte. *)
Definition frame_process_of (ops : collaborators) (type : Z)
  : frame_process_fn :=
  nth (Z.to_nat type) (quic_frame_ops_process ops)
    (fun s _ _ => (- EPROTONOSUPPORT, s)).

(** The number of bytes of an encoded frame behind its type byte: what
    the decoder is handed and has to report. *)
Definition body_len (fb : frame_buf) : Z := len_of (tl (fb_data fb)).

(** The decoder of the dispatch table for the type byte [fb] starts with,
    run on the socket [rsk] of a receiver over the bytes of [fb] behind
    that byte: its byte count and the socket it leaves. *)
Definition decoded (ops : collaborators) (fb : frame_buf)
  (rest slack : list Z) (rsk : sock) : frame_process_result :=
  frame_process_of ops (hd 0 (fb_data fb)) rsk (decoder_input fb rest slack)
    (hd 0 (fb_data fb)).

(** The fields of an encoded frame [fb] are read back: the validated
    reads its decoder starts with give [expect], with the cursor on what
    follows the frame. *)
Definition reads_back (A : Type) (fb : frame_buf)
  (parse : sk_buff -> option A) (expect : list Z -> Z -> A) : Prop :=
  forall rest slack,
    parse (decoder_input fb rest slack)
    = Some (expect (rest ++ slack) (len_of rest)).

(** The errors handed back by the collaborators are negative errnos, as
    the kernel has them. *)
Definition errors_negative (ops : collaborators) : Prop :=
  (forall t id s e t',
      quic_stream_recv_get ops t id s = (STREAM_ERR e, t') -> e < 0)
  /\ (forall t id o s e t',
      quic_stream_send_get ops t id o s = (STREAM_ERR e, t') -> e < 0)
  /\ (forall sk f, fst (quic_inq_reasm_tail ops sk f) <= 0).

(** The reason phrase as CONNECTION_CLOSE carries it: the characters of
    [close_phrase] and the terminating NUL, nothing for a null pointer. *)
Definition close_phrase_bytes (q : quic_outqueue) : list Z :=
  match close_phrase q with
  | Some s => s ++ [0]
  | None => []
  end.

(** A phrase the decoder accepts: no NUL among its characters and at most
    80 bytes with the terminator. *)
Definition close_phrase_ok (q : quic_outqueue) : Prop :=
  match close_phrase q with
  | Some s => Forall (fun c => c <> 0) s /\ len_of s + 1 <= 80
  | None => True
  end.

(** ** Vocabulary of the further properties *)

(** The flags of a packet are only ever raised: every flag set in [a] is
    set in [b]. *)
Definition pki_raised (a b : quic_packet_info) : Prop :=
  (pki_ack_eliciting a = true -> pki_ack_eliciting b = true)
  /\ (pki_ack_immediate a = true -> pki_ack_immediate b = true)
  /\ (pki_non_probing a = true -> pki_non_probing b = true).

(** The PATH_RESPONSE frame that answers a challenge whose payload starts
    with the bytes [e], as [quic_frame_create] hands it out. *)
Definition path_response_frame (e : list Z) : frame_buf :=
  set_fb_frame_type QUIC_FRAME_PATH_RESPONSE
    (skb_of (QUIC_FRAME_PATH_RESPONSE :: firstn 8 e)).

(** A path waits for the answer [e] to its challenge. *)
Definition path_awaits (p : quic_path_addr) (e : list Z) : Prop :=
  pending p = true /\ firstn 8 (entropy p) = firstn 8 e.

(** The sample socket with its source path waiting for the answer to a
    challenge. *)
Definition sample_sock_pending : sock :=
  set_paths
    (set_src {| entropy := repeat 0 8; pending := true; active := false;
                addr := {| slot0 := [10; 0; 0; 1]; slot1 := [10; 0; 0; 2] |} |}
       (paths (sample_sock [] []))) (sample_sock [] []).

(** What no encoder touches: the packet-number map, the two queues, the
    stored token and ticket, and the state of the socket proper. *)
Definition encoder_keeps (sk sk' : sock) : Prop :=
  pnmap sk' = pnmap sk /\ outq sk' = outq sk /\ inq sk' = inq sk
  /\ token sk' = token sk /\ ticket sk' = ticket sk
  /\ common sk' = common sk.

(** The connection state proper: everything but the environment (random
    stream, allocator, clock). *)
Definition same_state (sk sk' : sock) : Prop :=
  pnmap sk' = pnmap sk /\ outq sk' = outq sk /\ inq sk' = inq sk
  /\ streams sk' = streams sk /\ source sk' = source sk
  /\ dest sk' = dest sk /\ token sk' = token sk /\ ticket sk' = ticket sk
  /\ paths sk' = paths sk /\ common sk' = common sk.

(** The gap blocks of a packet-number map, read from the highest down,
    are in order: every block has [start <= end], lies two or more above
    the end of the block below it, and the lowest starts at 2 or above, so
    that none of the differences the ACK encoder writes is negative. *)
Fixpoint gabs_descending (rgabs : list quic_gap_ack_block) : Prop :=
  match rgabs with
  | [] => True
  | g :: below =>
      gab_start g <= gab_end g
      /\ match below with
         | [] => 2 <= gab_start g
         | g' :: _ => gab_end g' + 2 <= gab_start g
         end
      /\ gabs_descending below
  end.

(** The ranges of packet numbers acknowledged below the first one, from
    the highest down, as the calls [retransmit_check (largest, smallest, 0,
    0)] that release them: the range under a gap block ends two below the
    start of the block and begins at the end of the block below, the
    lowest at [base_pn]. *)
Fixpoint acked_below (base : Z) (rgabs : list quic_gap_ack_block)
  : list (Z * Z * Z * Z) :=
  match rgabs with
  | [] => []
  | g :: below =>
      (base + gab_start g - 2,
       match below with
       | [] => base
       | g' :: _ => base + gab_end g'
       end, 0, 0) :: acked_below base below
  end.

(** The smallest packet number of the first range of an ACK and the
    acknowledgement delay, as [quic_frame_ack_create] computes them. *)
Definition ack_first_smallest (map : quic_pnmap) : Z :=
  match rev (pn_gabs map) with
  | [] => min_pn_seen map
  | g :: _ => base_pn map + gab_end g
  end.

Definition ack_delay (sk : sock) : Z :=
  u32 (now_usecs (env sk) - u32 (max_pn_ts (pnmap sk)))
  / 2 ^ ack_delay_exponent (outq sk).

(** The sample socket with two gap blocks in its packet-number map:
    packets 10, 14, 15 and 18 to 20 have been seen. *)
Definition sample_sock_gaps : sock :=
  {| pnmap := {| base_pn := 10; max_pn_seen := 20; min_pn_seen := 10;
                 max_pn_ts := 0;
                 pn_gabs := [ {| gab_start := 2; gab_end := 4 |};
                              {| gab_start := 7; gab_end := 8 |} ] |};
     outq := outq (sample_sock [] []); inq := inq (sample_sock [] []);
     streams := streams (sample_sock [] []);
     source := source (sample_sock [] []); dest := dest (sample_sock [] []);
     token := token (sample_sock [] []); ticket := ticket (sample_sock [] []);
     paths := paths (sample_sock [] []); common := common (sample_sock [] []);
     env := env (sample_sock [] []) |}.

(** The RESET_STREAM frame for a stream, an error code and a final size,
    as [quic_frame_create] hands it out. *)
Definition reset_stream_frame (id errcode finalsz : Z) : frame_buf :=
  {| fb_data := quic_put_var QUIC_FRAME_RESET_STREAM ++ quic_put_var id
                ++ quic_put_var errcode ++ quic_put_var finalsz;
     fb_frame_type := QUIC_FRAME_RESET_STREAM; fb_stream := Some id;
     fb_stream_offset := 0; fb_data_bytes := 0; fb_err_code := errcode |}.

(** The NEW_CONNECTION_ID frame the sample socket announces first: number
    1, nothing to retire, the sixteen bytes the sample random stream gives
    and a token of zeros. *)
Definition sample_new_connection_id_frame : frame_buf :=
  set_fb_frame_type QUIC_FRAME_NEW_CONNECTION_ID
    (skb_of ([0x18; 1; 0; 16]
             ++ [160; 161; 162; 163; 164; 165; 166; 167;
                 168; 169; 170; 171; 172; 173; 174; 175]
             ++ repeat 0 16)).

(** An output queue only grows: the send limit is not below what it was,
    the control list and the list of retransmit checks are what they were
    with entries added at the tail. *)
Definition outq_grows (q q' : quic_outqueue) : Prop :=
  outq_max_bytes q <= outq_max_bytes q'
  /\ (exists more, ctrl_list q' = ctrl_list q ++ more)
  /\ (exists more, retransmit_checks q' = retransmit_checks q ++ more).

(** Reassembly, whose code lies outside frame.c, is taken to do no more
    to the output queue than that. *)
Definition reasm_grows (ops : collaborators) : Prop :=
  forall sk f,
    outq_grows (outq sk) (outq (snd (quic_inq_reasm_tail ops sk f))).

(** The two directions of the stream-count limits: the frame types and the
    fields of the stream table, for bidirectional ([uni] false) and
    unidirectional streams. *)
Definition streams_blocked_type (uni : bool) : Z :=
  if uni then QUIC_FRAME_STREAMS_BLOCKED_UNI
  else QUIC_FRAME_STREAMS_BLOCKED_BIDI.

Definition max_streams_type (uni : bool) : Z :=
  if uni then QUIC_FRAME_MAX_STREAMS_UNI else QUIC_FRAME_MAX_STREAMS_BIDI.

Definition send_max_streams (uni : bool) (t : quic_stream_table) : Z :=
  if uni then send_max_streams_uni t else send_max_streams_bidi t.

Definition recv_max_streams (uni : bool) (t : quic_stream_table) : Z :=
  if uni then recv_max_streams_uni t else recv_max_streams_bidi t.

(** The sample socket with two connection IDs, 0 and 1, in its source
    set, and sixteen bytes left on the stack where the NEW_CONNECTION_ID
    encoder has its token. *)
Definition sample_sock_two_ids : sock :=
  let sk := sample_sock [] [16; 15; 14; 13; 12; 11; 10; 9;
                            8; 7; 6; 5; 4; 3; 2; 1] in
  set_source
    (set_cid_list [ {| cid_number := 0; cid_data := [1; 2] |};
                    {| cid_number := 1; cid_data := [5; 6] |} ]
       (source sk)) sk.

(** The sample socket closing with a reason phrase of 80 characters. *)
Definition sample_sock_long_phrase : sock :=
  set_outq
    {| ack_delay_exponent := 3; close_errcode := 10; close_frame := 0;
       close_phrase := Some (repeat 65 80); outq_max_bytes := 100;
       outq_data_blocked := 0; ctrl_list := []; retransmit_checks := [] |}
    (sample_sock [] []).



(** A fault stays: if the mark is raised on [sk] it is raised on [sk']. *)
Definition fault_kept (sk sk' : sock) : Prop :=
  faulted (env sk) = true -> faulted (env sk') = true.

(** Reassembly, whose code lies outside frame.c, is taken not to lower the
    mark. *)
Definition reasm_keeps_fault (ops : collaborators) : Prop :=
  forall sk f, fault_kept sk (snd (quic_inq_reasm_tail ops sk f)).
(** * Properties *)

(** ** The variable-length integer codec *)

Definition varint (v : Z) : Prop := 0 <= v < 2 ^ 62.

Lemma be_bytes_length n v : length (be_bytes n v) = n.
Proof. induction n; simpl; congruence. Qed.

Lemma be_bytes_ok n v : bytes_ok (be_bytes n v).
Proof.
  induction n; simpl; constructor; auto.
  unfold is_byte. apply Z.mod_pos_bound. lia.
Qed.

Lemma fold_be_bytes n v acc :
  0 <= v ->
  fold_left (fun a b => a * 256 + b) (be_bytes n v) acc
  = acc * 256 ^ Z.of_nat n + v mod 256 ^ Z.of_nat n.
Proof.
  intros Hv. revert acc. induction n as [|k IH]; intros acc.
  - simpl. rewrite Z.mod_1_r. lia.
  - cbn [be_bytes fold_left]. rewrite IH.
    rewrite Z.shiftr_div_pow2 by lia.
    replace (2 ^ (8 * Z.of_nat k)) with (256 ^ Z.of_nat k)
      by (change 256 with (2 ^ 8); rewrite <- Z.pow_mul_r by lia; reflexivity).
    replace (Z.of_nat (S k)) with (Z.of_nat k + 1) by lia.
    rewrite Z.pow_add_r by lia. rewrite Z.pow_1_r.
    assert (Hp : 0 < 256 ^ Z.of_nat k) by (apply Z.pow_pos_nonneg; lia).
    rewrite (Z.rem_mul_r v (256 ^ Z.of_nat k) 256) by lia.
    ring.
Qed.

Lemma be_value_be_bytes n v :
  0 <= v -> be_value (be_bytes n v) = v mod 256 ^ Z.of_nat n.
Proof. intros. unfold be_value. rewrite fold_be_bytes by assumption. lia. Qed.

Lemma lor_class_bits a c :
  0 <= a < 64 -> 0 <= c < 4 -> Z.lor a (c * 64) = a + c * 64.
Proof.
  intros Ha Hc.
  assert (Hl : Z.land a (c * 64) = 0).
  { apply Z.bits_inj'. intros i Hi. rewrite Z.land_spec, Z.bits_0.
    destruct (Z.ltb_spec i 6).
    - change 64 with (2 ^ 6). rewrite Z.mul_pow2_bits_low by lia.
      apply andb_false_r.
    - replace a with (a mod 2 ^ 6) by (apply Z.mod_small; simpl; lia).
      rewrite Z.mod_pow2_bits_high by lia. reflexivity. }
  rewrite <- Z.lxor_lor by assumption.
  symmetry. apply Z.add_nocarry_lxor. assumption.
Qed.

Lemma class_bits_shiftr a c :
  0 <= a < 64 -> Z.shiftr (a + c * 64) 6 = c.
Proof.
  intros. rewrite Z.shiftr_div_pow2 by lia. change (2 ^ 6) with 64.
  rewrite Z.div_add by lia. rewrite Z.div_small by lia. lia.
Qed.

Lemma class_bits_mask a c :
  0 <= a < 64 -> Z.land (a + c * 64) 63 = a.
Proof.
  intros. change 63 with (Z.ones 6). rewrite Z.land_ones by lia.
  change (2 ^ 6) with 64. rewrite Z.mod_add by lia. apply Z.mod_small. lia.
Qed.

Lemma len_of_app (A : Type) (a b : list A) :
  len_of (a ++ b) = len_of a + len_of b.
Proof. unfold len_of. rewrite length_app. lia. Qed.

Lemma len_of_nonneg (A : Type) (a : list A) : 0 <= len_of a.
Proof. unfold len_of. lia. Qed.

Lemma firstn_exact (A : Type) (l r : list A) n :
  length l = n -> firstn n (l ++ r) = l.
Proof.
  intros <-. rewrite firstn_app, Nat.sub_diag, firstn_all. simpl.
  apply app_nil_r.
Qed.

Lemma skipn_exact (A : Type) (l r : list A) n :
  length l = n -> skipn n (l ++ r) = r.
Proof.
  intros <-. rewrite skipn_app, Nat.sub_diag, skipn_all. reflexivity.
Qed.

Lemma quic_put_var_length v : len_of (quic_put_var v) = quic_var_len v.
Proof.
  unfold quic_put_var, quic_var_len.
  repeat (destruct (_ <? _)); reflexivity.
Qed.

Lemma quic_var_len_pos v : 1 <= quic_var_len v <= 8.
Proof. unfold quic_var_len. repeat (destruct (_ <? _)); lia. Qed.

(** A value of class [c] (2, 4 or 8 bytes) is read back. *)
Lemma quic_get_var_class k c v r l :
  (k = 1%nat /\ c = 1) \/ (k = 3%nat /\ c = 2) \/ (k = 7%nat /\ c = 3) ->
  0 <= v < 2 ^ (8 * Z.of_nat (S k) - 2) ->
  Z.of_nat (S k) <= l ->
  quic_get_var (or_first (c * 64) (be_bytes (S k) v) ++ r) l
  = Some (v, r, l - Z.of_nat (S k)).
Proof.
  intros Hk Hv Hl.
  assert (Hc : 0 <= c < 4 /\ Z.shiftl 1 c = Z.of_nat (S k))
    by (destruct Hk as [[-> ->]|[[-> ->]|[-> ->]]]; split; (lia || reflexivity)).
  destruct Hc as [Hc Hn].
  set (a := Z.shiftr v (8 * Z.of_nat k) mod 256).
  assert (Ha : 0 <= a < 64).
  { unfold a. rewrite Z.shiftr_div_pow2 by lia.
    assert (0 <= v / 2 ^ (8 * Z.of_nat k) < 64).
    { split. apply Z.div_pos; [lia | apply Z.pow_pos_nonneg; lia].
      apply Z.div_lt_upper_bound. apply Z.pow_pos_nonneg; lia.
      replace (2 ^ (8 * Z.of_nat k) * 64) with (2 ^ (8 * Z.of_nat (S k) - 2)).
      lia. change 64 with (2 ^ 6). rewrite <- Z.pow_add_r by lia.
      f_equal. lia. }
    rewrite Z.mod_small; lia. }
  unfold quic_get_var. cbn [be_bytes or_first app hd]. fold a.
  rewrite lor_class_bits by assumption.
  rewrite class_bits_shiftr by assumption. rewrite Hn.
  destruct (Z.ltb_spec l (Z.of_nat (S k))); [lia|].
  rewrite Nat2Z.id. cbn [firstn skipn].
  rewrite firstn_exact by apply be_bytes_length.
  rewrite skipn_exact by apply be_bytes_length.
  cbn [mask_first]. rewrite class_bits_mask by assumption.
  change (a :: be_bytes k v) with (be_bytes (S k) v).
  rewrite be_value_be_bytes by lia.
  rewrite Z.mod_small. reflexivity.
  split; [lia|]. eapply Z.lt_le_trans; [apply Hv|].
  change 256 with (2 ^ 8). rewrite <- Z.pow_mul_r by lia.
  apply Z.pow_le_mono_r; lia.
Qed.

(** Reading what [quic_put_var] wrote gives the value back and leaves the
    cursor behind it. *)
Lemma quic_get_put_var v r m :
  varint v -> 0 <= m ->
  quic_get_var (quic_put_var v ++ r) (len_of (quic_put_var v) + m)
  = Some (v, r, m).
Proof.
  unfold varint. intros Hv Hm. rewrite quic_put_var_length.
  unfold quic_put_var, quic_var_len.
  destruct (Z.ltb_spec v 64).
  - unfold quic_get_var, u8. cbn [app hd].
    rewrite (Z.mod_small v) by lia.
    rewrite Z.shiftr_div_pow2 by lia. rewrite Z.div_small by (simpl; lia).
    change (Z.shiftl 1 0) with 1.
    destruct (Z.ltb_spec (1 + m) 1); [lia|].
    change (Z.to_nat 1) with 1%nat. cbn [firstn skipn mask_first].
    change 63 with (Z.ones 6). rewrite Z.land_ones by lia.
    rewrite Z.mod_small by (simpl; lia).
    unfold be_value. cbn [fold_left]. repeat f_equal; lia.
  - destruct (Z.ltb_spec v 16384).
    + change 64 with (1 * 64).
      rewrite (@quic_get_var_class 1 1);
        [ repeat f_equal; lia | auto
        | change (2 ^ (8 * Z.of_nat 2 - 2)) with 16384; lia | lia ].
    + destruct (Z.ltb_spec v 1073741824).
      * change 128 with (2 * 64).
        rewrite (@quic_get_var_class 3 2);
          [ repeat f_equal; lia | auto
          | change (2 ^ (8 * Z.of_nat 4 - 2)) with 1073741824; lia | lia ].
      * change 192 with (3 * 64).
        rewrite (@quic_get_var_class 7 3);
          [ repeat f_equal; lia | auto 10
          | change (8 * Z.of_nat 8 - 2) with 62; lia | lia ].
Qed.

(** ** Frame creation: unsupported types *)

(** C9: for every type byte strictly greater than 0x1E, [quic_frame_create]
    returns null and leaves the socket, the allocator and the random
    stream included, exactly as it was: no encoder runs. *)
Theorem quic_frame_create_unsupported (sk : sock) (type : Z) (d : frame_data) :
  type > 0x1e -> quic_frame_create sk type d = (None, sk).
Proof.
  intros H. unfold quic_frame_create.
  destruct (Z.gtb_spec type QUIC_FRAME_BASE_MAX) as [_|Hle]; [reflexivity|].
  unfold QUIC_FRAME_BASE_MAX, QUIC_FRAME_HANDSHAKE_DONE in Hle. lia.
Qed.

Lemma quic_frame_create_unsupported_witness :
  0x1f > 0x1e /\
  quic_frame_create (sample_sock [] []) 0x1f (DATA_U64 0)
  = (None, sample_sock [] []).
Proof.
  split; [lia|]. apply quic_frame_create_unsupported. lia.
Defined.

(** ** ACK frames *)

Lemma ack_ranges_checks count : forall sk p l smallest pairs p' l',
  ack_read_ranges count p l = Some (pairs, p', l') ->
  quic_frame_ack_ranges count sk p l smallest
  = (true, retransmit_checked sk (ack_range_checks smallest pairs), p', l').
Proof.
  induction count as [|n IH]; intros sk p l smallest pairs p' l' H.
  - simpl in H. injection H as <- <- <-. reflexivity.
  - cbn [ack_read_ranges] in H. cbn [quic_frame_ack_ranges].
    destruct (quic_get_var p l) as [[[gap p1] l1]|]; [|discriminate].
    destruct (quic_get_var p1 l1) as [[[range p2] l2]|]; [|discriminate].
    destruct (ack_read_ranges n p2 l2) as [[[ps p3] l3]|] eqn:E;
      [|discriminate].
    injection H as <- <- <-.
    rewrite (IH _ _ _ _ _ _ _ E). reflexivity.
Qed.

Lemma ack_count_rejected sk skb type largest delay count p l :
  get_var3 skb = Some (largest, delay, count, p, l) -> count > 16 ->
  quic_frame_ack_process sk skb type = (- EINVAL, sk).
Proof.
  unfold get_var3, quic_frame_ack_process, quic_frame_ack_parse. intros H Hc.
  destruct (quic_get_var (data skb) (len skb)) as [[[a p1] l1]|];
    [|discriminate].
  destruct (quic_get_var p1 l1) as [[[b p2] l2]|]; [|discriminate].
  destruct (quic_get_var p2 l2) as [[[c p3] l3]|]; [|discriminate].
  injection H as -> -> -> -> ->.
  destruct (Z.gtb_spec count 16); [reflexivity | lia].
Qed.

(** A count of at most 16 passes the header: the first range is read
    next. *)
Lemma ack_count_accepted skb largest delay count p l range p1 l1 :
  get_var3 skb = Some (largest, delay, count, p, l) -> count <= 16 ->
  quic_get_var p l = Some (range, p1, l1) ->
  quic_frame_ack_parse skb = Some (largest, delay, count, range, p1, l1).
Proof.
  unfold get_var3, quic_frame_ack_parse. intros H Hc Hr.
  destruct (quic_get_var (data skb) (len skb)) as [[[a q1] m1]|];
    [|discriminate].
  destruct (quic_get_var q1 m1) as [[[b q2] m2]|]; [|discriminate].
  destruct (quic_get_var q2 m2) as [[[c q3] m3]|]; [|discriminate].
  injection H as -> -> -> -> ->.
  destruct (Z.gtb_spec count 16); [lia|]. rewrite Hr. reflexivity.
Qed.

Lemma ack_checks_made sk skb type largest delay count range p l pairs p' l' :
  quic_frame_ack_parse skb = Some (largest, delay, count, range, p, l) ->
  ack_read_ranges (Z.to_nat count) p l = Some (pairs, p', l') ->
  snd (quic_frame_ack_process sk skb type)
  = retransmit_checked sk
      ((largest, u64 (largest - range), largest, delay)
       :: ack_range_checks (u64 (largest - range)) pairs)
  /\ (type = QUIC_FRAME_ACK ->
      fst (quic_frame_ack_process sk skb type) = len skb - l').
Proof.
  intros Hp Hr. unfold quic_frame_ack_process. rewrite Hp.
  rewrite (ack_ranges_checks _ _ _ _ _ Hr).
  cbn [retransmit_checked fold_left]. split.
  - destruct (type =? QUIC_FRAME_ACK_ECN); [|reflexivity].
    repeat (destruct (quic_get_var _ _) as [[[? ?] ?]|]; try reflexivity).
  - intros ->. reflexivity.
Qed.

(** C3: an ACK whose range count exceeds 16 is answered with [-EINVAL]
    and no check is made.  A count of 16 or less is accepted: with the
    first range read behind it and the [count] further (gap, range) pairs
    all there, the decoder has made exactly the calls
    [retransmit_check (largest, largest - first_range, largest, delay)]
    and then, pair by pair in order, [largest = smallest - gap - 2;
    smallest = largest - range; retransmit_check (largest, smallest, 0, 0)]
    (64-bit arithmetic), and a frame of type 0x02 reports all the bytes read.
    For a map that has seen packet 7 only and a delay of 0 the encoder
    writes 02 07 00 00 00, and decoding that payload makes the single call
    [retransmit_check (7, 7, 7, 0)]. *)
Theorem ack_process_contract :
  (forall sk skb type largest delay count p l,
      get_var3 skb = Some (largest, delay, count, p, l) -> count > 16 ->
      quic_frame_ack_process sk skb type = (- EINVAL, sk))
  /\ (forall sk skb type largest delay count p l range p1 l1 pairs p' l',
      get_var3 skb = Some (largest, delay, count, p, l) -> count <= 16 ->
      quic_get_var p l = Some (range, p1, l1) ->
      ack_read_ranges (Z.to_nat count) p1 l1 = Some (pairs, p', l') ->
      snd (quic_frame_ack_process sk skb type)
      = retransmit_checked sk
          ((largest, u64 (largest - range), largest, delay)
           :: ack_range_checks (u64 (largest - range)) pairs)
      /\ (type = QUIC_FRAME_ACK ->
          quic_frame_ack_process sk skb type
          = (len skb - l',
             retransmit_checked sk
               ((largest, u64 (largest - range), largest, delay)
                :: ack_range_checks (u64 (largest - range)) pairs))))
  /\ (forall sk,
      pn_gabs (pnmap sk) = [] ->
      max_pn_seen (pnmap sk) = 7 -> min_pn_seen (pnmap sk) = 7 ->
      now_usecs (env sk) = max_pn_ts (pnmap sk) ->
      0 <= max_pn_ts (pnmap sk) < 2 ^ 32 ->
      fst (alloc_atomic sk) = true ->
      option_map fb_data (fst (quic_frame_create sk QUIC_FRAME_ACK DATA_NONE))
      = Some [0x02; 0x07; 0x00; 0x00; 0x00])
  /\ (forall sk slack,
      quic_frame_ack_process sk (mk_skb [0x07; 0x00; 0x00; 0x00] slack)
        QUIC_FRAME_ACK
      = (4, quic_outq_retransmit_check sk 7 7 7 0)).
Proof.
  split; [exact ack_count_rejected|].
  split.
  { intros sk skb type largest delay count p l range p1 l1 pairs p' l'
      Hh Hc Hr Hp.
    pose proof (ack_count_accepted _ Hh Hc Hr) as Ha.
    destruct (@ack_checks_made sk skb type _ _ _ _ _ _ _ _ _ Ha Hp)
      as [Hs Hf].
    split; [exact Hs|]. intros Ht. specialize (Hf Ht).
    destruct (quic_frame_ack_process sk skb type) as [r s].
    cbn [fst snd] in Hs, Hf. subst. reflexivity. }
  split.
  - intros sk Hg Hmax Hmin Hnow Hts Hal.
    unfold quic_frame_create.
    change (QUIC_FRAME_ACK >? QUIC_FRAME_BASE_MAX) with false. cbv iota.
    change (nth (Z.to_nat QUIC_FRAME_ACK) quic_frame_ops_create
              (fun s _ _ => (None, s))) with quic_frame_ack_create.
    unfold quic_frame_ack_create. rewrite Hg, Hmax, Hmin, Hnow.
    destruct (alloc_atomic sk) as [ok sk1]. simpl in Hal. subst ok.
    cbn [negb len_of length Z.of_nat Z.eqb].
    replace (u32 (max_pn_ts (pnmap sk) - u32 (max_pn_ts (pnmap sk)))) with 0.
    2:{ unfold u32. rewrite (Z.mod_small (max_pn_ts _)) by assumption.
        rewrite Z.sub_diag. reflexivity. }
    rewrite Zdiv_0_l. reflexivity.
  - intros sk slack. reflexivity.
Qed.

(** A count of 17 is refused and a count of 16 accepted, each of the 16
    pairs being checked; two ranges behind the first one; and the frame
    for packet 7. *)
Lemma ack_process_contract_witness :
  quic_frame_ack_process (sample_sock [] [])
    (mk_skb (60 :: 0 :: 17 :: 0 :: repeat 0 34) []) QUIC_FRAME_ACK
  = (- EINVAL, sample_sock [] [])
  /\ quic_frame_ack_process (sample_sock [] [])
       (mk_skb (60 :: 0 :: 16 :: 0 :: repeat 0 32) []) QUIC_FRAME_ACK
     = (36, retransmit_checked (sample_sock [] [])
              ((60, 60, 60, 0)
               :: map (fun i => (60 - 2 * Z.of_nat i, 60 - 2 * Z.of_nat i,
                                 0, 0)) (seq 1 16)))
  /\ quic_frame_ack_process (sample_sock [] [])
       (mk_skb [20; 0; 2; 2; 3; 4; 1; 0] []) QUIC_FRAME_ACK
     = (8, retransmit_checked (sample_sock [] [])
             [(20, 18, 20, 0); (13, 9, 0, 0); (6, 6, 0, 0)])
  /\ option_map fb_data
       (fst (quic_frame_create (sample_sock [] []) QUIC_FRAME_ACK DATA_NONE))
     = Some [0x02; 0x07; 0x00; 0x00; 0x00].
Proof.
  destruct ack_process_contract as (Hrej & Hok & Henc & _).
  split; [|split; [|split]].
  - apply (Hrej _ _ _ 60 0 17 (0 :: repeat 0 34) 35); [reflexivity | lia].
  - exact (proj2 (Hok (sample_sock [] [])
                    (mk_skb (60 :: 0 :: 16 :: 0 :: repeat 0 32) [])
                    QUIC_FRAME_ACK 60 0 16 (0 :: repeat 0 32) 33
                    0 (repeat 0 32) 32 (repeat (0, 0) 16) [] 0
                    eq_refl ltac:(lia) eq_refl eq_refl) eq_refl).
  - exact (proj2 (Hok (sample_sock [] [])
                    (mk_skb [20; 0; 2; 2; 3; 4; 1; 0] [])
                    QUIC_FRAME_ACK 20 0 2 [2; 3; 4; 1; 0] 5
                    2 [3; 4; 1; 0] 4 [(3, 4); (1, 0)] [] 0
                    eq_refl ltac:(lia) eq_refl eq_refl) eq_refl).
  - apply Henc; try reflexivity. simpl. lia.
Defined.

(** ** CONNECTION_CLOSE *)

Lemma connection_close_sk_err_negated :
  let r := quic_frame_connection_close_process (sample_sock [] [])
             (mk_skb [0x0a; 0x00] []) QUIC_FRAME_CONNECTION_CLOSE_APP in
  fst r = 2
  /\ sk_state (common (snd r)) = QUIC_STATE_USER_CLOSED
  /\ sk_err (common (snd r)) <> EPIPE.
Proof. cbv. repeat split. discriminate. Qed.

(** C5 (amended): a CONNECTION_CLOSE frame whose reason phrase is not empty
    and is longer than 80 bytes, or does not end in NUL, is answered with
    [-EINVAL] and changes nothing.  A frame that passes validation moves
    the connection to USER_CLOSED, stores [-EPIPE], the negated errno, in
    [sk_err], wakes the state-change waiters once, and reports the bytes
    of the header and the phrase. *)
Theorem connection_close_contract
  (sk : sock) (skb : sk_buff) (type err_code ftype phrase_len : Z)
  (p : list Z) (l : Z) :
  quic_frame_connection_close_header skb type
  = Some (err_code, ftype, phrase_len, p, l) ->
  (phrase_len <> 0 ->
   phrase_len > 80 \/ nth (Z.to_nat (phrase_len - 1)) p 0 <> 0 ->
   quic_frame_connection_close_process sk skb type = (- EINVAL, sk))
  /\ (phrase_len <= l ->
      phrase_len = 0
      \/ (phrase_len <= 80 /\ nth (Z.to_nat (phrase_len - 1)) p 0 = 0) ->
      let r := quic_frame_connection_close_process sk skb type in
      fst r = len skb - (l - phrase_len)
      /\ sk_state (common (snd r)) = QUIC_STATE_USER_CLOSED
      /\ sk_err (common (snd r)) = - EPIPE
      /\ state_change_wakeups (common (snd r))
         = S (state_change_wakeups (common sk))).
Proof.
  intros Hh.
  unfold quic_frame_connection_close_process,
    quic_frame_connection_close_parse.
  rewrite Hh. split.
  - intros Hne Hbad.
    destruct (phrase_len >? l); [reflexivity|].
    destruct (Z.eqb_spec phrase_len 0); [contradiction|]. cbn [negb andb].
    destruct Hbad as [Hlong | Hnul].
    + destruct (Z.gtb_spec phrase_len 80); [reflexivity | lia].
    + destruct (Z.eqb_spec (nth (Z.to_nat (phrase_len - 1)) p 0) 0);
        [contradiction|].
      rewrite orb_true_r. reflexivity.
  - intros Hle Hok.
    destruct (Z.gtb_spec phrase_len l); [lia|].
    assert (Hc : negb (phrase_len =? 0)
                 && ((phrase_len >? 80)
                     || negb (nth (Z.to_nat (phrase_len - 1)) p 0 =? 0))
                 = false).
    { destruct Hok as [-> | [H80 Hnul]]; [reflexivity|].
      rewrite Hnul. destruct (Z.gtb_spec phrase_len 80); [lia|].
      apply andb_false_r. }
    rewrite Hc. cbn. repeat split.
Qed.

Lemma connection_close_contract_witness :
  quic_frame_connection_close_process (sample_sock [] [])
    (mk_skb [0x0a; 0x00; 0x02; 104; 105] []) QUIC_FRAME_CONNECTION_CLOSE
  = (- EINVAL, sample_sock [] [])
  /\ sk_err
       (common
          (snd (quic_frame_connection_close_process (sample_sock [] [])
                  (mk_skb [0x0a; 0x03; 104; 105; 0] [])
                  QUIC_FRAME_CONNECTION_CLOSE_APP)))
     = - EPIPE.
Proof.
  split.
  - refine (proj1 (@connection_close_contract (sample_sock [] [])
                     (mk_skb [0x0a; 0x00; 0x02; 104; 105] [])
                     QUIC_FRAME_CONNECTION_CLOSE 10 0 2 [104; 105] 2 eq_refl)
              _ _).
    + lia.
    + right. simpl. lia.
  - refine (proj1 (proj2 (proj2 (proj2
              (@connection_close_contract (sample_sock [] [])
                 (mk_skb [0x0a; 0x03; 104; 105; 0] [])
                 QUIC_FRAME_CONNECTION_CLOSE_APP 10 0 3 [104; 105; 0] 3
                 eq_refl) _ _)))).
    + lia.
    + right. simpl. lia.
Defined.

(** ** Allocation *)

Lemma alloc_atomic_keeps sk :
  let sk' := snd (alloc_atomic sk) in
  pnmap sk' = pnmap sk /\ outq sk' = outq sk /\ inq sk' = inq sk
  /\ streams sk' = streams sk /\ source sk' = source sk
  /\ dest sk' = dest sk /\ token sk' = token sk /\ ticket sk' = ticket sk
  /\ paths sk' = paths sk /\ common sk' = common sk.
Proof.
  unfold alloc_atomic. destruct (allocs (env sk)); cbn; repeat split.
Qed.

(** ** NEW_TOKEN and CRYPTO: the stored token survives a failed copy *)

(** C10: when the length fields of a NEW_TOKEN frame validate (for CRYPTO:
    offset 0, length within the payload and the message-type byte 4) and
    the copy of the [length] bytes cannot be allocated, the decoder
    answers [-ENOMEM] and the stored token (session ticket) is what it
    was; when the copy is allocated the stored value becomes that copy.
    A frame that does not validate is answered with [-EINVAL] and changes
    nothing. *)
Theorem token_replaced_after_copy (sk : sock) (skb : sk_buff) (type : Z) :
  (forall length p l,
      quic_frame_new_token_parse skb = Some (length, p, l) ->
      let r := quic_frame_new_token_process sk skb type in
      (fst (alloc_atomic sk) = false ->
       fst r = - ENOMEM /\ token (snd r) = token sk
       /\ ticket (snd r) = ticket sk)
      /\ (fst (alloc_atomic sk) = true ->
          fst r = len skb - (l - length)
          /\ token (snd r)
             = {| tk_data := firstn (Z.to_nat length) p; tk_len := length |}))
  /\ (forall length p l,
      quic_frame_crypto_parse skb = Some (length, p, l) ->
      let r := quic_frame_crypto_process sk skb type in
      (fst (alloc_atomic sk) = false ->
       fst r = - ENOMEM /\ ticket (snd r) = ticket sk
       /\ token (snd r) = token sk)
      /\ (fst (alloc_atomic sk) = true ->
          fst r = len skb - (l - length)
          /\ ticket (snd r)
             = {| tk_data := firstn (Z.to_nat length) p; tk_len := length |}))
  /\ (quic_frame_new_token_parse skb = None ->
      quic_frame_new_token_process sk skb type = (- EINVAL, sk))
  /\ (quic_frame_crypto_parse skb = None ->
      quic_frame_crypto_process sk skb type = (- EINVAL, sk)).
Proof.
  pose proof (alloc_atomic_keeps sk) as K. cbv zeta in K.
  destruct K as (_ & _ & _ & _ & _ & _ & Ktok & Ktic & _).
  unfold quic_frame_new_token_process, quic_frame_crypto_process.
  repeat split; try (intros ->; reflexivity);
    rewrite H; destruct (alloc_atomic sk) as [ok sk1]; cbn [fst snd] in *;
    subst ok; cbn; auto.
Qed.

Lemma token_replaced_after_copy_witness :
  (let r := quic_frame_new_token_process (sample_sock [false] [])
              (mk_skb [0x02; 7; 8] []) QUIC_FRAME_NEW_TOKEN in
   fst r = - ENOMEM /\ token (snd r) = {| tk_data := [9; 9]; tk_len := 2 |})
  /\ (let r := quic_frame_crypto_process (sample_sock [false] [])
                 (mk_skb [0x00; 0x02; 4; 8] []) QUIC_FRAME_CRYPTO in
      fst r = - ENOMEM /\ ticket (snd r) = {| tk_data := [4; 1]; tk_len := 2 |})
  /\ (let r := quic_frame_new_token_process (sample_sock [true] [])
                 (mk_skb [0x02; 7; 8] []) QUIC_FRAME_NEW_TOKEN in
      fst r = 3 /\ token (snd r) = {| tk_data := [7; 8]; tk_len := 2 |}).
Proof.
  split; [|split].
  - destruct (proj1 (token_replaced_after_copy (sample_sock [false] [])
                       (mk_skb [0x02; 7; 8] []) QUIC_FRAME_NEW_TOKEN)
                2 [7; 8] 2 eq_refl) as [Hfail _].
    destruct (Hfail eq_refl) as (H1 & H2 & _). split; assumption.
  - destruct (proj1 (proj2 (token_replaced_after_copy (sample_sock [false] [])
                       (mk_skb [0x00; 0x02; 4; 8] []) QUIC_FRAME_CRYPTO))
                2 [4; 8] 2 eq_refl) as [Hfail _].
    destruct (Hfail eq_refl) as (H1 & H2 & _). split; assumption.
  - destruct (proj1 (token_replaced_after_copy (sample_sock [true] [])
                       (mk_skb [0x02; 7; 8] []) QUIC_FRAME_NEW_TOKEN)
                2 [7; 8] 2 eq_refl) as [_ Hok].
    destruct (Hok eq_refl) as (H1 & H2). split; assumption.
Defined.

(** ** The stream table *)

Lemma stream_find_id l id s :
  find (fun s => stream_id s =? id) l = Some s -> stream_id s = id.
Proof.
  intros H. apply find_some in H. destruct H as [_ H].
  apply Z.eqb_eq. assumption.
Qed.

Lemma stream_find_update f id l s :
  find (fun s => stream_id s =? id) l = Some s ->
  stream_id (f s) = stream_id s ->
  find (fun s => stream_id s =? id) (stream_update f id l) = Some (f s).
Proof.
  intros H Hf. induction l as [|x r IH]; [discriminate|].
  cbn [find stream_update] in *.
  destruct (stream_id x =? id) eqn:E.
  - injection H as ->. cbn [find]. rewrite Hf, E. reflexivity.
  - cbn [find]. rewrite E. auto.
Qed.

Lemma stream_update_revert f g id l s :
  find (fun s => stream_id s =? id) l = Some s ->
  stream_id (f s) = stream_id s -> g (f s) = s ->
  stream_update g id (stream_update f id l) = l.
Proof.
  intros H Hf Hg. induction l as [|x r IH]; [reflexivity|].
  cbn [find stream_update] in *.
  destruct (stream_id x =? id) eqn:E.
  - injection H as ->. cbn [stream_update]. rewrite Hf, E, Hg. reflexivity.
  - cbn [stream_update]. rewrite E. f_equal. auto.
Qed.

(** ** DATA_BLOCKED and STREAM_DATA_BLOCKED *)

Lemma quic_frame_create_max_data sk q :
  quic_frame_create sk QUIC_FRAME_MAX_DATA (DATA_INQ q)
  = (if fst (alloc_atomic sk)
     then Some (set_fb_frame_type QUIC_FRAME_MAX_DATA
                  (skb_of (quic_put_var QUIC_FRAME_MAX_DATA
                           ++ quic_put_var (inq_max_bytes q))))
     else None, snd (alloc_atomic sk)).
Proof.
  unfold quic_frame_create.
  change (QUIC_FRAME_MAX_DATA >? QUIC_FRAME_BASE_MAX) with false. cbv iota.
  change (nth (Z.to_nat QUIC_FRAME_MAX_DATA) quic_frame_ops_create
            (fun s _ _ => (None, s))) with quic_frame_max_data_create.
  unfold quic_frame_max_data_create, skb_put_frame.
  destruct (alloc_atomic sk) as [[] sk1]; reflexivity.
Qed.

(** The frame of an encoder that assembles it in an array of [n] bytes:
    what fits goes on to the allocator, what does not fit is a fault. *)
Lemma frame_array_fits n frame sk k :
  len_of frame <= n -> frame_array n frame sk k = k.
Proof.
  intros H. unfold frame_array.
  destruct (Z.gtb_spec (len_of frame) n); [lia | reflexivity].
Qed.

Lemma frame_array_overrun n frame sk k :
  n < len_of frame -> frame_array n frame sk k = (None, kernel_fault sk).
Proof.
  intros H. unfold frame_array.
  destruct (Z.gtb_spec (len_of frame) n); [reflexivity | lia].
Qed.

Lemma quic_put_var_type_byte t : 0 <= t < 64 -> len_of (quic_put_var t) = 1.
Proof.
  intros H. rewrite quic_put_var_length. unfold quic_var_len.
  destruct (Z.ltb_spec t 64); [reflexivity | lia].
Qed.

Lemma quic_frame_create_max_stream_data sk s :
  quic_var_len (stream_id s) + quic_var_len (recv_max_bytes s) <= 9 ->
  quic_frame_create sk QUIC_FRAME_MAX_STREAM_DATA (DATA_STREAM s)
  = (if fst (alloc_atomic sk)
     then Some (set_fb_frame_type QUIC_FRAME_MAX_STREAM_DATA
                  (skb_of (quic_put_var QUIC_FRAME_MAX_STREAM_DATA
                           ++ quic_put_var (stream_id s)
                           ++ quic_put_var (recv_max_bytes s))))
     else None, snd (alloc_atomic sk)).
Proof.
  intros Hfit. unfold quic_frame_create.
  change (QUIC_FRAME_MAX_STREAM_DATA >? QUIC_FRAME_BASE_MAX) with false.
  cbv iota.
  change (nth (Z.to_nat QUIC_FRAME_MAX_STREAM_DATA) quic_frame_ops_create
            (fun s _ _ => (None, s))) with quic_frame_max_stream_data_create.
  unfold quic_frame_max_stream_data_create. cbv zeta.
  rewrite frame_array_fits.
  2:{ rewrite !len_of_app, !quic_put_var_length.
      change (quic_var_len QUIC_FRAME_MAX_STREAM_DATA) with 1. lia. }
  unfold skb_put_frame.
  destruct (alloc_atomic sk) as [[] sk1]; reflexivity.
Qed.

(** A MAX_STREAM_DATA frame of more than 10 bytes: the array of the
    encoder is overrun. *)
Lemma quic_frame_create_max_stream_data_overrun sk s :
  9 < quic_var_len (stream_id s) + quic_var_len (recv_max_bytes s) ->
  quic_frame_create sk QUIC_FRAME_MAX_STREAM_DATA (DATA_STREAM s)
  = (None, kernel_fault sk).
Proof.
  intros Hfit. unfold quic_frame_create.
  change (QUIC_FRAME_MAX_STREAM_DATA >? QUIC_FRAME_BASE_MAX) with false.
  cbv iota.
  change (nth (Z.to_nat QUIC_FRAME_MAX_STREAM_DATA) quic_frame_ops_create
            (fun s _ _ => (None, s))) with quic_frame_max_stream_data_create.
  unfold quic_frame_max_stream_data_create. cbv zeta.
  rewrite frame_array_overrun; [reflexivity|].
  rewrite !len_of_app, !quic_put_var_length.
  change (quic_var_len QUIC_FRAME_MAX_STREAM_DATA) with 1. lia.
Qed.

Lemma stream_data_blocked_unchanged_limit :
  let r := quic_frame_stream_data_blocked_process (sample_sock [] [])
             (mk_skb [0x08; 0x3c] []) QUIC_FRAME_STREAM_DATA_BLOCKED in
  fst r = 2
  /\ option_map recv_max_bytes (quic_stream_find (streams (snd r)) 8)
     = Some (10 + 50)
  /\ ctrl_list (outq (snd r)) = [].
Proof. cbv. repeat split. Qed.

(** C8 (amended): a DATA_BLOCKED frame sets the connection receive limit to
    [bytes + window] (64-bit) and queues a MAX_DATA frame carrying it; a
    STREAM_DATA_BLOCKED frame sets the receive limit of its stream to
    [bytes + window] and queues a MAX_STREAM_DATA frame only when that
    changed the limit, the frame being one that fits the 10 bytes its
    encoder assembles it in (the stream id and the limit take 9 bytes or
    less as VarInts; a MAX_DATA frame always fits).  When the frame cannot
    be allocated the limit is put back and the answer is [-ENOMEM]; on
    every error the inbound queue, the stream table and the outbound queue
    are as they were.  None of this raises a fault. *)
Theorem blocked_process_contract (sk : sock) (skb : sk_buff) (type : Z) :
  (forall max p l,
      get_var1 skb = Some (max, p, l) ->
      let r := quic_frame_data_blocked_process sk skb type in
      let limit := u64 (inq_bytes (inq sk) + inq_window (inq sk)) in
      faulted (env (snd r)) = faulted (env sk)
      /\ (fst (alloc_atomic sk) = true ->
          fst r = len skb - l
          /\ inq_max_bytes (inq (snd r)) = limit
          /\ ctrl_list (outq (snd r))
             = ctrl_list (outq sk)
               ++ [(set_fb_frame_type QUIC_FRAME_MAX_DATA
                      (skb_of (quic_put_var QUIC_FRAME_MAX_DATA
                               ++ quic_put_var limit)), true)])
      /\ (fst (alloc_atomic sk) = false ->
          fst r = - ENOMEM /\ inq (snd r) = inq sk /\ outq (snd r) = outq sk
          /\ streams (snd r) = streams sk))
  /\ (forall id max p l stream,
      get_var2 skb = Some (id, max, p, l) ->
      quic_stream_find (streams sk) id = Some stream ->
      let r := quic_frame_stream_data_blocked_process sk skb type in
      let limit := u64 (recv_bytes stream + recv_window stream) in
      (recv_max_bytes stream = limit ->
       fst r = len skb - l
       /\ quic_stream_find (streams (snd r)) id
          = Some (set_recv_max_bytes limit stream)
       /\ ctrl_list (outq (snd r)) = ctrl_list (outq sk)
       /\ faulted (env (snd r)) = faulted (env sk))
      /\ (recv_max_bytes stream <> limit ->
          quic_var_len id + quic_var_len limit <= 9 ->
          fst (alloc_atomic sk) = true ->
          fst r = len skb - l
          /\ quic_stream_find (streams (snd r)) id
             = Some (set_recv_max_bytes limit stream)
          /\ ctrl_list (outq (snd r))
             = ctrl_list (outq sk)
               ++ [(set_fb_frame_type QUIC_FRAME_MAX_STREAM_DATA
                      (skb_of (quic_put_var QUIC_FRAME_MAX_STREAM_DATA
                               ++ quic_put_var id ++ quic_put_var limit)),
                    true)]
          /\ faulted (env (snd r)) = faulted (env sk))
      /\ (recv_max_bytes stream <> limit ->
          quic_var_len id + quic_var_len limit <= 9 ->
          fst (alloc_atomic sk) = false ->
          fst r = - ENOMEM /\ streams (snd r) = streams sk
          /\ inq (snd r) = inq sk /\ outq (snd r) = outq sk
          /\ faulted (env (snd r)) = faulted (env sk)))
  /\ (get_var1 skb = None ->
      quic_frame_data_blocked_process sk skb type = (- EINVAL, sk))
  /\ (get_var2 skb = None ->
      quic_frame_stream_data_blocked_process sk skb type = (- EINVAL, sk))
  /\ (forall id max p l,
      get_var2 skb = Some (id, max, p, l) ->
      quic_stream_find (streams sk) id = None ->
      quic_frame_stream_data_blocked_process sk skb type = (- EINVAL, sk)).
Proof.
  split; [|split; [|split; [|split]]].
  - intros max p l.
    intros Hp. unfold quic_frame_data_blocked_process. rewrite Hp.
    rewrite quic_frame_create_max_data.
    unfold alloc_atomic. cbn [env set_inq].
    destruct (allocs (env sk)) as [|[] rest]; cbn; split; try reflexivity;
      split; intros E; try discriminate; repeat split.
    all: destruct sk as [? ? q ? ? ? ? ? ? ? ?]; destruct q; reflexivity.
  - intros id max p l stream.
    intros Hp Hf. unfold quic_frame_stream_data_blocked_process.
    rewrite Hp, Hf. cbv zeta.
    set (limit := u64 (recv_bytes stream + recv_window stream)).
    pose proof (stream_find_id _ _ Hf) as Hid.
    assert (Hfind : quic_stream_find
                      (streams (stream_store (set_recv_max_bytes limit) id sk))
                      id = Some (set_recv_max_bytes limit stream))
      by (apply stream_find_update; [exact Hf | reflexivity]).
    split; [|split].
    + intros ->. rewrite Z.eqb_refl. cbn [negb fst snd]. repeat split.
      exact Hfind.
    + intros Hne Hfit Hal.
      destruct (Z.eqb_spec (recv_max_bytes stream) limit);
        [contradiction|]. cbn [negb].
      rewrite quic_frame_create_max_stream_data
        by (cbn [stream_id recv_max_bytes set_recv_max_bytes];
            rewrite Hid; exact Hfit).
      unfold alloc_atomic in *. cbn [env stream_store set_streams] in *.
      destruct (allocs (env sk)) as [|[] rest]; cbn in Hal; try discriminate;
        cbn; rewrite Hid; repeat split; exact Hfind.
    + intros Hne Hfit Hal.
      destruct (Z.eqb_spec (recv_max_bytes stream) limit);
        [contradiction|]. cbn [negb].
      rewrite quic_frame_create_max_stream_data
        by (cbn [stream_id recv_max_bytes set_recv_max_bytes];
            rewrite Hid; exact Hfit).
      unfold alloc_atomic in *. cbn [env stream_store set_streams] in *.
      destruct (allocs (env sk)) as [|[] rest]; cbn in Hal; try discriminate.
      cbn. repeat split.
      unfold quic_stream_find in Hf.
      rewrite (stream_update_revert _ _ _ _ Hf); [| reflexivity |].
      * destruct (streams sk); reflexivity.
      * destruct stream; reflexivity.
  - intros H. unfold quic_frame_data_blocked_process. rewrite H. reflexivity.
  - intros H. unfold quic_frame_stream_data_blocked_process. rewrite H.
    reflexivity.
  - intros id max p l H Hf. unfold quic_frame_stream_data_blocked_process.
    rewrite H, Hf. reflexivity.
Qed.

Lemma blocked_process_contract_witness :
  (let r := quic_frame_data_blocked_process (sample_sock [false] [])
              (mk_skb [0x05] []) QUIC_FRAME_DATA_BLOCKED in
   fst r = - ENOMEM /\ inq (snd r) = inq (sample_sock [false] []))
  /\ (let r := quic_frame_data_blocked_process (sample_sock [true] [])
                 (mk_skb [0x05] []) QUIC_FRAME_DATA_BLOCKED in
      fst r = 1 /\ inq_max_bytes (inq (snd r)) = 220)
  /\ (let r := quic_frame_stream_data_blocked_process (sample_sock [false] [])
                 (mk_skb [0x04; 0x05] []) QUIC_FRAME_STREAM_DATA_BLOCKED in
      fst r = - ENOMEM /\ streams (snd r) = streams (sample_sock [false] []))
  /\ (let r := quic_frame_stream_data_blocked_process (sample_sock [true] [])
                 (mk_skb [0x04; 0x05] []) QUIC_FRAME_STREAM_DATA_BLOCKED in
      fst r = 2
      /\ map (fun f => fb_data (fst f)) (ctrl_list (outq (snd r)))
         = [[0x11; 0x04; 0x3c]]
      /\ faulted (env (snd r)) = false).
Proof.
  assert (Hne : recv_max_bytes (sample_stream 4 0 100)
                <> u64 (recv_bytes (sample_stream 4 0 100)
                        + recv_window (sample_stream 4 0 100)))
    by (cbv; discriminate).
  assert (Hfit : quic_var_len 4
                 + quic_var_len (u64 (recv_bytes (sample_stream 4 0 100)
                                      + recv_window (sample_stream 4 0 100)))
                 <= 9)
    by (vm_compute; discriminate).
  split; [|split; [|split]].
  - destruct (proj1 (blocked_process_contract (sample_sock [false] [])
                       (mk_skb [0x05] []) QUIC_FRAME_DATA_BLOCKED)
                5 [] 0 eq_refl) as (_ & _ & Hfail).
    destruct (Hfail eq_refl) as (H1 & H2 & _). split; assumption.
  - destruct (proj1 (blocked_process_contract (sample_sock [true] [])
                       (mk_skb [0x05] []) QUIC_FRAME_DATA_BLOCKED)
                5 [] 0 eq_refl) as (_ & Hok & _).
    destruct (Hok eq_refl) as (H1 & H2 & _). split; assumption.
  - destruct (proj1 (proj2 (blocked_process_contract (sample_sock [false] [])
                       (mk_skb [0x04; 0x05] [])
                       QUIC_FRAME_STREAM_DATA_BLOCKED))
                4 5 [] 0 (sample_stream 4 0 100) eq_refl eq_refl)
      as (_ & _ & Hfail).
    destruct (Hfail Hne Hfit eq_refl) as (H1 & H2 & _). split; assumption.
  - destruct (proj1 (proj2 (blocked_process_contract (sample_sock [true] [])
                       (mk_skb [0x04; 0x05] [])
                       QUIC_FRAME_STREAM_DATA_BLOCKED))
                4 5 [] 0 (sample_stream 4 0 100) eq_refl eq_refl)
      as (_ & Hok & _).
    destruct (Hok Hne Hfit eq_refl) as (H1 & _ & H3 & H4).
    cbv zeta. split; [exact H1|]. split; [rewrite H3; reflexivity|].
    rewrite H4. reflexivity.
Defined.

(** ** STREAM frames: the encoder *)

Lemma stream_type_bits type (off fin : bool) :
  8 <= type <= 15 ->
  let t1 := if off then Z.lor type QUIC_STREAM_BIT_OFF else type in
  let t2 := Z.lor t1 QUIC_STREAM_BIT_LEN in
  let t3 := if fin then Z.lor t2 QUIC_STREAM_BIT_FIN else t2 in
  8 <= t3 <= 15
  /\ has_bit t3 QUIC_STREAM_BIT_OFF = has_bit type QUIC_STREAM_BIT_OFF || off
  /\ has_bit t3 QUIC_STREAM_BIT_LEN = true
  /\ has_bit t3 QUIC_STREAM_BIT_FIN = has_bit type QUIC_STREAM_BIT_FIN || fin.
Proof.
  intros H.
  assert (E : type = 8 \/ type = 9 \/ type = 10 \/ type = 11 \/ type = 12
              \/ type = 13 \/ type = 14 \/ type = 15) by lia.
  destruct off, fin;
    repeat (destruct E as [E|E]); subst type; cbv; intuition discriminate.
Qed.

Lemma stream_frame_type_bits sk stream info type :
  8 <= type <= 15 ->
  let t := stream_frame_type sk stream info type in
  8 <= t <= 15
  /\ has_bit t QUIC_STREAM_BIT_OFF
     = has_bit type QUIC_STREAM_BIT_OFF || negb (send_offset stream =? 0)
  /\ has_bit t QUIC_STREAM_BIT_LEN = true
  /\ has_bit t QUIC_STREAM_BIT_FIN
     = has_bit type QUIC_STREAM_BIT_FIN
       || ((u32 (len_of (mi_msg info)) <=? stream_frame_room sk stream)
           && mi_flag_fin info).
Proof.
  intros H. unfold stream_frame_type.
  exact (stream_type_bits (negb (send_offset stream =? 0))
           ((u32 (len_of (mi_msg info)) <=? stream_frame_room sk stream)
            && mi_flag_fin info) H).
Qed.

Lemma u32_range x : 0 <= u32 x < 2 ^ 32.
Proof. unfold u32. apply Z.mod_pos_bound. lia. Qed.

Lemma u32_le x : 0 <= x -> u32 x <= x.
Proof. intros. unfold u32. apply Z.mod_le; lia. Qed.

Lemma stream_frame_msg_len_range sk stream info :
  0 <= stream_frame_msg_len sk stream info <= len_of (mi_msg info)
  /\ stream_frame_msg_len sk stream info < 2 ^ 32.
Proof.
  unfold stream_frame_msg_len.
  pose proof (u32_range (len_of (mi_msg info))).
  pose proof (u32_le (len_of_nonneg (mi_msg info))).
  assert (0 <= stream_frame_room sk stream < 2 ^ 32)
    by (unfold stream_frame_room; apply u32_range).
  destruct (Z.leb_spec (u32 (len_of (mi_msg info)))
              (stream_frame_room sk stream)); lia.
Qed.

Lemma quic_put_var_small t : 0 <= t < 64 -> quic_put_var t = [t].
Proof.
  intros H. unfold quic_put_var. destruct (Z.ltb_spec t 64); [|lia].
  unfold u8. rewrite Z.mod_small by lia. reflexivity.
Qed.

Lemma quic_frame_create_stream sk type d :
  8 <= type <= 15 ->
  quic_frame_create sk type d
  = (let (r, sk1) := quic_frame_stream_create sk d type in
     match r with
     | None => (None, sk1)
     | Some skb =>
         (Some (if fb_frame_type skb =? 0 then set_fb_frame_type type skb
                else skb), sk1)
     end).
Proof.
  intros H.
  assert (E : type = 8 \/ type = 9 \/ type = 10 \/ type = 11 \/ type = 12
              \/ type = 13 \/ type = 14 \/ type = 15) by lia.
  repeat (destruct E as [E|E]); subst type; reflexivity.
Qed.

Lemma quic_frame_stream_create_eq sk info type stream :
  quic_stream_find (streams sk) (mi_stream info) = Some stream ->
  quic_frame_stream_create sk (DATA_MSGINFO info) type
  = (let t := stream_frame_type sk stream info type in
     let n := stream_frame_msg_len sk stream info in
     let with_off := has_bit t QUIC_STREAM_BIT_OFF in
     if negb (fst (alloc_atomic sk)) then (None, snd (alloc_atomic sk))
     else if mi_fault info then (None, snd (alloc_atomic sk))
     else
       (Some {| fb_data :=
                  (quic_put_var t ++ quic_put_var (stream_id stream)
                   ++ (if with_off then quic_put_var (send_offset stream)
                       else [])
                   ++ quic_put_var n)
                  ++ firstn (Z.to_nat n) (mi_msg info);
                fb_frame_type := t;
                fb_stream := Some (stream_id stream);
                fb_stream_offset :=
                  if with_off then send_offset stream else 0;
                fb_data_bytes := n;
                fb_err_code := 0 |},
        stream_store (set_send_offset (u64 (send_offset stream + n)))
          (mi_stream info) (snd (alloc_atomic sk)))).
Proof.
  intros Hf. unfold quic_frame_stream_create. rewrite Hf.
  destruct (alloc_atomic sk) as [ok sk1]. reflexivity.
Qed.




(** ** NEW_CONNECTION_ID: the encoder *)

Lemma alloc_atomic_all_served sk :
  allocs (env sk) = [] -> alloc_atomic sk = (true, sk).
Proof. intros H. unfold alloc_atomic. rewrite H. reflexivity. Qed.

Lemma random_bytes_length n sk :
  length (fst (get_random_bytes n sk)) = n.
Proof. unfold get_random_bytes. cbn [fst]. rewrite length_map, length_seq. reflexivity. Qed.

(** C4: what the NEW_CONNECTION_ID encoder does.  The sequence number is
    [last_seqno + 1] and the connection ID is 16 bytes drawn from the
    random stream, but the 16 token bytes of the frame are the bytes the
    automatic array [token] happened to hold: nothing is drawn for them,
    the random stream advances by 16 bytes only.  The entry is appended to
    the source set before the frame is returned; when the append cannot
    allocate, null is returned and the set is unchanged. *)
Theorem new_connection_id_create_token_uninitialised (sk : sock) (prior : Z) :
  let seqno := u64 (quic_connection_id_last_number (source sk) + 1) in
  let conn_id :=
    map (fun i => u8 (rng (env sk) i)) (seq (rng_pos (env sk)) 16) in
  let r := quic_frame_create sk QUIC_FRAME_NEW_CONNECTION_ID (DATA_U64 prior) in
  (allocs (env sk) = [] ->
   option_map fb_data (fst r)
   = Some (quic_put_var QUIC_FRAME_NEW_CONNECTION_ID ++ quic_put_var seqno
           ++ quic_put_var prior ++ quic_put_var 16 ++ conn_id
           ++ firstn 16 (stack (env sk)))
   /\ cid_list (source (snd r))
      = cid_list (source sk)
        ++ [{| cid_number := seqno; cid_data := conn_id |}]
   /\ rng_pos (env (snd r)) = (rng_pos (env sk) + 16)%nat)
  /\ (forall rest, allocs (env sk) = true :: false :: rest ->
      fst r = None /\ source (snd r) = source sk).
Proof.
  cbv zeta. unfold quic_frame_create.
  change (QUIC_FRAME_NEW_CONNECTION_ID >? QUIC_FRAME_BASE_MAX) with false.
  cbv iota.
  change (nth (Z.to_nat QUIC_FRAME_NEW_CONNECTION_ID) quic_frame_ops_create
            (fun s _ _ => (None, s)))
    with quic_frame_new_connection_id_create.
  unfold quic_frame_new_connection_id_create, quic_connection_id_append,
    get_random_bytes, alloc_atomic, quic_put_data.
  change (Z.to_nat 16) with 16%nat.
  rewrite (firstn_all2 (n := 16)
             (map (fun i => u8 (rng (env sk) i)) (seq (rng_pos (env sk)) 16)))
    by (rewrite length_map, length_seq; lia).
  rewrite firstn_firstn. change (Init.Nat.min 16 16) with 16%nat.
  destruct sk as [? ? ? ? ? ? ? ? ? ? e]. destruct e as [g pos al now st ft].
  cbn [env allocs rng rng_pos stack source].
  split.
  - intros ->. repeat split.
  - intros rest ->. split; reflexivity.
Qed.

Lemma new_connection_id_create_token_uninitialised_witness :
  let garbage :=
    [1; 2; 3; 4; 5; 6; 7; 8; 9; 10; 11; 12; 13; 14; 15; 16] in
  let r := quic_frame_create (sample_sock [] garbage)
             QUIC_FRAME_NEW_CONNECTION_ID (DATA_U64 0) in
  option_map fb_data (fst r)
  = Some ([0x18; 0x01; 0x00; 0x10]
          ++ [160; 161; 162; 163; 164; 165; 166; 167;
              168; 169; 170; 171; 172; 173; 174; 175]
          ++ garbage)
  /\ rng_pos (env (snd r)) = 16%nat.
Proof.
  intros garbage r.
  destruct (proj1 (new_connection_id_create_token_uninitialised
                     (sample_sock [] garbage) 0) eq_refl) as (H1 & _ & H3).
  split; [exact H1 | exact H3].
Defined.

(** ** NEW_CONNECTION_ID: the decoder *)

Lemma quic_frame_create_retire sk number :
  allocs (env sk) = [] ->
  quic_frame_create sk QUIC_FRAME_RETIRE_CONNECTION_ID (DATA_U64 number)
  = (Some (retire_connection_id_frame number),
     set_dest (quic_connection_id_remove (dest sk) number) sk).
Proof.
  intros H. unfold quic_frame_create.
  change (QUIC_FRAME_RETIRE_CONNECTION_ID >? QUIC_FRAME_BASE_MAX) with false.
  cbv iota.
  change (nth (Z.to_nat QUIC_FRAME_RETIRE_CONNECTION_ID) quic_frame_ops_create
            (fun s _ _ => (None, s)))
    with quic_frame_retire_connection_id_create.
  unfold quic_frame_retire_connection_id_create.
  rewrite (@alloc_atomic_all_served sk H). reflexivity.
Qed.

Lemma retire_prior_all_served n : forall sk first,
  allocs (env sk) = [] -> 0 <= first -> first + Z.of_nat n < 2 ^ 64 ->
  quic_frame_retire_prior n sk first
  = (true,
     fold_left retire_one (map (fun i => first + Z.of_nat i) (seq 0 n)) sk).
Proof.
  induction n as [|n IH]; intros sk first Ha Hf Hb; [reflexivity|].
  cbn [quic_frame_retire_prior]. rewrite (@quic_frame_create_retire sk first Ha).
  unfold u64. rewrite Z.mod_small by lia.
  rewrite IH; [| exact Ha | lia | lia].
  cbn [seq map fold_left]. rewrite Z.add_0_r.
  rewrite <- seq_shift, map_map. f_equal.
  f_equal. apply map_ext. intros i. lia.
Qed.

Lemma retire_one_ctrl nums : forall sk,
  ctrl_list (outq (fold_left retire_one nums sk))
  = ctrl_list (outq sk)
    ++ map (fun n => (retire_connection_id_frame n, true)) nums.
Proof.
  induction nums as [|x r IH]; intros sk; cbn [fold_left map].
  - symmetry. apply app_nil_r.
  - rewrite IH. cbn. rewrite <- app_assoc. reflexivity.
Qed.

Lemma retire_one_dest nums : forall sk,
  dest (fold_left retire_one nums sk)
  = fold_left quic_connection_id_remove nums (dest sk).
Proof.
  induction nums as [|x r IH]; intros sk; cbn [fold_left]; [reflexivity|].
  rewrite IH. reflexivity.
Qed.

Lemma new_connection_id_token_not_stored :
  let sk := sample_sock [] [] in
  let frame := fun tok =>
    mk_skb ([0x01; 0x01; 0x08] ++ [1; 2; 3; 4; 5; 6; 7; 8] ++ tok) [] in
  let r := quic_frame_new_connection_id_process sk (frame (repeat 0xaa 16))
             QUIC_FRAME_NEW_CONNECTION_ID in
  r = quic_frame_new_connection_id_process sk (frame (repeat 0x55 16))
        QUIC_FRAME_NEW_CONNECTION_ID
  /\ fst r = 27
  /\ cid_list (dest (snd r))
     = [{| cid_number := 1; cid_data := [1; 2; 3; 4; 5; 6; 7; 8] |}].
Proof. cbv. repeat split. Qed.

Lemma hd_app_nonempty (A : Type) (d : A) (l r : list A) :
  l <> [] -> hd d (l ++ r) = hd d l.
Proof. destruct l; [contradiction | reflexivity]. Qed.

(** C6 (amended): a NEW_CONNECTION_ID frame is answered with [-EINVAL],
    and changes nothing, unless [length + 16 <= remaining], [seqno] is the
    last number of the destination set plus 1, and [prior <= seqno].  On
    success (every allocation served) the entry [{seqno, cid}] is appended
    to the destination set (the 16 bytes of the reset token are skipped,
    not stored) and, for each number [first] of the interval
    [[dst.first_seqno, prior)] in increasing order, one
    RETIRE_CONNECTION_ID frame is queued through [OutQ.ctrl_tail], whose
    encoder drops that number from the destination set; the frame reports
    the header, [length] and 16 bytes. *)
Theorem new_connection_id_process_contract
  (sk : sock) (skb : sk_buff) (type seqno prior length : Z)
  (p : list Z) (l : Z) :
  get_var3 skb = Some (seqno, prior, length, p, l) ->
  (length + 16 > l
   \/ seqno <> quic_connection_id_last_number (dest sk) + 1
   \/ prior > seqno ->
   quic_frame_new_connection_id_process sk skb type = (- EINVAL, sk))
  /\ (length + 16 <= l ->
      seqno = quic_connection_id_last_number (dest sk) + 1 ->
      prior <= seqno ->
      allocs (env sk) = [] ->
      cid_list (dest sk) <> [] ->
      0 <= quic_connection_id_first_number (dest sk) -> prior < 2 ^ 64 ->
      let first := quic_connection_id_first_number (dest sk) in
      let nums := retired_numbers first prior in
      let r := quic_frame_new_connection_id_process sk skb type in
      fst r = len skb - (l - (length + 16))
      /\ dest (snd r)
         = fold_left quic_connection_id_remove nums
             (set_cid_list
                (cid_list (dest sk)
                 ++ [{| cid_number := seqno;
                        cid_data := firstn (Z.to_nat length) p |}])
                (dest sk))
      /\ ctrl_list (outq (snd r))
         = ctrl_list (outq sk)
           ++ map (fun n => (retire_connection_id_frame n, true)) nums).
Proof.
  intros Hp.
  assert (Hparse : quic_frame_new_connection_id_parse skb
                   = if length + 16 >? l then None
                     else Some (seqno, prior, length, p, l)).
  { unfold quic_frame_new_connection_id_parse. unfold get_var3 in Hp.
    destruct (quic_get_var (data skb) (len skb)) as [[[a p1] l1]|];
      [|discriminate].
    destruct (quic_get_var p1 l1) as [[[b p2] l2]|]; [|discriminate].
    destruct (quic_get_var p2 l2) as [[[c p3] l3]|]; [|discriminate].
    injection Hp as -> -> -> -> ->. reflexivity. }
  unfold quic_frame_new_connection_id_process. rewrite Hparse. split.
  - intros Hbad. destruct (Z.gtb_spec (length + 16) l); [reflexivity|].
    destruct Hbad as [Hl | [Hs | Hpr]]; [lia | |].
    + destruct (Z.eqb_spec seqno
                  (quic_connection_id_last_number (dest sk) + 1));
        [contradiction | reflexivity].
    + destruct (Z.gtb_spec prior seqno); [|lia].
      rewrite orb_true_r. reflexivity.
  - intros Hl Hs Hpr Ha Hne Hfirst Hprior. cbv zeta.
    destruct (Z.gtb_spec (length + 16) l); [lia|].
    rewrite <- Hs, Z.eqb_refl. destruct (Z.gtb_spec prior seqno); [lia|].
    cbn [negb orb].
    unfold quic_connection_id_append.
    rewrite (@alloc_atomic_all_served sk Ha).
    cbn [id_set_get id_set_put Z.eqb negb].
    set (sk1 := set_dest _ sk).
    assert (Hf1 : quic_connection_id_first_number (dest sk1)
                  = quic_connection_id_first_number (dest sk)).
    { unfold sk1, quic_connection_id_first_number.
      cbn [dest set_dest cid_list set_cid_list].
      f_equal. apply hd_app_nonempty. assumption. }
    rewrite Hf1.
    set (first := quic_connection_id_first_number (dest sk)) in *.
    destruct (Z.leb_spec prior first) as [Hle|Hlt].
    + unfold retired_numbers.
      replace (Z.to_nat (prior - first)) with 0%nat by lia.
      cbn [seq map fold_left fst snd]. rewrite app_nil_r. repeat split.
    + rewrite retire_prior_all_served; [| exact Ha | exact Hfirst | lia].
      cbn [fst snd]. fold (retired_numbers first prior).
      rewrite retire_one_ctrl, retire_one_dest. repeat split.
Qed.

Lemma new_connection_id_process_contract_witness :
  let sk := sample_sock [] [] in
  let skb :=
    mk_skb ([0x01; 0x01; 0x08] ++ [1; 2; 3; 4; 5; 6; 7; 8] ++ repeat 0xaa 16)
      [] in
  let r := quic_frame_new_connection_id_process sk skb
             QUIC_FRAME_NEW_CONNECTION_ID in
  fst r = 27
  /\ cid_list (dest (snd r))
     = [{| cid_number := 1; cid_data := [1; 2; 3; 4; 5; 6; 7; 8] |}]
  /\ ctrl_list (outq (snd r)) = [(retire_connection_id_frame 0, true)].
Proof.
  intros sk skb r.
  pose proof (proj2 (@new_connection_id_process_contract sk skb
                       QUIC_FRAME_NEW_CONNECTION_ID 1 1 8
                       ([1; 2; 3; 4; 5; 6; 7; 8] ++ repeat 0xaa 16) 24
                       eq_refl)) as Hw.
  assert (H1 : 8 + 16 <= 24) by lia.
  assert (H2 : 1 <= 1) by lia.
  assert (H3 : cid_list (dest sk) <> []) by discriminate.
  assert (H4 : 0 <= quic_connection_id_first_number (dest sk))
    by (change (0 <= 0); lia).
  assert (H5 : 1 < 2 ^ 64) by lia.
  destruct (Hw H1 eq_refl H2 eq_refl H3 H4 H5) as (A & B & C).
  split; [exact A|]. split.
  - fold r in B. rewrite B. reflexivity.
  - fold r in C. rewrite C. reflexivity.
Defined.

(** ** The processing loop returns *)

Lemma skb_pull_len skb n : 0 <= n -> len (skb_pull skb n) <= len skb.
Proof.
  intros H. unfold skb_pull. destruct (Z.gtb_spec n (len skb)); cbn [len]; lia.
Qed.

Lemma quic_frame_process_loop_returns ops fuel : forall sk skb pki,
  1 <= len skb <= Z.of_nat fuel ->
  quic_frame_process_loop ops fuel sk skb pki <> None.
Proof.
  induction fuel as [|k IH]; intros sk skb pki H; [lia|].
  cbn [quic_frame_process_loop].
  destruct (hd 0 (data skb) >? QUIC_FRAME_BASE_MAX); [discriminate|].
  match goal with
  | |- context [nth ?n ?t ?d sk (skb_pull skb 1) (hd 0 (data skb))] =>
      destruct (nth n t d sk (skb_pull skb 1) (hd 0 (data skb))) as [ret sk1]
  end.
  destruct (Z.ltb_spec ret 0); [discriminate|].
  destruct (Z.leb_spec (len (skb_pull (skb_pull skb 1) ret)) 0) as [|Hpos];
    [discriminate|].
  apply IH. split; [lia|].
  pose proof (@skb_pull_len (skb_pull skb 1) ret ltac:(lia)).
  assert (len (skb_pull skb 1) = len skb - 1).
  { unfold skb_pull. destruct (Z.gtb_spec 1 (len skb)); [lia|]. reflexivity. }
  lia.
Qed.

(** Whatever the payload, [quic_frame_process] leaves its loop: one turn
    per byte of the payload is enough. *)
Lemma quic_frame_process_returns ops sk skb pki :
  0 <= len skb -> quic_frame_process ops sk skb pki <> None.
Proof.
  intros H. unfold quic_frame_process.
  destruct (Z.eqb_spec (len skb) 0); [discriminate|].
  apply quic_frame_process_loop_returns. lia.
Qed.

(** ** The processing loop and the bounds of the payload *)

(** C2: the CRYPTO decoder reads the message-type byte [*p] after checking
    [length <= len] only.  For the three-byte payload 06 00 00 (CRYPTO,
    offset 0, length 0) nothing is left when the byte is read, and the
    answer of the frame processor follows the byte that lies in memory
    behind the payload: accepted when it is 4, [-EINVAL] otherwise. *)
Theorem crypto_process_reads_past_payload
  (ops : collaborators) (sk : sock) (pki : quic_packet_info)
  (behind : Z) (slack : list Z) :
  fst (alloc_atomic sk) = true ->
  option_map (fun r => fst (fst r))
    (quic_frame_process ops sk (mk_skb [0x06; 0x00; 0x00] (behind :: slack))
       pki)
  = Some (if behind =? 4 then 0 else - EINVAL).
Proof.
  intros Ha. unfold quic_frame_process, mk_skb.
  cbn [len len_of length Z.of_nat Z.eqb Pos.of_succ_nat Pos.succ].
  change (Z.to_nat 3) with 3%nat.
  cbn [quic_frame_process_loop data hd app].
  change (6 >? QUIC_FRAME_BASE_MAX) with false. cbv iota.
  change (nth (Z.to_nat 6) (quic_frame_ops_process ops)
            (fun s _ _ => (- EPROTONOSUPPORT, s)))
    with quic_frame_crypto_process.
  unfold quic_frame_crypto_process, quic_frame_crypto_parse.
  change (skb_pull {| data := 6 :: 0 :: 0 :: behind :: slack; len := 3 |} 1)
    with {| data := 0 :: 0 :: behind :: slack; len := 2 |}.
  cbn [data len].
  change (quic_get_var (0 :: 0 :: behind :: slack) 2)
    with (Some (0, 0 :: behind :: slack, 1)).
  cbv iota beta. change (negb (0 =? 0)) with false. cbv iota.
  change (quic_get_var (0 :: behind :: slack) 1)
    with (Some (0, behind :: slack, 0)).
  cbv iota beta. change (0 >? 0) with false. cbn [hd negb].
  destruct (behind =? 4); cbn [negb]; [|reflexivity].
  destruct (alloc_atomic sk) as [ok sk1]. cbn [fst] in Ha. subst ok.
  reflexivity.
Qed.

Lemma crypto_process_reads_past_payload_witness :
  option_map (fun r => fst (fst r))
    (quic_frame_process sample_ops (sample_sock [] [])
       (mk_skb [0x06; 0x00; 0x00] [4]) pki_zero) = Some 0
  /\ option_map (fun r => fst (fst r))
       (quic_frame_process sample_ops (sample_sock [] [])
          (mk_skb [0x06; 0x00; 0x00] [0]) pki_zero) = Some (- EINVAL).
Proof.
  split.
  - exact (@crypto_process_reads_past_payload sample_ops (sample_sock [] [])
             pki_zero 4 [] eq_refl).
  - exact (@crypto_process_reads_past_payload sample_ops (sample_sock [] [])
             pki_zero 0 [] eq_refl).
Defined.

Lemma mk_skb_data b slack : data (mk_skb b slack) = b ++ slack.
Proof. reflexivity. Qed.

Lemma mk_skb_len b slack : len (mk_skb b slack) = len_of b.
Proof. reflexivity. Qed.

(** ** Reads that stay within the payload

    A read that stays within the [len] bytes of the payload cannot depend
    on the memory behind it.  The siblings of the CRYPTO decoder keep to
    that: NEW_TOKEN copies [length <= len] bytes, and CONNECTION_CLOSE
    looks at the last byte of the phrase only when the phrase is not
    empty. *)

Lemma shiftl_one_pos k : 0 <= k -> 1 <= Z.shiftl 1 k.
Proof.
  intros H. rewrite Z.shiftl_mul_pow2 by assumption.
  pose proof (Z.pow_pos_nonneg 2 k). lia.
Qed.

Lemma shiftl_one_nonneg k : 0 <= Z.shiftl 1 k.
Proof. apply Z.shiftl_nonneg. lia. Qed.

Lemma quic_get_var_slack b s l :
  l <= len_of b -> bytes_ok s ->
  quic_get_var (b ++ s) l
  = match quic_get_var b l with
    | Some (v, p, l') => Some (v, p ++ s, l')
    | None => None
    end.
Proof.
  intros Hl Hs. unfold quic_get_var.
  destruct b as [|x b'].
  - cbn [app hd]. change (len_of (@nil Z)) with 0 in Hl.
    change (Z.shiftl 1 (Z.shiftr 0 6)) with 1.
    destruct (Z.ltb_spec l 1); [|lia].
    assert (1 <= Z.shiftl 1 (Z.shiftr (hd 0 s) 6)).
    { apply shiftl_one_pos. apply Z.shiftr_nonneg.
      destruct Hs as [|y r Hy _]; cbn [hd]; [lia | unfold is_byte in Hy; lia]. }
    destruct (Z.ltb_spec l (Z.shiftl 1 (Z.shiftr (hd 0 s) 6))); [reflexivity|].
    lia.
  - cbn [app hd].
    set (n := Z.shiftl 1 (Z.shiftr x 6)).
    destruct (Z.ltb_spec l n); [reflexivity|].
    assert (Hn : (Z.to_nat n <= length (x :: b'))%nat)
      by (unfold len_of in Hl; pose proof (shiftl_one_nonneg (Z.shiftr x 6));
          fold n in H0; lia).
    change (x :: b' ++ s) with ((x :: b') ++ s).
    rewrite firstn_app, skipn_app.
    replace (Z.to_nat n - length (x :: b'))%nat with 0%nat by lia.
    cbn [firstn skipn]. rewrite app_nil_r. reflexivity.
Qed.

Lemma quic_get_var_cursor b l v p l' :
  quic_get_var b l = Some (v, p, l') -> l <= len_of b -> l' <= len_of p.
Proof.
  unfold quic_get_var. intros H Hl.
  set (n := Z.shiftl 1 (Z.shiftr (hd 0 b) 6)) in *.
  pose proof (shiftl_one_nonneg (Z.shiftr (hd 0 b) 6)) as Hn. fold n in Hn.
  destruct (Z.ltb_spec l n); [discriminate|].
  injection H as _ <- <-. unfold len_of in *. rewrite length_skipn. lia.
Qed.

Lemma Forall_firstn_keeps (A : Type) (P : A -> Prop) n : forall l,
  Forall P l -> Forall P (firstn n l).
Proof.
  induction n as [|n IH]; intros l H; [constructor|].
  destruct H; cbn [firstn]; constructor; auto.
Qed.

Lemma Forall_skipn_keeps (A : Type) (P : A -> Prop) n : forall l,
  Forall P l -> Forall P (skipn n l).
Proof.
  induction n as [|n IH]; intros l H; [assumption|].
  destruct H; cbn [skipn]; [constructor | auto].
Qed.

Lemma be_value_nonneg l acc :
  0 <= acc -> Forall (fun x => 0 <= x) l ->
  0 <= fold_left (fun a x => a * 256 + x) l acc.
Proof.
  intros Ha H. revert acc Ha. induction H as [|x r Hx _ IH]; intros acc Ha;
    cbn [fold_left]; [assumption|]. apply IH. lia.
Qed.

Lemma quic_get_var_nonneg b l v p l' :
  bytes_ok b -> quic_get_var b l = Some (v, p, l') -> 0 <= v /\ bytes_ok p.
Proof.
  unfold quic_get_var, bytes_ok. intros Hb H.
  destruct (l <? _); [discriminate|]. injection H as <- <- _. split.
  - apply be_value_nonneg; [lia|].
    assert (Hf : Forall is_byte (firstn (Z.to_nat (Z.shiftl 1 (Z.shiftr (hd 0 b) 6))) b))
      by (apply Forall_firstn_keeps; assumption).
    destruct Hf as [|x r Hx Hr]; cbn [mask_first]; constructor.
    + apply Z.land_nonneg. right. lia.
    + eapply Forall_impl; [|exact Hr]. unfold is_byte. intros; lia.
  - apply Forall_skipn_keeps. assumption.
Qed.

Lemma new_token_process_in_bounds sk b s type :
  bytes_ok s ->
  quic_frame_new_token_process sk (mk_skb b s) type
  = quic_frame_new_token_process sk (mk_skb b []) type.
Proof.
  intros Hs.
  unfold quic_frame_new_token_process, quic_frame_new_token_parse.
  rewrite !mk_skb_data, !mk_skb_len, app_nil_r.
  rewrite quic_get_var_slack by (assumption || lia).
  destruct (quic_get_var b (len_of b)) as [[[length p] l]|] eqn:E;
    [|reflexivity].
  pose proof (@quic_get_var_cursor _ _ _ _ _ E (Z.le_refl _)) as Hc.
  destruct (Z.gtb_spec length l); [reflexivity|].
  rewrite firstn_app.
  replace (Z.to_nat length - List.length p)%nat with 0%nat
    by (unfold len_of in Hc; lia).
  cbn [firstn]. rewrite app_nil_r. reflexivity.
Qed.

Lemma connection_close_header_slack b s type :
  bytes_ok b -> bytes_ok s ->
  quic_frame_connection_close_header (mk_skb b s) type
  = match quic_frame_connection_close_header (mk_skb b []) type with
    | Some (e, f, n, p, l) => Some (e, f, n, p ++ s, l)
    | None => None
    end
  /\ forall e f n p l,
       quic_frame_connection_close_header (mk_skb b []) type
       = Some (e, f, n, p, l) -> l <= len_of p /\ 0 <= n.
Proof.
  intros Hb Hs. unfold quic_frame_connection_close_header.
  rewrite !mk_skb_data, !mk_skb_len, app_nil_r.
  rewrite quic_get_var_slack by (assumption || lia).
  destruct (quic_get_var b (len_of b)) as [[[e p1] l1]|] eqn:E1;
    [|split; [reflexivity | discriminate]].
  pose proof (@quic_get_var_cursor _ _ _ _ _ E1 (Z.le_refl _)) as C1.
  destruct (@quic_get_var_nonneg _ _ _ _ _ Hb E1) as [_ B1].
  destruct (type =? QUIC_FRAME_CONNECTION_CLOSE).
  - rewrite quic_get_var_slack by assumption.
    destruct (quic_get_var p1 l1) as [[[f p2] l2]|] eqn:E2;
      [|split; [reflexivity | discriminate]].
    pose proof (@quic_get_var_cursor _ _ _ _ _ E2 C1) as C2.
    destruct (@quic_get_var_nonneg _ _ _ _ _ B1 E2) as [_ B2].
    rewrite quic_get_var_slack by assumption.
    destruct (quic_get_var p2 l2) as [[[n p3] l3]|] eqn:E3;
      [|split; [reflexivity | discriminate]].
    pose proof (@quic_get_var_cursor _ _ _ _ _ E3 C2) as C3.
    destruct (@quic_get_var_nonneg _ _ _ _ _ B2 E3) as [N3 _].
    split; [reflexivity|].
    intros ? ? ? ? ? H. injection H as _ _ <- <- <-. split; assumption.
  - rewrite quic_get_var_slack by assumption.
    destruct (quic_get_var p1 l1) as [[[n p3] l3]|] eqn:E3;
      [|split; [reflexivity | discriminate]].
    pose proof (@quic_get_var_cursor _ _ _ _ _ E3 C1) as C3.
    destruct (@quic_get_var_nonneg _ _ _ _ _ B1 E3) as [N3 _].
    split; [reflexivity|].
    intros ? ? ? ? ? H. injection H as _ _ <- <- <-. split; assumption.
Qed.

Lemma connection_close_process_in_bounds sk b s type :
  bytes_ok b -> bytes_ok s ->
  quic_frame_connection_close_process sk (mk_skb b s) type
  = quic_frame_connection_close_process sk (mk_skb b []) type.
Proof.
  intros Hb Hs.
  destruct (@connection_close_header_slack b s type Hb Hs) as [Hh Hc].
  unfold quic_frame_connection_close_process,
    quic_frame_connection_close_parse.
  rewrite Hh.
  destruct (quic_frame_connection_close_header (mk_skb b []) type)
    as [[[[[e f] n] p] l]|] eqn:E; [|reflexivity].
  destruct (Hc _ _ _ _ _ eq_refl) as [Hc' Hn]. clear Hc.
  destruct (Z.gtb_spec n l); [reflexivity|].
  destruct (Z.eqb_spec n 0); cbn [negb andb]; [reflexivity|].
  destruct (Z.gtb_spec n 80); cbn [orb]; [reflexivity|].
  assert (Hnth : nth (Z.to_nat (n - 1)) (p ++ s) 0
                 = nth (Z.to_nat (n - 1)) p 0).
  { apply app_nth1. unfold len_of in Hc'. lia. }
  rewrite Hnth.
  destruct (negb (nth (Z.to_nat (n - 1)) p 0 =? 0)); reflexivity.
Qed.

(** ** Reading back what the encoders wrote *)

Arguments quic_put_var : simpl never.

Lemma get_var1_put a rest slack :
  varint a ->
  get_var1 (mk_skb (quic_put_var a ++ rest) slack)
  = Some (a, rest ++ slack, len_of rest).
Proof.
  intros Ha. unfold get_var1. rewrite mk_skb_data, mk_skb_len.
  rewrite <- app_assoc, len_of_app.
  apply quic_get_put_var; [assumption | apply len_of_nonneg].
Qed.

Lemma get_var2_put a b rest slack :
  varint a -> varint b ->
  get_var2 (mk_skb ((quic_put_var a ++ quic_put_var b) ++ rest) slack)
  = Some (a, b, rest ++ slack, len_of rest).
Proof.
  intros Ha Hb. unfold get_var2. rewrite mk_skb_data, mk_skb_len.
  rewrite <- !app_assoc, !len_of_app.
  rewrite quic_get_put_var;
    [| assumption
     | pose proof (len_of_nonneg (quic_put_var b));
       pose proof (len_of_nonneg rest); lia].
  rewrite quic_get_put_var; [reflexivity | assumption | apply len_of_nonneg].
Qed.

Lemma get_var3_put a b c rest slack :
  varint a -> varint b -> varint c ->
  get_var3
    (mk_skb ((quic_put_var a ++ quic_put_var b ++ quic_put_var c) ++ rest)
       slack)
  = Some (a, b, c, rest ++ slack, len_of rest).
Proof.
  intros Ha Hb Hc. unfold get_var3. rewrite mk_skb_data, mk_skb_len.
  rewrite <- !app_assoc, !len_of_app.
  pose proof (len_of_nonneg (quic_put_var b)).
  pose proof (len_of_nonneg (quic_put_var c)).
  pose proof (len_of_nonneg rest).
  rewrite quic_get_put_var; [| assumption | lia].
  rewrite quic_get_put_var; [| assumption | lia].
  rewrite quic_get_put_var; [reflexivity | assumption | lia].
Qed.

(** What [quic_frame_create] returns for a frame assembled in a local
    array and copied into the skb. *)
Lemma create_put_frame frame sk type fb sk' :
  (let (r, sk1) := skb_put_frame frame sk in
   match r with
   | None => (None, sk1)
   | Some skb =>
       (Some (if fb_frame_type skb =? 0 then set_fb_frame_type type skb
              else skb), sk1)
   end) = (Some fb, sk') ->
  fb_data fb = frame.
Proof.
  unfold skb_put_frame. destruct (alloc_atomic sk) as [[] sk1]; intros H.
  - injection H as <- _. reflexivity.
  - discriminate.
Qed.

Ltac open_create H enc :=
  unfold quic_frame_create in H;
  match type of H with
  | context [?t >? QUIC_FRAME_BASE_MAX] =>
      change (t >? QUIC_FRAME_BASE_MAX) with false in H
  end;
  cbv iota in H;
  match type of H with
  | context [nth ?n quic_frame_ops_create ?d] =>
      change (nth n quic_frame_ops_create d) with enc in H
  end;
  unfold enc in H.

Ltac type_byte :=
  match goal with
  | |- context [quic_put_var ?t] =>
      let Hs := fresh in
      assert (Hs : 0 <= t < 64) by (cbv; split; congruence);
      rewrite (quic_put_var_small Hs); clear Hs
  end.

(** What [quic_frame_create] returns for a frame assembled in a local
    array that it can exceed: a frame is handed out only if it fits. *)
Lemma create_array_frame n frame sk type fb sk' :
  (let (r, sk1) := frame_array n frame sk (skb_put_frame frame sk) in
   match r with
   | None => (None, sk1)
   | Some skb =>
       (Some (if fb_frame_type skb =? 0 then set_fb_frame_type type skb
              else skb), sk1)
   end) = (Some fb, sk') ->
  fb_data fb = frame /\ len_of frame <= n.
Proof.
  unfold frame_array. intros H.
  destruct (Z.gtb_spec (len_of frame) n) as [G|G]; [discriminate|].
  split; [|exact G]. eapply create_put_frame. exact H.
Qed.

Lemma firstn_prefix (A : Type) (l r : list A) n :
  n = len_of l -> firstn (Z.to_nat n) (l ++ r) = l.
Proof.
  intros ->. apply firstn_exact. unfold len_of. lia.
Qed.

Section Roundtrip.

Variable ops : collaborators.

Ltac frame_of H enc :=
  open_create H enc; apply create_put_frame in H; revert H; type_byte;
  intros H.

Ltac array_frame_of H F enc :=
  open_create H enc; cbv zeta in H; apply create_array_frame in H;
  destruct H as [H F]; revert H; type_byte; intros H.

(** The byte count of a decoder that has read the encoded bytes [b] and
    stopped in front of [rest]. *)
Ltac exact_count :=
  repeat match goal with
         | |- context [len (mk_skb (?b ++ ?rest) ?slack) - ?l] =>
             replace (len (mk_skb (b ++ rest) slack) - l) with (len_of b)
               by (rewrite mk_skb_len, ?len_of_app; lia)
         end.

(** The decoder [dec] of the table on the bytes [Hb] gives to the frame,
    its validated reads being [P]. *)
Ltac decode_with Hb dec P :=
  unfold decoded, decoder_input, body_len, frame_process_of;
  rewrite Hb; cbn [tl hd app];
  match goal with
  | |- context [nth ?n (quic_frame_ops_process ?o) ?d] =>
      change (nth n (quic_frame_ops_process o) d) with dec
  end;
  let h := lazymatch dec with ?f _ => f | _ => dec end in
  unfold h; rewrite P; cbv beta iota zeta; exact_count.

Lemma stop_sending_roundtrip sk info fb sk' :
  quic_frame_create sk QUIC_FRAME_STOP_SENDING (DATA_ERRINFO info)
  = (Some fb, sk') ->
  varint (ei_stream_id info) -> varint (ei_errcode info) ->
  hd 0 (fb_data fb) = QUIC_FRAME_STOP_SENDING
  /\ len_of (fb_data fb) <= 10
  /\ reads_back fb get_var2
       (fun p l => (ei_stream_id info, ei_errcode info, p, l))
  /\ forall rest slack rsk,
       decoded ops fb rest slack rsk
       = (let (stream, st) :=
            quic_stream_send_get ops (streams rsk) (ei_stream_id info) 0
              (is_serv (common rsk)) in
          let sk1 := set_streams st rsk in
          if IS_ERR stream then (PTR_ERR stream, sk1)
          else
            match quic_frame_create sk1 QUIC_FRAME_RESET_STREAM
                    (DATA_ERRINFO {| ei_stream_id := ei_stream_id info;
                                     ei_errcode := ei_errcode info |}) with
            | (None, sk2) => (- ENOMEM, sk2)
            | (Some nskb, sk2) =>
                (body_len fb,
                 quic_outq_ctrl_tail
                   (stream_store_at
                      (set_send_state QUIC_STREAM_SEND_STATE_RESET_SENT)
                      stream sk2) nskb true)
            end).
Proof.
  intros H Hid Herr. array_frame_of H F quic_frame_stop_sending_create.
  split; [rewrite H; reflexivity|].
  split; [rewrite H; exact F|].
  assert (P : forall rest slack,
             get_var2 (mk_skb ((quic_put_var (ei_stream_id info)
                                ++ quic_put_var (ei_errcode info)) ++ rest)
                         slack)
             = Some (ei_stream_id info, ei_errcode info, rest ++ slack,
                     len_of rest))
    by (intros; apply get_var2_put; assumption).
  split.
  { intros rest slack. unfold decoder_input. rewrite H. apply P. }
  intros rest slack rsk.
  decode_with H (quic_frame_stop_sending_process ops) P. reflexivity.
Qed.

Lemma max_stream_data_roundtrip sk s fb sk' :
  quic_frame_create sk QUIC_FRAME_MAX_STREAM_DATA (DATA_STREAM s)
  = (Some fb, sk') ->
  varint (stream_id s) -> varint (recv_max_bytes s) ->
  hd 0 (fb_data fb) = QUIC_FRAME_MAX_STREAM_DATA
  /\ len_of (fb_data fb) <= 10
  /\ reads_back fb get_var2
       (fun p l => (stream_id s, recv_max_bytes s, p, l))
  /\ forall rest slack rsk,
       decoded ops fb rest slack rsk
       = match quic_stream_find (streams rsk) (stream_id s) with
         | None => (- EINVAL, rsk)
         | Some stream =>
             (body_len fb,
              if recv_max_bytes s >=? send_max_bytes stream
              then stream_store (set_send_max_bytes (recv_max_bytes s) 0)
                     (stream_id s) rsk
              else rsk)
         end.
Proof.
  intros H Hid Hv. array_frame_of H F quic_frame_max_stream_data_create.
  split; [rewrite H; reflexivity|].
  split; [rewrite H; exact F|].
  assert (P : forall rest slack,
             get_var2 (mk_skb ((quic_put_var (stream_id s)
                                ++ quic_put_var (recv_max_bytes s)) ++ rest)
                         slack)
             = Some (stream_id s, recv_max_bytes s, rest ++ slack,
                     len_of rest))
    by (intros; apply get_var2_put; assumption).
  split.
  { intros rest slack. unfold decoder_input. rewrite H. apply P. }
  intros rest slack rsk.
  decode_with H quic_frame_max_stream_data_process P. reflexivity.
Qed.

Lemma stream_data_blocked_roundtrip sk s fb sk' :
  quic_frame_create sk QUIC_FRAME_STREAM_DATA_BLOCKED (DATA_STREAM s)
  = (Some fb, sk') ->
  varint (stream_id s) -> varint (send_max_bytes s) ->
  hd 0 (fb_data fb) = QUIC_FRAME_STREAM_DATA_BLOCKED
  /\ len_of (fb_data fb) <= 10
  /\ reads_back fb get_var2
       (fun p l => (stream_id s, send_max_bytes s, p, l))
  /\ forall rest slack rsk,
       decoded ops fb rest slack rsk
       = match quic_stream_find (streams rsk) (stream_id s) with
         | None => (- EINVAL, rsk)
         | Some stream =>
             let new_max := u64 (recv_bytes stream + recv_window stream) in
             let sk1 :=
               stream_store (set_recv_max_bytes new_max) (stream_id s) rsk in
             if negb (recv_max_bytes stream =? new_max) then
               match quic_frame_create sk1 QUIC_FRAME_MAX_STREAM_DATA
                       (DATA_STREAM (set_recv_max_bytes new_max stream)) with
               | (None, sk2) =>
                   (- ENOMEM,
                    stream_store
                      (set_recv_max_bytes (recv_max_bytes stream))
                      (stream_id s) sk2)
               | (Some fskb, sk2) =>
                   (body_len fb, quic_outq_ctrl_tail sk2 fskb true)
               end
             else (body_len fb, sk1)
         end.
Proof.
  intros H Hid Hv. array_frame_of H F quic_frame_stream_data_blocked_create.
  split; [rewrite H; reflexivity|].
  split; [rewrite H; exact F|].
  assert (P : forall rest slack,
             get_var2 (mk_skb ((quic_put_var (stream_id s)
                                ++ quic_put_var (send_max_bytes s)) ++ rest)
                         slack)
             = Some (stream_id s, send_max_bytes s, rest ++ slack,
                     len_of rest))
    by (intros; apply get_var2_put; assumption).
  split.
  { intros rest slack. unfold decoder_input. rewrite H. apply P. }
  intros rest slack rsk.
  decode_with H quic_frame_stream_data_blocked_process P. reflexivity.
Qed.

Lemma max_data_roundtrip sk q fb sk' :
  quic_frame_create sk QUIC_FRAME_MAX_DATA (DATA_INQ q) = (Some fb, sk') ->
  varint (inq_max_bytes q) ->
  hd 0 (fb_data fb) = QUIC_FRAME_MAX_DATA
  /\ reads_back fb get_var1 (fun p l => (inq_max_bytes q, p, l))
  /\ forall rest slack rsk,
       decoded ops fb rest slack rsk
       = (body_len fb,
          if inq_max_bytes q >=? outq_max_bytes (outq rsk)
          then set_outq (set_outq_max_bytes (inq_max_bytes q) 0 (outq rsk))
                 rsk
          else rsk).
Proof.
  intros H Hv. frame_of H quic_frame_max_data_create.
  split; [rewrite H; reflexivity|].
  assert (P : forall rest slack,
             get_var1 (mk_skb (quic_put_var (inq_max_bytes q) ++ rest) slack)
             = Some (inq_max_bytes q, rest ++ slack, len_of rest))
    by (intros; apply get_var1_put; assumption).
  split.
  { intros rest slack. unfold decoder_input. rewrite H. apply P. }
  intros rest slack rsk.
  decode_with H quic_frame_max_data_process P. reflexivity.
Qed.

Lemma data_blocked_roundtrip sk q fb sk' :
  quic_frame_create sk QUIC_FRAME_DATA_BLOCKED (DATA_OUTQ q)
  = (Some fb, sk') ->
  varint (outq_max_bytes q) ->
  hd 0 (fb_data fb) = QUIC_FRAME_DATA_BLOCKED
  /\ reads_back fb get_var1 (fun p l => (outq_max_bytes q, p, l))
  /\ forall rest slack rsk,
       decoded ops fb rest slack rsk
       = (let sk1 :=
            set_inq
              (set_inq_max_bytes
                 (u64 (inq_bytes (inq rsk) + inq_window (inq rsk)))
                 (inq rsk)) rsk in
          match quic_frame_create sk1 QUIC_FRAME_MAX_DATA
                  (DATA_INQ (inq sk1)) with
          | (None, sk2) =>
              (- ENOMEM,
               set_inq (set_inq_max_bytes (inq_max_bytes (inq rsk)) (inq sk2))
                 sk2)
          | (Some fskb, sk2) =>
              (body_len fb, quic_outq_ctrl_tail sk2 fskb true)
          end).
Proof.
  intros H Hv. frame_of H quic_frame_data_blocked_create.
  split; [rewrite H; reflexivity|].
  assert (P : forall rest slack,
             get_var1 (mk_skb (quic_put_var (outq_max_bytes q) ++ rest) slack)
             = Some (outq_max_bytes q, rest ++ slack, len_of rest))
    by (intros; apply get_var1_put; assumption).
  split.
  { intros rest slack. unfold decoder_input. rewrite H. apply P. }
  intros rest slack rsk.
  decode_with H quic_frame_data_blocked_process P. reflexivity.
Qed.

Lemma max_streams_bidi_roundtrip sk max fb sk' :
  quic_frame_create sk QUIC_FRAME_MAX_STREAMS_BIDI (DATA_U64 max)
  = (Some fb, sk') ->
  varint max ->
  hd 0 (fb_data fb) = QUIC_FRAME_MAX_STREAMS_BIDI
  /\ reads_back fb get_var1 (fun p l => (max, p, l))
  /\ forall rest slack rsk,
       decoded ops fb rest slack rsk
       = (body_len fb,
          if max <? send_max_streams_bidi (streams rsk) then rsk
          else sk_write_space
                 (set_streams (set_send_streams_bidi max (streams rsk)) rsk)).
Proof.
  intros H Hv. frame_of H quic_frame_max_streams_bidi_create.
  split; [rewrite H; reflexivity|].
  assert (P : forall rest slack,
             get_var1 (mk_skb (quic_put_var max ++ rest) slack)
             = Some (max, rest ++ slack, len_of rest))
    by (intros; apply get_var1_put; assumption).
  split.
  { intros rest slack. unfold decoder_input. rewrite H. apply P. }
  intros rest slack rsk.
  decode_with H quic_frame_max_streams_bidi_process P. reflexivity.
Qed.

Lemma max_streams_uni_roundtrip sk max fb sk' :
  quic_frame_create sk QUIC_FRAME_MAX_STREAMS_UNI (DATA_U64 max)
  = (Some fb, sk') ->
  varint max ->
  hd 0 (fb_data fb) = QUIC_FRAME_MAX_STREAMS_UNI
  /\ reads_back fb get_var1 (fun p l => (max, p, l))
  /\ forall rest slack rsk,
       decoded ops fb rest slack rsk
       = (body_len fb,
          if max <? send_max_streams_uni (streams rsk) then rsk
          else sk_write_space
                 (set_streams (set_send_streams_uni max (streams rsk)) rsk)).
Proof.
  intros H Hv. frame_of H quic_frame_max_streams_uni_create.
  split; [rewrite H; reflexivity|].
  assert (P : forall rest slack,
             get_var1 (mk_skb (quic_put_var max ++ rest) slack)
             = Some (max, rest ++ slack, len_of rest))
    by (intros; apply get_var1_put; assumption).
  split.
  { intros rest slack. unfold decoder_input. rewrite H. apply P. }
  intros rest slack rsk.
  decode_with H quic_frame_max_streams_uni_process P. reflexivity.
Qed.

Lemma streams_blocked_count max :
  0 <= max < 2 ^ 32 ->
  u32 (Z.shiftr max 2 + 1) = Z.shiftr max 2 + 1
  /\ varint (Z.shiftr max 2 + 1).
Proof.
  intros H. rewrite Z.shiftr_div_pow2 by lia. change (2 ^ 2) with 4.
  assert (0 <= max / 4 < 2 ^ 30).
  { split; [apply Z.div_pos; lia|].
    apply Z.div_lt_upper_bound; lia. }
  unfold u32, varint. rewrite Z.mod_small by lia. lia.
Qed.

Lemma streams_blocked_bidi_roundtrip sk max fb sk' :
  quic_frame_create sk QUIC_FRAME_STREAMS_BLOCKED_BIDI (DATA_U32 max)
  = (Some fb, sk') ->
  0 <= max < 2 ^ 32 ->
  let count := Z.shiftr max 2 + 1 in
  hd 0 (fb_data fb) = QUIC_FRAME_STREAMS_BLOCKED_BIDI
  /\ reads_back fb get_var1 (fun p l => (count, p, l))
  /\ forall rest slack rsk,
       decoded ops fb rest slack rsk
       = (if count <? recv_max_streams_bidi (streams rsk)
          then (body_len fb, rsk)
          else
            match quic_frame_create rsk QUIC_FRAME_MAX_STREAMS_BIDI
                    (DATA_U64 count) with
            | (None, sk1) => (- ENOMEM, sk1)
            | (Some fskb, sk1) =>
                let sk2 := quic_outq_ctrl_tail sk1 fskb true in
                (body_len fb,
                 set_streams (set_recv_max_streams_bidi count (streams sk2))
                   sk2)
            end).
Proof.
  intros H Hv count. frame_of H quic_frame_streams_blocked_bidi_create.
  destruct (streams_blocked_count Hv) as [Hu Hc]. rewrite Hu in H.
  fold count in H, Hc.
  split; [rewrite H; reflexivity|].
  assert (P : forall rest slack,
             get_var1 (mk_skb (quic_put_var count ++ rest) slack)
             = Some (count, rest ++ slack, len_of rest))
    by (intros; apply get_var1_put; assumption).
  split.
  { intros rest slack. unfold decoder_input. rewrite H. apply P. }
  intros rest slack rsk.
  decode_with H quic_frame_streams_blocked_bidi_process P. reflexivity.
Qed.

Lemma streams_blocked_uni_roundtrip sk max fb sk' :
  quic_frame_create sk QUIC_FRAME_STREAMS_BLOCKED_UNI (DATA_U32 max)
  = (Some fb, sk') ->
  0 <= max < 2 ^ 32 ->
  let count := Z.shiftr max 2 + 1 in
  hd 0 (fb_data fb) = QUIC_FRAME_STREAMS_BLOCKED_UNI
  /\ reads_back fb get_var1 (fun p l => (count, p, l))
  /\ forall rest slack rsk,
       decoded ops fb rest slack rsk
       = (if count <? recv_max_streams_uni (streams rsk)
          then (body_len fb, rsk)
          else
            match quic_frame_create rsk QUIC_FRAME_MAX_STREAMS_UNI
                    (DATA_U64 count) with
            | (None, sk1) => (- ENOMEM, sk1)
            | (Some fskb, sk1) =>
                let sk2 := quic_outq_ctrl_tail sk1 fskb true in
                (body_len fb,
                 set_streams (set_recv_max_streams_uni count (streams sk2))
                   sk2)
            end).
Proof.
  intros H Hv count. frame_of H quic_frame_streams_blocked_uni_create.
  destruct (streams_blocked_count Hv) as [Hu Hc]. rewrite Hu in H.
  fold count in H, Hc.
  split; [rewrite H; reflexivity|].
  assert (P : forall rest slack,
             get_var1 (mk_skb (quic_put_var count ++ rest) slack)
             = Some (count, rest ++ slack, len_of rest))
    by (intros; apply get_var1_put; assumption).
  split.
  { intros rest slack. unfold decoder_input. rewrite H. apply P. }
  intros rest slack rsk.
  decode_with H quic_frame_streams_blocked_uni_process P. reflexivity.
Qed.

Lemma quic_put_data_all d : quic_put_data d (len_of d) = d.
Proof.
  unfold quic_put_data, len_of. rewrite Nat2Z.id. apply firstn_all.
Qed.

Lemma retire_connection_id_roundtrip sk number fb sk' :
  quic_frame_create sk QUIC_FRAME_RETIRE_CONNECTION_ID (DATA_U64 number)
  = (Some fb, sk') ->
  varint number ->
  hd 0 (fb_data fb) = QUIC_FRAME_RETIRE_CONNECTION_ID
  /\ reads_back fb get_var1 (fun p l => (number, p, l))
  /\ forall rest slack rsk,
       decoded ops fb rest slack rsk
       = (let last := u32 (quic_connection_id_last_number (source rsk)) in
          let first := u32 (quic_connection_id_first_number (source rsk)) in
          if negb (number =? first) || (number =? last) then (- EINVAL, rsk)
          else
            let sk1 :=
              set_source (quic_connection_id_remove (source rsk) number)
                rsk in
            if u64 (last - number) >=? max_count (source sk1)
            then (body_len fb, sk1)
            else
              match quic_frame_create sk1 QUIC_FRAME_NEW_CONNECTION_ID
                      (DATA_U64 (u64 (number + 1))) with
              | (None, sk2) => (- ENOMEM, sk2)
              | (Some nskb, sk2) =>
                  (body_len fb, quic_outq_ctrl_tail sk2 nskb true)
              end).
Proof.
  intros H Hv. open_create H quic_frame_retire_connection_id_create.
  assert (Hb : fb_data fb
               = [QUIC_FRAME_RETIRE_CONNECTION_ID] ++ quic_put_var number).
  { destruct (alloc_atomic sk) as [[] s1]; cbn [negb] in H;
      [injection H as <- _ | discriminate].
    cbn [fb_frame_type skb_of Z.eqb set_fb_frame_type fb_data].
    try type_byte; reflexivity. }
  clear H. split; [rewrite Hb; reflexivity|].
  assert (P : forall rest slack,
             get_var1 (mk_skb (quic_put_var number ++ rest) slack)
             = Some (number, rest ++ slack, len_of rest))
    by (intros; apply get_var1_put; assumption).
  split.
  { intros rest slack. unfold decoder_input. rewrite Hb. apply P. }
  intros rest slack rsk.
  decode_with Hb quic_frame_retire_connection_id_process P. reflexivity.
Qed.

Lemma reset_stream_roundtrip sk info stream fb sk' :
  quic_frame_create sk QUIC_FRAME_RESET_STREAM (DATA_ERRINFO info)
  = (Some fb, sk') ->
  quic_stream_find (streams sk) (ei_stream_id info) = Some stream ->
  varint (ei_stream_id info) -> varint (ei_errcode info) ->
  varint (send_offset stream) ->
  hd 0 (fb_data fb) = QUIC_FRAME_RESET_STREAM
  /\ len_of (fb_data fb) <= 20
  /\ reads_back fb get_var3
       (fun p l =>
          (ei_stream_id info, ei_errcode info, send_offset stream, p, l))
  /\ forall rest slack rsk,
       decoded ops fb rest slack rsk
       = (let (stream, st) :=
            quic_stream_recv_get ops (streams rsk) (ei_stream_id info)
              (is_serv (common rsk)) in
          let sk1 := set_streams st rsk in
          if IS_ERR stream then (PTR_ERR stream, sk1)
          else
            (body_len fb,
             stream_store_at
               (set_recv_state QUIC_STREAM_RECV_STATE_RESET_RECVD)
               stream sk1)).
Proof.
  intros H Hf Hid Herr Hoff. open_create H quic_frame_reset_stream_create.
  rewrite Hf in H. cbv zeta in H. unfold frame_array in H.
  match type of H with
  | context [len_of ?f >? 20] =>
      destruct (Z.gtb_spec (len_of f) 20) as [|F]; [discriminate|]
  end.
  assert (Hb : fb_data fb
               = [QUIC_FRAME_RESET_STREAM]
                 ++ quic_put_var (ei_stream_id info)
                 ++ quic_put_var (ei_errcode info)
                 ++ quic_put_var (send_offset stream)).
  { destruct (alloc_atomic sk) as [[] s1]; cbn [negb] in H;
      [injection H as <- _ | discriminate].
    cbn [fb_frame_type Z.eqb set_fb_frame_type fb_data].
    try type_byte; reflexivity. }
  clear H. split; [rewrite Hb; reflexivity|].
  split.
  { rewrite Hb. revert F. type_byte. intros F. exact F. }
  assert (P : forall rest slack,
             get_var3 (mk_skb ((quic_put_var (ei_stream_id info)
                                ++ quic_put_var (ei_errcode info)
                                ++ quic_put_var (send_offset stream))
                               ++ rest) slack)
             = Some (ei_stream_id info, ei_errcode info, send_offset stream,
                     rest ++ slack, len_of rest))
    by (intros; apply get_var3_put; assumption).
  split.
  { intros rest slack. unfold decoder_input. rewrite Hb. apply P. }
  intros rest slack rsk.
  decode_with Hb (quic_frame_reset_stream_process ops) P. reflexivity.
Qed.

Lemma new_token_parse_put length d rest slack :
  varint length -> length = len_of d ->
  quic_frame_new_token_parse
    (mk_skb ((quic_put_var length ++ d) ++ rest) slack)
  = Some (length, d ++ rest ++ slack, length + len_of rest).
Proof.
  intros Hv Hl. unfold quic_frame_new_token_parse.
  rewrite mk_skb_data, mk_skb_len. rewrite <- !app_assoc, !len_of_app.
  pose proof (len_of_nonneg d). pose proof (len_of_nonneg rest).
  rewrite quic_get_put_var; [| assumption | lia].
  rewrite <- Hl. destruct (Z.gtb_spec length (length + len_of rest)); [lia|].
  reflexivity.
Qed.

Lemma new_token_roundtrip sk tok fb sk' :
  quic_frame_create sk QUIC_FRAME_NEW_TOKEN (DATA_TOKEN tok)
  = (Some fb, sk') ->
  varint (tk_len tok) -> tk_len tok = len_of (tk_data tok) ->
  hd 0 (fb_data fb) = QUIC_FRAME_NEW_TOKEN
  /\ reads_back fb quic_frame_new_token_parse
       (fun p l => (tk_len tok, tk_data tok ++ p, tk_len tok + l))
  /\ forall rest slack rsk,
       decoded ops fb rest slack rsk
       = (let (ok, sk1) := alloc_atomic rsk in
          if negb ok then (- ENOMEM, sk1)
          else
            (body_len fb,
             set_token {| tk_data := tk_data tok; tk_len := tk_len tok |}
               sk1)).
Proof.
  intros H Hv Hl. open_create H quic_frame_new_token_create.
  assert (Hb : fb_data fb
               = [QUIC_FRAME_NEW_TOKEN] ++ quic_put_var (tk_len tok)
                 ++ tk_data tok).
  { destruct (alloc_atomic sk) as [[] s1]; cbn [negb] in H;
      [injection H as <- _ | discriminate].
    cbn [fb_frame_type skb_of Z.eqb set_fb_frame_type fb_data].
    try type_byte. rewrite Hl at 2. rewrite quic_put_data_all. reflexivity. }
  clear H. split; [rewrite Hb; reflexivity|].
  pose proof (fun rest slack =>
                new_token_parse_put (tk_data tok) rest slack Hv Hl) as P.
  split.
  { intros rest slack. unfold decoder_input. rewrite Hb. apply P. }
  intros rest slack rsk.
  decode_with Hb quic_frame_new_token_process P.
  rewrite (firstn_prefix (tk_data tok) (rest ++ slack) Hl). reflexivity.
Qed.

Lemma crypto_parse_put length d rest slack :
  varint length -> length = len_of d -> hd 0 d = 4 -> d <> [] ->
  quic_frame_crypto_parse
    (mk_skb ((quic_put_var 0 ++ quic_put_var length ++ d) ++ rest) slack)
  = Some (length, d ++ rest ++ slack, length + len_of rest).
Proof.
  intros Hv Hl Hd Hne. unfold quic_frame_crypto_parse.
  rewrite mk_skb_data, mk_skb_len. rewrite <- !app_assoc, !len_of_app.
  pose proof (len_of_nonneg d). pose proof (len_of_nonneg rest).
  pose proof (len_of_nonneg (quic_put_var length)).
  rewrite quic_get_put_var; [| unfold varint; lia | lia].
  cbn [Z.eqb negb].
  rewrite quic_get_put_var; [| assumption | lia].
  rewrite <- Hl. destruct (Z.gtb_spec length (length + len_of rest)); [lia|].
  destruct d as [|b d']; [contradiction|]. cbn [app hd] in *. rewrite Hd.
  reflexivity.
Qed.

Lemma crypto_roundtrip sk tok fb sk' :
  quic_frame_create sk QUIC_FRAME_CRYPTO (DATA_TOKEN tok) = (Some fb, sk') ->
  varint (tk_len tok) -> tk_len tok = len_of (tk_data tok) ->
  hd 0 (tk_data tok) = 4 -> tk_data tok <> [] ->
  hd 0 (fb_data fb) = QUIC_FRAME_CRYPTO
  /\ reads_back fb quic_frame_crypto_parse
       (fun p l => (tk_len tok, tk_data tok ++ p, tk_len tok + l))
  /\ forall rest slack rsk,
       decoded ops fb rest slack rsk
       = (let (ok, sk1) := alloc_atomic rsk in
          if negb ok then (- ENOMEM, sk1)
          else
            (body_len fb,
             set_ticket {| tk_data := tk_data tok; tk_len := tk_len tok |}
               sk1)).
Proof.
  intros H Hv Hl Hd Hne. open_create H quic_frame_crypto_create.
  assert (Hb : fb_data fb
               = [QUIC_FRAME_CRYPTO] ++ quic_put_var 0
                 ++ quic_put_var (tk_len tok) ++ tk_data tok).
  { destruct (alloc_atomic sk) as [[] s1]; cbn [negb] in H;
      [injection H as <- _ | discriminate].
    cbn [fb_frame_type skb_of Z.eqb set_fb_frame_type fb_data].
    rewrite Hl at 2. rewrite quic_put_data_all. reflexivity. }
  clear H. split; [rewrite Hb; reflexivity|].
  pose proof (fun rest slack =>
                crypto_parse_put rest slack Hv Hl Hd Hne) as P.
  split.
  { intros rest slack. unfold decoder_input. rewrite Hb. apply P. }
  intros rest slack rsk.
  decode_with Hb quic_frame_crypto_process P.
  rewrite (firstn_prefix (tk_data tok) (rest ++ slack) Hl). reflexivity.
Qed.

Lemma path_parse_put e rest slack :
  length e = 8%nat ->
  quic_frame_path_parse (mk_skb (e ++ rest) slack) = Some (e, len_of rest).
Proof.
  intros He. unfold quic_frame_path_parse.
  rewrite mk_skb_data, mk_skb_len, len_of_app.
  assert (len_of e = 8) by (unfold len_of; rewrite He; reflexivity).
  pose proof (len_of_nonneg rest).
  destruct (Z.ltb_spec (len_of e + len_of rest) 8); [lia|].
  rewrite <- app_assoc, (firstn_exact e (rest ++ slack) He).
  repeat f_equal. lia.
Qed.

Lemma path_response_roundtrip sk e fb sk' :
  quic_frame_create sk QUIC_FRAME_PATH_RESPONSE (DATA_ENTROPY e)
  = (Some fb, sk') ->
  length e = 8%nat ->
  hd 0 (fb_data fb) = QUIC_FRAME_PATH_RESPONSE
  /\ reads_back fb quic_frame_path_parse (fun p l => (e, l))
  /\ forall rest slack rsk,
       decoded ops fb rest slack rsk
       = (let n := addr_len (common rsk) in
          let path := src (paths rsk) in
          let sk1 :=
            if entropy_eq (entropy path) e && pending path then
              let path := path_settle n path in
              set_paths
                (quic_set_sk_addr (slot_get (active path) (addr path)) true
                   (udp_sock_release (negb (active path))
                      (set_src path (paths rsk)))) rsk
            else rsk in
          let path := dst (paths sk1) in
          let sk2 :=
            if entropy_eq (entropy path) e && pending path then
              let path := path_settle n path in
              set_paths
                (quic_set_sk_addr (slot_get (active path) (addr path)) false
                   (set_dst path (paths sk1))) sk1
            else sk1 in
          (body_len fb, sk2)).
Proof.
  intros H He. frame_of H quic_frame_path_response_create.
  assert (Hd : quic_put_data e 8 = e)
    by (unfold quic_put_data; change (Z.to_nat 8) with 8%nat;
        rewrite <- He; apply firstn_all).
  rewrite Hd in H.
  split; [rewrite H; reflexivity|].
  pose proof (fun rest slack => @path_parse_put e rest slack He) as P.
  split.
  { intros rest slack. unfold decoder_input. rewrite H. apply P. }
  intros rest slack rsk.
  decode_with H quic_frame_path_response_process P. reflexivity.
Qed.

Lemma path_challenge_roundtrip sk local fb sk' :
  quic_frame_create sk QUIC_FRAME_PATH_CHALLENGE (DATA_PATH local)
  = (Some fb, sk') ->
  let e := fst (get_random_bytes 8 sk) in
  hd 0 (fb_data fb) = QUIC_FRAME_PATH_CHALLENGE
  /\ reads_back fb quic_frame_path_parse (fun p l => (e, l))
  /\ forall rest slack rsk,
       decoded ops fb rest slack rsk
       = match quic_frame_create rsk QUIC_FRAME_PATH_RESPONSE
                 (DATA_ENTROPY e) with
         | (None, sk1) => (- ENOMEM, sk1)
         | (Some fskb, sk1) =>
             (body_len fb, quic_outq_ctrl_tail sk1 fskb true)
         end.
Proof.
  intros H e. subst e. open_create H quic_frame_path_challenge_create.
  pose proof (random_bytes_length 8 sk) as He.
  unfold get_random_bytes in H. cbv iota beta in H.
  apply create_put_frame in H. revert H. type_byte. intros H.
  assert (Hd : forall e, length e = 8%nat -> quic_put_data e 8 = e)
    by (intros e Hl; unfold quic_put_data; change (Z.to_nat 8) with 8%nat;
        rewrite <- Hl; apply firstn_all).
  unfold get_random_bytes in He |- *. cbn [fst] in *.
  rewrite (Hd _ He) in H.
  split; [rewrite H; reflexivity|].
  pose proof (fun rest slack => @path_parse_put _ rest slack He) as P.
  split.
  { intros rest slack. unfold decoder_input. rewrite H. apply P. }
  intros rest slack rsk.
  decode_with H quic_frame_path_challenge_process P. reflexivity.
Qed.

Lemma ping_roundtrip sk d fb sk' :
  quic_frame_create sk QUIC_FRAME_PING d = (Some fb, sk') ->
  fb_data fb = [QUIC_FRAME_PING]
  /\ forall rest slack rsk,
       decoded ops fb rest slack rsk = (body_len fb, rsk).
Proof.
  intros H. frame_of H quic_frame_ping_create.
  split; [exact H|]. intros rest slack rsk.
  unfold decoded, body_len. rewrite H. reflexivity.
Qed.

Lemma handshake_done_roundtrip sk d fb sk' :
  quic_frame_create sk QUIC_FRAME_HANDSHAKE_DONE d = (Some fb, sk') ->
  fb_data fb = [QUIC_FRAME_HANDSHAKE_DONE]
  /\ forall rest slack rsk,
       decoded ops fb rest slack rsk = (body_len fb, rsk).
Proof.
  intros H. frame_of H quic_frame_handshake_done_create.
  split; [exact H|]. intros rest slack rsk.
  unfold decoded, body_len. rewrite H. reflexivity.
Qed.

Lemma overlay_zero k : overlay [0] (repeat 0 (S k)) = repeat 0 (S k).
Proof.
  unfold overlay. rewrite repeat_length. cbn [length skipn repeat app firstn].
  f_equal. rewrite <- (repeat_length 0 k) at 1. apply firstn_all.
Qed.

Lemma padding_roundtrip sk frame_len fb sk' :
  quic_frame_create sk QUIC_FRAME_PADDING (DATA_U32 frame_len)
  = (Some fb, sk') ->
  0 <= frame_len < 2 ^ 32 - 1 ->
  fb_data fb = repeat 0 (S (Z.to_nat frame_len))
  /\ body_len fb = frame_len
  /\ forall rest slack rsk,
       decoded ops fb rest slack rsk = (body_len fb + len_of rest, rsk).
Proof.
  intros H Hn. open_create H quic_frame_padding_create.
  assert (Hb : fb_data fb = repeat 0 (S (Z.to_nat frame_len))).
  { destruct (alloc_atomic sk) as [[] s1]; cbn [negb] in H;
      [injection H as <- _ | discriminate].
    cbn [fb_frame_type skb_of Z.eqb set_fb_frame_type fb_data].
    unfold u32. rewrite Z.mod_small by lia.
    replace (Z.to_nat (frame_len + 1)) with (S (Z.to_nat frame_len)) by lia.
    change (quic_put_var QUIC_FRAME_PADDING) with [0].
    apply overlay_zero. }
  clear H. split; [exact Hb|].
  assert (Hl : body_len fb = frame_len).
  { unfold body_len. rewrite Hb. cbn [repeat tl]. unfold len_of.
    rewrite repeat_length. lia. }
  split; [exact Hl|].
  intros rest slack rsk. unfold decoded, decoder_input, body_len.
  rewrite Hb. cbn [repeat hd tl].
  change (frame_process_of ops 0) with quic_frame_padding_process.
  unfold quic_frame_padding_process. rewrite mk_skb_len, len_of_app.
  reflexivity.
Qed.

Lemma strlen_no_nul s : Forall (fun c => c <> 0) s -> strlen s = len_of s.
Proof.
  induction 1 as [|c r Hc _ IH]; [reflexivity|].
  cbn [strlen]. destruct (Z.eqb_spec c 0); [contradiction|].
  rewrite IH. unfold len_of. cbn [length]. lia.
Qed.

Lemma close_phrase_put q :
  close_phrase_ok q ->
  let phrase_len :=
    match close_phrase q with Some s => u32 (strlen s + 1) | None => 0 end in
  let phrase :=
    match close_phrase q with Some s => s ++ [0] | None => [] end in
  phrase_len = len_of (close_phrase_bytes q)
  /\ quic_put_data phrase phrase_len = close_phrase_bytes q
  /\ 0 <= phrase_len <= 80
  /\ (phrase_len <> 0 ->
      forall tail,
        nth (Z.to_nat (phrase_len - 1)) (close_phrase_bytes q ++ tail) 0 = 0).
Proof.
  unfold close_phrase_ok, close_phrase_bytes.
  destruct (close_phrase q) as [s|]; cbv zeta.
  - intros [Hs Hl]. rewrite (strlen_no_nul Hs).
    pose proof (len_of_nonneg s).
    unfold u32. rewrite Z.mod_small by lia.
    assert (E : len_of (s ++ [0]) = len_of s + 1)
      by (rewrite len_of_app; reflexivity).
    rewrite <- E. rewrite quic_put_data_all.
    repeat split; try lia.
    intros _ tail. rewrite E.
    replace (Z.to_nat (len_of s + 1 - 1)) with (length s)
      by (unfold len_of; lia).
    rewrite <- app_assoc. change ([0] ++ tail) with (0 :: tail).
    rewrite nth_middle. reflexivity.
  - intros _. repeat split; try reflexivity; try lia.
Qed.

Lemma connection_close_parse_put type err ftype bytes rest slack :
  varint err -> varint ftype ->
  0 <= len_of bytes <= 80 ->
  (len_of bytes <> 0 ->
   forall tail, nth (Z.to_nat (len_of bytes - 1)) (bytes ++ tail) 0 = 0) ->
  quic_frame_connection_close_parse
    (mk_skb ((quic_put_var err
              ++ (if type =? QUIC_FRAME_CONNECTION_CLOSE
                  then quic_put_var ftype else [])
              ++ quic_put_var (len_of bytes) ++ bytes) ++ rest) slack) type
  = Some (err, if type =? QUIC_FRAME_CONNECTION_CLOSE then ftype else 0,
          len_of bytes, bytes ++ rest ++ slack, len_of bytes + len_of rest).
Proof.
  intros He Hf Hb Hn.
  unfold quic_frame_connection_close_parse,
    quic_frame_connection_close_header.
  rewrite mk_skb_data, mk_skb_len. rewrite <- !app_assoc, !len_of_app.
  pose proof (len_of_nonneg rest).
  pose proof (len_of_nonneg (quic_put_var ftype)).
  pose proof (len_of_nonneg (quic_put_var (len_of bytes))).
  assert (Hv : varint (len_of bytes)) by (unfold varint; lia).
  destruct (type =? QUIC_FRAME_CONNECTION_CLOSE).
  - rewrite quic_get_put_var; [| assumption | lia].
    rewrite quic_get_put_var; [| assumption | lia].
    rewrite quic_get_put_var; [| assumption | lia].
    destruct (Z.gtb_spec (len_of bytes) (len_of bytes + len_of rest)); [lia|].
    destruct (Z.eqb_spec (len_of bytes) 0) as [E|E]; cbn [negb andb];
      [reflexivity|].
    destruct (Z.gtb_spec (len_of bytes) 80); [lia|].
    rewrite (Hn E). reflexivity.
  - cbn [app len_of length Z.of_nat]. rewrite Z.add_0_l.
    rewrite quic_get_put_var; [| assumption | lia].
    rewrite quic_get_put_var; [| assumption | lia].
    destruct (Z.gtb_spec (len_of bytes) (len_of bytes + len_of rest)); [lia|].
    destruct (Z.eqb_spec (len_of bytes) 0) as [E|E]; cbn [negb andb];
      [reflexivity|].
    destruct (Z.gtb_spec (len_of bytes) 80); [lia|].
    rewrite (Hn E). reflexivity.
Qed.

Lemma connection_close_roundtrip sk type d fb sk' :
  quic_frame_create sk type d = (Some fb, sk') ->
  type = QUIC_FRAME_CONNECTION_CLOSE \/ type = QUIC_FRAME_CONNECTION_CLOSE_APP ->
  varint (close_errcode (outq sk)) -> varint (close_frame (outq sk)) ->
  close_phrase_ok (outq sk) ->
  hd 0 (fb_data fb) = type
  /\ len_of (fb_data fb) <= 100
  /\ reads_back fb
       (fun skb => quic_frame_connection_close_parse skb type)
       (fun p l =>
          (close_errcode (outq sk),
           if type =? QUIC_FRAME_CONNECTION_CLOSE
           then close_frame (outq sk) else 0,
           len_of (close_phrase_bytes (outq sk)),
           close_phrase_bytes (outq sk) ++ p,
           len_of (close_phrase_bytes (outq sk)) + l))
  /\ forall rest slack rsk,
       decoded ops fb rest slack rsk
       = (body_len fb,
          sk_state_change
            (quic_set_state
               (set_common (set_sk_err (- EPIPE) (common rsk)) rsk)
               QUIC_STATE_USER_CLOSED)).
Proof.
  intros H Ht He Hf Hp.
  destruct (@close_phrase_put (outq sk) Hp) as (Hl & Hd & Hr & Hn).
  assert (Hb : fb_data fb
               = [type]
                 ++ quic_put_var (close_errcode (outq sk))
                 ++ (if type =? QUIC_FRAME_CONNECTION_CLOSE
                     then quic_put_var (close_frame (outq sk)) else [])
                 ++ quic_put_var (len_of (close_phrase_bytes (outq sk)))
                 ++ close_phrase_bytes (outq sk)
               /\ len_of (fb_data fb) <= 100).
  { destruct Ht as [-> | ->];
      open_create H quic_frame_connection_close_create; cbv zeta in H;
      apply create_array_frame in H; destruct H as [H F];
      rewrite <- H in F; (split; [|exact F]);
      rewrite Hd, Hl in H; rewrite H; type_byte; reflexivity. }
  clear H. destruct Hb as [Hb F].
  split; [rewrite Hb; reflexivity|]. split; [exact F|].
  rewrite Hl in Hr, Hn.
  pose proof (fun rest slack =>
                @connection_close_parse_put type _ _ _ rest slack
                  He Hf Hr Hn) as P.
  split.
  { intros rest slack. unfold decoder_input. rewrite Hb. apply P. }
  intros rest slack rsk.
  unfold decoded, decoder_input, body_len, frame_process_of.
  rewrite Hb. cbn [tl hd app].
  assert (Hdec : nth (Z.to_nat type) (quic_frame_ops_process ops)
                   (fun s _ _ => (- EPROTONOSUPPORT, s))
                 = quic_frame_connection_close_process)
    by (destruct Ht as [-> | ->]; reflexivity).
  rewrite Hdec. unfold quic_frame_connection_close_process. rewrite P.
  cbv beta iota zeta. exact_count. reflexivity.
Qed.

Lemma new_connection_id_parse_put seqno prior cid tok rest slack :
  varint seqno -> varint prior ->
  length cid = 16%nat -> length tok = 16%nat ->
  quic_frame_new_connection_id_parse
    (mk_skb ((quic_put_var seqno ++ quic_put_var prior ++ quic_put_var 16
              ++ cid ++ tok) ++ rest) slack)
  = Some (seqno, prior, 16, cid ++ tok ++ rest ++ slack, 32 + len_of rest).
Proof.
  intros Hs Hp Hc Ht. unfold quic_frame_new_connection_id_parse.
  rewrite mk_skb_data, mk_skb_len. rewrite <- !app_assoc, !len_of_app.
  assert (len_of cid = 16) by (unfold len_of; rewrite Hc; reflexivity).
  assert (len_of tok = 16) by (unfold len_of; rewrite Ht; reflexivity).
  pose proof (len_of_nonneg rest).
  pose proof (len_of_nonneg (quic_put_var prior)).
  pose proof (len_of_nonneg (quic_put_var 16)).
  rewrite quic_get_put_var; [| assumption | lia].
  rewrite quic_get_put_var; [| assumption | lia].
  rewrite quic_get_put_var; [| unfold varint; lia | lia].
  destruct (Z.gtb_spec (16 + 16) (len_of cid + (len_of tok + len_of rest)));
    [lia|].
  replace (len_of cid + (len_of tok + len_of rest)) with (32 + len_of rest)
    by lia.
  reflexivity.
Qed.

(** The entry appended to a connection-ID set holds the first [cid_len]
    bytes behind the cursor. *)
Lemma quic_connection_id_append_prefix r number cid tail sk :
  quic_connection_id_append r number (cid ++ tail) (len_of cid) sk
  = quic_connection_id_append r number cid (len_of cid) sk.
Proof.
  unfold quic_connection_id_append.
  assert (E : firstn (Z.to_nat (len_of cid)) (cid ++ tail)
              = firstn (Z.to_nat (len_of cid)) cid).
  { rewrite (firstn_prefix cid tail eq_refl).
    unfold len_of. rewrite Nat2Z.id, firstn_all. reflexivity. }
  rewrite E. reflexivity.
Qed.

Lemma new_connection_id_roundtrip sk prior fb sk' :
  quic_frame_create sk QUIC_FRAME_NEW_CONNECTION_ID (DATA_U64 prior)
  = (Some fb, sk') ->
  varint prior ->
  varint (quic_connection_id_last_number (source sk) + 1) ->
  (16 <= length (stack (env sk)))%nat ->
  let seqno := quic_connection_id_last_number (source sk) + 1 in
  let cid := fst (get_random_bytes 16 sk) in
  hd 0 (fb_data fb) = QUIC_FRAME_NEW_CONNECTION_ID
  /\ reads_back fb quic_frame_new_connection_id_parse
       (fun p l =>
          (seqno, prior, 16, cid ++ firstn 16 (stack (env sk)) ++ p, 32 + l))
  /\ forall rest slack rsk,
       decoded ops fb rest slack rsk
       = (if negb (seqno =? quic_connection_id_last_number (dest rsk) + 1)
             || (prior >? seqno)
          then (- EINVAL, rsk)
          else
            let (err, sk1) :=
              quic_connection_id_append ID_DEST seqno cid 16 rsk in
            if negb (err =? 0) then (err, sk1)
            else
              let first := quic_connection_id_first_number (dest sk1) in
              if prior <=? first then (body_len fb, sk1)
              else
                match quic_frame_retire_prior (Z.to_nat (prior - first)) sk1
                        first with
                | (false, sk2) => (- ENOMEM, sk2)
                | (true, sk2) => (body_len fb, sk2)
                end).
Proof.
  intros H Hp Hs Hk seqno cid.
  open_create H quic_frame_new_connection_id_create.
  pose proof (random_bytes_length 16 sk) as Hc.
  assert (Ht : length (firstn 16 (stack (env sk))) = 16%nat)
    by (rewrite length_firstn; lia).
  assert (Hu : u64 (quic_connection_id_last_number (source sk) + 1)
               = quic_connection_id_last_number (source sk) + 1)
    by (unfold u64, varint in *; apply Z.mod_small; lia).
  assert (Hd : forall e, length e = 16%nat -> quic_put_data e 16 = e)
    by (intros e Hl; unfold quic_put_data; change (Z.to_nat 16) with 16%nat;
        rewrite <- Hl; apply firstn_all).
  fold cid in Hc.
  unfold get_random_bytes in H, cid. cbn [fst] in cid.
  cbv beta iota zeta in H. rewrite Hu in H. fold seqno cid in H.
  rewrite (Hd _ Hc), (Hd _ Ht) in H.
  unfold quic_connection_id_append in H.
  assert (Hb : fb_data fb
               = [QUIC_FRAME_NEW_CONNECTION_ID]
                 ++ quic_put_var seqno
                 ++ quic_put_var prior ++ quic_put_var 16
                 ++ cid ++ firstn 16 (stack (env sk))).
  { repeat match type of H with
           | context [alloc_atomic ?s] =>
               destruct (alloc_atomic s) as [[] ?]; cbn [negb Z.eqb] in H
           end; try discriminate.
    injection H as <- _.
    cbn [fb_frame_type skb_of Z.eqb set_fb_frame_type fb_data].
    try type_byte; reflexivity. }
  clear H. split; [rewrite Hb; reflexivity|].
  pose proof (fun rest slack =>
                @new_connection_id_parse_put _ _ _ _ rest slack Hs Hp Hc Ht)
    as P.
  fold seqno in P.
  split.
  { intros rest slack. unfold decoder_input. rewrite Hb. apply P. }
  intros rest slack rsk.
  assert (Lc : len_of cid = 16) by (unfold len_of; rewrite Hc; reflexivity).
  assert (Lt : len_of (firstn 16 (stack (env sk))) = 16)
    by (unfold len_of; rewrite Ht; reflexivity).
  decode_with Hb quic_frame_new_connection_id_process P.
  rewrite <- Lc at 1 2.
  rewrite (quic_connection_id_append_prefix ID_DEST seqno cid
             (firstn 16 (stack (env sk)) ++ rest ++ slack) rsk).
  rewrite Lc. reflexivity.
Qed.

Lemma stream_process_dispatch t :
  8 <= t <= 15 ->
  nth (Z.to_nat t) (quic_frame_ops_process ops)
    (fun s _ _ => (- EPROTONOSUPPORT, s))
  = quic_frame_stream_process ops.
Proof.
  intros H.
  assert (E : t = 8 \/ t = 9 \/ t = 10 \/ t = 11 \/ t = 12
              \/ t = 13 \/ t = 14 \/ t = 15) by lia.
  repeat (destruct E as [E|E]); subst t; reflexivity.
Qed.

Lemma stream_roundtrip sk type info stream fb sk' :
  quic_frame_create sk type (DATA_MSGINFO info) = (Some fb, sk') ->
  8 <= type <= 15 ->
  quic_stream_find (streams sk) (mi_stream info) = Some stream ->
  varint (stream_id stream) -> varint (send_offset stream) ->
  let t := hd 0 (fb_data fb) in
  let n := fb_data_bytes fb in
  8 <= t <= 15
  /\ has_bit t QUIC_STREAM_BIT_FIN
     = has_bit type QUIC_STREAM_BIT_FIN
       || ((u32 (len_of (mi_msg info)) <=? stream_frame_room sk stream)
           && mi_flag_fin info)
  /\ n = stream_frame_msg_len sk stream info
  /\ reads_back fb (fun skb => quic_frame_stream_parse skb t)
       (fun p l =>
          (stream_id stream, send_offset stream, n,
           firstn (Z.to_nat n) (mi_msg info) ++ p, n + l))
  /\ forall rest slack rsk,
       decoded ops fb rest slack rsk
       = (let (ptr, st) :=
            quic_stream_recv_get ops (streams rsk) (stream_id stream)
              (is_serv (common rsk)) in
          let sk1 := set_streams st rsk in
          match ptr with
          | STREAM_NULL => (- EINVAL, sk1)
          | _ =>
              let (ok, sk2) := alloc_atomic sk1 in
              if negb ok then (- ENOMEM, sk2)
              else
                let (err, sk3) :=
                  quic_inq_reasm_tail ops sk2
                    {| rf_payload := firstn (Z.to_nat n) (mi_msg info);
                       rf_stream := ptr;
                       rf_stream_fin := has_bit t QUIC_STREAM_BIT_FIN;
                       rf_stream_offset := send_offset stream |} in
                if negb (err =? 0) then (err, sk3) else (body_len fb, sk3)
          end).
Proof.
  intros H Ht Hf Hid Hoff.
  rewrite quic_frame_create_stream in H by assumption.
  rewrite (@quic_frame_stream_create_eq _ _ _ _ Hf) in H. cbv zeta in H.
  pose proof (@stream_frame_type_bits sk stream info type Ht) as B.
  cbv zeta in B. destruct B as (Brange & Boff & Blen & Bfin).
  pose proof (stream_frame_msg_len_range sk stream info) as [Nr Nlt].
  set (t := stream_frame_type sk stream info type) in *.
  set (n := stream_frame_msg_len sk stream info) in *.
  assert (Hb : fb_data fb
               = [t] ++ (quic_put_var (stream_id stream)
                         ++ (if has_bit t QUIC_STREAM_BIT_OFF
                             then quic_put_var (send_offset stream) else [])
                         ++ quic_put_var n)
                 ++ firstn (Z.to_nat n) (mi_msg info)
               /\ fb_data_bytes fb = n).
  { destruct (negb (fst (alloc_atomic sk))); [discriminate|].
    destruct (mi_fault info); [discriminate|].
    cbn [fb_frame_type] in H.
    destruct (Z.eqb_spec t 0); [lia|].
    injection H as <- _. cbn [fb_data fb_data_bytes].
    rewrite (@quic_put_var_small t) by lia. rewrite <- !app_assoc.
    split; reflexivity. }
  clear H. destruct Hb as [Hb Hn]. cbv zeta. rewrite Hn.
  replace (hd 0 (fb_data fb)) with t by (rewrite Hb; reflexivity).
  split; [exact Brange|]. split; [exact Bfin|]. split; [reflexivity|].
  assert (Hlen : len_of (firstn (Z.to_nat n) (mi_msg info)) = n).
  { unfold len_of. rewrite length_firstn. unfold len_of in Nr. lia. }
  assert (Hvn : varint n) by (unfold varint; lia).
  assert (P : forall rest slack,
            quic_frame_stream_parse
                (mk_skb
                   (((quic_put_var (stream_id stream)
                      ++ (if has_bit t QUIC_STREAM_BIT_OFF
                          then quic_put_var (send_offset stream) else [])
                      ++ quic_put_var n)
                     ++ firstn (Z.to_nat n) (mi_msg info)) ++ rest) slack) t
              = Some (stream_id stream, send_offset stream, n,
                      firstn (Z.to_nat n) (mi_msg info) ++ rest ++ slack,
                      n + len_of rest)).
  { intros rest slack.
    unfold quic_frame_stream_parse. rewrite Blen.
    rewrite mk_skb_data, mk_skb_len. rewrite <- !app_assoc, !len_of_app.
    rewrite Hlen.
    pose proof (len_of_nonneg rest).
    pose proof (len_of_nonneg (quic_put_var n)).
    destruct (has_bit t QUIC_STREAM_BIT_OFF) eqn:Eoff.
    - pose proof (len_of_nonneg (quic_put_var (send_offset stream))).
      rewrite quic_get_put_var; [| assumption | lia].
      rewrite quic_get_put_var; [| assumption | lia].
      rewrite quic_get_put_var; [| assumption | lia].
      destruct (Z.gtb_spec n (n + len_of rest)); [lia|]. reflexivity.
    - assert (Hz : send_offset stream = 0).
      { symmetry in Boff. apply orb_false_iff in Boff. destruct Boff as [_ Bo].
        apply negb_false_iff in Bo. apply Z.eqb_eq. exact Bo. }
      cbn [app len_of length Z.of_nat]. rewrite Z.add_0_l.
      rewrite quic_get_put_var; [| assumption | lia].
      rewrite quic_get_put_var; [| assumption | lia].
      destruct (Z.gtb_spec n (n + len_of rest)); [lia|].
      rewrite Hz. reflexivity. }
  split.
  { intros rest slack. unfold decoder_input. rewrite Hb. apply P. }
  intros rest slack rsk.
  unfold decoded, decoder_input, body_len, frame_process_of.
  rewrite Hb. cbn [tl hd app].
  rewrite (stream_process_dispatch Brange).
  unfold quic_frame_stream_process. rewrite P. cbv beta iota zeta.
  exact_count.
  rewrite (firstn_prefix (firstn (Z.to_nat n) (mi_msg info)) (rest ++ slack)
             (eq_sym Hlen)).
  reflexivity.
Qed.

End Roundtrip.

(** ** The round trip of the codec *)

Lemma streams_blocked_limit_not_read_back :
  option_map fb_data
    (fst (quic_frame_create (sample_sock [] [])
            QUIC_FRAME_STREAMS_BLOCKED_UNI (DATA_U32 8)))
  = Some [0x17; 0x03]
  /\ get_var1 (mk_skb [0x03] []) = Some (3, [], 0)
  /\ 3 <> 8.
Proof. cbv. repeat split. discriminate. Qed.

(** C1 (amended): for every frame of the kinds PING, PADDING, NEW_TOKEN,
    STREAM, RESET_STREAM, STOP_SENDING, MAX_DATA, MAX_STREAM_DATA,
    MAX_STREAMS, DATA_BLOCKED, STREAM_DATA_BLOCKED, PATH_CHALLENGE,
    PATH_RESPONSE, NEW_CONNECTION_ID, RETIRE_CONNECTION_ID,
    CONNECTION_CLOSE, HANDSHAKE_DONE and CRYPTO that [quic_frame_create]
    hands out, whose integers are in the VarInt range (a CRYPTO ticket
    starts with the byte 4, a reason phrase has at most 80 bytes, an
    entropy 8), the frame starts with its type byte and fits the array it
    is assembled in (10 bytes for STOP_SENDING, MAX_STREAM_DATA and
    STREAM_DATA_BLOCKED, 20 for RESET_STREAM, 100 for CONNECTION_CLOSE: no
    frame is handed out that does not); the validated reads of its
    decoder give back the fields the encoder wrote and leave the cursor on
    what follows the frame; and the decoder of the dispatch table, run on
    any receiving socket over the frame and whatever follows it, does with
    those fields what its code says and reports exactly the bytes the
    encoder produced behind the type byte, [body_len], in every branch
    that does not end in an errno.  The branches that do are those of the
    receiving socket alone: a stream the receiver does not know or
    refuses, an allocation that fails, an answering frame that cannot be
    created, a connection ID out of sequence.  PADDING reports all that is
    left of the packet, the encoder's count when the frame ends the packet.
    STREAMS_BLOCKED is read back as the count [(max >> 2) + 1] the encoder
    writes, not as the limit [max] it was given. *)
Theorem frame_roundtrip (ops : collaborators) :
  (forall sk d fb sk',
    quic_frame_create sk QUIC_FRAME_PING d = (Some fb, sk') ->
    fb_data fb = [QUIC_FRAME_PING]
    /\ forall rest slack rsk,
         decoded ops fb rest slack rsk = (body_len fb, rsk))
  /\ (forall sk frame_len fb sk',
    quic_frame_create sk QUIC_FRAME_PADDING (DATA_U32 frame_len)
    = (Some fb, sk') ->
    0 <= frame_len < 2 ^ 32 - 1 ->
    fb_data fb = repeat 0 (S (Z.to_nat frame_len))
    /\ body_len fb = frame_len
    /\ forall rest slack rsk,
         decoded ops fb rest slack rsk = (body_len fb + len_of rest, rsk))
  /\ (forall sk tok fb sk',
    quic_frame_create sk QUIC_FRAME_NEW_TOKEN (DATA_TOKEN tok)
    = (Some fb, sk') ->
    varint (tk_len tok) -> tk_len tok = len_of (tk_data tok) ->
    hd 0 (fb_data fb) = QUIC_FRAME_NEW_TOKEN
    /\ reads_back fb quic_frame_new_token_parse
         (fun p l => (tk_len tok, tk_data tok ++ p, tk_len tok + l))
    /\ forall rest slack rsk,
         decoded ops fb rest slack rsk
         = (let (ok, sk1) := alloc_atomic rsk in
            if negb ok then (- ENOMEM, sk1)
            else
              (body_len fb,
               set_token {| tk_data := tk_data tok; tk_len := tk_len tok |}
                 sk1)))
  /\ (forall sk type info stream fb sk',
    quic_frame_create sk type (DATA_MSGINFO info) = (Some fb, sk') ->
    8 <= type <= 15 ->
    quic_stream_find (streams sk) (mi_stream info) = Some stream ->
    varint (stream_id stream) -> varint (send_offset stream) ->
    let t := hd 0 (fb_data fb) in
    let n := fb_data_bytes fb in
    8 <= t <= 15
    /\ has_bit t QUIC_STREAM_BIT_FIN
       = has_bit type QUIC_STREAM_BIT_FIN
         || ((u32 (len_of (mi_msg info)) <=? stream_frame_room sk stream)
             && mi_flag_fin info)
    /\ n = stream_frame_msg_len sk stream info
    /\ reads_back fb (fun skb => quic_frame_stream_parse skb t)
         (fun p l =>
            (stream_id stream, send_offset stream, n,
             firstn (Z.to_nat n) (mi_msg info) ++ p, n + l))
    /\ forall rest slack rsk,
         decoded ops fb rest slack rsk
         = (let (ptr, st) :=
              quic_stream_recv_get ops (streams rsk) (stream_id stream)
                (is_serv (common rsk)) in
            let sk1 := set_streams st rsk in
            match ptr with
            | STREAM_NULL => (- EINVAL, sk1)
            | _ =>
                let (ok, sk2) := alloc_atomic sk1 in
                if negb ok then (- ENOMEM, sk2)
                else
                  let (err, sk3) :=
                    quic_inq_reasm_tail ops sk2
                      {| rf_payload := firstn (Z.to_nat n) (mi_msg info);
                         rf_stream := ptr;
                         rf_stream_fin := has_bit t QUIC_STREAM_BIT_FIN;
                         rf_stream_offset := send_offset stream |} in
                  if negb (err =? 0) then (err, sk3) else (body_len fb, sk3)
            end))
  /\ (forall sk info stream fb sk',
    quic_frame_create sk QUIC_FRAME_RESET_STREAM (DATA_ERRINFO info)
    = (Some fb, sk') ->
    quic_stream_find (streams sk) (ei_stream_id info) = Some stream ->
    varint (ei_stream_id info) -> varint (ei_errcode info) ->
    varint (send_offset stream) ->
    hd 0 (fb_data fb) = QUIC_FRAME_RESET_STREAM
    /\ len_of (fb_data fb) <= 20
    /\ reads_back fb get_var3
         (fun p l =>
            (ei_stream_id info, ei_errcode info, send_offset stream, p, l))
    /\ forall rest slack rsk,
         decoded ops fb rest slack rsk
         = (let (stream, st) :=
              quic_stream_recv_get ops (streams rsk) (ei_stream_id info)
                (is_serv (common rsk)) in
            let sk1 := set_streams st rsk in
            if IS_ERR stream then (PTR_ERR stream, sk1)
            else
              (body_len fb,
               stream_store_at
                 (set_recv_state QUIC_STREAM_RECV_STATE_RESET_RECVD)
                 stream sk1)))
  /\ (forall sk info fb sk',
    quic_frame_create sk QUIC_FRAME_STOP_SENDING (DATA_ERRINFO info)
    = (Some fb, sk') ->
    varint (ei_stream_id info) -> varint (ei_errcode info) ->
    hd 0 (fb_data fb) = QUIC_FRAME_STOP_SENDING
    /\ len_of (fb_data fb) <= 10
    /\ reads_back fb get_var2
         (fun p l => (ei_stream_id info, ei_errcode info, p, l))
    /\ forall rest slack rsk,
         decoded ops fb rest slack rsk
         = (let (stream, st) :=
              quic_stream_send_get ops (streams rsk) (ei_stream_id info) 0
                (is_serv (common rsk)) in
            let sk1 := set_streams st rsk in
            if IS_ERR stream then (PTR_ERR stream, sk1)
            else
              match quic_frame_create sk1 QUIC_FRAME_RESET_STREAM
                      (DATA_ERRINFO {| ei_stream_id := ei_stream_id info;
                                       ei_errcode := ei_errcode info |}) with
              | (None, sk2) => (- ENOMEM, sk2)
              | (Some nskb, sk2) =>
                  (body_len fb,
                   quic_outq_ctrl_tail
                     (stream_store_at
                        (set_send_state QUIC_STREAM_SEND_STATE_RESET_SENT)
                        stream sk2) nskb true)
              end))
  /\ (forall sk q fb sk',
    quic_frame_create sk QUIC_FRAME_MAX_DATA (DATA_INQ q) = (Some fb, sk') ->
    varint (inq_max_bytes q) ->
    hd 0 (fb_data fb) = QUIC_FRAME_MAX_DATA
    /\ reads_back fb get_var1 (fun p l => (inq_max_bytes q, p, l))
    /\ forall rest slack rsk,
         decoded ops fb rest slack rsk
         = (body_len fb,
            if inq_max_bytes q >=? outq_max_bytes (outq rsk)
            then set_outq (set_outq_max_bytes (inq_max_bytes q) 0 (outq rsk))
                   rsk
            else rsk))
  /\ (forall sk s fb sk',
    quic_frame_create sk QUIC_FRAME_MAX_STREAM_DATA (DATA_STREAM s)
    = (Some fb, sk') ->
    varint (stream_id s) -> varint (recv_max_bytes s) ->
    hd 0 (fb_data fb) = QUIC_FRAME_MAX_STREAM_DATA
    /\ len_of (fb_data fb) <= 10
    /\ reads_back fb get_var2
         (fun p l => (stream_id s, recv_max_bytes s, p, l))
    /\ forall rest slack rsk,
         decoded ops fb rest slack rsk
         = match quic_stream_find (streams rsk) (stream_id s) with
           | None => (- EINVAL, rsk)
           | Some stream =>
               (body_len fb,
                if recv_max_bytes s >=? send_max_bytes stream
                then stream_store (set_send_max_bytes (recv_max_bytes s) 0)
                       (stream_id s) rsk
                else rsk)
           end)
  /\ (forall sk max fb sk',
    quic_frame_create sk QUIC_FRAME_MAX_STREAMS_BIDI (DATA_U64 max)
    = (Some fb, sk') ->
    varint max ->
    hd 0 (fb_data fb) = QUIC_FRAME_MAX_STREAMS_BIDI
    /\ reads_back fb get_var1 (fun p l => (max, p, l))
    /\ forall rest slack rsk,
         decoded ops fb rest slack rsk
         = (body_len fb,
            if max <? send_max_streams_bidi (streams rsk) then rsk
            else sk_write_space
                   (set_streams (set_send_streams_bidi max (streams rsk)) rsk)))
  /\ (forall sk max fb sk',
    quic_frame_create sk QUIC_FRAME_MAX_STREAMS_UNI (DATA_U64 max)
    = (Some fb, sk') ->
    varint max ->
    hd 0 (fb_data fb) = QUIC_FRAME_MAX_STREAMS_UNI
    /\ reads_back fb get_var1 (fun p l => (max, p, l))
    /\ forall rest slack rsk,
         decoded ops fb rest slack rsk
         = (body_len fb,
            if max <? send_max_streams_uni (streams rsk) then rsk
            else sk_write_space
                   (set_streams (set_send_streams_uni max (streams rsk)) rsk)))
  /\ (forall sk q fb sk',
    quic_frame_create sk QUIC_FRAME_DATA_BLOCKED (DATA_OUTQ q)
    = (Some fb, sk') ->
    varint (outq_max_bytes q) ->
    hd 0 (fb_data fb) = QUIC_FRAME_DATA_BLOCKED
    /\ reads_back fb get_var1 (fun p l => (outq_max_bytes q, p, l))
    /\ forall rest slack rsk,
         decoded ops fb rest slack rsk
         = (let sk1 :=
              set_inq
                (set_inq_max_bytes
                   (u64 (inq_bytes (inq rsk) + inq_window (inq rsk)))
                   (inq rsk)) rsk in
            match quic_frame_create sk1 QUIC_FRAME_MAX_DATA
                    (DATA_INQ (inq sk1)) with
            | (None, sk2) =>
                (- ENOMEM,
                 set_inq (set_inq_max_bytes (inq_max_bytes (inq rsk)) (inq sk2))
                   sk2)
            | (Some fskb, sk2) =>
                (body_len fb, quic_outq_ctrl_tail sk2 fskb true)
            end))
  /\ (forall sk s fb sk',
    quic_frame_create sk QUIC_FRAME_STREAM_DATA_BLOCKED (DATA_STREAM s)
    = (Some fb, sk') ->
    varint (stream_id s) -> varint (send_max_bytes s) ->
    hd 0 (fb_data fb) = QUIC_FRAME_STREAM_DATA_BLOCKED
    /\ len_of (fb_data fb) <= 10
    /\ reads_back fb get_var2
         (fun p l => (stream_id s, send_max_bytes s, p, l))
    /\ forall rest slack rsk,
         decoded ops fb rest slack rsk
         = match quic_stream_find (streams rsk) (stream_id s) with
           | None => (- EINVAL, rsk)
           | Some stream =>
               let new_max := u64 (recv_bytes stream + recv_window stream) in
               let sk1 :=
                 stream_store (set_recv_max_bytes new_max) (stream_id s) rsk in
               if negb (recv_max_bytes stream =? new_max) then
                 match quic_frame_create sk1 QUIC_FRAME_MAX_STREAM_DATA
                         (DATA_STREAM (set_recv_max_bytes new_max stream)) with
                 | (None, sk2) =>
                     (- ENOMEM,
                      stream_store
                        (set_recv_max_bytes (recv_max_bytes stream))
                        (stream_id s) sk2)
                 | (Some fskb, sk2) =>
                     (body_len fb, quic_outq_ctrl_tail sk2 fskb true)
                 end
               else (body_len fb, sk1)
           end)
  /\ (forall sk max fb sk',
    quic_frame_create sk QUIC_FRAME_STREAMS_BLOCKED_BIDI (DATA_U32 max)
    = (Some fb, sk') ->
    0 <= max < 2 ^ 32 ->
    let count := Z.shiftr max 2 + 1 in
    hd 0 (fb_data fb) = QUIC_FRAME_STREAMS_BLOCKED_BIDI
    /\ reads_back fb get_var1 (fun p l => (count, p, l))
    /\ forall rest slack rsk,
         decoded ops fb rest slack rsk
         = (if count <? recv_max_streams_bidi (streams rsk)
            then (body_len fb, rsk)
            else
              match quic_frame_create rsk QUIC_FRAME_MAX_STREAMS_BIDI
                      (DATA_U64 count) with
              | (None, sk1) => (- ENOMEM, sk1)
              | (Some fskb, sk1) =>
                  let sk2 := quic_outq_ctrl_tail sk1 fskb true in
                  (body_len fb,
                   set_streams (set_recv_max_streams_bidi count (streams sk2))
                     sk2)
              end))
  /\ (forall sk max fb sk',
    quic_frame_create sk QUIC_FRAME_STREAMS_BLOCKED_UNI (DATA_U32 max)
    = (Some fb, sk') ->
    0 <= max < 2 ^ 32 ->
    let count := Z.shiftr max 2 + 1 in
    hd 0 (fb_data fb) = QUIC_FRAME_STREAMS_BLOCKED_UNI
    /\ reads_back fb get_var1 (fun p l => (count, p, l))
    /\ forall rest slack rsk,
         decoded ops fb rest slack rsk
         = (if count <? recv_max_streams_uni (streams rsk)
            then (body_len fb, rsk)
            else
              match quic_frame_create rsk QUIC_FRAME_MAX_STREAMS_UNI
                      (DATA_U64 count) with
              | (None, sk1) => (- ENOMEM, sk1)
              | (Some fskb, sk1) =>
                  let sk2 := quic_outq_ctrl_tail sk1 fskb true in
                  (body_len fb,
                   set_streams (set_recv_max_streams_uni count (streams sk2))
                     sk2)
              end))
  /\ (forall sk local fb sk',
    quic_frame_create sk QUIC_FRAME_PATH_CHALLENGE (DATA_PATH local)
    = (Some fb, sk') ->
    let e := fst (get_random_bytes 8 sk) in
    hd 0 (fb_data fb) = QUIC_FRAME_PATH_CHALLENGE
    /\ reads_back fb quic_frame_path_parse (fun p l => (e, l))
    /\ forall rest slack rsk,
         decoded ops fb rest slack rsk
         = match quic_frame_create rsk QUIC_FRAME_PATH_RESPONSE
                   (DATA_ENTROPY e) with
           | (None, sk1) => (- ENOMEM, sk1)
           | (Some fskb, sk1) =>
               (body_len fb, quic_outq_ctrl_tail sk1 fskb true)
           end)
  /\ (forall sk e fb sk',
    quic_frame_create sk QUIC_FRAME_PATH_RESPONSE (DATA_ENTROPY e)
    = (Some fb, sk') ->
    length e = 8%nat ->
    hd 0 (fb_data fb) = QUIC_FRAME_PATH_RESPONSE
    /\ reads_back fb quic_frame_path_parse (fun p l => (e, l))
    /\ forall rest slack rsk,
         decoded ops fb rest slack rsk
         = (let n := addr_len (common rsk) in
            let path := src (paths rsk) in
            let sk1 :=
              if entropy_eq (entropy path) e && pending path then
                let path := path_settle n path in
                set_paths
                  (quic_set_sk_addr (slot_get (active path) (addr path)) true
                     (udp_sock_release (negb (active path))
                        (set_src path (paths rsk)))) rsk
              else rsk in
            let path := dst (paths sk1) in
            let sk2 :=
              if entropy_eq (entropy path) e && pending path then
                let path := path_settle n path in
                set_paths
                  (quic_set_sk_addr (slot_get (active path) (addr path)) false
                     (set_dst path (paths sk1))) sk1
              else sk1 in
            (body_len fb, sk2)))
  /\ (forall sk prior fb sk',
    quic_frame_create sk QUIC_FRAME_NEW_CONNECTION_ID (DATA_U64 prior)
    = (Some fb, sk') ->
    varint prior ->
    varint (quic_connection_id_last_number (source sk) + 1) ->
    (16 <= length (stack (env sk)))%nat ->
    let seqno := quic_connection_id_last_number (source sk) + 1 in
    let cid := fst (get_random_bytes 16 sk) in
    hd 0 (fb_data fb) = QUIC_FRAME_NEW_CONNECTION_ID
    /\ reads_back fb quic_frame_new_connection_id_parse
         (fun p l =>
            (seqno, prior, 16, cid ++ firstn 16 (stack (env sk)) ++ p, 32 + l))
    /\ forall rest slack rsk,
         decoded ops fb rest slack rsk
         = (if negb (seqno =? quic_connection_id_last_number (dest rsk) + 1)
               || (prior >? seqno)
            then (- EINVAL, rsk)
            else
              let (err, sk1) :=
                quic_connection_id_append ID_DEST seqno cid 16 rsk in
              if negb (err =? 0) then (err, sk1)
              else
                let first := quic_connection_id_first_number (dest sk1) in
                if prior <=? first then (body_len fb, sk1)
                else
                  match quic_frame_retire_prior (Z.to_nat (prior - first)) sk1
                          first with
                  | (false, sk2) => (- ENOMEM, sk2)
                  | (true, sk2) => (body_len fb, sk2)
                  end))
  /\ (forall sk number fb sk',
    quic_frame_create sk QUIC_FRAME_RETIRE_CONNECTION_ID (DATA_U64 number)
    = (Some fb, sk') ->
    varint number ->
    hd 0 (fb_data fb) = QUIC_FRAME_RETIRE_CONNECTION_ID
    /\ reads_back fb get_var1 (fun p l => (number, p, l))
    /\ forall rest slack rsk,
         decoded ops fb rest slack rsk
         = (let last := u32 (quic_connection_id_last_number (source rsk)) in
            let first := u32 (quic_connection_id_first_number (source rsk)) in
            if negb (number =? first) || (number =? last) then (- EINVAL, rsk)
            else
              let sk1 :=
                set_source (quic_connection_id_remove (source rsk) number)
                  rsk in
              if u64 (last - number) >=? max_count (source sk1)
              then (body_len fb, sk1)
              else
                match quic_frame_create sk1 QUIC_FRAME_NEW_CONNECTION_ID
                        (DATA_U64 (u64 (number + 1))) with
                | (None, sk2) => (- ENOMEM, sk2)
                | (Some nskb, sk2) =>
                    (body_len fb, quic_outq_ctrl_tail sk2 nskb true)
                end))
  /\ (forall sk type d fb sk',
    quic_frame_create sk type d = (Some fb, sk') ->
    type = QUIC_FRAME_CONNECTION_CLOSE \/ type = QUIC_FRAME_CONNECTION_CLOSE_APP ->
    varint (close_errcode (outq sk)) -> varint (close_frame (outq sk)) ->
    close_phrase_ok (outq sk) ->
    hd 0 (fb_data fb) = type
    /\ len_of (fb_data fb) <= 100
    /\ reads_back fb
         (fun skb => quic_frame_connection_close_parse skb type)
         (fun p l =>
            (close_errcode (outq sk),
             if type =? QUIC_FRAME_CONNECTION_CLOSE
             then close_frame (outq sk) else 0,
             len_of (close_phrase_bytes (outq sk)),
             close_phrase_bytes (outq sk) ++ p,
             len_of (close_phrase_bytes (outq sk)) + l))
    /\ forall rest slack rsk,
         decoded ops fb rest slack rsk
         = (body_len fb,
            sk_state_change
              (quic_set_state
                 (set_common (set_sk_err (- EPIPE) (common rsk)) rsk)
                 QUIC_STATE_USER_CLOSED)))
  /\ (forall sk d fb sk',
    quic_frame_create sk QUIC_FRAME_HANDSHAKE_DONE d = (Some fb, sk') ->
    fb_data fb = [QUIC_FRAME_HANDSHAKE_DONE]
    /\ forall rest slack rsk,
         decoded ops fb rest slack rsk = (body_len fb, rsk))
  /\ (forall sk tok fb sk',
    quic_frame_create sk QUIC_FRAME_CRYPTO (DATA_TOKEN tok) = (Some fb, sk') ->
    varint (tk_len tok) -> tk_len tok = len_of (tk_data tok) ->
    hd 0 (tk_data tok) = 4 -> tk_data tok <> [] ->
    hd 0 (fb_data fb) = QUIC_FRAME_CRYPTO
    /\ reads_back fb quic_frame_crypto_parse
         (fun p l => (tk_len tok, tk_data tok ++ p, tk_len tok + l))
    /\ forall rest slack rsk,
         decoded ops fb rest slack rsk
         = (let (ok, sk1) := alloc_atomic rsk in
            if negb ok then (- ENOMEM, sk1)
            else
              (body_len fb,
               set_ticket {| tk_data := tk_data tok; tk_len := tk_len tok |}
                 sk1))).
Proof.
  repeat match goal with |- _ /\ _ => split end; intros.
  - eapply (@ping_roundtrip ops); eassumption.
  - eapply (@padding_roundtrip ops); eassumption.
  - eapply (@new_token_roundtrip ops); eassumption.
  - eapply (@stream_roundtrip ops); eassumption.
  - eapply (@reset_stream_roundtrip ops); eassumption.
  - eapply (@stop_sending_roundtrip ops); eassumption.
  - eapply (@max_data_roundtrip ops); eassumption.
  - eapply (@max_stream_data_roundtrip ops); eassumption.
  - eapply (@max_streams_bidi_roundtrip ops); eassumption.
  - eapply (@max_streams_uni_roundtrip ops); eassumption.
  - eapply (@data_blocked_roundtrip ops); eassumption.
  - eapply (@stream_data_blocked_roundtrip ops); eassumption.
  - eapply (@streams_blocked_bidi_roundtrip ops); eassumption.
  - eapply (@streams_blocked_uni_roundtrip ops); eassumption.
  - eapply (@path_challenge_roundtrip ops); eassumption.
  - eapply (@path_response_roundtrip ops); eassumption.
  - eapply (@new_connection_id_roundtrip ops); eassumption.
  - eapply (@retire_connection_id_roundtrip ops); eassumption.
  - eapply (@connection_close_roundtrip ops); eassumption.
  - eapply (@handshake_done_roundtrip ops); eassumption.
  - eapply (@crypto_roundtrip ops); eassumption.
Qed.


Lemma sample_ops_errors_negative : errors_negative sample_ops.
Proof.
  unfold errors_negative, sample_ops. cbn. repeat split.
  - intros t id s e t' H. destruct (quic_stream_find t id); discriminate.
  - intros t id o s e t' H. destruct (quic_stream_find t id);
      [discriminate|]. injection H as <- _. unfold EINVAL. lia.
  - intros. lia.
Qed.

(** A STREAM frame and a STOP_SENDING frame of the sample socket, decoded
    by the sample socket. *)
Lemma frame_roundtrip_witness :
  (let info := {| mi_stream := 4; mi_msg := [104; 105];
                  mi_flag_fin := true; mi_fault := false |} in
   exists fb sk',
     quic_frame_create (sample_sock [] []) QUIC_FRAME_STREAM
       (DATA_MSGINFO info) = (Some fb, sk')
     /\ fb_data fb = [0x0b; 0x04; 0x02; 104; 105]
     /\ reads_back fb (fun skb => quic_frame_stream_parse skb 0x0b)
          (fun p l => (4, 0, 2, [104; 105] ++ p, 2 + l))
     /\ forall rest slack,
          fst (decoded sample_ops fb rest slack (sample_sock [] [])) = 4)
  /\ (let info := {| ei_stream_id := 8; ei_errcode := 3 |} in
      exists fb sk',
        quic_frame_create (sample_sock [] []) QUIC_FRAME_STOP_SENDING
          (DATA_ERRINFO info) = (Some fb, sk')
        /\ fb_data fb = [0x05; 0x08; 0x03]
        /\ reads_back fb get_var2 (fun p l => (8, 3, p, l))
        /\ forall rest slack,
             let r := decoded sample_ops fb rest slack (sample_sock [] []) in
             fst r = 2
             /\ map (fun f => fb_data (fst f)) (ctrl_list (outq (snd r)))
                = [[0x04; 0x08; 0x03; 0x3c]]).
Proof.
  destruct (frame_roundtrip sample_ops)
    as (_ & _ & _ & Hstream & _ & Hstop & _).
  split.
  - intros info. eexists _, _.
    split; [reflexivity|]. split; [reflexivity|].
    assert (Ht : 8 <= QUIC_FRAME_STREAM <= 15)
      by (unfold QUIC_FRAME_STREAM; lia).
    assert (Hid : varint (stream_id (sample_stream 4 0 100)))
      by (unfold varint; simpl; lia).
    assert (Hoff : varint (send_offset (sample_stream 4 0 100)))
      by (unfold varint; simpl; lia).
    pose proof (Hstream (sample_sock [] []) QUIC_FRAME_STREAM info
                  (sample_stream 4 0 100) _ _ eq_refl Ht eq_refl Hid Hoff)
      as W.
    cbv zeta in W. destruct W as (_ & _ & _ & Hr & Hd).
    split; [exact Hr|]. intros rest slack. rewrite Hd. reflexivity.
  - intros info. eexists _, _.
    split; [reflexivity|]. split; [reflexivity|].
    assert (Hid : varint (ei_stream_id info)) by (unfold varint; simpl; lia).
    assert (Herr : varint (ei_errcode info)) by (unfold varint; simpl; lia).
    destruct (Hstop (sample_sock [] []) info _ _ eq_refl Hid Herr)
      as (_ & _ & Hr & Hd).
    split; [exact Hr|]. intros rest slack. cbv zeta. rewrite Hd.
    split; reflexivity.
Defined.


(** ** End-to-end scenarios on the sample socket *)

(** Stream 4 at offset 0, payload "hi", FIN requested: the frame is
    0b 04 02 'h' 'i' and the send offset becomes 2. *)
Example stream_then_fin :
  let info := {| mi_stream := 4; mi_msg := [104; 105];
                 mi_flag_fin := true; mi_fault := false |} in
  let r := quic_frame_create (sample_sock [] []) QUIC_FRAME_STREAM
             (DATA_MSGINFO info) in
  option_map fb_data (fst r) = Some [0x0b; 0x04; 0x02; 104; 105]
  /\ option_map send_offset (quic_stream_find (streams (snd r)) 4) = Some 2.
Proof. cbv. split; reflexivity. Qed.

(** The encoded STREAM frame followed by a PING is processed to its end:
    both frames are consumed and the packet is ack-eliciting. *)
Example stream_frame_processed :
  option_map (fun r => (fst (fst r), snd r))
    (quic_frame_process sample_ops (sample_sock [] [])
       (mk_skb [0x0b; 0x04; 0x02; 104; 105; 0x01] []) pki_zero)
  = Some (0, {| pki_ack_eliciting := true; pki_ack_immediate := false;
                pki_non_probing := true |}).
Proof. cbv. reflexivity. Qed.

(** A PATH_CHALLENGE is answered with a PATH_RESPONSE that carries the
    same eight bytes, queued through [OutQ.ctrl_tail]. *)
Example path_challenge_answered :
  option_map (fun r => (fst (fst r),
                        map (fun f => fb_data (fst f))
                          (ctrl_list (outq (snd (fst r))))))
    (quic_frame_process sample_ops (sample_sock [] [])
       (mk_skb [0x1a; 1; 2; 3; 4; 5; 6; 7; 8] []) pki_zero)
  = Some (0, [[0x1b; 1; 2; 3; 4; 5; 6; 7; 8]]).
Proof. cbv. reflexivity. Qed.

(** A type byte above 0x1e stops the packet with [-EPROTONOSUPPORT]. *)
Example unsupported_frame_rejected :
  option_map (fun r => fst (fst r))
    (quic_frame_process sample_ops (sample_sock [] [])
       (mk_skb [0x01; 0x1f] []) pki_zero)
  = Some (- EPROTONOSUPPORT).
Proof. cbv. reflexivity. Qed.
(** * Further properties of the frame layer *)

(** ** The processing loop *)

Lemma skb_pull_type_byte t b slack :
  skb_pull (mk_skb (t :: b) slack) 1 = mk_skb b slack.
Proof.
  unfold skb_pull, mk_skb. cbn [len data].
  assert (E : len_of (t :: b) = len_of b + 1)
    by (unfold len_of; cbn [length]; lia).
  pose proof (len_of_nonneg b).
  destruct (Z.gtb_spec 1 (len_of (t :: b))); [lia|].
  change (Z.to_nat 1) with 1%nat. cbn [app skipn]. f_equal. lia.
Qed.

Lemma skb_pull_frame b slack n :
  0 <= n <= len_of b ->
  skb_pull (mk_skb b slack) n = mk_skb (skipn (Z.to_nat n) b) slack.
Proof.
  intros H. unfold skb_pull, mk_skb. cbn [len data].
  destruct (Z.gtb_spec n (len_of b)); [lia|].
  assert (L : (Z.to_nat n <= length b)%nat) by (unfold len_of in H; lia).
  f_equal.
  - rewrite skipn_app.
    replace (Z.to_nat n - length b)%nat with 0%nat by lia. reflexivity.
  - unfold len_of in *. rewrite length_skipn. lia.
Qed.

(** Fuel beyond the length of the payload changes nothing. *)
Lemma quic_frame_process_loop_fuel ops fuel : forall fuel' sk skb pki,
  1 <= len skb <= Z.of_nat fuel -> len skb <= Z.of_nat fuel' ->
  quic_frame_process_loop ops fuel sk skb pki
  = quic_frame_process_loop ops fuel' sk skb pki.
Proof.
  induction fuel as [|k IH]; intros fuel' sk skb pki H H'; [lia|].
  destruct fuel' as [|k']; [lia|].
  cbn [quic_frame_process_loop].
  destruct (hd 0 (data skb) >? QUIC_FRAME_BASE_MAX); [reflexivity|].
  match goal with
  | |- context [nth ?n ?t ?d sk (skb_pull skb 1) (hd 0 (data skb))] =>
      destruct (nth n t d sk (skb_pull skb 1) (hd 0 (data skb))) as [ret sk1]
  end.
  destruct (Z.ltb_spec ret 0); [reflexivity|].
  destruct (Z.leb_spec (len (skb_pull (skb_pull skb 1) ret)) 0) as [|Hpos];
    [reflexivity|].
  pose proof (@skb_pull_len (skb_pull skb 1) ret ltac:(lia)).
  assert (len (skb_pull skb 1) = len skb - 1).
  { unfold skb_pull. destruct (Z.gtb_spec 1 (len skb)); [lia|]. reflexivity. }
  apply IH; lia.
Qed.

Lemma quic_frame_process_loop_errno ops fuel : forall sk skb pki r sk' pki',
  quic_frame_process_loop ops fuel sk skb pki = Some (r, sk', pki') -> r <= 0.
Proof.
  induction fuel as [|k IH]; intros sk skb pki r sk' pki' H; [discriminate|].
  cbn [quic_frame_process_loop] in H.
  destruct (hd 0 (data skb) >? QUIC_FRAME_BASE_MAX).
  { injection H as <- _ _. unfold EPROTONOSUPPORT. lia. }
  match type of H with
  | context [nth ?n ?t ?d sk (skb_pull skb 1) (hd 0 (data skb))] =>
      destruct (nth n t d sk (skb_pull skb 1) (hd 0 (data skb))) as [ret sk1]
  end.
  destruct (Z.ltb_spec ret 0). { injection H as <- _ _. lia. }
  destruct (len (skb_pull (skb_pull skb 1) ret) <=? 0).
  { injection H as <- _ _. lia. }
  eapply IH; eassumption.
Qed.

(** X1: whatever the payload, the run of [quic_frame_process] comes to
    its end within one turn of the loop per byte; and unless it has ended
    in a fault (a store through a null stream pointer, an answering frame
    that overruns the array of its encoder), what the function hands back
    is 0 or a negative errno, never a byte count. *)
Theorem frame_process_zero_or_errno ops sk skb pki :
  0 <= len skb ->
  exists r sk' pki',
    quic_frame_process ops sk skb pki = Some (r, sk', pki')
    /\ (faulted (env sk') = false -> r = 0 \/ r < 0).
Proof.
  intros H.
  destruct (quic_frame_process ops sk skb pki) as [[[r sk'] pki']|] eqn:E.
  - exists r, sk', pki'. split; [reflexivity|]. intros _.
    assert (r <= 0); [|lia].
    unfold quic_frame_process in E.
    destruct (len skb =? 0).
    + injection E as <- _ _. unfold EINVAL. lia.
    + eapply quic_frame_process_loop_errno; eassumption.
  - exfalso. exact (@quic_frame_process_returns ops sk skb pki H E).
Qed.

Lemma frame_process_zero_or_errno_witness :
  exists r sk' pki',
    quic_frame_process sample_ops (sample_sock [] [])
      (mk_skb [0x01; 0x1e; 0x10; 0x05] []) pki_zero = Some (r, sk', pki')
    /\ (faulted (env sk') = false -> r = 0 \/ r < 0).
Proof.
  apply (@frame_process_zero_or_errno sample_ops (sample_sock [] [])
           (mk_skb [0x01; 0x1e; 0x10; 0x05] []) pki_zero).
  vm_compute. discriminate.
Defined.

(** A run that ends in a fault: the sample getter answers a stream it does
    not know with a null pointer, and the RESET_STREAM decoder stores the
    receive state through it. *)
Example reset_stream_null_stream_faults :
  option_map (fun r => faulted (env (snd (fst r))))
    (quic_frame_process sample_ops (sample_sock [] [])
       (mk_skb [0x04; 0x0c; 0x00; 0x00] []) pki_zero)
  = Some true
  /\ faulted (env (sample_sock [] [])) = false.
Proof. vm_compute. split; reflexivity. Qed.

(** X2: a type byte above 0x1e at the head of a packet ends the processing
    with [-EPROTONOSUPPORT]; the socket and the packet flags are as they
    were, whatever follows the byte. *)
Theorem unsupported_type_stops_processing ops sk t b slack pki :
  QUIC_FRAME_BASE_MAX < t ->
  quic_frame_process ops sk (mk_skb (t :: b) slack) pki
  = Some (- EPROTONOSUPPORT, sk, pki).
Proof.
  intros H. unfold quic_frame_process. rewrite mk_skb_len.
  assert (E : len_of (t :: b) = len_of b + 1)
    by (unfold len_of; cbn [length]; lia).
  pose proof (len_of_nonneg b).
  destruct (Z.eqb_spec (len_of (t :: b)) 0); [lia|].
  destruct (Z.to_nat (len_of (t :: b))) eqn:F; [lia|].
  cbn [quic_frame_process_loop]. rewrite mk_skb_data. cbn [app hd].
  destruct (Z.gtb_spec t QUIC_FRAME_BASE_MAX); [reflexivity | lia].
Qed.

Lemma unsupported_type_stops_processing_witness :
  quic_frame_process sample_ops (sample_sock [] []) (mk_skb [0x1f; 1] [7])
    pki_zero
  = Some (- EPROTONOSUPPORT, sample_sock [] [], pki_zero).
Proof.
  apply (@unsupported_type_stops_processing sample_ops (sample_sock [] [])
           0x1f [1] [7] pki_zero).
  vm_compute. reflexivity.
Defined.

Lemma pki_raised_refl a : pki_raised a a.
Proof. unfold pki_raised. auto. Qed.

Lemma pki_raised_update ops t a b :
  pki_raised a b -> pki_raised a (pki_update ops t b).
Proof.
  unfold pki_raised, pki_update. intros (H1 & H2 & H3).
  cbn [pki_ack_eliciting pki_ack_immediate pki_non_probing].
  repeat split; intros H;
    [ destruct (quic_frame_ack_eliciting t)
    | destruct (quic_frame_ack_eliciting t && quic_frame_ack_immediate ops t)
    | destruct (quic_frame_non_probing t) ]; auto.
Qed.

Lemma quic_frame_process_loop_raises ops fuel :
  forall sk skb pki0 pki r sk' pki',
  pki_raised pki0 pki ->
  quic_frame_process_loop ops fuel sk skb pki = Some (r, sk', pki') ->
  pki_raised pki0 pki'.
Proof.
  induction fuel as [|k IH]; intros sk skb pki0 pki r sk' pki' R H;
    [discriminate|].
  cbn [quic_frame_process_loop] in H.
  destruct (hd 0 (data skb) >? QUIC_FRAME_BASE_MAX).
  { injection H as _ _ <-. exact R. }
  match type of H with
  | context [nth ?n ?t ?d sk (skb_pull skb 1) (hd 0 (data skb))] =>
      destruct (nth n t d sk (skb_pull skb 1) (hd 0 (data skb))) as [ret sk1]
  end.
  destruct (ret <? 0). { injection H as _ _ <-. exact R. }
  destruct (len (skb_pull (skb_pull skb 1) ret) <=? 0).
  { injection H as _ _ <-. apply pki_raised_update. exact R. }
  eapply IH; [|eassumption]. apply pki_raised_update. exact R.
Qed.

(** X3: the frame processor only raises the flags of the packet
    ([ack_eliciting], [ack_immediate], [non_probing]): a flag that is set
    when processing starts is set when it ends, on success and on error. *)
Theorem packet_flags_only_raised ops sk skb pki r sk' pki' :
  quic_frame_process ops sk skb pki = Some (r, sk', pki') ->
  pki_raised pki pki'.
Proof.
  unfold quic_frame_process. intros H.
  destruct (len skb =? 0).
  - injection H as _ _ <-. apply pki_raised_refl.
  - eapply quic_frame_process_loop_raises; [apply pki_raised_refl | eassumption].
Qed.

Lemma packet_flags_only_raised_witness :
  pki_raised
    {| pki_ack_eliciting := false; pki_ack_immediate := true;
       pki_non_probing := false |}
    {| pki_ack_eliciting := true; pki_ack_immediate := true;
       pki_non_probing := true |}.
Proof.
  apply (@packet_flags_only_raised sample_ops (sample_sock [] [])
           (mk_skb [1] [])
           {| pki_ack_eliciting := false; pki_ack_immediate := true;
              pki_non_probing := false |} 0 (sample_sock [] [])).
  vm_compute. reflexivity.
Defined.

(** X4: a PADDING frame takes everything that is left of the packet: for
    a payload that starts with the byte 0x00 the processor returns 0 with
    the socket as it was, and whatever frames follow the byte are not
    processed. *)
Theorem padding_swallows_packet ops sk b slack pki :
  quic_frame_process ops sk (mk_skb (QUIC_FRAME_PADDING :: b) slack) pki
  = Some (0, sk, pki_update ops QUIC_FRAME_PADDING pki).
Proof.
  unfold quic_frame_process. rewrite mk_skb_len.
  assert (E : len_of (QUIC_FRAME_PADDING :: b) = len_of b + 1)
    by (unfold len_of; cbn [length]; lia).
  pose proof (len_of_nonneg b).
  destruct (Z.eqb_spec (len_of (QUIC_FRAME_PADDING :: b)) 0); [lia|].
  destruct (Z.to_nat (len_of (QUIC_FRAME_PADDING :: b))) eqn:F; [lia|].
  cbn [quic_frame_process_loop]. rewrite skb_pull_type_byte, mk_skb_data.
  cbn [app hd].
  change (QUIC_FRAME_PADDING >? QUIC_FRAME_BASE_MAX) with false. cbv iota.
  change (nth (Z.to_nat QUIC_FRAME_PADDING) (quic_frame_ops_process ops)
            (fun s _ _ => (- EPROTONOSUPPORT, s)))
    with quic_frame_padding_process.
  unfold quic_frame_padding_process. rewrite mk_skb_len.
  destruct (Z.ltb_spec (len_of b) 0); [lia|].
  rewrite skb_pull_frame by lia. rewrite mk_skb_len.
  unfold len_of at 1. rewrite length_skipn.
  destruct (Z.leb_spec (Z.of_nat (length b - Z.to_nat (len_of b))) 0);
    [reflexivity|].
  unfold len_of in *. lia.
Qed.

(** The first turn of the loop on a packet that starts with a supported
    type byte. *)
Lemma quic_frame_process_first ops sk t b slack pki :
  0 <= t <= QUIC_FRAME_BASE_MAX ->
  quic_frame_process ops sk (mk_skb (t :: b) slack) pki
  = (let (ret, sk1) := frame_process_of ops t sk (mk_skb b slack) t in
     if ret <? 0 then Some (ret, sk1, pki)
     else if len (skb_pull (mk_skb b slack) ret) <=? 0
          then Some (0, sk1, pki_update ops t pki)
          else quic_frame_process_loop ops (length b) sk1
                 (skb_pull (mk_skb b slack) ret) (pki_update ops t pki)).
Proof.
  intros Ht. unfold quic_frame_process. rewrite mk_skb_len.
  assert (E : len_of (t :: b) = len_of b + 1)
    by (unfold len_of; cbn [length]; lia).
  pose proof (len_of_nonneg b) as Hb.
  destruct (Z.eqb_spec (len_of (t :: b)) 0); [lia|].
  assert (F : Z.to_nat (len_of (t :: b)) = S (length b))
    by (unfold len_of; cbn [length]; lia).
  rewrite F. cbn [quic_frame_process_loop].
  rewrite skb_pull_type_byte, mk_skb_data. cbn [app hd].
  destruct (Z.gtb_spec t QUIC_FRAME_BASE_MAX); [lia|].
  unfold frame_process_of. reflexivity.
Qed.

(** X5: one turn of the loop.  With [t] a supported type byte and
    [(ret, sk1)] the answer of its decoder on the bytes [b] behind it: an
    error is handed back as it is, with the packet flags untouched; a frame
    that ends the packet ends the processing with 0; otherwise processing
    the packet is processing what follows the frame, on the socket the
    decoder left and with the flags of [t] raised. *)
Theorem frame_process_step ops sk t b slack pki ret sk1 :
  0 <= t <= QUIC_FRAME_BASE_MAX ->
  frame_process_of ops t sk (mk_skb b slack) t = (ret, sk1) ->
  ret <= len_of b ->
  quic_frame_process ops sk (mk_skb (t :: b) slack) pki
  = if ret <? 0 then Some (ret, sk1, pki)
    else if ret =? len_of b then Some (0, sk1, pki_update ops t pki)
    else quic_frame_process ops sk1
           (mk_skb (skipn (Z.to_nat ret) b) slack) (pki_update ops t pki).
Proof.
  intros Ht Hd Hr. rewrite quic_frame_process_first by exact Ht. rewrite Hd.
  pose proof (len_of_nonneg b) as Hb.
  destruct (Z.ltb_spec ret 0); [reflexivity|].
  rewrite skb_pull_frame by lia. rewrite mk_skb_len.
  assert (L : len_of (skipn (Z.to_nat ret) b) = len_of b - ret)
    by (unfold len_of in *; rewrite length_skipn; lia).
  rewrite L.
  destruct (Z.eqb_spec ret (len_of b)) as [->|Hne].
  - destruct (Z.leb_spec (len_of b - len_of b) 0); [reflexivity | lia].
  - destruct (Z.leb_spec (len_of b - ret) 0); [lia|].
    unfold quic_frame_process. rewrite mk_skb_len, L.
    destruct (Z.eqb_spec (len_of b - ret) 0); [lia|].
    apply quic_frame_process_loop_fuel; rewrite mk_skb_len, L;
      unfold len_of in *; lia.
Qed.

Lemma frame_process_step_witness :
  quic_frame_process sample_ops (sample_sock [] [])
    (mk_skb [0x10; 0x40; 0xc8; 0x01] []) pki_zero
  = quic_frame_process sample_ops
      (snd (frame_process_of sample_ops 0x10 (sample_sock [] [])
              (mk_skb [0x40; 0xc8; 0x01] []) 0x10))
      (mk_skb [0x01] []) (pki_update sample_ops 0x10 pki_zero).
Proof.
  apply (@frame_process_step sample_ops (sample_sock [] []) 0x10
           [0x40; 0xc8; 0x01] [] pki_zero 2
           (snd (frame_process_of sample_ops 0x10 (sample_sock [] [])
                   (mk_skb [0x40; 0xc8; 0x01] []) 0x10))).
  - vm_compute. split; discriminate.
  - vm_compute. reflexivity.
  - vm_compute. discriminate.
Defined.

(** ** The byte counts of the decoders *)

Lemma quic_get_var_len p l v p' l' :
  quic_get_var p l = Some (v, p', l') -> 0 <= l' <= l.
Proof.
  unfold quic_get_var. intros H.
  pose proof (shiftl_one_nonneg (Z.shiftr (hd 0 p) 6)) as Hn.
  destruct (Z.ltb_spec l (Z.shiftl 1 (Z.shiftr (hd 0 p) 6))); [discriminate|].
  injection H as _ _ <-. lia.
Qed.

Lemma quic_frame_ack_ranges_len count : forall sk p l smallest ok sk' p' l',
  quic_frame_ack_ranges count sk p l smallest = (ok, sk', p', l') ->
  0 <= l -> 0 <= l' <= l.
Proof.
  induction count as [|n IH]; intros sk p l smallest ok sk' p' l' H Hl.
  - injection H as _ _ _ <-. lia.
  - cbn [quic_frame_ack_ranges] in H.
    destruct (quic_get_var p l) as [[[gap p1] l1]|] eqn:E1.
    2:{ injection H as _ _ _ <-. lia. }
    apply quic_get_var_len in E1.
    destruct (quic_get_var p1 l1) as [[[range p2] l2]|] eqn:E2.
    2:{ injection H as _ _ _ <-. lia. }
    apply quic_get_var_len in E2.
    apply IH in H; lia.
Qed.

Ltac count_step :=
  match goal with
  | |- context [quic_get_var ?p ?l] =>
      let E := fresh "E" in
      destruct (quic_get_var p l) as [[[? ?] ?]|] eqn:E;
      [apply quic_get_var_len in E|]
  | |- context [alloc_atomic ?s] => destruct (alloc_atomic s) as [[] ?]
  | |- context [quic_frame_create ?s ?t ?d] =>
      destruct (quic_frame_create s t d) as [[?|] ?]
  | |- context [quic_frame_retire_prior ?n ?s ?f] =>
      destruct (quic_frame_retire_prior n s f) as [[] ?]
  | |- context [quic_connection_id_append ?r ?n ?c ?l ?s] =>
      let E := fresh "E" in
      destruct (quic_connection_id_append r n c l s) as [? ?] eqn:E
  | |- context [quic_stream_find ?a ?b] => destruct (quic_stream_find a b)
  | |- context [has_bit ?a ?b] => destruct (has_bit a b)
  | |- context [?a >? ?b] => destruct (Z.gtb_spec a b)
  | |- context [?a <? ?b] => destruct (Z.ltb_spec a b)
  | |- context [?a >=? ?b] => destruct (Z.geb_spec a b)
  | |- context [?a <=? ?b] => destruct (Z.leb_spec a b)
  | |- context [?a =? ?b] => destruct (Z.eqb_spec a b)
  end; cbv beta iota; cbn [negb orb andb fst snd].

Ltac count_done :=
  cbv beta iota; cbn [fst snd];
  unfold EINVAL, ENOMEM, EPROTONOSUPPORT in *; try lia.

Ltac counted := repeat count_step; count_done.

Section Counts.

Variable ops : collaborators.
Hypothesis Hneg : errors_negative ops.
Variables (sk : sock) (skb : sk_buff) (type : Z).
Hypothesis Hlen : 0 <= len skb.

Lemma padding_count : fst (quic_frame_padding_process sk skb type) <= len skb.
Proof. unfold quic_frame_padding_process. counted. Qed.

Lemma ping_count : fst (quic_frame_ping_process sk skb type) <= len skb.
Proof. unfold quic_frame_ping_process. counted. Qed.

Lemma handshake_done_count :
  fst (quic_frame_handshake_done_process sk skb type) <= len skb.
Proof. unfold quic_frame_handshake_done_process. counted. Qed.

Lemma ack_count : fst (quic_frame_ack_process sk skb type) <= len skb.
Proof.
  unfold quic_frame_ack_process, quic_frame_ack_parse.
  repeat count_step; try solve [count_done].
  all: match goal with
       | |- context [quic_frame_ack_ranges ?n ?s ?p ?l ?m] =>
           let E := fresh "E" in
           pose proof (fun ok sk' p' l' R =>
                         @quic_frame_ack_ranges_len n s p l m ok sk' p' l' R
                           ltac:(lia)) as E;
           destruct (quic_frame_ack_ranges n s p l m) as [[[[] ?] ?] ?];
           specialize (E _ _ _ _ eq_refl)
       end; counted.
Qed.

Lemma reset_stream_count :
  fst (quic_frame_reset_stream_process ops sk skb type) <= len skb.
Proof.
  unfold quic_frame_reset_stream_process, get_var3.
  repeat count_step; try solve [count_done].
  destruct (quic_stream_recv_get ops (streams sk) z (is_serv (common sk)))
    as [[| e |] st] eqn:G; cbn [IS_ERR PTR_ERR fst]; try lia.
  destruct Hneg as (H & _). apply H in G. lia.
Qed.

Lemma stop_sending_count :
  fst (quic_frame_stop_sending_process ops sk skb type) <= len skb.
Proof.
  unfold quic_frame_stop_sending_process, get_var2.
  repeat count_step; try solve [count_done].
  destruct (quic_stream_send_get ops (streams sk) z 0 (is_serv (common sk)))
    as [[| e |] st] eqn:G; cbn [IS_ERR PTR_ERR fst]; counted.
  destruct Hneg as (_ & H & _). apply H in G. lia.
Qed.

Lemma crypto_count : fst (quic_frame_crypto_process sk skb type) <= len skb.
Proof. unfold quic_frame_crypto_process, quic_frame_crypto_parse. counted. Qed.

Lemma new_token_count :
  fst (quic_frame_new_token_process sk skb type) <= len skb.
Proof.
  unfold quic_frame_new_token_process, quic_frame_new_token_parse. counted.
Qed.

Lemma stream_count :
  fst (quic_frame_stream_process ops sk skb type) <= len skb.
Proof.
  unfold quic_frame_stream_process, quic_frame_stream_parse.
  destruct Hneg as (_ & _ & Hr).
  repeat count_step; try solve [count_done].
  all: match goal with
       | |- context [quic_stream_recv_get ops ?t ?i ?s] =>
           destruct (quic_stream_recv_get ops t i s) as [[| e |] st]
       end; try solve [count_done].
  all: repeat count_step; try solve [count_done].
  all: match goal with
       | |- context [quic_inq_reasm_tail ops ?s ?f] =>
           pose proof (Hr s f);
           destruct (quic_inq_reasm_tail ops s f) as [err ?]
       end; cbn [fst] in *; counted.
Qed.

Lemma max_data_count :
  fst (quic_frame_max_data_process sk skb type) <= len skb.
Proof. unfold quic_frame_max_data_process, get_var1. counted. Qed.

Lemma max_stream_data_count :
  fst (quic_frame_max_stream_data_process sk skb type) <= len skb.
Proof. unfold quic_frame_max_stream_data_process, get_var2. counted. Qed.

Lemma max_streams_bidi_count :
  fst (quic_frame_max_streams_bidi_process sk skb type) <= len skb.
Proof. unfold quic_frame_max_streams_bidi_process, get_var1. counted. Qed.

Lemma max_streams_uni_count :
  fst (quic_frame_max_streams_uni_process sk skb type) <= len skb.
Proof. unfold quic_frame_max_streams_uni_process, get_var1. counted. Qed.

Lemma data_blocked_count :
  fst (quic_frame_data_blocked_process sk skb type) <= len skb.
Proof. unfold quic_frame_data_blocked_process, get_var1. counted. Qed.

Lemma stream_data_blocked_count :
  fst (quic_frame_stream_data_blocked_process sk skb type) <= len skb.
Proof. unfold quic_frame_stream_data_blocked_process, get_var2. counted. Qed.

Lemma streams_blocked_bidi_count :
  fst (quic_frame_streams_blocked_bidi_process sk skb type) <= len skb.
Proof. unfold quic_frame_streams_blocked_bidi_process, get_var1. counted. Qed.

Lemma streams_blocked_uni_count :
  fst (quic_frame_streams_blocked_uni_process sk skb type) <= len skb.
Proof. unfold quic_frame_streams_blocked_uni_process, get_var1. counted. Qed.

Lemma new_connection_id_count :
  fst (quic_frame_new_connection_id_process sk skb type) <= len skb.
Proof.
  unfold quic_frame_new_connection_id_process,
    quic_frame_new_connection_id_parse.
  repeat count_step; try solve [count_done].
  all: match goal with
       | E : quic_connection_id_append _ _ _ _ _ = _ |- _ =>
           unfold quic_connection_id_append in E;
           destruct (alloc_atomic sk) as [[] ?]; injection E as <- _
       end; counted.
Qed.

Lemma retire_connection_id_count :
  fst (quic_frame_retire_connection_id_process sk skb type) <= len skb.
Proof.
  unfold quic_frame_retire_connection_id_process, get_var1. counted.
Qed.

Lemma path_challenge_count :
  fst (quic_frame_path_challenge_process sk skb type) <= len skb.
Proof.
  unfold quic_frame_path_challenge_process, quic_frame_path_parse. counted.
Qed.

Lemma path_response_count :
  fst (quic_frame_path_response_process sk skb type) <= len skb.
Proof.
  unfold quic_frame_path_response_process, quic_frame_path_parse.
  destruct (Z.ltb_spec (len skb) 8); count_done.
Qed.

Lemma connection_close_count :
  fst (quic_frame_connection_close_process sk skb type) <= len skb.
Proof.
  unfold quic_frame_connection_close_process,
    quic_frame_connection_close_parse, quic_frame_connection_close_header.
  repeat count_step; try solve [count_done].
  all: match goal with
       | |- context [if ?c then _ else _] => destruct c
       end; counted.
Qed.

End Counts.

(** X6: no decoder of the dispatch table reports more bytes than the
    buffer it is handed holds: its answer is a negative errno or a count of
    at most [skb->len], so the [skb_pull] of the processing loop never runs
    past the end of the packet.  The errors of the stream getters and of
    reassembly are taken to be negative errnos. *)
Theorem decoder_stays_within_buffer ops type sk skb :
  errors_negative ops -> 0 <= len skb ->
  fst (frame_process_of ops type sk skb type) <= len skb.
Proof.
  intros Hneg Hlen. unfold frame_process_of, quic_frame_ops_process.
  generalize (Z.to_nat type) as n. intros n.
  do 31 (destruct n as [|n];
         [ cbn [nth];
           first [ apply padding_count | apply ping_count | apply ack_count
                 | apply reset_stream_count | apply stop_sending_count
                 | apply crypto_count | apply new_token_count
                 | apply stream_count | apply max_data_count
                 | apply max_stream_data_count | apply max_streams_bidi_count
                 | apply max_streams_uni_count | apply data_blocked_count
                 | apply stream_data_blocked_count
                 | apply streams_blocked_bidi_count
                 | apply streams_blocked_uni_count
                 | apply new_connection_id_count
                 | apply retire_connection_id_count
                 | apply path_challenge_count | apply path_response_count
                 | apply connection_close_count
                 | apply handshake_done_count ]; assumption |]).
  cbn [nth fst]. destruct n; cbn [fst]; unfold EPROTONOSUPPORT; lia.
Qed.

Lemma decoder_stays_within_buffer_witness :
  fst (frame_process_of sample_ops 0x07 (sample_sock [] [])
         (mk_skb [2; 5; 6; 1] []) 0x07) <= 4.
Proof.
  apply (@decoder_stays_within_buffer sample_ops 0x07 (sample_sock [] [])
           (mk_skb [2; 5; 6; 1] [])).
  - exact sample_ops_errors_negative.
  - vm_compute. discriminate.
Defined.

(** ** Path validation *)

Lemma quic_frame_create_eq sk type d enc :
  0 <= type <= QUIC_FRAME_BASE_MAX ->
  nth (Z.to_nat type) quic_frame_ops_create (fun s _ _ => (None, s)) = enc ->
  quic_frame_create sk type d
  = (let (r, sk1) := enc sk d type in
     match r with
     | None => (None, sk1)
     | Some skb =>
         (Some (if fb_frame_type skb =? 0 then set_fb_frame_type type skb
                else skb), sk1)
     end).
Proof.
  intros H <-. unfold quic_frame_create.
  destruct (Z.gtb_spec type QUIC_FRAME_BASE_MAX); [lia | reflexivity].
Qed.

Lemma quic_frame_create_path_response sk e :
  quic_frame_create sk QUIC_FRAME_PATH_RESPONSE (DATA_ENTROPY e)
  = (if fst (alloc_atomic sk) then Some (path_response_frame e) else None,
     snd (alloc_atomic sk)).
Proof.
  rewrite (@quic_frame_create_eq sk QUIC_FRAME_PATH_RESPONSE (DATA_ENTROPY e)
             quic_frame_path_response_create)
    by (try reflexivity; cbv; split; discriminate).
  unfold quic_frame_path_response_create, skb_put_frame.
  destruct (alloc_atomic sk) as [[] sk1]; reflexivity.
Qed.

(** X7: PATH_CHALLENGE.  A payload of fewer than eight bytes is refused
    with [-EINVAL] and nothing happens.  Otherwise the decoder takes eight
    bytes and queues, as an urgent frame at the tail of the control list, a
    PATH_RESPONSE that carries exactly these eight bytes; when the response
    cannot be allocated the answer is [-ENOMEM] and nothing is queued. *)
Theorem path_challenge_echoed sk skb type :
  (len skb < 8 ->
   quic_frame_path_challenge_process sk skb type = (- EINVAL, sk))
  /\ (8 <= len skb -> fst (alloc_atomic sk) = true ->
      quic_frame_path_challenge_process sk skb type
      = (8, quic_outq_ctrl_tail (snd (alloc_atomic sk))
              (path_response_frame (data skb)) true))
  /\ (8 <= len skb -> fst (alloc_atomic sk) = false ->
      quic_frame_path_challenge_process sk skb type
      = (- ENOMEM, snd (alloc_atomic sk))).
Proof.
  unfold quic_frame_path_challenge_process, quic_frame_path_parse.
  repeat split; intros H; destruct (Z.ltb_spec (len skb) 8); try lia;
    try reflexivity; intros A;
    rewrite quic_frame_create_path_response, A.
  - unfold path_response_frame. rewrite firstn_firstn.
    change (Nat.min 8 8) with 8%nat. f_equal. lia.
  - reflexivity.
Qed.

Lemma path_challenge_echoed_witness :
  quic_frame_path_challenge_process (sample_sock [] [])
    (mk_skb [1; 2; 3; 4; 5; 6; 7; 8; 9] []) QUIC_FRAME_PATH_CHALLENGE
  = (8, quic_outq_ctrl_tail (sample_sock [] [])
          (path_response_frame [1; 2; 3; 4; 5; 6; 7; 8; 9]) true).
Proof.
  destruct (@path_challenge_echoed (sample_sock [] [])
              (mk_skb [1; 2; 3; 4; 5; 6; 7; 8; 9] [])
              QUIC_FRAME_PATH_CHALLENGE) as (_ & H & _).
  apply H.
  - vm_compute. discriminate.
  - reflexivity.
Defined.

Lemma entropy_eq_spec a b :
  entropy_eq a b = true <-> firstn 8 a = firstn 8 b.
Proof.
  unfold entropy_eq.
  destruct (list_eq_dec Z.eq_dec (firstn 8 a) (firstn 8 b)); split;
    intros; congruence.
Qed.

Lemma path_awaits_not p e :
  ~ path_awaits p e -> entropy_eq (entropy p) (firstn 8 e) && pending p = false.
Proof.
  unfold path_awaits. intros H.
  destruct (entropy_eq (entropy p) (firstn 8 e)) eqn:E; [|reflexivity].
  destruct (pending p); [|reflexivity].
  exfalso. apply H. split; [reflexivity|].
  apply entropy_eq_spec in E. rewrite firstn_firstn in E. exact E.
Qed.

(** X8: a PATH_RESPONSE that answers no pending challenge changes nothing.
    When neither the source nor the destination path is pending with the
    eight bytes received as its entropy, the decoder takes the eight bytes
    and leaves the socket exactly as it was. *)
Theorem unsolicited_path_response_ignored sk skb type :
  8 <= len skb ->
  ~ path_awaits (src (paths sk)) (data skb) ->
  ~ path_awaits (dst (paths sk)) (data skb) ->
  quic_frame_path_response_process sk skb type = (8, sk).
Proof.
  intros H Hs Hd. unfold quic_frame_path_response_process, quic_frame_path_parse.
  destruct (Z.ltb_spec (len skb) 8); [lia|]. cbv zeta.
  rewrite (path_awaits_not Hs), (path_awaits_not Hd). f_equal. lia.
Qed.

Lemma unsolicited_path_response_ignored_witness :
  quic_frame_path_response_process (sample_sock [] [])
    (mk_skb [0; 0; 0; 0; 0; 0; 0; 0] []) QUIC_FRAME_PATH_RESPONSE
  = (8, sample_sock [] []).
Proof.
  apply (@unsolicited_path_response_ignored (sample_sock [] [])
           (mk_skb [0; 0; 0; 0; 0; 0; 0; 0] []) QUIC_FRAME_PATH_RESPONSE).
  - vm_compute. discriminate.
  - unfold path_awaits. cbn. intros [H _]. discriminate.
  - unfold path_awaits. cbn. intros [H _]. discriminate.
Defined.

Lemma path_awaits_yes p e :
  path_awaits p e -> entropy_eq (entropy p) (firstn 8 e) && pending p = true.
Proof.
  unfold path_awaits. intros [-> H].
  assert (E : entropy_eq (entropy p) (firstn 8 e) = true)
    by (apply entropy_eq_spec; rewrite firstn_firstn; exact H).
  rewrite E. reflexivity.
Qed.

Lemma slot_get_settled (A : Type) (a : bool) (v : A) (t : two A) :
  slot_get a (slot_set (negb a) v t) = slot_get a t.
Proof. destruct a; reflexivity. Qed.

(** A PATH_RESPONSE that answers the pending challenge of a path settles
    the path: it is no longer pending and its active address becomes the
    address of the socket. *)
Lemma path_response_settles sk skb type local :
  8 <= len skb -> path_awaits (path_get local sk) (data skb) ->
  let r := quic_frame_path_response_process sk skb type in
  fst r = 8
  /\ pending (path_get local (snd r)) = false
  /\ (if local then sk_saddr (paths (snd r)) else sk_daddr (paths (snd r)))
     = slot_get (active (path_get local sk)) (addr (path_get local sk)).
Proof.
  intros H W. unfold quic_frame_path_response_process, quic_frame_path_parse.
  destruct (Z.ltb_spec (len skb) 8); [lia|]. cbv zeta. cbn [fst snd].
  split; [lia|].
  destruct local; unfold path_get in *.
  - rewrite (path_awaits_yes W).
    match goal with
    | |- context [if ?c then _ else _] => destruct c
    end; cbn; rewrite slot_get_settled; split; reflexivity.
  - destruct (entropy_eq (entropy (src (paths sk))) (firstn 8 (data skb))
              && pending (src (paths sk)));
      cbn [paths set_paths dst set_src udp_sock_release quic_set_sk_addr];
      rewrite (path_awaits_yes W); cbn; rewrite slot_get_settled;
      split; reflexivity.
Qed.

Lemma quic_frame_create_path_challenge sk local :
  quic_frame_create sk QUIC_FRAME_PATH_CHALLENGE (DATA_PATH local)
  = (let e := fst (get_random_bytes 8 sk) in
     let sk2 :=
       path_put local
         (set_entropy e (path_get local (snd (get_random_bytes 8 sk))))
         (snd (get_random_bytes 8 sk)) in
     (if fst (alloc_atomic sk2)
      then Some (set_fb_frame_type QUIC_FRAME_PATH_CHALLENGE
                   (skb_of (QUIC_FRAME_PATH_CHALLENGE :: e)))
      else None, snd (alloc_atomic sk2))).
Proof.
  rewrite (@quic_frame_create_eq sk QUIC_FRAME_PATH_CHALLENGE (DATA_PATH local)
             quic_frame_path_challenge_create)
    by (try reflexivity; cbv; split; discriminate).
  unfold quic_frame_path_challenge_create, skb_put_frame.
  assert (Hd : quic_put_data (fst (get_random_bytes 8 sk)) 8
               = fst (get_random_bytes 8 sk)).
  { unfold quic_put_data. change (Z.to_nat 8) with 8%nat.
    rewrite <- (random_bytes_length 8 sk) at 1. apply firstn_all. }
  destruct (get_random_bytes 8 sk) as [e sk1] eqn:G. cbn [fst snd] in *.
  cbv zeta. rewrite Hd.
  destruct (alloc_atomic _) as [[] sk3]; reflexivity.
Qed.

Lemma path_get_put local p sk : path_get local (path_put local p sk) = p.
Proof. destruct local; reflexivity. Qed.

(** X9: path validation from end to end.  An endpoint [a] encodes a
    PATH_CHALLENGE for one of its paths, which it holds pending; the peer
    [b] decodes the frame and queues one answer; when [a] decodes that
    answer the path is no longer pending and its active address has become
    the address of the socket.  The bytes that follow the frames in their
    packets, and the memory behind the packets, play no part. *)
Theorem path_validation_round_trip
  (ska skb : sock) (local : bool) (fb : frame_buf) (ska1 : sock)
  (rest slack rest' slack' : list Z) :
  quic_frame_create ska QUIC_FRAME_PATH_CHALLENGE (DATA_PATH local)
  = (Some fb, ska1) ->
  pending (path_get local ska) = true ->
  fst (alloc_atomic skb) = true ->
  exists fr skb1,
    quic_frame_path_challenge_process skb (decoder_input fb rest slack)
      QUIC_FRAME_PATH_CHALLENGE = (8, skb1)
    /\ ctrl_list (outq skb1) = ctrl_list (outq skb) ++ [(fr, true)]
    /\ hd 0 (fb_data fr) = QUIC_FRAME_PATH_RESPONSE
    /\ let r := quic_frame_path_response_process ska1
                  (decoder_input fr rest' slack') QUIC_FRAME_PATH_RESPONSE in
       fst r = 8
       /\ pending (path_get local (snd r)) = false
       /\ (if local then sk_saddr (paths (snd r))
           else sk_daddr (paths (snd r)))
          = slot_get (active (path_get local ska))
              (addr (path_get local ska)).
Proof.
  intros Hc Hp Ha. rewrite quic_frame_create_path_challenge in Hc.
  cbv zeta in Hc.
  pose proof (random_bytes_length 8 ska) as Le.
  set (e := fst (get_random_bytes 8 ska)) in *.
  set (ska0 := snd (get_random_bytes 8 ska)) in *.
  assert (P0 : path_get local ska0 = path_get local ska) by reflexivity.
  set (ska2 := path_put local (set_entropy e (path_get local ska0)) ska0) in *.
  pose proof (alloc_atomic_keeps ska2) as K. cbv zeta in K.
  destruct K as (_ & _ & _ & _ & _ & _ & _ & _ & Kp & _).
  destruct (fst (alloc_atomic ska2)); [|discriminate].
  injection Hc as <- <-.
  assert (P1 : path_get local (snd (alloc_atomic ska2))
               = set_entropy e (path_get local ska)).
  { unfold path_get at 1. rewrite Kp. fold (path_get local ska2).
    unfold ska2. rewrite path_get_put, P0. reflexivity. }
  assert (Le8 : len_of e = 8) by (unfold len_of; rewrite Le; reflexivity).
  assert (F8 : forall r, firstn 8 (e ++ r) = e)
    by (intros r; apply firstn_exact; exact Le).
  pose proof (len_of_nonneg rest) as Hr.
  pose proof (len_of_nonneg rest') as Hr'.
  unfold decoder_input. cbn [fb_data set_fb_frame_type skb_of tl].
  eexists (path_response_frame ((e ++ rest) ++ slack)), _.
  split.
  { unfold quic_frame_path_challenge_process, quic_frame_path_parse.
    rewrite mk_skb_len, mk_skb_data, len_of_app.
    destruct (Z.ltb_spec (len_of e + len_of rest) 8); [lia|].
    rewrite quic_frame_create_path_response, Ha.
    unfold path_response_frame. rewrite firstn_firstn.
    change (Nat.min 8 8) with 8%nat. f_equal. lia. }
  split.
  { unfold quic_outq_ctrl_tail. cbn [outq set_outq ctrl_list set_ctrl_list].
    pose proof (alloc_atomic_keeps skb) as K. cbv zeta in K.
    destruct K as (_ & -> & _). reflexivity. }
  split; [reflexivity|].
  unfold path_response_frame.
  cbn [fb_data set_fb_frame_type skb_of tl].
  rewrite <- app_assoc, F8.
  pose proof (@path_response_settles (snd (alloc_atomic ska2))
                (mk_skb (e ++ rest') slack') QUIC_FRAME_PATH_RESPONSE local)
    as S.
  rewrite P1 in S. cbn [active addr set_entropy] in S. apply S.
  - rewrite mk_skb_len, len_of_app. lia.
  - unfold path_awaits. cbn [pending entropy set_entropy]. split; [exact Hp|].
    rewrite mk_skb_data, <- app_assoc, F8.
    rewrite <- (app_nil_r e) at 1. apply F8.
Qed.

Lemma path_validation_round_trip_witness :
  let created :=
    quic_frame_create sample_sock_pending QUIC_FRAME_PATH_CHALLENGE
      (DATA_PATH true) in
  exists fr skb1,
    quic_frame_path_challenge_process (sample_sock [] [])
      (decoder_input
         (set_fb_frame_type QUIC_FRAME_PATH_CHALLENGE
            (skb_of [0x1a; 160; 161; 162; 163; 164; 165; 166; 167])) [1] [])
      QUIC_FRAME_PATH_CHALLENGE = (8, skb1)
    /\ ctrl_list (outq skb1) = ctrl_list (outq (sample_sock [] [])) ++ [(fr, true)]
    /\ hd 0 (fb_data fr) = QUIC_FRAME_PATH_RESPONSE
    /\ let r := quic_frame_path_response_process (snd created)
                  (decoder_input fr [] []) QUIC_FRAME_PATH_RESPONSE in
       fst r = 8
       /\ pending (path_get true (snd r)) = false
       /\ sk_saddr (paths (snd r)) = [10; 0; 0; 1].
Proof.
  intros created.
  apply (@path_validation_round_trip sample_sock_pending (sample_sock [] [])
           true
           (set_fb_frame_type QUIC_FRAME_PATH_CHALLENGE
              (skb_of [0x1a; 160; 161; 162; 163; 164; 165; 166; 167]))
           (snd created) [1] [] [] []).
  - vm_compute. reflexivity.
  - reflexivity.
  - reflexivity.
Defined.

(** ** Connection IDs *)

(** X10: the last connection ID of the source set cannot be retired by the
    peer.  When the first and the last number of the set coincide (one
    entry is left), every RETIRE_CONNECTION_ID frame is refused with
    [-EINVAL], whatever number it names, and the socket is unchanged. *)
Theorem retire_connection_id_keeps_last sk skb type :
  quic_connection_id_first_number (source sk)
  = quic_connection_id_last_number (source sk) ->
  quic_frame_retire_connection_id_process sk skb type = (- EINVAL, sk).
Proof.
  intros H. unfold quic_frame_retire_connection_id_process.
  destruct (get_var1 skb) as [[[seqno p] l]|]; [|reflexivity].
  cbv zeta. rewrite H.
  destruct (Z.eqb_spec seqno
              (u32 (quic_connection_id_last_number (source sk))));
    reflexivity.
Qed.

Lemma retire_connection_id_keeps_last_witness :
  quic_frame_retire_connection_id_process (sample_sock [] [])
    (mk_skb [0] []) QUIC_FRAME_RETIRE_CONNECTION_ID
  = (- EINVAL, sample_sock [] []).
Proof.
  apply (@retire_connection_id_keeps_last (sample_sock [] []) (mk_skb [0] [])
           QUIC_FRAME_RETIRE_CONNECTION_ID).
  reflexivity.
Defined.

(** ** What the encoders touch *)

Ltac enc_open :=
  unfold frame_array, kernel_fault, skb_put_frame, quic_connection_id_append,
    alloc_atomic, get_random_bytes, stream_store, path_put, path_get,
    id_set_put, id_set_get;
  cbv beta iota zeta;
  cbn [env set_env allocs set_allocs rng_pos set_rng_pos rng fst snd].

Ltac enc_simpl :=
  cbv beta iota zeta; cbn [fst snd negb fb_frame_type skb_of].

Ltac enc_step :=
  match goal with
  | |- context [0 =? 0] => change (0 =? 0) with true
  | |- context [- ENOMEM =? 0] => change (- ENOMEM =? 0) with false
  | |- context [match allocs (env ?s) with _ => _ end] =>
      destruct (allocs (env s)) as [|[] ?]
  | |- context [match ?l with [] => _ | _ :: _ => _ end] =>
      destruct l as [|[] ?]
  | |- context [quic_stream_find ?a ?b] => destruct (quic_stream_find a b)
  | |- context [if ?c then _ else _] => destruct c
  end; enc_simpl.

Ltac enc_split := enc_simpl; repeat enc_step.

Lemma encoders_keep :
  Forall (fun enc : frame_create_fn =>
            forall sk d type, encoder_keeps sk (snd (enc sk d type)))
    quic_frame_ops_create.
Proof.
  unfold quic_frame_ops_create.
  repeat (constructor;
          [ intros sk d type;
            unfold quic_frame_padding_create, quic_frame_ping_create,
              quic_frame_ack_create, quic_frame_reset_stream_create,
              quic_frame_stop_sending_create, quic_frame_crypto_create,
              quic_frame_new_token_create, quic_frame_stream_create,
              quic_frame_max_data_create, quic_frame_max_stream_data_create,
              quic_frame_max_streams_bidi_create,
              quic_frame_max_streams_uni_create,
              quic_frame_data_blocked_create,
              quic_frame_stream_data_blocked_create,
              quic_frame_streams_blocked_bidi_create,
              quic_frame_streams_blocked_uni_create,
              quic_frame_new_connection_id_create,
              quic_frame_retire_connection_id_create,
              quic_frame_path_challenge_create,
              quic_frame_path_response_create,
              quic_frame_connection_close_create,
              quic_frame_handshake_done_create;
            destruct d; enc_open; enc_split;
            unfold encoder_keeps; cbn; repeat split |]).
  constructor.
Qed.

Lemma Forall_nth_default (A : Type) (P : A -> Prop) (l : list A) (d : A) n :
  Forall P l -> P d -> P (nth n l d).
Proof.
  intros Hl Hd. revert n. induction Hl; intros [|n]; cbn [nth]; auto.
Qed.

(** X11: no encoder touches the packet-number map, the output or the input
    queue, the stored token, the stored ticket or the socket proper (its
    error, its state, its wake-up counters): whatever the type and the
    payload, [quic_frame_create] leaves them as they were.  What an encoder
    may change is the stream table, the connection-ID sets, the entropy of
    a path and the environment. *)
Theorem frame_create_keeps_queues sk type d :
  encoder_keeps sk (snd (quic_frame_create sk type d)).
Proof.
  unfold quic_frame_create.
  destruct (type >? QUIC_FRAME_BASE_MAX).
  { unfold encoder_keeps. cbn [snd]. repeat split. }
  pose proof (@Forall_nth_default _ _ quic_frame_ops_create
                (fun s _ _ => (None, s)) (Z.to_nat type) encoders_keep) as H.
  cbv beta in H.
  specialize (H ltac:(intros; unfold encoder_keeps; cbn [snd]; repeat split)
                sk d type).
  destruct (nth (Z.to_nat type) quic_frame_ops_create
              (fun s _ _ => (None, s)) sk d type) as [[fb|] sk1];
    exact H.
Qed.

Ltac enc_unfold :=
  unfold quic_frame_padding_create, quic_frame_ping_create,
    quic_frame_ack_create, quic_frame_reset_stream_create,
    quic_frame_stop_sending_create, quic_frame_crypto_create,
    quic_frame_new_token_create, quic_frame_stream_create,
    quic_frame_max_data_create, quic_frame_max_stream_data_create,
    quic_frame_max_streams_bidi_create,
    quic_frame_max_streams_uni_create,
    quic_frame_data_blocked_create,
    quic_frame_stream_data_blocked_create,
    quic_frame_streams_blocked_bidi_create,
    quic_frame_streams_blocked_uni_create,
    quic_frame_new_connection_id_create,
    quic_frame_retire_connection_id_create,
    quic_frame_path_challenge_create,
    quic_frame_path_response_create,
    quic_frame_connection_close_create,
    quic_frame_handshake_done_create.

(** X12: a failed encode leaves the connection alone.  When
    [quic_frame_create] returns null for any type other than
    PATH_CHALLENGE (a stream that is not found, an allocation that is not
    served, a copy that faults), the connection state is exactly what it
    was: only the environment (allocator, random stream, and the fault
    mark where the frame did not fit its array) may have moved. *)
Theorem frame_create_failure_keeps_state sk type d sk' :
  type <> QUIC_FRAME_PATH_CHALLENGE ->
  quic_frame_create sk type d = (None, sk') ->
  same_state sk sk'.
Proof.
  intros Ht. unfold quic_frame_create.
  destruct (Z.gtb_spec type QUIC_FRAME_BASE_MAX) as [Hgt|Hle].
  { intros E. injection E as <-. unfold same_state. repeat split. }
  assert (Hn : Z.to_nat type <> 26%nat)
    by (unfold QUIC_FRAME_PATH_CHALLENGE, QUIC_FRAME_BASE_MAX,
          QUIC_FRAME_HANDSHAKE_DONE in *; lia).
  revert Hn. generalize (Z.to_nat type) as n. intros n Hn.
  unfold quic_frame_ops_create.
  do 31 (destruct n as [|n];
         [ try (exfalso; apply Hn; reflexivity); cbn [nth];
           enc_unfold; destruct d; enc_open; enc_split;
           intros E; try discriminate; injection E as <-;
           unfold same_state; cbn; repeat split |]).
  cbn [nth]. destruct n; intros E; injection E as <-;
    unfold same_state; repeat split.
Qed.

Lemma frame_create_failure_keeps_state_witness :
  same_state (sample_sock [false] [])
    (snd (quic_frame_create (sample_sock [false] [])
            QUIC_FRAME_RETIRE_CONNECTION_ID (DATA_U64 0))).
Proof.
  apply (@frame_create_failure_keeps_state (sample_sock [false] [])
           QUIC_FRAME_RETIRE_CONNECTION_ID (DATA_U64 0)).
  - vm_compute. discriminate.
  - vm_compute. reflexivity.
Defined.

(** X13: the PATH_CHALLENGE encoder draws the entropy of the path before
    it allocates the frame.  Whether or not a frame comes back, the
    entropy of the path is afterwards the eight bytes just drawn from the
    random stream, so a challenge that could not be allocated still
    replaces the entropy an earlier challenge is waiting on; a frame that
    does come back carries exactly these bytes behind its type byte. *)
Theorem path_challenge_entropy_replaced sk local :
  let r := quic_frame_create sk QUIC_FRAME_PATH_CHALLENGE (DATA_PATH local) in
  let e := fst (get_random_bytes 8 sk) in
  entropy (path_get local (snd r)) = e
  /\ length e = 8%nat
  /\ pending (path_get local (snd r)) = pending (path_get local sk)
  /\ match fst r with
     | Some fb => fb_data fb = QUIC_FRAME_PATH_CHALLENGE :: e
     | None => fst (alloc_atomic (snd (get_random_bytes 8 sk))) = false
     end.
Proof.
  cbv zeta. rewrite quic_frame_create_path_challenge. cbv zeta.
  set (e := fst (get_random_bytes 8 sk)).
  set (sk0 := snd (get_random_bytes 8 sk)).
  assert (P0 : path_get local sk0 = path_get local sk) by reflexivity.
  set (sk2 := path_put local (set_entropy e (path_get local sk0)) sk0).
  pose proof (alloc_atomic_keeps sk2) as K. cbv zeta in K.
  destruct K as (_ & _ & _ & _ & _ & _ & _ & _ & Kp & _).
  assert (P1 : path_get local (snd (alloc_atomic sk2))
               = set_entropy e (path_get local sk)).
  { unfold path_get at 1. rewrite Kp. fold (path_get local sk2).
    unfold sk2. rewrite path_get_put, P0. reflexivity. }
  cbn [snd fst]. rewrite P1. cbn [entropy pending set_entropy].
  split; [reflexivity|]. split; [apply random_bytes_length|].
  split; [reflexivity|].
  assert (A : fst (alloc_atomic sk2) = fst (alloc_atomic sk0)).
  { unfold alloc_atomic. destruct local; cbn; destruct (allocs (env sk));
      reflexivity. }
  rewrite <- A. destruct (fst (alloc_atomic sk2)); reflexivity.
Qed.

Lemma stream_type_keeps_bits type (off fin : bool) :
  8 <= type <= 15 ->
  let t1 := if off then Z.lor type QUIC_STREAM_BIT_OFF else type in
  let t2 := Z.lor t1 QUIC_STREAM_BIT_LEN in
  let t3 := if fin then Z.lor t2 QUIC_STREAM_BIT_FIN else t2 in
  Z.land t3 type = type.
Proof.
  intros H.
  assert (E : type = 8 \/ type = 9 \/ type = 10 \/ type = 11 \/ type = 12
              \/ type = 13 \/ type = 14 \/ type = 15) by lia.
  destruct off, fin;
    repeat (destruct E as [E|E]); subst type; reflexivity.
Qed.

Lemma overlay_first n :
  overlay [0] (repeat 0 n) = 0 :: tl (overlay [0] (repeat 0 n))
  \/ (0 = QUIC_FRAME_PADDING /\ overlay [0] (repeat 0 n) = []).
Proof.
  unfold overlay. rewrite repeat_length.
  destruct n; [right; split; reflexivity | left; reflexivity].
Qed.

Ltac literal_byte :=
  match goal with
  | |- context [quic_put_var (Zpos ?p)] =>
      rewrite (@quic_put_var_small (Zpos p)) by lia
  | |- context [quic_put_var Z0] =>
      rewrite (@quic_put_var_small Z0) by lia
  end.

(** X14: every frame handed out by [quic_frame_create] starts with its
    type byte, and the control block records that byte as [frame_type].
    For every kind but STREAM it is the type asked for; for STREAM
    (0x08..0x0f) it is a STREAM type that has every bit of the type asked
    for, the encoder only adding bits.  The one frame without a first byte
    is the PADDING frame asked for with a length that wraps to 0, which is
    empty. *)
Theorem frame_type_byte_recorded sk type d fb sk' :
  0 <= type <= QUIC_FRAME_BASE_MAX ->
  quic_frame_create sk type d = (Some fb, sk') ->
  (fb_data fb = fb_frame_type fb :: tl (fb_data fb)
   \/ (type = QUIC_FRAME_PADDING /\ fb_data fb = []))
  /\ (if (8 <=? type) && (type <=? 15)
      then 8 <= fb_frame_type fb <= 15
           /\ Z.land (fb_frame_type fb) type = type
      else fb_frame_type fb = type).
Proof.
  intros Ht.
  destruct (Z.leb_spec 8 type) as [H8|H8];
    [destruct (Z.leb_spec type 15) as [H15|H15]|]; cbn [andb].
  { rewrite quic_frame_create_stream by lia.
    destruct d as [| | | |info| | | | | |]; try discriminate.
    unfold quic_frame_stream_create at 1.
    destruct (quic_stream_find (streams sk) (mi_stream info)) as [stream|]
      eqn:Hf; [|discriminate].
    fold (quic_frame_stream_create sk (DATA_MSGINFO info) type).
    assert (Hs : quic_frame_stream_create sk (DATA_MSGINFO info) type
                 = quic_frame_stream_create sk (DATA_MSGINFO info) type)
      by reflexivity.
    rewrite (@quic_frame_stream_create_eq _ _ _ _ Hf) in Hs at 2.
    unfold quic_frame_stream_create in Hs at 1. rewrite Hf in Hs.
    rewrite Hs. cbv zeta.
    pose proof (@stream_frame_type_bits sk stream info type ltac:(lia)) as B.
    cbv zeta in B. destruct B as (Brange & _).
    pose proof (@stream_type_keeps_bits type
                  (negb (send_offset stream =? 0))
                  ((u32 (len_of (mi_msg info)) <=? stream_frame_room sk stream)
                   && mi_flag_fin info) ltac:(lia)) as Bk.
    cbv zeta in Bk. fold (stream_frame_type sk stream info type) in Bk.
    set (t := stream_frame_type sk stream info type) in *.
    destruct (negb (fst (alloc_atomic sk))); [discriminate|].
    destruct (mi_fault info); [discriminate|].
    cbn [fb_frame_type]. destruct (Z.eqb_spec t 0); [lia|].
    intros E. injection E as <- _. cbn [fb_data fb_frame_type].
    rewrite quic_put_var_small by lia. cbn [app tl].
    split; [left; reflexivity|]. split; assumption. }
  all: unfold quic_frame_create;
    destruct (Z.gtb_spec type QUIC_FRAME_BASE_MAX) as [Hgt|_]; [lia|];
    assert (Hn : type = Z.of_nat (Z.to_nat type)) by lia;
    revert Hn; generalize (Z.to_nat type) as n; intros n Hn;
    unfold quic_frame_ops_create;
    do 31 (destruct n as [|n];
           [ vm_compute in Hn; try lia; subst type; cbn [nth];
             enc_unfold; destruct d; enc_open; enc_split;
             intros E; try discriminate; injection E as <- _;
             cbn [fb_data fb_frame_type set_fb_frame_type skb_of];
             repeat literal_byte;
             (split; [|reflexivity]);
             first [ left; reflexivity | apply overlay_first ] |]);
    unfold QUIC_FRAME_BASE_MAX, QUIC_FRAME_HANDSHAKE_DONE in *; lia.
Qed.

Lemma frame_type_byte_recorded_witness :
  let fb :=
    set_fb_frame_type QUIC_FRAME_MAX_DATA
      (skb_of (quic_put_var QUIC_FRAME_MAX_DATA ++ quic_put_var 220)) in
  (fb_data fb = fb_frame_type fb :: tl (fb_data fb)
   \/ (QUIC_FRAME_MAX_DATA = QUIC_FRAME_PADDING /\ fb_data fb = []))
  /\ fb_frame_type fb = QUIC_FRAME_MAX_DATA.
Proof.
  apply (@frame_type_byte_recorded (sample_sock [] []) QUIC_FRAME_MAX_DATA
           (DATA_INQ {| inq_max_bytes := 220; inq_bytes := 20;
                        inq_window := 200 |})
           (set_fb_frame_type QUIC_FRAME_MAX_DATA
              (skb_of (quic_put_var QUIC_FRAME_MAX_DATA ++ quic_put_var 220)))
           (sample_sock [] [])).
  - vm_compute. split; discriminate.
  - vm_compute. reflexivity.
Defined.

(** ** STREAM frames and the size of a packet *)

Lemma quic_var_len_mono a b : a <= b -> quic_var_len a <= quic_var_len b.
Proof.
  intros H. unfold quic_var_len.
  destruct (Z.ltb_spec a 64), (Z.ltb_spec b 64),
    (Z.ltb_spec a 16384), (Z.ltb_spec b 16384),
    (Z.ltb_spec a 1073741824), (Z.ltb_spec b 1073741824); lia.
Qed.

Lemma stream_frame_created sk type info stream fb sk' :
  8 <= type <= 15 ->
  quic_stream_find (streams sk) (mi_stream info) = Some stream ->
  quic_frame_create sk type (DATA_MSGINFO info) = (Some fb, sk') ->
  let t := stream_frame_type sk stream info type in
  let n := stream_frame_msg_len sk stream info in
  fb_frame_type fb = t /\ fb_data_bytes fb = n
  /\ fb_data fb
     = (quic_put_var t ++ quic_put_var (stream_id stream)
        ++ (if has_bit t QUIC_STREAM_BIT_OFF
            then quic_put_var (send_offset stream) else [])
        ++ quic_put_var n) ++ firstn (Z.to_nat n) (mi_msg info).
Proof.
  intros Ht Hf. rewrite quic_frame_create_stream by assumption.
  rewrite (@quic_frame_stream_create_eq _ _ _ _ Hf). cbv zeta.
  pose proof (@stream_frame_type_bits sk stream info type Ht) as B.
  cbv zeta in B. destruct B as (Brange & _).
  set (t := stream_frame_type sk stream info type) in *.
  destruct (negb (fst (alloc_atomic sk))); [discriminate|].
  destruct (mi_fault info); [discriminate|].
  cbn [fb_frame_type]. destruct (Z.eqb_spec t 0); [lia|].
  intros E. injection E as <- _. repeat split.
Qed.

(** X15: a STREAM frame never exceeds the maximum payload of a packet.
    For a maximum payload of at least 25 bytes (the largest header) that
    fits 32 bits, and a request whose type byte has the OFF bit only when
    the stream has a send offset, the frame handed out is at most
    [packet_max_payload] bytes long: the message is cut to the room the
    header leaves. *)
Theorem stream_frame_fits_packet sk type info stream fb sk' :
  8 <= type <= 15 ->
  (has_bit type QUIC_STREAM_BIT_OFF = true -> send_offset stream <> 0) ->
  quic_stream_find (streams sk) (mi_stream info) = Some stream ->
  25 <= packet_max_payload (common sk) < 2 ^ 32 ->
  quic_frame_create sk type (DATA_MSGINFO info) = (Some fb, sk') ->
  len_of (fb_data fb) <= packet_max_payload (common sk).
Proof.
  intros Ht Hoff Hf Hmax Hc.
  destruct (@stream_frame_created _ _ _ _ _ _ Ht Hf Hc) as (_ & _ & ->).
  pose proof (@stream_frame_type_bits sk stream info type Ht) as B.
  cbv zeta in B. destruct B as (Brange & Boff & _).
  set (t := stream_frame_type sk stream info type) in *.
  pose proof (stream_frame_msg_len_range sk stream info) as [Nr _].
  assert (Hroom : stream_frame_msg_len sk stream info
                  <= stream_frame_room sk stream).
  { unfold stream_frame_msg_len.
    destruct (Z.leb_spec (u32 (len_of (mi_msg info)))
                (stream_frame_room sk stream)); lia. }
  set (n := stream_frame_msg_len sk stream info) in *.
  rewrite !len_of_app, !quic_put_var_length.
  assert (Lt : quic_var_len t = 1)
    by (unfold quic_var_len; destruct (Z.ltb_spec t 64); lia).
  rewrite Lt.
  assert (Lm : len_of (firstn (Z.to_nat n) (mi_msg info)) = n).
  { unfold len_of in *. rewrite length_firstn. lia. }
  rewrite Lm.
  unfold stream_frame_room in Hroom.
  assert (Hu : u32 (packet_max_payload (common sk))
               = packet_max_payload (common sk))
    by (unfold u32; apply Z.mod_small; lia).
  rewrite Hu in Hroom.
  set (m := packet_max_payload (common sk)) in *.
  pose proof (quic_var_len_pos (stream_id stream)) as Pi.
  pose proof (quic_var_len_pos (send_offset stream)) as Po.
  pose proof (quic_var_len_pos m) as Pm.
  assert (Hn : quic_var_len n <= quic_var_len m).
  { apply quic_var_len_mono.
    set (h := if negb (send_offset stream =? 0)
              then 1 + quic_var_len (stream_id stream)
                   + quic_var_len (send_offset stream)
              else 1 + quic_var_len (stream_id stream)) in *.
    assert (0 <= h + quic_var_len m <= 25)
      by (unfold h; destruct (negb (send_offset stream =? 0)); lia).
    unfold u32 in Hroom.
    rewrite (Z.mod_small (h + quic_var_len m)) in Hroom by lia.
    rewrite Z.mod_small in Hroom by lia. lia. }
  assert (Ho : len_of (if has_bit t QUIC_STREAM_BIT_OFF
                       then quic_put_var (send_offset stream) else [])
               = if negb (send_offset stream =? 0)
                 then quic_var_len (send_offset stream) else 0).
  { rewrite Boff.
    destruct (has_bit type QUIC_STREAM_BIT_OFF) eqn:Ob; cbn [orb].
    - specialize (Hoff eq_refl).
      destruct (Z.eqb_spec (send_offset stream) 0); [contradiction|].
      cbn [negb]. apply quic_put_var_length.
    - destruct (negb (send_offset stream =? 0));
        [apply quic_put_var_length | reflexivity]. }
  rewrite Ho.
  destruct (negb (send_offset stream =? 0)).
  - unfold u32 in Hroom.
    rewrite (Z.mod_small (1 + quic_var_len (stream_id stream)
                          + quic_var_len (send_offset stream)
                          + quic_var_len m)) in Hroom by lia.
    rewrite Z.mod_small in Hroom by lia. lia.
  - unfold u32 in Hroom.
    rewrite (Z.mod_small (1 + quic_var_len (stream_id stream)
                          + quic_var_len m)) in Hroom by lia.
    rewrite Z.mod_small in Hroom by lia. lia.
Qed.

Lemma stream_frame_fits_packet_witness :
  len_of [0x0a; 4; 2; 104; 105] <= 1200.
Proof.
  apply (@stream_frame_fits_packet (sample_sock [] []) QUIC_FRAME_STREAM
           {| mi_stream := 4; mi_msg := [104; 105]; mi_flag_fin := false;
              mi_fault := false |}
           (sample_stream 4 0 100)
           {| fb_data := [0x0a; 4; 2; 104; 105]; fb_frame_type := 0x0a;
              fb_stream := Some 4; fb_stream_offset := 0;
              fb_data_bytes := 2; fb_err_code := 0 |}
           (snd (quic_frame_create (sample_sock [] []) QUIC_FRAME_STREAM
                   (DATA_MSGINFO
                      {| mi_stream := 4; mi_msg := [104; 105];
                         mi_flag_fin := false; mi_fault := false |})))).
  - vm_compute. split; discriminate.
  - vm_compute. discriminate.
  - reflexivity.
  - vm_compute. split; [discriminate | reflexivity].
  - vm_compute. reflexivity.
Defined.

(** With the OFF bit asked for on a stream whose send offset is 0 the
    header is one byte longer than the encoder reckons, and a long message
    makes the frame one byte longer than the maximum payload. *)
Example stream_frame_overruns_with_off_bit :
  option_map (fun fb => len_of (fb_data fb))
    (fst (quic_frame_create (sample_sock [] []) 0x0c
            (DATA_MSGINFO {| mi_stream := 4; mi_msg := repeat 7 1300;
                             mi_flag_fin := false; mi_fault := false |})))
  = Some 1201.
Proof. vm_compute. reflexivity. Qed.

(** X16: FIN goes out only with the end of the message.  For a request
    whose type byte has the FIN bit clear and a message shorter than 2^32
    bytes, the frame handed out has the FIN bit exactly when the caller set
    the FIN flag and the frame carries every byte of the message; a message
    that had to be cut to the room of the packet is never marked as
    finished. *)
Theorem stream_fin_only_with_whole_message sk type info stream fb sk' :
  8 <= type <= 15 ->
  has_bit type QUIC_STREAM_BIT_FIN = false ->
  quic_stream_find (streams sk) (mi_stream info) = Some stream ->
  len_of (mi_msg info) < 2 ^ 32 ->
  quic_frame_create sk type (DATA_MSGINFO info) = (Some fb, sk') ->
  has_bit (fb_frame_type fb) QUIC_STREAM_BIT_FIN = true
  <-> (mi_flag_fin info = true /\ fb_data_bytes fb = len_of (mi_msg info)).
Proof.
  intros Ht Hfin Hf Hlen Hc.
  destruct (@stream_frame_created _ _ _ _ _ _ Ht Hf Hc) as (-> & -> & _).
  pose proof (@stream_frame_type_bits sk stream info type Ht) as B.
  cbv zeta in B. destruct B as (_ & _ & _ & ->). rewrite Hfin. cbn [orb].
  unfold stream_frame_msg_len.
  pose proof (len_of_nonneg (mi_msg info)) as Hn.
  assert (Hu : u32 (len_of (mi_msg info)) = len_of (mi_msg info))
    by (unfold u32; apply Z.mod_small; lia).
  rewrite Hu.
  destruct (Z.leb_spec (len_of (mi_msg info)) (stream_frame_room sk stream));
    cbn [andb]; split.
  - intros ->. split; reflexivity.
  - intros [-> _]. reflexivity.
  - discriminate.
  - intros [_ E]. lia.
Qed.

Lemma stream_fin_only_with_whole_message_witness :
  has_bit 0x0b QUIC_STREAM_BIT_FIN = true <-> (true = true /\ 2 = 2).
Proof.
  apply (@stream_fin_only_with_whole_message (sample_sock [] [])
           QUIC_FRAME_STREAM
           {| mi_stream := 4; mi_msg := [104; 105]; mi_flag_fin := true;
              mi_fault := false |}
           (sample_stream 4 0 100)
           {| fb_data := [0x0b; 4; 2; 104; 105]; fb_frame_type := 0x0b;
              fb_stream := Some 4; fb_stream_offset := 0;
              fb_data_bytes := 2; fb_err_code := 0 |}
           (snd (quic_frame_create (sample_sock [] []) QUIC_FRAME_STREAM
                   (DATA_MSGINFO
                      {| mi_stream := 4; mi_msg := [104; 105];
                         mi_flag_fin := true; mi_fault := false |})))).
  - vm_compute. split; discriminate.
  - reflexivity.
  - reflexivity.
  - vm_compute. reflexivity.
  - vm_compute. reflexivity.
Defined.

(** ** Frames without a body *)

Lemma quic_get_var_empty p : 0 <= hd 0 p -> quic_get_var p 0 = None.
Proof.
  intros H. unfold quic_get_var.
  pose proof (@shiftl_one_pos (Z.shiftr (hd 0 p) 6)
                ltac:(apply Z.shiftr_nonneg; exact H)).
  destruct (Z.ltb_spec 0 (Z.shiftl 1 (Z.shiftr (hd 0 p) 6)));
    [reflexivity | lia].
Qed.

(** X17: a type byte with nothing behind it.  Apart from PADDING, PING
    and HANDSHAKE_DONE, which have no body, every decoder of the dispatch
    table refuses an empty buffer with [-EINVAL] and leaves the socket
    exactly as it was. *)
Theorem empty_body_rejected ops type sk skb :
  0 <= type <= QUIC_FRAME_BASE_MAX ->
  type <> QUIC_FRAME_PADDING -> type <> QUIC_FRAME_PING ->
  type <> QUIC_FRAME_HANDSHAKE_DONE ->
  len skb = 0 -> 0 <= hd 0 (data skb) ->
  frame_process_of ops type sk skb type = (- EINVAL, sk).
Proof.
  intros Ht H0 H1 H30 Hl Hb.
  pose proof (quic_get_var_empty _ Hb) as G.
  assert (Hn : type = Z.of_nat (Z.to_nat type)) by lia.
  revert Hn. unfold frame_process_of. generalize (Z.to_nat type) as n.
  intros n Hn. unfold quic_frame_ops_process.
  do 31 (destruct n as [|n];
         [ vm_compute in Hn; cbn [nth];
           first
             [ exfalso; apply H0; exact Hn
             | exfalso; apply H1; exact Hn
             | exfalso; apply H30; exact Hn
             | unfold quic_frame_ack_process,
                 quic_frame_reset_stream_process,
                 quic_frame_stop_sending_process,
                 quic_frame_crypto_process,
                 quic_frame_new_token_process,
                 quic_frame_stream_process,
                 quic_frame_max_data_process,
                 quic_frame_max_stream_data_process,
                 quic_frame_max_streams_bidi_process,
                 quic_frame_max_streams_uni_process,
                 quic_frame_data_blocked_process,
                 quic_frame_stream_data_blocked_process,
                 quic_frame_streams_blocked_bidi_process,
                 quic_frame_streams_blocked_uni_process,
                 quic_frame_new_connection_id_process,
                 quic_frame_retire_connection_id_process,
                 quic_frame_path_challenge_process,
                 quic_frame_path_response_process,
                 quic_frame_connection_close_process;
               unfold quic_frame_ack_parse, quic_frame_crypto_parse,
                 quic_frame_new_token_parse, quic_frame_stream_parse,
                 quic_frame_new_connection_id_parse, quic_frame_path_parse,
                 quic_frame_connection_close_parse;
               unfold quic_frame_connection_close_header,
                 get_var1, get_var2, get_var3;
               rewrite Hl; rewrite ?G; reflexivity ] |]).
  unfold QUIC_FRAME_BASE_MAX, QUIC_FRAME_HANDSHAKE_DONE in *. lia.
Qed.

Lemma empty_body_rejected_witness :
  frame_process_of sample_ops QUIC_FRAME_MAX_DATA (sample_sock [] [])
    (mk_skb [] [9]) QUIC_FRAME_MAX_DATA = (- EINVAL, sample_sock [] []).
Proof.
  apply (@empty_body_rejected sample_ops QUIC_FRAME_MAX_DATA
           (sample_sock [] []) (mk_skb [] [9]));
    vm_compute; try split; discriminate || reflexivity.
Defined.

(** ** ACK frames *)

Lemma gabs_descending_start g below :
  gabs_descending (g :: below) -> 2 <= gab_start g.
Proof.
  revert g. induction below as [|g' r IH]; intros g (H1 & H2 & H3).
  - exact H2.
  - specialize (IH g' H3). destruct H3 as (H4 & _). lia.
Qed.

Lemma retransmit_checked_cons sk c l :
  retransmit_checked sk (c :: l)
  = retransmit_checked
      (match c with
       | (largest, smallest, ack_largest, ack_delay) =>
           quic_outq_retransmit_check sk largest smallest ack_largest
             ack_delay
       end) l.
Proof. reflexivity. Qed.

Lemma ack_ranges_read base top rgabs : forall sk tail m smallest,
  gabs_descending rgabs -> 0 <= base -> base + top < 2 ^ 62 -> 0 <= m ->
  (forall g below, rgabs = g :: below ->
                   smallest = base + gab_end g /\ gab_end g <= top) ->
  quic_frame_ack_ranges (length rgabs) sk (ack_ranges rgabs ++ tail)
    (len_of (ack_ranges rgabs) + m) smallest
  = (true, retransmit_checked sk (acked_below base rgabs), tail, m).
Proof.
  induction rgabs as [|g below IH]; intros sk tail m smallest D Hb Ht Hm Hs.
  - reflexivity.
  - destruct (Hs g below eq_refl) as [-> Hg].
    pose proof (gabs_descending_start D) as H2.
    destruct D as (D1 & D2 & D3).
    cbn [length quic_frame_ack_ranges ack_ranges acked_below].
    rewrite <- !app_assoc, !len_of_app, <- !Z.add_assoc.
    assert (U : forall x, 0 <= x < 2 ^ 62 -> u64 x = x)
      by (intros x Hx; unfold u64; apply Z.mod_small; lia).
    rewrite (U (gab_end g - gab_start g)) by lia.
    rewrite quic_get_put_var
      by (unfold varint; pose proof (len_of_nonneg (ack_ranges below));
          first [lia | match goal with
                       | |- 0 <= len_of ?a + _ =>
                           pose proof (len_of_nonneg a); lia
                       end]).
    destruct below as [|g' r].
    + rewrite (U (gab_start g - 2)) by lia.
      rewrite quic_get_put_var
        by (unfold varint; pose proof (len_of_nonneg (ack_ranges []));
            lia).
      replace (base + gab_end g - (gab_end g - gab_start g) - 2)
        with (base + gab_start g - 2) by lia.
      rewrite (U (base + gab_start g - 2)) by lia.
      replace (base + gab_start g - 2 - (gab_start g - 2)) with base by lia.
      rewrite (U base) by lia.
      rewrite retransmit_checked_cons.
      apply (IH _ tail m base I Hb Ht Hm). intros ? ? E. discriminate.
    + cbv beta iota in D2.
      pose proof (gabs_descending_start D3) as H2'.
      destruct D3 as (D4 & D5 & D6).
      rewrite (U (gab_start g - gab_end g' - 2)) by lia.
      rewrite quic_get_put_var
        by (unfold varint;
            pose proof (len_of_nonneg (ack_ranges (g' :: r))); lia).
      replace (base + gab_end g - (gab_end g - gab_start g) - 2)
        with (base + gab_start g - 2) by lia.
      rewrite (U (base + gab_start g - 2)) by lia.
      replace (base + gab_start g - 2 - (gab_start g - gab_end g' - 2))
        with (base + gab_end g') by lia.
      rewrite (U (base + gab_end g')) by lia.
      rewrite retransmit_checked_cons.
      apply (IH _ tail m (base + gab_end g') (conj D4 (conj D5 D6)) Hb Ht Hm).
      intros ? ? E. injection E as <- <-. split; [reflexivity | lia].
Qed.

Lemma ack_delay_range sk : 0 <= ack_delay sk < 2 ^ 32.
Proof.
  unfold ack_delay.
  pose proof (u32_range (now_usecs (env sk) - u32 (max_pn_ts (pnmap sk))))
    as H.
  set (x := u32 (now_usecs (env sk) - u32 (max_pn_ts (pnmap sk)))) in *.
  set (e := ack_delay_exponent (outq sk)).
  destruct (Z.ltb_spec e 0).
  - rewrite Z.pow_neg_r by assumption. rewrite Z.div_0_r. lia.
  - assert (0 < 2 ^ e) by (apply Z.pow_pos_nonneg; lia).
    split; [apply Z.div_pos; lia|].
    apply Z.le_lt_trans with x; [|lia].
    apply Z.div_le_upper_bound; [lia|]. nia.
Qed.

(** X18: the round trip of ACK.  For a packet-number map whose gap blocks
    are in order (at most 16 of them), with [base_pn >= 0] and the first
    range within [0, max_pn_seen], [max_pn_seen < 2^32], the decoder of the
    peer reads the encoded frame to its last byte, whatever follows it, and
    releases exactly the ranges the map holds: the first from the top gap
    block (or [min_pn_seen]) up to [max_pn_seen] with the acknowledgement
    delay, then one range under each gap block, down to [base_pn]. *)
Theorem ack_round_trip sk d fb sk' rsk rest slack :
  quic_frame_create sk QUIC_FRAME_ACK d = (Some fb, sk') ->
  gabs_descending (rev (pn_gabs (pnmap sk))) ->
  len_of (pn_gabs (pnmap sk)) <= 16 ->
  0 <= base_pn (pnmap sk) ->
  0 <= ack_first_smallest (pnmap sk) <= max_pn_seen (pnmap sk) ->
  max_pn_seen (pnmap sk) < 2 ^ 32 ->
  quic_frame_ack_process rsk (decoder_input fb rest slack) QUIC_FRAME_ACK
  = (len_of (tl (fb_data fb)),
     retransmit_checked rsk
       ((max_pn_seen (pnmap sk), ack_first_smallest (pnmap sk),
         max_pn_seen (pnmap sk), ack_delay sk)
        :: acked_below (base_pn (pnmap sk)) (rev (pn_gabs (pnmap sk))))).
Proof.
  intros Hc D H16 Hb Hs Hmax.
  rewrite (@quic_frame_create_eq sk QUIC_FRAME_ACK d quic_frame_ack_create)
    in Hc by (try reflexivity; cbv; split; discriminate).
  unfold quic_frame_ack_create in Hc. cbv zeta in Hc.
  fold (ack_delay sk) in Hc.
  destruct (alloc_atomic sk) as [[] sk1]; [|discriminate].
  cbn [negb skb_of fb_frame_type] in Hc.
  change (0 =? 0) with true in Hc. cbv iota in Hc. injection Hc as <- _.
  set (map := pnmap sk) in *. set (gabs := pn_gabs map) in *.
  set (A := max_pn_seen map) in *.
  assert (Hsm : (if len_of gabs =? 0 then u32 (min_pn_seen map)
                 else u32 (base_pn map
                           + gab_end (last gabs {| gab_start := 0;
                                                   gab_end := 0 |})))
                = ack_first_smallest map).
  { unfold ack_first_smallest in *. fold gabs in Hs |- *.
    destruct (rev gabs) as [|g below] eqn:R.
    - assert (gabs = []) by (apply (f_equal (@rev _)) in R;
                             rewrite rev_involutive in R; exact R).
      rewrite H. cbn. unfold u32. apply Z.mod_small. lia.
    - assert (G : gabs = rev below ++ [g])
        by (apply (f_equal (@rev _)) in R; rewrite rev_involutive in R;
            exact R).
      rewrite G, last_last.
      assert (len_of (rev below ++ [g]) <> 0)
        by (unfold len_of; rewrite length_app; cbn [length]; lia).
      destruct (Z.eqb_spec (len_of (rev below ++ [g])) 0); [contradiction|].
      unfold u32. apply Z.mod_small. lia. }
  cbn [fb_data set_fb_frame_type] in *. rewrite Hsm.
  set (s0 := ack_first_smallest map) in *.
  assert (UA : u32 A = A) by (unfold u32; apply Z.mod_small; lia).
  rewrite UA.
  assert (UR : u32 (A - s0) = A - s0) by (unfold u32; apply Z.mod_small; lia).
  rewrite UR.
  pose proof (ack_delay_range sk) as Hd.
  pose proof (len_of_nonneg gabs) as Hg.
  unfold decoder_input. cbn [fb_data set_fb_frame_type skb_of tl].
  unfold quic_frame_ack_process, quic_frame_ack_parse.
  rewrite mk_skb_data, mk_skb_len.
  rewrite <- ?app_assoc, ?len_of_app, <- ?Z.add_assoc.
  pose proof (len_of_nonneg (ack_ranges (rev gabs))) as Hr.
  pose proof (len_of_nonneg rest) as Hrest.
  pose proof (quic_var_len_pos (ack_delay sk)) as P1.
  pose proof (quic_var_len_pos (len_of gabs)) as P2.
  pose proof (quic_var_len_pos (A - s0)) as P3.
  rewrite quic_get_put_var
    by (unfold varint; rewrite ?quic_put_var_length; lia).
  rewrite quic_get_put_var
    by (unfold varint; rewrite ?quic_put_var_length; lia).
  rewrite quic_get_put_var
    by (unfold varint; rewrite ?quic_put_var_length; lia).
  destruct (Z.gtb_spec (len_of gabs) 16); [lia|].
  rewrite quic_get_put_var by (unfold varint; lia).
  replace (u64 (A - (A - s0))) with s0
    by (unfold u64; rewrite Z.mod_small; lia).
  assert (Ln : Z.to_nat (len_of gabs) = length (rev gabs))
    by (unfold len_of; rewrite length_rev; lia).
  rewrite Ln.
  rewrite (@ack_ranges_read (base_pn map) (A - base_pn map) (rev gabs)
             _ (rest ++ slack) (len_of rest) s0 D Hb ltac:(lia) Hrest).
  2:{ intros g below E. unfold s0, ack_first_smallest. fold gabs.
      rewrite E. split; [reflexivity|].
      unfold s0, ack_first_smallest in Hs. fold gabs in Hs.
      rewrite E in Hs. lia. }
  change (QUIC_FRAME_ACK =? QUIC_FRAME_ACK_ECN) with false. cbv iota.
  rewrite retransmit_checked_cons. f_equal. lia.
Qed.

Lemma ack_round_trip_witness :
  quic_frame_ack_process (sample_sock [] [])
    (decoder_input
       (set_fb_frame_type QUIC_FRAME_ACK
          (skb_of [0x02; 20; 0; 2; 2; 1; 1; 2; 0])) [1] [])
    QUIC_FRAME_ACK
  = (8, retransmit_checked (sample_sock [] [])
          [(20, 18, 20, 0); (15, 14, 0, 0); (10, 10, 0, 0)]).
Proof.
  apply (@ack_round_trip sample_sock_gaps DATA_NONE
           (set_fb_frame_type QUIC_FRAME_ACK
              (skb_of [0x02; 20; 0; 2; 2; 1; 1; 2; 0]))
           sample_sock_gaps (sample_sock [] []) [1] []).
  - vm_compute. reflexivity.
  - cbn. lia.
  - vm_compute. discriminate.
  - vm_compute. discriminate.
  - vm_compute. split; discriminate.
  - vm_compute. reflexivity.
Defined.

Lemma quic_frame_ack_ranges_grow count : forall sk p l smallest,
  exists more,
    retransmit_checks
      (outq (snd (fst (fst (quic_frame_ack_ranges count sk p l smallest)))))
    = retransmit_checks (outq sk) ++ more
    /\ (length more <= count)%nat.
Proof.
  induction count as [|n IH]; intros sk p l smallest.
  - exists []. cbn. rewrite app_nil_r. split; [reflexivity | lia].
  - cbn [quic_frame_ack_ranges].
    destruct (quic_get_var p l) as [[[gap p1] l1]|].
    2:{ exists []. cbn. rewrite app_nil_r. split; [reflexivity | lia]. }
    destruct (quic_get_var p1 l1) as [[[range p2] l2]|].
    2:{ exists []. cbn. rewrite app_nil_r. split; [reflexivity | lia]. }
    match goal with
    | |- context [quic_frame_ack_ranges n ?s ?q ?m ?t] =>
        destruct (IH s q m t) as (more & E & L)
    end.
    rewrite E. unfold quic_outq_retransmit_check.
    cbn [outq set_outq retransmit_checks set_retransmit_checks].
    rewrite <- app_assoc. eexists. split; [reflexivity|].
    cbn [app length]. lia.
Qed.

(** X19: an ACK frame releases what it acknowledges before it is read to
    its end.  Once the four leading fields are read (with a count of at
    most 16), the first range is handed to [retransmit_check], and it
    stays released whatever the answer: when a later gap or range, or an
    ECN count, is cut short the decoder returns [-EINVAL] with the checks
    made so far in place.  At most [count] further checks follow the first
    one. *)
Theorem ack_releases_before_validation
  sk skb type largest delay count range p l :
  quic_frame_ack_parse skb = Some (largest, delay, count, range, p, l) ->
  let r := quic_frame_ack_process sk skb type in
  (exists more,
     retransmit_checks (outq (snd r))
     = retransmit_checks (outq sk)
       ++ (largest, u64 (largest - range), largest, delay) :: more
     /\ (length more <= Z.to_nat count)%nat)
  /\ (0 < count -> quic_get_var p l = None ->
      r = (- EINVAL,
           quic_outq_retransmit_check sk largest (u64 (largest - range))
             largest delay)).
Proof.
  intros Hp. cbv zeta. unfold quic_frame_ack_process. rewrite Hp. split.
  - match goal with
    | |- context [quic_frame_ack_ranges ?n ?s ?q ?m ?t] =>
        destruct (quic_frame_ack_ranges_grow n s q m t) as (more & E & L);
        destruct (quic_frame_ack_ranges n s q m t) as [[[[] sk2] p2] l2]
    end; cbn [fst snd] in E; exists more;
      (split; [|exact L]).
    + assert (F : retransmit_checks (outq sk2)
                  = retransmit_checks (outq sk)
                    ++ (largest, u64 (largest - range), largest, delay)
                       :: more)
        by (rewrite E; unfold quic_outq_retransmit_check;
            cbn [outq set_outq retransmit_checks set_retransmit_checks];
            rewrite <- app_assoc; reflexivity).
      destruct (type =? QUIC_FRAME_ACK_ECN); [|exact F].
      repeat (destruct (quic_get_var _ _) as [[[? ?] ?]|]; try exact F).
    + cbn [snd]. rewrite E. unfold quic_outq_retransmit_check.
      cbn [outq set_outq retransmit_checks set_retransmit_checks].
      rewrite <- app_assoc. reflexivity.
  - intros Hc Hn.
    destruct (Z.to_nat count) as [|n] eqn:C; [lia|].
    cbn [quic_frame_ack_ranges]. rewrite Hn. reflexivity.
Qed.

Lemma ack_releases_before_validation_witness :
  quic_frame_ack_process (sample_sock [] []) (mk_skb [7; 0; 1; 0] [])
    QUIC_FRAME_ACK
  = (- EINVAL, quic_outq_retransmit_check (sample_sock [] []) 7 7 7 0).
Proof.
  destruct (@ack_releases_before_validation (sample_sock [] [])
              (mk_skb [7; 0; 1; 0] []) QUIC_FRAME_ACK 7 0 1 0 [] 0 eq_refl)
    as [_ H].
  apply H.
  - reflexivity.
  - reflexivity.
Defined.

(** ** STOP_SENDING *)

(** X20: STOP_SENDING is answered with RESET_STREAM.  When the getter
    hands back the stream the frame names, the RESET_STREAM frame fits the
    20 bytes its encoder assembles it in (as VarInts the stream id, the
    error code and the send offset take 19 bytes or less), and the frame
    can be allocated, the decoder queues, as an urgent frame at the tail
    of the control list, one RESET_STREAM that carries the stream id and
    the error code just received and the send offset of the stream as its
    final size; the stream is then in the send state RESET_SENT, it is no
    longer the active stream if it was, and no fault is raised. *)
Theorem stop_sending_answered ops sk skb type id errcode p l st stream :
  get_var2 skb = Some (id, errcode, p, l) ->
  quic_stream_send_get ops (streams sk) id 0 (is_serv (common sk))
  = (STREAM_AT id, st) ->
  quic_stream_find st id = Some stream ->
  quic_var_len id + quic_var_len errcode + quic_var_len (send_offset stream)
  <= 19 ->
  fst (alloc_atomic sk) = true ->
  let r := quic_frame_stop_sending_process ops sk skb type in
  fst r = len skb - l
  /\ ctrl_list (outq (snd r))
     = ctrl_list (outq sk)
       ++ [(reset_stream_frame id errcode (send_offset stream), true)]
  /\ len_of (fb_data (reset_stream_frame id errcode (send_offset stream)))
     <= 20
  /\ quic_stream_find (streams (snd r)) id
     = Some (set_send_state QUIC_STREAM_SEND_STATE_RESET_SENT stream)
  /\ send_stream_active (streams (snd r))
     = (if send_stream_active st =? id then -1 else send_stream_active st)
  /\ faulted (env (snd r)) = faulted (env sk).
Proof.
  intros Hg Hs Hf Hfit Ha. cbv zeta.
  assert (Hlen : len_of (quic_put_var QUIC_FRAME_RESET_STREAM
                         ++ quic_put_var id ++ quic_put_var errcode
                         ++ quic_put_var (send_offset stream)) <= 20).
  { rewrite !len_of_app, !quic_put_var_length.
    change (quic_var_len QUIC_FRAME_RESET_STREAM) with 1. lia. }
  unfold quic_frame_stop_sending_process. rewrite Hg, Hs. cbn [IS_ERR].
  rewrite (@quic_frame_create_eq _ QUIC_FRAME_RESET_STREAM _
             quic_frame_reset_stream_create)
    by (try reflexivity; cbv; split; discriminate).
  unfold quic_frame_reset_stream_create.
  cbn [ei_stream_id ei_errcode streams set_streams]. rewrite Hf.
  cbv zeta. rewrite (@frame_array_fits _ _ _ _ Hlen).
  pose proof (stream_find_id _ _ Hf) as Hid.
  assert (A : alloc_atomic (set_streams st sk)
              = (true, set_streams st (snd (alloc_atomic sk)))).
  { unfold alloc_atomic in *. cbn [env set_streams].
    destruct (allocs (env sk)) as [|[] rest]; try discriminate; reflexivity. }
  rewrite A. cbn [negb fb_frame_type streams set_streams].
  change (0 =? 0) with true. cbv iota. rewrite Hid.
  pose proof (alloc_atomic_keeps sk) as K. cbv zeta in K.
  destruct K as (_ & Ko & _).
  assert (Kf : faulted (env (snd (alloc_atomic sk))) = faulted (env sk)).
  { unfold alloc_atomic. destruct (allocs (env sk)) as [|[] rest];
      reflexivity. }
  set (sk1 := snd (alloc_atomic sk)) in *.
  destruct (Z.eqb_spec (send_stream_active st) id) as [E|E];
    cbn [fst snd stream_store_at].
  all: split; [reflexivity|].
  all: unfold quic_outq_ctrl_tail, stream_store.
  all: cbn [outq set_outq ctrl_list set_ctrl_list streams set_streams
            st_streams set_st_streams send_stream_active
            set_send_stream_active env].
  all: rewrite Ko.
  all: split; [reflexivity|].
  all: split; [exact Hlen|].
  all: split; [|split; [reflexivity | exact Kf]].
  all: unfold quic_stream_find.
  all: cbn [st_streams set_st_streams set_send_stream_active].
  all: apply stream_find_update; [exact Hf | reflexivity].
Qed.

Lemma stop_sending_answered_witness :
  let r := quic_frame_stop_sending_process sample_ops (sample_sock [] [])
             (mk_skb [8; 3] []) QUIC_FRAME_STOP_SENDING in
  fst r = 2 - 0
  /\ ctrl_list (outq (snd r)) = [] ++ [(reset_stream_frame 8 3 60, true)]
  /\ len_of (fb_data (reset_stream_frame 8 3 60)) <= 20
  /\ quic_stream_find (streams (snd r)) 8
     = Some (set_send_state QUIC_STREAM_SEND_STATE_RESET_SENT
               (sample_stream 8 60 60))
  /\ send_stream_active (streams (snd r)) = 4
  /\ faulted (env (snd r)) = false.
Proof.
  apply (@stop_sending_answered sample_ops (sample_sock [] [])
           (mk_skb [8; 3] []) QUIC_FRAME_STOP_SENDING 8 3 [] 0
           (streams (sample_sock [] [])) (sample_stream 8 60 60));
    try reflexivity.
  vm_compute. discriminate.
Defined.

(** A STOP_SENDING frame whose answer does not fit: stream 16384 at send
    offset 2^30 with the error code 2^30 asks for a RESET_STREAM of 21
    bytes, one more than the array of its encoder holds. *)
Example stop_sending_answer_overruns :
  let stream :=
    {| stream_id := 16384; send_offset := 2 ^ 30; send_max_bytes := 0;
       send_data_blocked := 0; send_state := QUIC_STREAM_SEND_STATE_READY;
       recv_max_bytes := 0; recv_bytes := 0; recv_window := 0;
       recv_state := QUIC_STREAM_RECV_STATE_RECV |} in
  let sk :=
    set_streams (set_st_streams [stream] (streams (sample_sock [] [])))
      (sample_sock [] []) in
  let body := quic_put_var 16384 ++ quic_put_var (2 ^ 30) in
  let r := quic_frame_stop_sending_process sample_ops sk (mk_skb body [])
             QUIC_FRAME_STOP_SENDING in
  len_of (fb_data (reset_stream_frame 16384 (2 ^ 30) (2 ^ 30))) = 21
  /\ faulted (env sk) = false /\ faulted (env (snd r)) = true.
Proof. vm_compute. repeat split. Qed.

(** ** Connection IDs between two endpoints *)

Lemma new_connection_id_created sk prior fb sk' :
  quic_frame_create sk QUIC_FRAME_NEW_CONNECTION_ID (DATA_U64 prior)
  = (Some fb, sk') ->
  let seqno := u64 (quic_connection_id_last_number (source sk) + 1) in
  let cid := fst (get_random_bytes 16 sk) in
  fb_data fb
  = QUIC_FRAME_NEW_CONNECTION_ID
    :: quic_put_var seqno ++ quic_put_var prior ++ quic_put_var 16
       ++ cid ++ firstn 16 (stack (env sk))
  /\ cid_list (source sk')
     = cid_list (source sk) ++ [{| cid_number := seqno; cid_data := cid |}].
Proof.
  rewrite (@quic_frame_create_eq _ QUIC_FRAME_NEW_CONNECTION_ID _
             quic_frame_new_connection_id_create)
    by (try reflexivity; cbv; split; discriminate).
  unfold quic_frame_new_connection_id_create.
  pose proof (random_bytes_length 16 sk) as Hc.
  assert (Hd : quic_put_data (fst (get_random_bytes 16 sk)) 16
               = fst (get_random_bytes 16 sk)).
  { unfold quic_put_data. change (Z.to_nat 16) with 16%nat.
    rewrite <- Hc at 1. apply firstn_all. }
  assert (Hf : firstn 16 (fst (get_random_bytes 16 sk))
               = fst (get_random_bytes 16 sk))
    by (rewrite <- Hc at 1; apply firstn_all).
  assert (Ht : quic_put_data (firstn 16 (stack (env sk))) 16
               = firstn 16 (stack (env sk))).
  { unfold quic_put_data. change (Z.to_nat 16) with 16%nat.
    rewrite firstn_firstn. reflexivity. }
  destruct (get_random_bytes 16 sk) as [cid sk1] eqn:G.
  assert (S1 : source sk1 = source sk)
    by (unfold get_random_bytes in G; injection G as _ <-; reflexivity).
  cbn [fst] in *. cbv zeta. rewrite Hd, Ht.
  unfold quic_connection_id_append.
  pose proof (alloc_atomic_keeps sk1) as K1. cbv zeta in K1.
  destruct K1 as (_ & _ & _ & _ & K1 & _).
  destruct (alloc_atomic sk1) as [[] sk2]; cbn [negb snd] in *;
    [|discriminate].
  pose proof (alloc_atomic_keeps sk2) as K2. cbv zeta in K2.
  destruct K2 as (_ & _ & _ & _ & K2 & _).
  destruct (alloc_atomic sk2) as [[] sk3]; cbn [negb snd] in *.
  - change (0 =? 0) with true. cbn [negb fb_frame_type skb_of].
    change (0 =? 0) with true. cbv iota.
    change (Z.to_nat 16) with 16%nat. rewrite Hf.
    intros E. injection E as <- <-.
    cbn [fb_data set_fb_frame_type skb_of id_set_put id_set_get source
         set_source cid_list set_cid_list].
    rewrite K2, K1, S1. split; reflexivity.
  - change (- ENOMEM =? 0) with false. cbn [negb]. discriminate.
Qed.

(** X21: a connection ID announced by one endpoint is the connection ID
    its peer stores.  Endpoint [a] encodes NEW_CONNECTION_ID, which appends
    an entry to its source set; endpoint [b], whose destination set ends
    with the number the source set of [a] ended with, decodes the frame
    (no retirement asked for, the entry allocated): it takes exactly the
    bytes of the frame and appends to its destination set the very entry,
    number and sixteen bytes, that [a] appended. *)
Theorem connection_id_announced
  (ska skb : sock) (prior : Z) (fb : frame_buf) (ska1 : sock)
  (rest slack : list Z) :
  quic_frame_create ska QUIC_FRAME_NEW_CONNECTION_ID (DATA_U64 prior)
  = (Some fb, ska1) ->
  (16 <= length (stack (env ska)))%nat ->
  quic_connection_id_last_number (dest skb)
  = quic_connection_id_last_number (source ska) ->
  0 <= quic_connection_id_last_number (source ska) < 2 ^ 62 - 1 ->
  0 <= prior <= quic_connection_id_first_number (dest skb) ->
  prior <= quic_connection_id_last_number (source ska) + 1 ->
  cid_list (dest skb) <> [] ->
  fst (alloc_atomic skb) = true ->
  let r := quic_frame_new_connection_id_process skb
             (decoder_input fb rest slack) QUIC_FRAME_NEW_CONNECTION_ID in
  fst r = len_of (tl (fb_data fb))
  /\ exists entry,
       cid_list (source ska1) = cid_list (source ska) ++ [entry]
       /\ cid_list (dest (snd r)) = cid_list (dest skb) ++ [entry]
       /\ length (cid_data entry) = 16%nat.
Proof.
  intros Hc Hk Hsync Hlast Hprior Hle Hne Ha.
  destruct (@new_connection_id_created _ _ _ _ Hc) as (Hb & Hsrc).
  cbv zeta in Hb, Hsrc.
  pose proof (random_bytes_length 16 ska) as Lc.
  set (cid := fst (get_random_bytes 16 ska)) in *.
  set (n := quic_connection_id_last_number (source ska)) in *.
  assert (Hu : u64 (n + 1) = n + 1)
    by (unfold u64; apply Z.mod_small; lia).
  rewrite Hu in Hb, Hsrc.
  assert (Lt : length (firstn 16 (stack (env ska))) = 16%nat)
    by (rewrite length_firstn; lia).
  cbv zeta. unfold decoder_input. rewrite Hb. cbn [tl].
  unfold quic_frame_new_connection_id_process.
  replace (quic_put_var (n + 1) ++ quic_put_var prior ++ quic_put_var 16
           ++ cid ++ firstn 16 (stack (env ska)))
    with ((quic_put_var (n + 1) ++ quic_put_var prior ++ quic_put_var 16
           ++ cid ++ firstn 16 (stack (env ska)))) by reflexivity.
  rewrite (@new_connection_id_parse_put (n + 1) prior cid
             (firstn 16 (stack (env ska))) rest slack
             ltac:(unfold varint; lia) ltac:(unfold varint; lia) Lc Lt).
  rewrite Hsync. fold n.
  destruct (Z.eqb_spec (n + 1) (n + 1)); [|contradiction].
  destruct (Z.gtb_spec prior (n + 1)); [lia|]. cbn [negb orb].
  unfold quic_connection_id_append.
  pose proof (alloc_atomic_keeps skb) as K. cbv zeta in K.
  destruct K as (_ & _ & _ & _ & _ & Kd & _).
  destruct (alloc_atomic skb) as [[] skb1]; [|discriminate].
  cbn [snd fst] in *. change (0 =? 0) with true. cbn [negb].
  cbn [id_set_put id_set_get dest set_dest]. rewrite Kd.
  assert (Hfirst : quic_connection_id_first_number
                     (set_cid_list
                        (cid_list (dest skb)
                         ++ [{| cid_number := n + 1;
                                cid_data :=
                                  firstn (Z.to_nat 16)
                                    (cid ++ firstn 16 (stack (env ska))
                                     ++ rest ++ slack) |}]) (dest skb))
                   = quic_connection_id_first_number (dest skb)).
  { unfold quic_connection_id_first_number. cbn [cid_list set_cid_list].
    destruct (cid_list (dest skb)); [contradiction | reflexivity]. }
  rewrite Hfirst.
  destruct (Z.leb_spec prior (quic_connection_id_first_number (dest skb)));
    [|lia].
  cbn [fst snd dest set_dest cid_list set_cid_list]. split.
  - rewrite mk_skb_len, !len_of_app.
    assert (len_of cid = 16) by (unfold len_of; rewrite Lc; reflexivity).
    assert (len_of (firstn 16 (stack (env ska))) = 16)
      by (unfold len_of; rewrite Lt; reflexivity).
    lia.
  - exists {| cid_number := n + 1; cid_data := cid |}.
    split; [exact Hsrc|]. split; [|exact Lc].
    change (Z.to_nat 16) with 16%nat.
    rewrite (firstn_exact cid _ Lc). reflexivity.
Qed.

Lemma connection_id_announced_witness :
  let ska1 :=
    snd (quic_frame_create (sample_sock [] (repeat 0 16))
           QUIC_FRAME_NEW_CONNECTION_ID (DATA_U64 0)) in
  let r := quic_frame_new_connection_id_process (sample_sock [] [])
             (decoder_input sample_new_connection_id_frame [1] [])
             QUIC_FRAME_NEW_CONNECTION_ID in
  fst r = len_of (tl (fb_data sample_new_connection_id_frame))
  /\ exists entry,
       cid_list (source ska1)
       = cid_list (source (sample_sock [] (repeat 0 16))) ++ [entry]
       /\ cid_list (dest (snd r))
          = cid_list (dest (sample_sock [] [])) ++ [entry]
       /\ length (cid_data entry) = 16%nat.
Proof.
  intros ska1.
  apply (@connection_id_announced (sample_sock [] (repeat 0 16))
           (sample_sock [] []) 0 sample_new_connection_id_frame ska1
           [1] []).
  - vm_compute. reflexivity.
  - vm_compute. repeat constructor.
  - reflexivity.
  - vm_compute. split; [discriminate | reflexivity].
  - vm_compute. split; discriminate.
  - vm_compute. discriminate.
  - vm_compute. discriminate.
  - reflexivity.
Defined.

(** ** What a packet can do to the output queue *)

Lemma outq_grows_refl q : outq_grows q q.
Proof.
  unfold outq_grows. split; [lia|].
  split; exists []; rewrite app_nil_r; reflexivity.
Qed.

Lemma outq_grows_trans a b c :
  outq_grows a b -> outq_grows b c -> outq_grows a c.
Proof.
  unfold outq_grows.
  intros (L1 & (m1 & C1) & (n1 & R1)) (L2 & (m2 & C2) & (n2 & R2)).
  split; [lia|]. split.
  - exists (m1 ++ m2). rewrite C2, C1, app_assoc. reflexivity.
  - exists (n1 ++ n2). rewrite R2, R1, app_assoc. reflexivity.
Qed.

Lemma outq_grows_eq a b : b = a -> outq_grows a b.
Proof. intros ->. apply outq_grows_refl. Qed.

Lemma outq_grows_ctrl_tail sk f u :
  outq_grows (outq sk) (outq (quic_outq_ctrl_tail sk f u)).
Proof.
  unfold outq_grows, quic_outq_ctrl_tail.
  cbn [outq set_outq outq_max_bytes ctrl_list retransmit_checks
       set_ctrl_list].
  split; [lia|]. split; [eexists; reflexivity|].
  exists []. rewrite app_nil_r. reflexivity.
Qed.

Lemma outq_grows_retransmit_check sk a b c d :
  outq_grows (outq sk) (outq (quic_outq_retransmit_check sk a b c d)).
Proof.
  unfold outq_grows, quic_outq_retransmit_check.
  cbn [outq set_outq outq_max_bytes ctrl_list retransmit_checks
       set_retransmit_checks].
  split; [lia|]. split; [|eexists; reflexivity].
  exists []. rewrite app_nil_r. reflexivity.
Qed.

Lemma alloc_atomic_outq sk : outq (snd (alloc_atomic sk)) = outq sk.
Proof. pose proof (alloc_atomic_keeps sk) as K. cbv zeta in K. apply K. Qed.

Lemma quic_frame_create_outq sk type d :
  outq (snd (quic_frame_create sk type d)) = outq sk.
Proof.
  unfold quic_frame_create.
  destruct (type >? QUIC_FRAME_BASE_MAX); [reflexivity|].
  pose proof (@Forall_nth_default _ _ quic_frame_ops_create
                (fun s _ _ => (None, s)) (Z.to_nat type) encoders_keep) as H.
  cbv beta in H.
  specialize (H ltac:(intros; unfold encoder_keeps; cbn [snd]; repeat split)
                sk d type).
  destruct (nth (Z.to_nat type) quic_frame_ops_create
              (fun s _ _ => (None, s)) sk d type) as [[fb|] sk1];
    apply H.
Qed.

Lemma quic_frame_retire_prior_grows n : forall sk first,
  outq_grows (outq sk) (outq (snd (quic_frame_retire_prior n sk first))).
Proof.
  induction n as [|n IH]; intros sk first; cbn [quic_frame_retire_prior].
  - apply outq_grows_refl.
  - pose proof (quic_frame_create_outq sk QUIC_FRAME_RETIRE_CONNECTION_ID
                  (DATA_U64 first)) as E.
    destruct (quic_frame_create sk QUIC_FRAME_RETIRE_CONNECTION_ID
                (DATA_U64 first)) as [[fb|] sk1]; cbn [snd] in *.
    + eapply outq_grows_trans; [|apply IH].
      rewrite <- E. apply outq_grows_ctrl_tail.
    + apply outq_grows_eq. exact E.
Qed.

Lemma quic_frame_ack_ranges_grows count : forall sk p l smallest,
  outq_grows (outq sk)
    (outq (snd (fst (fst (quic_frame_ack_ranges count sk p l smallest))))).
Proof.
  induction count as [|n IH]; intros sk p l smallest;
    cbn [quic_frame_ack_ranges].
  - apply outq_grows_refl.
  - destruct (quic_get_var p l) as [[[gap p1] l1]|];
      [|apply outq_grows_refl].
    destruct (quic_get_var p1 l1) as [[[range p2] l2]|];
      [|apply outq_grows_refl].
    eapply outq_grows_trans; [|apply IH].
    apply outq_grows_retransmit_check.
Qed.

Lemma quic_connection_id_append_outq r n c l sk :
  outq (snd (quic_connection_id_append r n c l sk)) = outq sk.
Proof.
  unfold quic_connection_id_append.
  pose proof (alloc_atomic_outq sk) as E.
  destruct (alloc_atomic sk) as [[] sk1]; cbn [snd] in *; [|exact E].
  destruct r; cbn [id_set_put outq set_source set_dest]; exact E.
Qed.

Ltac grow_step :=
  match goal with
  | |- context [quic_get_var ?p ?l] =>
      destruct (quic_get_var p l) as [[[? ?] ?]|]
  | |- context [alloc_atomic ?s] =>
      generalize (alloc_atomic_outq s);
      destruct (alloc_atomic s) as [[] ?]; cbn [snd]; intros ?
  | |- context [quic_frame_create ?s ?t ?d] =>
      generalize (quic_frame_create_outq s t d);
      destruct (quic_frame_create s t d) as [[?|] ?]; cbn [snd]; intros ?
  | |- context [quic_stream_find ?a ?b] => destruct (quic_stream_find a b)
  | |- context [has_bit ?a ?b] => destruct (has_bit a b)
  | |- context [if ?c then _ else _] => destruct c
  end; cbv beta iota; cbn [negb orb andb fst snd IS_ERR PTR_ERR].

Ltac grow_done :=
  cbn [snd];
  try unfold stream_store in *;
  unfold quic_outq_ctrl_tail, stream_store_at, kernel_fault, stream_store,
    sk_write_space, sk_state_change, quic_set_state;
  cbn [outq set_outq set_inq set_streams set_source set_dest set_token
       set_ticket set_paths set_common set_env];
  repeat match goal with
         | H : outq _ = outq _ |- _ =>
             progress
               cbn [outq set_outq set_inq set_streams set_source set_dest
                    set_token set_ticket set_paths set_common set_env] in H
         end;
  repeat match goal with
         | H : outq ?a = outq _ |- context [outq ?a] => rewrite H
         end;
  unfold outq_grows;
  cbn [outq_max_bytes ctrl_list retransmit_checks set_ctrl_list
       set_outq_max_bytes set_retransmit_checks];
  (split; [lia|]);
  split;
    first [ exists []; rewrite app_nil_r; reflexivity
          | eexists; reflexivity ].

Ltac grown := repeat grow_step; grow_done.

Section Grows.

Variable ops : collaborators.
Hypothesis Hr : reasm_grows ops.
Variables (sk : sock) (skb : sk_buff) (type : Z).

Lemma padding_grows :
  outq_grows (outq sk) (outq (snd (quic_frame_padding_process sk skb type))).
Proof. unfold quic_frame_padding_process. grown. Qed.

Lemma ping_grows :
  outq_grows (outq sk) (outq (snd (quic_frame_ping_process sk skb type))).
Proof. unfold quic_frame_ping_process. grown. Qed.

Lemma handshake_done_grows :
  outq_grows (outq sk)
    (outq (snd (quic_frame_handshake_done_process sk skb type))).
Proof. unfold quic_frame_handshake_done_process. grown. Qed.

Lemma ack_grows :
  outq_grows (outq sk) (outq (snd (quic_frame_ack_process sk skb type))).
Proof.
  unfold quic_frame_ack_process, quic_frame_ack_parse.
  repeat match goal with
         | |- context [quic_get_var ?p ?l] =>
             destruct (quic_get_var p l) as [[[? ?] ?]|];
             cbv beta iota; try apply outq_grows_refl
         | |- context [?a >? 16] =>
             destruct (a >? 16); cbv beta iota; try apply outq_grows_refl
         end.
  match goal with
  | |- context [quic_frame_ack_ranges ?n ?s ?p ?l ?m] =>
      pose proof (quic_frame_ack_ranges_grows n s p l m) as G;
      destruct (quic_frame_ack_ranges n s p l m) as [[[[] skr] ?] ?]
  end; cbn [fst snd] in G;
    assert (G' : outq_grows (outq sk) (outq skr))
      by (eapply outq_grows_trans;
          [apply outq_grows_retransmit_check | exact G]).
  - destruct (type =? QUIC_FRAME_ACK_ECN); [|exact G'].
    repeat (destruct (quic_get_var _ _) as [[[? ?] ?]|]; try exact G').
  - exact G'.
Qed.

Lemma reset_stream_grows :
  outq_grows (outq sk)
    (outq (snd (quic_frame_reset_stream_process ops sk skb type))).
Proof.
  unfold quic_frame_reset_stream_process, get_var3.
  repeat grow_step; try solve [grow_done].
  all: match goal with
       | |- context [quic_stream_recv_get ops ?t ?i ?s] =>
           destruct (quic_stream_recv_get ops t i s) as [[| e | sid] st]
       end; cbn [IS_ERR PTR_ERR fst snd]; grow_done.
Qed.

Lemma stop_sending_grows :
  outq_grows (outq sk)
    (outq (snd (quic_frame_stop_sending_process ops sk skb type))).
Proof.
  unfold quic_frame_stop_sending_process, get_var2.
  repeat match goal with
         | |- context [quic_get_var ?p ?l] =>
             destruct (quic_get_var p l) as [[[? ?] ?]|];
             cbv beta iota; try apply outq_grows_refl
         end.
  match goal with
  | |- context [quic_stream_send_get ops ?t ?i ?o ?s] =>
      destruct (quic_stream_send_get ops t i o s) as [[| e | sid] st]
  end; cbn [IS_ERR PTR_ERR fst snd]; grown.
Qed.

Lemma crypto_grows :
  outq_grows (outq sk) (outq (snd (quic_frame_crypto_process sk skb type))).
Proof. unfold quic_frame_crypto_process, quic_frame_crypto_parse. grown. Qed.

Lemma new_token_grows :
  outq_grows (outq sk)
    (outq (snd (quic_frame_new_token_process sk skb type))).
Proof.
  unfold quic_frame_new_token_process, quic_frame_new_token_parse. grown.
Qed.

Lemma stream_grows :
  outq_grows (outq sk)
    (outq (snd (quic_frame_stream_process ops sk skb type))).
Proof.
  unfold quic_frame_stream_process, quic_frame_stream_parse.
  repeat match goal with
         | |- context [quic_get_var ?p ?l] =>
             destruct (quic_get_var p l) as [[[? ?] ?]|];
             cbv beta iota; try apply outq_grows_refl
         | |- context [has_bit ?a QUIC_STREAM_BIT_OFF] =>
             destruct (has_bit a QUIC_STREAM_BIT_OFF); cbv beta iota;
             try apply outq_grows_refl
         | |- context [has_bit ?a QUIC_STREAM_BIT_LEN] =>
             destruct (has_bit a QUIC_STREAM_BIT_LEN); cbv beta iota;
             try apply outq_grows_refl
         | |- context [?a >? ?b] =>
             destruct (a >? b); cbv beta iota; try apply outq_grows_refl
         end.
  all: match goal with
       | |- context [quic_stream_recv_get ops ?t ?i ?s] =>
           destruct (quic_stream_recv_get ops t i s) as [[| e | sid] st]
       end; try solve [grow_done].
  all: match goal with
       | |- context [alloc_atomic ?s] =>
           generalize (alloc_atomic_outq s);
           destruct (alloc_atomic s) as [[] ?]; cbn [snd negb]; intros A
       end; try solve [grow_done].
  all: match goal with
       | |- context [quic_inq_reasm_tail ops ?s ?f] =>
           pose proof (Hr s f) as G;
           destruct (quic_inq_reasm_tail ops s f) as [err sk3]
       end; cbn [snd] in G; rewrite A in G; cbn [outq set_streams] in G;
    destruct (negb (err =? 0)); exact G.
Qed.

Lemma max_data_grows :
  outq_grows (outq sk) (outq (snd (quic_frame_max_data_process sk skb type))).
Proof.
  unfold quic_frame_max_data_process, get_var1.
  destruct (quic_get_var (data skb) (len skb)) as [[[v p] l]|];
    [|apply outq_grows_refl].
  cbn [snd]. destruct (Z.geb_spec v (outq_max_bytes (outq sk)));
    [|apply outq_grows_refl].
  unfold outq_grows.
  cbn [outq set_outq outq_max_bytes ctrl_list retransmit_checks
       set_outq_max_bytes].
  split; [lia|]. split; exists []; rewrite app_nil_r; reflexivity.
Qed.

Lemma max_stream_data_grows :
  outq_grows (outq sk)
    (outq (snd (quic_frame_max_stream_data_process sk skb type))).
Proof. unfold quic_frame_max_stream_data_process, get_var2. grown. Qed.

Lemma max_streams_bidi_grows :
  outq_grows (outq sk)
    (outq (snd (quic_frame_max_streams_bidi_process sk skb type))).
Proof. unfold quic_frame_max_streams_bidi_process, get_var1. grown. Qed.

Lemma max_streams_uni_grows :
  outq_grows (outq sk)
    (outq (snd (quic_frame_max_streams_uni_process sk skb type))).
Proof. unfold quic_frame_max_streams_uni_process, get_var1. grown. Qed.

Lemma data_blocked_grows :
  outq_grows (outq sk)
    (outq (snd (quic_frame_data_blocked_process sk skb type))).
Proof. unfold quic_frame_data_blocked_process, get_var1. grown. Qed.

Lemma stream_data_blocked_grows :
  outq_grows (outq sk)
    (outq (snd (quic_frame_stream_data_blocked_process sk skb type))).
Proof. unfold quic_frame_stream_data_blocked_process, get_var2. grown. Qed.

Lemma streams_blocked_bidi_grows :
  outq_grows (outq sk)
    (outq (snd (quic_frame_streams_blocked_bidi_process sk skb type))).
Proof. unfold quic_frame_streams_blocked_bidi_process, get_var1. grown. Qed.

Lemma streams_blocked_uni_grows :
  outq_grows (outq sk)
    (outq (snd (quic_frame_streams_blocked_uni_process sk skb type))).
Proof. unfold quic_frame_streams_blocked_uni_process, get_var1. grown. Qed.

Lemma new_connection_id_grows :
  outq_grows (outq sk)
    (outq (snd (quic_frame_new_connection_id_process sk skb type))).
Proof.
  unfold quic_frame_new_connection_id_process,
    quic_frame_new_connection_id_parse.
  repeat match goal with
         | |- context [quic_get_var ?p ?l] =>
             destruct (quic_get_var p l) as [[[? ?] ?]|];
             cbv beta iota; try apply outq_grows_refl
         end.
  match goal with
  | |- context [if ?c then None else _] =>
      destruct c; cbv beta iota; try apply outq_grows_refl
  end.
  match goal with
  | |- context [if ?c then _ else _] =>
      destruct c; cbv beta iota; try apply outq_grows_refl
  end.
  match goal with
  | |- context [quic_connection_id_append ?r ?n ?c ?l ?s] =>
      pose proof (quic_connection_id_append_outq r n c l s) as E;
      destruct (quic_connection_id_append r n c l s) as [err sk1]
  end; cbn [snd] in E.
  destruct (negb (err =? 0)); [apply outq_grows_eq; exact E|].
  match goal with
  | |- context [if ?c then _ else _] =>
      destruct c; [apply outq_grows_eq; exact E|]
  end.
  match goal with
  | |- context [quic_frame_retire_prior ?n ?s ?f] =>
      pose proof (quic_frame_retire_prior_grows n s f) as G;
      destruct (quic_frame_retire_prior n s f) as [[] sk2]
  end; cbn [snd] in *; rewrite E in G; exact G.
Qed.

Lemma retire_connection_id_grows :
  outq_grows (outq sk)
    (outq (snd (quic_frame_retire_connection_id_process sk skb type))).
Proof.
  unfold quic_frame_retire_connection_id_process, get_var1. grown.
Qed.

Lemma path_challenge_grows :
  outq_grows (outq sk)
    (outq (snd (quic_frame_path_challenge_process sk skb type))).
Proof.
  unfold quic_frame_path_challenge_process, quic_frame_path_parse. grown.
Qed.

Lemma path_response_grows :
  outq_grows (outq sk)
    (outq (snd (quic_frame_path_response_process sk skb type))).
Proof.
  unfold quic_frame_path_response_process, quic_frame_path_parse.
  destruct (len skb <? 8); [apply outq_grows_refl|]. cbv zeta. cbn [snd].
  repeat match goal with
         | |- context [if ?c then _ else _] => destruct c
         end; cbn [outq set_paths]; apply outq_grows_refl.
Qed.

Lemma connection_close_grows :
  outq_grows (outq sk)
    (outq (snd (quic_frame_connection_close_process sk skb type))).
Proof.
  unfold quic_frame_connection_close_process,
    quic_frame_connection_close_parse, quic_frame_connection_close_header.
  grown.
Qed.

End Grows.

Lemma decoders_grow ops :
  reasm_grows ops ->
  Forall (fun dec : frame_process_fn =>
            forall sk skb type,
              outq_grows (outq sk) (outq (snd (dec sk skb type))))
    (quic_frame_ops_process ops).
Proof.
  intros Hr. unfold quic_frame_ops_process.
  repeat (constructor;
          [ intros sk skb type;
            first [ apply padding_grows | apply ping_grows | apply ack_grows
                  | apply reset_stream_grows | apply stop_sending_grows
                  | apply crypto_grows | apply new_token_grows
                  | apply stream_grows; exact Hr | apply max_data_grows
                  | apply max_stream_data_grows
                  | apply max_streams_bidi_grows
                  | apply max_streams_uni_grows | apply data_blocked_grows
                  | apply stream_data_blocked_grows
                  | apply streams_blocked_bidi_grows
                  | apply streams_blocked_uni_grows
                  | apply new_connection_id_grows
                  | apply retire_connection_id_grows
                  | apply path_challenge_grows | apply path_response_grows
                  | apply connection_close_grows
                  | apply handshake_done_grows ] |]).
  constructor.
Qed.

Lemma quic_frame_process_loop_grows ops fuel :
  reasm_grows ops ->
  forall sk skb pki r sk' pki',
    quic_frame_process_loop ops fuel sk skb pki = Some (r, sk', pki') ->
    outq_grows (outq sk) (outq sk').
Proof.
  intros Hr. induction fuel as [|k IH]; intros sk skb pki r sk' pki' H;
    [discriminate|].
  cbn [quic_frame_process_loop] in H.
  destruct (hd 0 (data skb) >? QUIC_FRAME_BASE_MAX).
  { injection H as _ <- _. apply outq_grows_refl. }
  pose proof (@Forall_nth_default _ _ (quic_frame_ops_process ops)
                (fun s _ _ => (- EPROTONOSUPPORT, s))
                (Z.to_nat (hd 0 (data skb))) (decoders_grow Hr)) as G.
  cbv beta in G.
  specialize (G ltac:(intros; apply outq_grows_refl) sk (skb_pull skb 1)
                (hd 0 (data skb))).
  destruct (nth (Z.to_nat (hd 0 (data skb))) (quic_frame_ops_process ops)
              (fun s _ _ => (- EPROTONOSUPPORT, s)) sk (skb_pull skb 1)
              (hd 0 (data skb))) as [ret sk1].
  cbn [snd] in G.
  destruct (ret <? 0). { injection H as _ <- _. exact G. }
  destruct (len (skb_pull (skb_pull skb 1) ret) <=? 0).
  { injection H as _ <- _. exact G. }
  eapply outq_grows_trans; [exact G|]. eapply IH. eassumption.
Qed.

(** X22: what a packet can do to the output queue.  Whatever frames
    a packet holds, and whether processing ends well or with an error, the
    send limit of the connection is afterwards not below what it was, and
    the control list and the list of retransmit checks are what they were
    with entries added at the tail: no frame lowers the limit a MAX_DATA
    granted, and no frame already queued is dropped or overtaken.
    Reassembly, which receives the STREAM data, is taken to keep to the
    same. *)
Theorem packet_only_grows_output_queue ops sk skb pki r sk' pki' :
  reasm_grows ops ->
  quic_frame_process ops sk skb pki = Some (r, sk', pki') ->
  outq_max_bytes (outq sk) <= outq_max_bytes (outq sk')
  /\ (exists more, ctrl_list (outq sk') = ctrl_list (outq sk) ++ more)
  /\ (exists more,
        retransmit_checks (outq sk') = retransmit_checks (outq sk) ++ more).
Proof.
  intros Hr H. unfold quic_frame_process in H.
  destruct (len skb =? 0).
  - injection H as _ <- _. apply outq_grows_refl.
  - exact (@quic_frame_process_loop_grows ops _ Hr _ _ _ _ _ _ H).
Qed.

Lemma sample_ops_reasm_grows : reasm_grows sample_ops.
Proof. intros sk f. apply outq_grows_refl. Qed.

Lemma packet_only_grows_output_queue_witness :
  let sk' :=
    snd (frame_process_of sample_ops 0x10 (sample_sock [] [])
           (mk_skb [0x40; 0xc8] []) 0x10) in
  outq_max_bytes (outq (sample_sock [] [])) <= outq_max_bytes (outq sk')
  /\ (exists more,
        ctrl_list (outq sk') = ctrl_list (outq (sample_sock [] [])) ++ more)
  /\ (exists more,
        retransmit_checks (outq sk')
        = retransmit_checks (outq (sample_sock [] [])) ++ more).
Proof.
  intros sk'.
  apply (@packet_only_grows_output_queue sample_ops (sample_sock [] [])
           (mk_skb [0x10; 0x40; 0xc8] []) pki_zero 0 sk'
           (pki_update sample_ops 0x10 pki_zero)).
  - exact sample_ops_reasm_grows.
  - vm_compute. reflexivity.
Defined.

(** ** Flow-control credit between two endpoints *)

Lemma quic_frame_create_data_blocked sk q fb sk' :
  quic_frame_create sk QUIC_FRAME_DATA_BLOCKED (DATA_OUTQ q) = (Some fb, sk') ->
  fb_data fb = QUIC_FRAME_DATA_BLOCKED :: quic_put_var (outq_max_bytes q)
  /\ outq sk' = outq sk.
Proof.
  intros H. split.
  - rewrite (@quic_frame_create_eq _ QUIC_FRAME_DATA_BLOCKED _
               quic_frame_data_blocked_create) in H
      by (try reflexivity; cbv; split; discriminate).
    unfold quic_frame_data_blocked_create in H.
    apply create_put_frame in H. rewrite H.
    rewrite (@quic_put_var_small QUIC_FRAME_DATA_BLOCKED)
      by (cbv; split; [discriminate | reflexivity]).
    reflexivity.
  - pose proof (quic_frame_create_outq sk QUIC_FRAME_DATA_BLOCKED
                  (DATA_OUTQ q)) as E.
    rewrite H in E. exact E.
Qed.

(** X23: connection-level credit from end to end.  Endpoint [a], blocked
    at its send limit, encodes DATA_BLOCKED; its peer [b] decodes the frame,
    moves its receive limit to [bytes + window] and queues one MAX_DATA
    with that limit; when [a] decodes the MAX_DATA its send limit is the
    larger of its old limit and the limit of [b], and if the limit of [b]
    is not below the old one the two ends agree on it and [a] is no longer
    marked blocked. *)
Theorem data_blocked_credit_round_trip
  (ska skb : sock) (fb : frame_buf) (ska1 : sock)
  (rest slack rest' slack' : list Z) :
  quic_frame_create ska QUIC_FRAME_DATA_BLOCKED (DATA_OUTQ (outq ska))
  = (Some fb, ska1) ->
  0 <= outq_max_bytes (outq ska) < 2 ^ 62 ->
  0 <= inq_bytes (inq skb) + inq_window (inq skb) < 2 ^ 62 ->
  fst (alloc_atomic skb) = true ->
  let credit := inq_bytes (inq skb) + inq_window (inq skb) in
  exists fr skb1,
    quic_frame_data_blocked_process skb (decoder_input fb rest slack)
      QUIC_FRAME_DATA_BLOCKED = (len_of (tl (fb_data fb)), skb1)
    /\ inq_max_bytes (inq skb1) = credit
    /\ ctrl_list (outq skb1) = ctrl_list (outq skb) ++ [(fr, true)]
    /\ hd 0 (fb_data fr) = QUIC_FRAME_MAX_DATA
    /\ let r := quic_frame_max_data_process ska1
                  (decoder_input fr rest' slack') QUIC_FRAME_MAX_DATA in
       fst r = len_of (tl (fb_data fr))
       /\ outq_max_bytes (outq (snd r))
          = Z.max (outq_max_bytes (outq ska)) credit
       /\ (outq_max_bytes (outq ska) <= credit ->
           outq_max_bytes (outq (snd r)) = inq_max_bytes (inq skb1)
           /\ outq_data_blocked (outq (snd r)) = 0).
Proof.
  intros Hc Hmax Hcr Ha. cbv zeta.
  destruct (@quic_frame_create_data_blocked _ _ _ _ Hc) as (Hb & Ho).
  set (credit := inq_bytes (inq skb) + inq_window (inq skb)) in *.
  assert (Hu : u64 credit = credit)
    by (unfold u64; apply Z.mod_small; lia).
  unfold decoder_input. rewrite Hb. cbn [tl].
  eexists (set_fb_frame_type QUIC_FRAME_MAX_DATA
             (skb_of (quic_put_var QUIC_FRAME_MAX_DATA
                      ++ quic_put_var credit))), _.
  split.
  { unfold quic_frame_data_blocked_process.
    rewrite (@get_var1_put (outq_max_bytes (outq ska)) rest slack Hmax).
    fold credit. rewrite Hu. rewrite quic_frame_create_max_data.
    assert (A : fst (alloc_atomic
                       (set_inq (set_inq_max_bytes credit (inq skb)) skb))
                = true).
    { unfold alloc_atomic in *. cbn [env set_inq].
      destruct (allocs (env skb)) as [|[] ?]; try discriminate;
        reflexivity. }
    rewrite A. cbn [inq set_inq inq_max_bytes set_inq_max_bytes].
    rewrite mk_skb_len, len_of_app. f_equal. lia. }
  pose proof (alloc_atomic_keeps
                (set_inq (set_inq_max_bytes credit (inq skb)) skb)) as K.
  cbv zeta in K. destruct K as (_ & Ko & Ki & _).
  split.
  { unfold quic_outq_ctrl_tail. cbn [inq set_outq]. rewrite Ki. reflexivity. }
  split.
  { unfold quic_outq_ctrl_tail.
    cbn [outq set_outq ctrl_list set_ctrl_list]. rewrite Ko. reflexivity. }
  split; [reflexivity|].
  cbn [fb_data set_fb_frame_type skb_of].
  rewrite (@quic_put_var_small QUIC_FRAME_MAX_DATA)
    by (cbv; split; [discriminate | reflexivity]).
  cbn [app tl].
  unfold quic_frame_max_data_process.
  rewrite (@get_var1_put credit rest' slack' Hcr).
  rewrite mk_skb_len, len_of_app, Ho. cbn [fst snd].
  split; [lia|].
  unfold quic_outq_ctrl_tail. cbn [inq set_outq]. rewrite Ki.
  cbn [inq set_inq inq_max_bytes set_inq_max_bytes].
  destruct (Z.geb_spec credit (outq_max_bytes (outq ska)));
    cbn [outq set_outq outq_max_bytes outq_data_blocked set_outq_max_bytes].
  - split; [lia|]. intros _. split; reflexivity.
  - rewrite Ho. split; [lia|]. intros; lia.
Qed.

Lemma data_blocked_credit_round_trip_witness :
  let fb :=
    set_fb_frame_type QUIC_FRAME_DATA_BLOCKED
      (skb_of (quic_put_var QUIC_FRAME_DATA_BLOCKED ++ quic_put_var 100)) in
  exists fr skb1,
    quic_frame_data_blocked_process (sample_sock [] [])
      (decoder_input fb [1] []) QUIC_FRAME_DATA_BLOCKED
    = (len_of (tl (fb_data fb)), skb1)
    /\ inq_max_bytes (inq skb1) = 20 + 200
    /\ ctrl_list (outq skb1) = [] ++ [(fr, true)]
    /\ hd 0 (fb_data fr) = QUIC_FRAME_MAX_DATA
    /\ let r := quic_frame_max_data_process (sample_sock [] [])
                  (decoder_input fr [] []) QUIC_FRAME_MAX_DATA in
       fst r = len_of (tl (fb_data fr))
       /\ outq_max_bytes (outq (snd r)) = Z.max 100 (20 + 200)
       /\ (100 <= 20 + 200 ->
           outq_max_bytes (outq (snd r)) = inq_max_bytes (inq skb1)
           /\ outq_data_blocked (outq (snd r)) = 0).
Proof.
  intros fb.
  apply (@data_blocked_credit_round_trip (sample_sock [] [])
           (sample_sock [] []) fb (sample_sock [] []) [1] [] [] []).
  - vm_compute. reflexivity.
  - vm_compute. split; [discriminate | reflexivity].
  - vm_compute. split; [discriminate | reflexivity].
  - reflexivity.
Defined.

(** ** Stream-count limits between two endpoints *)

Lemma quic_frame_create_streams_blocked sk uni max fb sk' :
  quic_frame_create sk (streams_blocked_type uni) (DATA_U32 max)
  = (Some fb, sk') ->
  fb_data fb
  = streams_blocked_type uni :: quic_put_var (u32 (Z.shiftr max 2 + 1))
  /\ streams sk' = streams sk /\ common sk' = common sk.
Proof.
  intros H.
  assert (E : exists enc,
             nth (Z.to_nat (streams_blocked_type uni)) quic_frame_ops_create
               (fun s _ _ => (None, s)) = enc
             /\ forall s, enc s (DATA_U32 max) (streams_blocked_type uni)
                          = skb_put_frame
                              (quic_put_var (streams_blocked_type uni)
                               ++ quic_put_var (u32 (Z.shiftr max 2 + 1))) s)
    by (destruct uni; eexists; split; reflexivity).
  destruct E as (enc & En & Ee).
  rewrite (@quic_frame_create_eq _ _ _ enc) in H
    by (try exact En; destruct uni; cbv; split; discriminate).
  rewrite Ee in H.
  pose proof (alloc_atomic_keeps sk) as K. cbv zeta in K.
  destruct K as (_ & _ & _ & Ks & _ & _ & _ & _ & _ & Kc).
  split.
  - apply create_put_frame in H. rewrite H.
    rewrite (@quic_put_var_small (streams_blocked_type uni))
      by (destruct uni; cbv; (split; [discriminate | reflexivity])).
    reflexivity.
  - unfold skb_put_frame in H.
    destruct (alloc_atomic sk) as [[] sk1]; [|discriminate].
    injection H as _ <-. split; assumption.
Qed.

Lemma quic_frame_create_max_streams sk uni v :
  quic_frame_create sk (max_streams_type uni) (DATA_U64 v)
  = (if fst (alloc_atomic sk)
     then Some (set_fb_frame_type (max_streams_type uni)
                  (skb_of (max_streams_type uni :: quic_put_var v)))
     else None, snd (alloc_atomic sk)).
Proof.
  destruct uni; unfold quic_frame_create, max_streams_type.
  - change (QUIC_FRAME_MAX_STREAMS_UNI >? QUIC_FRAME_BASE_MAX) with false.
    cbv iota.
    change (nth (Z.to_nat QUIC_FRAME_MAX_STREAMS_UNI) quic_frame_ops_create
              (fun s _ _ => (None, s)))
      with quic_frame_max_streams_uni_create.
    unfold quic_frame_max_streams_uni_create, skb_put_frame.
    destruct (alloc_atomic sk) as [[] sk1]; reflexivity.
  - change (QUIC_FRAME_MAX_STREAMS_BIDI >? QUIC_FRAME_BASE_MAX) with false.
    cbv iota.
    change (nth (Z.to_nat QUIC_FRAME_MAX_STREAMS_BIDI) quic_frame_ops_create
              (fun s _ _ => (None, s)))
      with quic_frame_max_streams_bidi_create.
    unfold quic_frame_max_streams_bidi_create, skb_put_frame.
    destruct (alloc_atomic sk) as [[] sk1]; reflexivity.
Qed.

(** X24: the stream-count limit from end to end, in either direction.
    Endpoint [a], out of streams, encodes STREAMS_BLOCKED for the stream id
    [max] it cannot open; the frame asks for [(max >> 2) + 1] streams.  Its
    peer [b], whose receive limit is not above that, raises the limit of
    that direction to the count asked for and queues one MAX_STREAMS of the
    same direction; when [a] decodes it, its send limit of that direction
    is the larger of the old limit and the count, and the writers are woken
    if the limit was not lowered.  The limits of the other direction are
    untouched on both sides. *)
Theorem streams_blocked_round_trip
  (ops : collaborators) (ska skb : sock) (uni : bool) (max : Z)
  (fb : frame_buf) (ska1 : sock) (rest slack rest' slack' : list Z) :
  quic_frame_create ska (streams_blocked_type uni) (DATA_U32 max)
  = (Some fb, ska1) ->
  0 <= max < 2 ^ 32 ->
  recv_max_streams uni (streams skb) <= Z.shiftr max 2 + 1 ->
  fst (alloc_atomic skb) = true ->
  let want := Z.shiftr max 2 + 1 in
  exists fr skb1,
    frame_process_of ops (streams_blocked_type uni) skb
      (decoder_input fb rest slack) (streams_blocked_type uni)
    = (len_of (tl (fb_data fb)), skb1)
    /\ recv_max_streams uni (streams skb1) = want
    /\ recv_max_streams (negb uni) (streams skb1)
       = recv_max_streams (negb uni) (streams skb)
    /\ ctrl_list (outq skb1) = ctrl_list (outq skb) ++ [(fr, true)]
    /\ hd 0 (fb_data fr) = max_streams_type uni
    /\ let r := frame_process_of ops (max_streams_type uni) ska1
                  (decoder_input fr rest' slack') (max_streams_type uni) in
       fst r = len_of (tl (fb_data fr))
       /\ send_max_streams uni (streams (snd r))
          = Z.max (send_max_streams uni (streams ska)) want
       /\ send_max_streams (negb uni) (streams (snd r))
          = send_max_streams (negb uni) (streams ska)
       /\ (send_max_streams uni (streams ska) <= want ->
           write_space_wakeups (common (snd r))
           = S (write_space_wakeups (common ska))).
Proof.
  intros Hc Hmax Hrecv Ha. cbv zeta.
  destruct (@quic_frame_create_streams_blocked _ _ _ _ _ Hc)
    as (Hb & Hs & Hcm).
  assert (Hw32 : 0 <= Z.shiftr max 2 + 1 < 2 ^ 32).
  { rewrite Z.shiftr_div_pow2 by lia.
    assert (0 <= max / 2 ^ 2 /\ 4 * (max / 2 ^ 2) <= max)
      by (split; [apply Z.div_pos; lia
                 | apply Z.mul_div_le; lia]).
    lia. }
  set (want := Z.shiftr max 2 + 1) in *.
  assert (Hw : 0 <= want < 2 ^ 62) by lia.
  assert (Hu : u32 want = want) by (unfold u32; apply Z.mod_small; lia).
  rewrite Hu in Hb.
  unfold decoder_input. rewrite Hb. cbn [tl].
  pose proof (alloc_atomic_keeps skb) as K. cbv zeta in K.
  destruct K as (_ & Ko & _ & Ks & _).
  pose proof (@quic_frame_create_max_streams skb uni want) as Q.
  rewrite Ha in Q.
  pose proof (@get_var1_put want rest slack Hw) as G.
  pose proof (@get_var1_put want rest' slack' Hw) as G'.
  unfold frame_process_of.
  destruct uni;
    unfold streams_blocked_type, max_streams_type, recv_max_streams,
      send_max_streams in *; cbn [negb].
  - change (nth (Z.to_nat QUIC_FRAME_STREAMS_BLOCKED_UNI)
              (quic_frame_ops_process ops)
              (fun s _ _ => (- EPROTONOSUPPORT, s)))
      with quic_frame_streams_blocked_uni_process.
    change (nth (Z.to_nat QUIC_FRAME_MAX_STREAMS_UNI)
              (quic_frame_ops_process ops)
              (fun s _ _ => (- EPROTONOSUPPORT, s)))
      with quic_frame_max_streams_uni_process.
    unfold quic_frame_streams_blocked_uni_process,
      quic_frame_max_streams_uni_process.
    rewrite G.
    destruct (Z.ltb_spec want (recv_max_streams_uni (streams skb))); [lia|].
    rewrite Q. eexists _, _. split.
    { rewrite mk_skb_len, len_of_app. f_equal. lia. }
    unfold quic_outq_ctrl_tail.
    cbn [streams set_streams set_outq outq ctrl_list set_ctrl_list
         recv_max_streams_uni recv_max_streams_bidi
         set_recv_max_streams_uni fb_data set_fb_frame_type skb_of hd tl].
    rewrite Ks, Ko. repeat (split; [reflexivity|]).
    cbn [fb_data set_fb_frame_type skb_of tl]. rewrite G'. rewrite mk_skb_len, len_of_app, Hs. cbn [fst snd].
    split; [lia|].
    destruct (Z.ltb_spec want (send_max_streams_uni (streams ska))).
    + rewrite Hs. split; [lia|]. split; [reflexivity | intros; lia].
    + unfold sk_write_space.
      cbn [streams set_streams set_common common send_max_streams_uni
           send_max_streams_bidi set_send_streams_uni write_space_wakeups
           set_write_space_wakeups].
      rewrite Hcm. split; [lia|]. split; reflexivity.
  - change (nth (Z.to_nat QUIC_FRAME_STREAMS_BLOCKED_BIDI)
              (quic_frame_ops_process ops)
              (fun s _ _ => (- EPROTONOSUPPORT, s)))
      with quic_frame_streams_blocked_bidi_process.
    change (nth (Z.to_nat QUIC_FRAME_MAX_STREAMS_BIDI)
              (quic_frame_ops_process ops)
              (fun s _ _ => (- EPROTONOSUPPORT, s)))
      with quic_frame_max_streams_bidi_process.
    unfold quic_frame_streams_blocked_bidi_process,
      quic_frame_max_streams_bidi_process.
    rewrite G.
    destruct (Z.ltb_spec want (recv_max_streams_bidi (streams skb))); [lia|].
    rewrite Q. eexists _, _. split.
    { rewrite mk_skb_len, len_of_app. f_equal. lia. }
    unfold quic_outq_ctrl_tail.
    cbn [streams set_streams set_outq outq ctrl_list set_ctrl_list
         recv_max_streams_uni recv_max_streams_bidi
         set_recv_max_streams_bidi fb_data set_fb_frame_type skb_of hd tl].
    rewrite Ks, Ko. repeat (split; [reflexivity|]).
    cbn [fb_data set_fb_frame_type skb_of tl]. rewrite G'. rewrite mk_skb_len, len_of_app, Hs. cbn [fst snd].
    split; [lia|].
    destruct (Z.ltb_spec want (send_max_streams_bidi (streams ska))).
    + rewrite Hs. split; [lia|]. split; [reflexivity | intros; lia].
    + unfold sk_write_space.
      cbn [streams set_streams set_common common send_max_streams_uni
           send_max_streams_bidi set_send_streams_bidi write_space_wakeups
           set_write_space_wakeups].
      rewrite Hcm. split; [lia|]. split; reflexivity.
Qed.

Lemma streams_blocked_round_trip_witness :
  let fb :=
    set_fb_frame_type QUIC_FRAME_STREAMS_BLOCKED_BIDI
      (skb_of [QUIC_FRAME_STREAMS_BLOCKED_BIDI; 3]) in
  let sk := sample_sock [] [] in
  exists fr skb1,
    frame_process_of sample_ops (streams_blocked_type false) sk
      (decoder_input fb [1] []) (streams_blocked_type false)
    = (len_of (tl (fb_data fb)), skb1)
    /\ recv_max_streams false (streams skb1) = Z.shiftr 8 2 + 1
    /\ recv_max_streams (negb false) (streams skb1)
       = recv_max_streams (negb false) (streams sk)
    /\ ctrl_list (outq skb1) = ctrl_list (outq sk) ++ [(fr, true)]
    /\ hd 0 (fb_data fr) = max_streams_type false
    /\ let r := frame_process_of sample_ops (max_streams_type false) sk
                  (decoder_input fr [] []) (max_streams_type false) in
       fst r = len_of (tl (fb_data fr))
       /\ send_max_streams false (streams (snd r))
          = Z.max (send_max_streams false (streams sk)) (Z.shiftr 8 2 + 1)
       /\ send_max_streams (negb false) (streams (snd r))
          = send_max_streams (negb false) (streams sk)
       /\ (send_max_streams false (streams sk) <= Z.shiftr 8 2 + 1 ->
           write_space_wakeups (common (snd r))
           = S (write_space_wakeups (common sk))).
Proof.
  intros fb sk.
  apply (@streams_blocked_round_trip sample_ops sk sk false 8 fb sk
           [1] [] [] []).
  - vm_compute. reflexivity.
  - vm_compute. split; [discriminate | reflexivity].
  - vm_compute. discriminate.
  - reflexivity.
Defined.

(** ** Stream-level credit between two endpoints *)

Lemma stream_find_update_other f id id' l :
  id' <> id -> (forall s, stream_id (f s) = stream_id s) ->
  find (fun s => stream_id s =? id') (stream_update f id l)
  = find (fun s => stream_id s =? id') l.
Proof.
  intros Hne Hf. induction l as [|x r IH]; [reflexivity|].
  cbn [stream_update].
  destruct (Z.eqb_spec (stream_id x) id) as [E|E]; cbn [find].
  - rewrite Hf. destruct (Z.eqb_spec (stream_id x) id'); [lia | reflexivity].
  - rewrite IH. reflexivity.
Qed.

Lemma quic_frame_create_stream_data_blocked sk s fb sk' :
  quic_frame_create sk QUIC_FRAME_STREAM_DATA_BLOCKED (DATA_STREAM s)
  = (Some fb, sk') ->
  fb_data fb
  = QUIC_FRAME_STREAM_DATA_BLOCKED
    :: quic_put_var (stream_id s) ++ quic_put_var (send_max_bytes s)
  /\ len_of (fb_data fb) <= 10
  /\ streams sk' = streams sk.
Proof.
  intros H.
  rewrite (@quic_frame_create_eq _ QUIC_FRAME_STREAM_DATA_BLOCKED _
             quic_frame_stream_data_blocked_create) in H
    by (try reflexivity; cbv; split; discriminate).
  unfold quic_frame_stream_data_blocked_create in H. cbv zeta in H.
  pose proof (alloc_atomic_keeps sk) as K. cbv zeta in K.
  destruct K as (_ & _ & _ & Ks & _).
  pose proof H as H'. apply create_array_frame in H'. destruct H' as [Hb F].
  rewrite <- Hb in F. split; [|split; [exact F|]].
  - rewrite Hb.
    rewrite (@quic_put_var_small QUIC_FRAME_STREAM_DATA_BLOCKED)
      by (cbv; split; [discriminate | reflexivity]).
    reflexivity.
  - unfold frame_array, skb_put_frame in H.
    destruct (_ >? 10); [discriminate|].
    destruct (alloc_atomic sk) as [[] sk1]; [|discriminate].
    injection H as _ <-. assumption.
Qed.

(** X25: stream-level credit from end to end.  Endpoint [a], blocked on
    a stream, encodes STREAM_DATA_BLOCKED; its peer [b] decodes the frame,
    moves the receive limit of that stream to [bytes + window] and, the
    limit having changed, queues one MAX_STREAM_DATA for the stream; when
    [a] decodes it the send limit of the stream is the larger of its old
    limit and the limit of [b], the stream is no longer marked blocked if
    the limit of [b] is not below the old one, and no other stream of [a]
    is touched.  Both frames fit the 10 bytes their encoders assemble them
    in: the first because it was handed out, the second because the stream
    id and the new limit take 9 bytes or less as VarInts; no fault is
    raised on either side. *)
Theorem stream_credit_round_trip
  (ska skb : sock) (s sb : quic_stream) (fb : frame_buf) (ska1 : sock)
  (rest slack rest' slack' : list Z) :
  quic_frame_create ska QUIC_FRAME_STREAM_DATA_BLOCKED (DATA_STREAM s)
  = (Some fb, ska1) ->
  quic_stream_find (streams ska) (stream_id s) = Some s ->
  quic_stream_find (streams skb) (stream_id s) = Some sb ->
  0 <= stream_id s < 2 ^ 62 -> 0 <= send_max_bytes s < 2 ^ 62 ->
  0 <= recv_bytes sb + recv_window sb < 2 ^ 62 ->
  recv_bytes sb + recv_window sb <> recv_max_bytes sb ->
  quic_var_len (stream_id s)
  + quic_var_len (recv_bytes sb + recv_window sb) <= 9 ->
  fst (alloc_atomic skb) = true ->
  let credit := recv_bytes sb + recv_window sb in
  exists fr skb1,
    quic_frame_stream_data_blocked_process skb (decoder_input fb rest slack)
      QUIC_FRAME_STREAM_DATA_BLOCKED = (len_of (tl (fb_data fb)), skb1)
    /\ len_of (fb_data fb) <= 10
    /\ quic_stream_find (streams skb1) (stream_id s)
       = Some (set_recv_max_bytes credit sb)
    /\ ctrl_list (outq skb1) = ctrl_list (outq skb) ++ [(fr, true)]
    /\ faulted (env skb1) = faulted (env skb)
    /\ fb_data fr
       = QUIC_FRAME_MAX_STREAM_DATA
         :: quic_put_var (stream_id s) ++ quic_put_var credit
    /\ len_of (fb_data fr) <= 10
    /\ let r := quic_frame_max_stream_data_process ska1
                  (decoder_input fr rest' slack')
                  QUIC_FRAME_MAX_STREAM_DATA in
       fst r = len_of (tl (fb_data fr))
       /\ (exists s',
             quic_stream_find (streams (snd r)) (stream_id s) = Some s'
             /\ send_max_bytes s' = Z.max (send_max_bytes s) credit
             /\ (send_max_bytes s <= credit -> send_data_blocked s' = 0))
       /\ (forall id', id' <> stream_id s ->
             quic_stream_find (streams (snd r)) id'
             = quic_stream_find (streams ska) id')
       /\ faulted (env (snd r)) = faulted (env ska1).
Proof.
  intros Hc Hfa Hfb Hid Hmax Hcr Hne Hfit Ha. cbv zeta.
  destruct (@quic_frame_create_stream_data_blocked _ _ _ _ Hc)
    as (Hb & Hfb10 & Hs).
  set (credit := recv_bytes sb + recv_window sb) in *.
  assert (Hu : u64 credit = credit)
    by (unfold u64; apply Z.mod_small; lia).
  pose proof (stream_find_id _ _ Hfb) as Hidb.
  unfold decoder_input. rewrite Hb. cbn [tl].
  pose proof (alloc_atomic_keeps
                (stream_store (set_recv_max_bytes credit) (stream_id s) skb))
    as K.
  cbv zeta in K. destruct K as (_ & Ko & _ & Ks & _).
  assert (A : fst (alloc_atomic
                     (stream_store (set_recv_max_bytes credit) (stream_id s)
                        skb)) = true).
  { unfold alloc_atomic in *. cbn [env stream_store set_streams].
    destruct (allocs (env skb)) as [|[] ?]; try discriminate; reflexivity. }
  assert (Kf : faulted (env (snd (alloc_atomic
                     (stream_store (set_recv_max_bytes credit) (stream_id s)
                        skb)))) = faulted (env skb)).
  { unfold alloc_atomic. cbn [env stream_store set_streams].
    destruct (allocs (env skb)) as [|[] ?]; reflexivity. }
  eexists (set_fb_frame_type QUIC_FRAME_MAX_STREAM_DATA
             (skb_of (quic_put_var QUIC_FRAME_MAX_STREAM_DATA
                      ++ quic_put_var (stream_id s)
                      ++ quic_put_var credit))), _.
  split.
  { unfold quic_frame_stream_data_blocked_process.
    rewrite (@get_var2_put (stream_id s) (send_max_bytes s) rest slack
               Hid Hmax).
    rewrite Hfb. cbv zeta. fold credit. rewrite Hu.
    destruct (Z.eqb_spec (recv_max_bytes sb) credit) as [E|_];
      [symmetry in E; contradiction|].
    cbn [negb].
    rewrite quic_frame_create_max_stream_data
      by (cbn [stream_id recv_max_bytes set_recv_max_bytes];
          rewrite Hidb; exact Hfit).
    rewrite A.
    cbn [stream_id set_recv_max_bytes recv_max_bytes]. rewrite Hidb.
    rewrite mk_skb_len, !len_of_app. f_equal. lia. }
  split; [rewrite Hb in Hfb10; exact Hfb10|].
  split.
  { unfold quic_outq_ctrl_tail. cbn [streams set_outq]. rewrite Ks.
    unfold stream_store, quic_stream_find.
    cbn [streams set_streams st_streams set_st_streams].
    apply stream_find_update; [exact Hfb | reflexivity]. }
  split.
  { unfold quic_outq_ctrl_tail.
    cbn [outq set_outq ctrl_list set_ctrl_list]. rewrite Ko. reflexivity. }
  split.
  { unfold quic_outq_ctrl_tail. cbn [env set_outq]. exact Kf. }
  cbn [fb_data set_fb_frame_type skb_of].
  rewrite (@quic_put_var_small QUIC_FRAME_MAX_STREAM_DATA)
    by (cbv; split; [discriminate | reflexivity]).
  cbn [app tl].
  split; [reflexivity|].
  split.
  { change (len_of (QUIC_FRAME_MAX_STREAM_DATA
                    :: quic_put_var (stream_id s) ++ quic_put_var credit))
      with (len_of ([QUIC_FRAME_MAX_STREAM_DATA]
                    ++ quic_put_var (stream_id s) ++ quic_put_var credit)).
    rewrite !len_of_app, !quic_put_var_length.
    change (len_of [QUIC_FRAME_MAX_STREAM_DATA]) with 1. lia. }
  unfold quic_frame_max_stream_data_process.
  rewrite (@get_var2_put (stream_id s) credit rest' slack' Hid Hcr).
  rewrite Hs, Hfa. rewrite mk_skb_len, !len_of_app. cbn [fst snd].
  split; [lia|].
  destruct (Z.geb_spec credit (send_max_bytes s)).
  - split; [|split].
    + exists (set_send_max_bytes credit 0 s).
      unfold stream_store, quic_stream_find.
      cbn [streams set_streams st_streams set_st_streams].
      rewrite Hs. split.
      * apply stream_find_update; [exact Hfa | reflexivity].
      * cbn [send_max_bytes send_data_blocked set_send_max_bytes].
        split; [lia | reflexivity].
    + intros id' Hid'. unfold stream_store, quic_stream_find.
      cbn [streams set_streams st_streams set_st_streams]. rewrite Hs.
      apply stream_find_update_other; [exact Hid' | reflexivity].
    + reflexivity.
  - split; [|split].
    + exists s. rewrite Hs. split; [exact Hfa|]. split; [lia | intros; lia].
    + intros id' _. rewrite Hs. reflexivity.
    + reflexivity.
Qed.

Lemma stream_credit_round_trip_witness :
  let fb :=
    set_fb_frame_type QUIC_FRAME_STREAM_DATA_BLOCKED
      (skb_of (quic_put_var QUIC_FRAME_STREAM_DATA_BLOCKED
               ++ quic_put_var 4 ++ quic_put_var 1000)) in
  let sk := sample_sock [] [] in
  exists fr skb1,
    quic_frame_stream_data_blocked_process sk (decoder_input fb [1] [])
      QUIC_FRAME_STREAM_DATA_BLOCKED = (len_of (tl (fb_data fb)), skb1)
    /\ len_of (fb_data fb) <= 10
    /\ quic_stream_find (streams skb1) 4
       = Some (set_recv_max_bytes (10 + 50) (sample_stream 4 0 100))
    /\ ctrl_list (outq skb1) = ctrl_list (outq sk) ++ [(fr, true)]
    /\ faulted (env skb1) = false
    /\ fb_data fr
       = QUIC_FRAME_MAX_STREAM_DATA
         :: quic_put_var 4 ++ quic_put_var (10 + 50)
    /\ len_of (fb_data fr) <= 10
    /\ let r := quic_frame_max_stream_data_process sk
                  (decoder_input fr [] []) QUIC_FRAME_MAX_STREAM_DATA in
       fst r = len_of (tl (fb_data fr))
       /\ (exists s',
             quic_stream_find (streams (snd r)) 4 = Some s'
             /\ send_max_bytes s' = Z.max 1000 (10 + 50)
             /\ (1000 <= 10 + 50 -> send_data_blocked s' = 0))
       /\ (forall id', id' <> 4 ->
             quic_stream_find (streams (snd r)) id'
             = quic_stream_find (streams sk) id')
       /\ faulted (env (snd r)) = false.
Proof.
  intros fb sk.
  apply (@stream_credit_round_trip sk sk (sample_stream 4 0 100)
           (sample_stream 4 0 100) fb sk [1] [] [] []).
  - vm_compute. reflexivity.
  - reflexivity.
  - reflexivity.
  - vm_compute. split; [discriminate | reflexivity].
  - vm_compute. split; [discriminate | reflexivity].
  - vm_compute. split; [discriminate | reflexivity].
  - vm_compute. discriminate.
  - vm_compute. discriminate.
  - reflexivity.
Defined.

(** A STREAM_DATA_BLOCKED frame whose answer does not fit: on stream 64
    with 2^30 bytes received the new limit takes 8 bytes as a VarInt, and
    the MAX_STREAM_DATA frame of 11 bytes is one more than the array of
    its encoder holds. *)
Example stream_data_blocked_answer_overruns :
  let stream :=
    {| stream_id := 64; send_offset := 0; send_max_bytes := 0;
       send_data_blocked := 0; send_state := QUIC_STREAM_SEND_STATE_READY;
       recv_max_bytes := 100; recv_bytes := 2 ^ 30; recv_window := 50;
       recv_state := QUIC_STREAM_RECV_STATE_RECV |} in
  let sk :=
    set_streams (set_st_streams [stream] (streams (sample_sock [] [])))
      (sample_sock [] []) in
  let body := quic_put_var 64 ++ quic_put_var 100 in
  let r := quic_frame_stream_data_blocked_process sk (mk_skb body [])
             QUIC_FRAME_STREAM_DATA_BLOCKED in
  quic_var_len 64 + quic_var_len (2 ^ 30 + 50) = 10
  /\ faulted (env sk) = false /\ faulted (env (snd r)) = true.
Proof. vm_compute. repeat split. Qed.

(** ** Retiring a connection ID *)

(** X26: a retired connection ID is replaced.  When the peer retires the
    first connection ID of the source set, and that is not the last one,
    the entry is removed; and as long as the distance from the retired
    number to the last one is below [max_count], one NEW_CONNECTION_ID is
    queued as an urgent frame: it announces the number after the last one
    left in the set, asks the peer to retire everything before the number
    after the retired one, and its connection ID is appended to the source
    set.  At the limit nothing is queued.  (All allocations served.) *)
Theorem retired_connection_id_replaced sk skb type seqno p l :
  get_var1 skb = Some (seqno, p, l) ->
  seqno = u32 (quic_connection_id_first_number (source sk)) ->
  seqno <> u32 (quic_connection_id_last_number (source sk)) ->
  allocs (env sk) = [] ->
  let src1 := quic_connection_id_remove (source sk) seqno in
  let gap := u64 (u32 (quic_connection_id_last_number (source sk)) - seqno) in
  let r := quic_frame_retire_connection_id_process sk skb type in
  fst r = len skb - l
  /\ (max_count src1 <= gap -> snd r = set_source src1 sk)
  /\ (gap < max_count src1 ->
      exists fr cid,
        ctrl_list (outq (snd r)) = ctrl_list (outq sk) ++ [(fr, true)]
        /\ fb_data fr
           = QUIC_FRAME_NEW_CONNECTION_ID
             :: quic_put_var (u64 (quic_connection_id_last_number src1 + 1))
                ++ quic_put_var (u64 (seqno + 1)) ++ quic_put_var 16
                ++ cid ++ firstn 16 (stack (env sk))
        /\ length cid = 16%nat
        /\ cid_list (source (snd r))
           = cid_list src1
             ++ [{| cid_number :=
                      u64 (quic_connection_id_last_number src1 + 1);
                    cid_data := cid |}]).
Proof.
  intros Hg Hfirst Hlast Ha. cbv zeta.
  unfold quic_frame_retire_connection_id_process. rewrite Hg. cbv zeta.
  destruct (Z.eqb_spec seqno
              (u32 (quic_connection_id_first_number (source sk))));
    [|contradiction].
  destruct (Z.eqb_spec seqno
              (u32 (quic_connection_id_last_number (source sk))));
    [contradiction|].
  cbn [negb orb source set_source].
  set (src1 := quic_connection_id_remove (source sk) seqno).
  set (gap := u64 (u32 (quic_connection_id_last_number (source sk)) - seqno)).
  destruct (Z.geb_spec gap (max_count src1)) as [Hge|Hlt].
  { cbn [fst snd]. split; [reflexivity|]. split; [reflexivity | lia]. }
  destruct (quic_frame_create (set_source src1 sk)
              QUIC_FRAME_NEW_CONNECTION_ID (DATA_U64 (u64 (seqno + 1))))
    as [[fr|] sk2] eqn:C.
  - destruct (@new_connection_id_created _ _ _ _ C) as (Hb & Hsrc).
    cbv zeta in Hb, Hsrc. cbn [source set_source env set_source] in Hb, Hsrc.
    pose proof (quic_frame_create_outq (set_source src1 sk)
                  QUIC_FRAME_NEW_CONNECTION_ID (DATA_U64 (u64 (seqno + 1))))
      as Ho.
    rewrite C in Ho. cbn [snd outq set_source] in Ho.
    cbn [fst snd]. split; [reflexivity|]. split; [lia|]. intros _.
    exists fr, (fst (get_random_bytes 16 (set_source src1 sk))).
    unfold quic_outq_ctrl_tail.
    cbn [outq set_outq ctrl_list set_ctrl_list source].
    rewrite Ho. split; [reflexivity|]. split; [exact Hb|].
    split; [apply random_bytes_length | exact Hsrc].
  - exfalso.
    rewrite (@quic_frame_create_eq _ QUIC_FRAME_NEW_CONNECTION_ID _
               quic_frame_new_connection_id_create) in C
      by (try reflexivity; cbv; split; discriminate).
    unfold quic_frame_new_connection_id_create, get_random_bytes,
      quic_connection_id_append, alloc_atomic in C.
    cbv beta iota zeta in C.
    cbn [env set_env set_source allocs set_rng_pos] in C.
    rewrite Ha in C. cbn [negb] in C.
    cbn [env set_env set_source allocs set_rng_pos] in C.
    rewrite Ha in C. change (0 =? 0) with true in C. cbn [negb] in C.
    discriminate.
Qed.

Lemma retired_connection_id_replaced_witness :
  let sk := sample_sock_two_ids in
  let src1 := quic_connection_id_remove (source sk) 0 in
  let gap := u64 (u32 (quic_connection_id_last_number (source sk)) - 0) in
  let r := quic_frame_retire_connection_id_process sk (mk_skb [0] [])
             QUIC_FRAME_RETIRE_CONNECTION_ID in
  fst r = len (mk_skb [0] []) - 0
  /\ (max_count src1 <= gap -> snd r = set_source src1 sk)
  /\ (gap < max_count src1 ->
      exists fr cid,
        ctrl_list (outq (snd r)) = ctrl_list (outq sk) ++ [(fr, true)]
        /\ fb_data fr
           = QUIC_FRAME_NEW_CONNECTION_ID
             :: quic_put_var (u64 (quic_connection_id_last_number src1 + 1))
                ++ quic_put_var (u64 (0 + 1)) ++ quic_put_var 16
                ++ cid ++ firstn 16 (stack (env sk))
        /\ length cid = 16%nat
        /\ cid_list (source (snd r))
           = cid_list src1
             ++ [{| cid_number :=
                      u64 (quic_connection_id_last_number src1 + 1);
                    cid_data := cid |}]).
Proof.
  intros sk.
  apply (@retired_connection_id_replaced sk (mk_skb [0] [])
           QUIC_FRAME_RETIRE_CONNECTION_ID 0 [] 0).
  - reflexivity.
  - reflexivity.
  - vm_compute. discriminate.
  - reflexivity.
Defined.

(** ** CONNECTION_CLOSE: the reason phrase *)

(** X27: a reason phrase of 80 characters or more does not get through.
    The encoder writes the phrase with its terminating NUL whatever its
    length; for a phrase of at least 80 characters (and a frame that still
    fits the 100 bytes of the encoder's buffer) the frame it hands out is
    refused by the decoder with [-EINVAL], the limit of the decoder being
    80 bytes with the NUL; the receiving socket is unchanged and is not
    closed.  (The bound on the frame keeps to the encodes that stay within
    the encoder's buffer.) *)
Theorem long_close_phrase_refused sk type d fb sk' s rsk rest slack :
  quic_frame_create sk type d = (Some fb, sk') ->
  type = QUIC_FRAME_CONNECTION_CLOSE \/ type = QUIC_FRAME_CONNECTION_CLOSE_APP ->
  0 <= close_errcode (outq sk) < 2 ^ 62 ->
  0 <= close_frame (outq sk) < 2 ^ 62 ->
  close_phrase (outq sk) = Some s ->
  Forall (fun c => c <> 0) s ->
  80 <= len_of s < 100 ->
  len_of (fb_data fb) <= 100 ->
  quic_frame_connection_close_process rsk (decoder_input fb rest slack) type
  = (- EINVAL, rsk).
Proof.
  intros Hc Ht He Hf Hp Hs H80 H100.
  assert (Hr : 0 <= type <= QUIC_FRAME_BASE_MAX
               /\ nth (Z.to_nat type) quic_frame_ops_create
                    (fun s _ _ => (None, s))
                  = quic_frame_connection_close_create
               /\ quic_put_var type = [type])
    by (destruct Ht as [-> | ->]; split;
        [cbv; split; discriminate | split; reflexivity
        |cbv; split; discriminate | split; reflexivity]).
  destruct Hr as (Hr & Hn & Hty).
  rewrite (@quic_frame_create_eq _ _ _ _ Hr Hn) in Hc.
  unfold quic_frame_connection_close_create in Hc. cbv zeta in Hc.
  apply create_array_frame in Hc. destruct Hc as [Hc _].
  rewrite Hp, Hty in Hc.
  rewrite (strlen_no_nul Hs) in Hc.
  assert (Hl : len_of (s ++ [0]) = len_of s + 1)
    by (rewrite len_of_app; reflexivity).
  pose proof (len_of_nonneg s) as Hs0.
  assert (Hu : u32 (len_of s + 1) = len_of s + 1)
    by (unfold u32; apply Z.mod_small; lia).
  rewrite Hu in Hc.
  assert (Hd : quic_put_data (s ++ [0]) (len_of s + 1) = s ++ [0])
    by (rewrite <- Hl; apply quic_put_data_all).
  rewrite Hd in Hc.
  unfold decoder_input. rewrite Hc. cbn [app tl].
  unfold quic_frame_connection_close_process,
    quic_frame_connection_close_parse, quic_frame_connection_close_header.
  rewrite mk_skb_data, mk_skb_len. rewrite <- !app_assoc, !len_of_app.
  pose proof (len_of_nonneg rest).
  pose proof (len_of_nonneg (quic_put_var (close_frame (outq sk)))).
  pose proof (len_of_nonneg (quic_put_var (len_of s + 1))).
  change (len_of [0]) with 1.
  destruct (type =? QUIC_FRAME_CONNECTION_CLOSE).
  - rewrite quic_get_put_var; [| unfold varint; lia | lia].
    rewrite quic_get_put_var; [| unfold varint; lia | lia].
    rewrite quic_get_put_var; [| unfold varint; lia | lia].
    destruct (Z.gtb_spec (len_of s + 1) (len_of s + (1 + len_of rest)));
      [lia|].
    destruct (Z.eqb_spec (len_of s + 1) 0); [lia|].
    destruct (Z.gtb_spec (len_of s + 1) 80); [reflexivity | lia].
  - cbn [app]. change (len_of (@nil Z)) with 0. rewrite Z.add_0_l.
    rewrite quic_get_put_var; [| unfold varint; lia | lia].
    rewrite quic_get_put_var; [| unfold varint; lia | lia].
    destruct (Z.gtb_spec (len_of s + 1) (len_of s + (1 + len_of rest)));
      [lia|].
    destruct (Z.eqb_spec (len_of s + 1) 0); [lia|].
    destruct (Z.gtb_spec (len_of s + 1) 80); [reflexivity | lia].
Qed.

Lemma long_close_phrase_refused_witness :
  quic_frame_connection_close_process (sample_sock [] [])
    (decoder_input
       (set_fb_frame_type QUIC_FRAME_CONNECTION_CLOSE_APP
          (skb_of (quic_put_var QUIC_FRAME_CONNECTION_CLOSE_APP
                   ++ quic_put_var 10 ++ quic_put_var 81
                   ++ repeat 65 80 ++ [0]))) [] [])
    QUIC_FRAME_CONNECTION_CLOSE_APP
  = (- EINVAL, sample_sock [] []).
Proof.
  apply (@long_close_phrase_refused sample_sock_long_phrase
           QUIC_FRAME_CONNECTION_CLOSE_APP DATA_NONE
           (set_fb_frame_type QUIC_FRAME_CONNECTION_CLOSE_APP
              (skb_of (quic_put_var QUIC_FRAME_CONNECTION_CLOSE_APP
                       ++ quic_put_var 10 ++ quic_put_var 81
                       ++ repeat 65 80 ++ [0])))
           sample_sock_long_phrase (repeat 65 80) (sample_sock [] []) [] []).
  - vm_compute. reflexivity.
  - right. reflexivity.
  - vm_compute. split; [discriminate | reflexivity].
  - vm_compute. split; [discriminate | reflexivity].
  - reflexivity.
  - apply Forall_forall. intros x Hx. apply repeat_spec in Hx. subst x.
    discriminate.
  - vm_compute. split; [discriminate | reflexivity].
  - vm_compute. discriminate.
Defined.

(** ** STREAM frames without a length *)

Lemma stream_without_length ops sk skb type :
  errors_negative ops -> 0 <= len skb ->
  has_bit type QUIC_STREAM_BIT_LEN = false ->
  fst (quic_frame_stream_process ops sk skb type) < 0
  \/ fst (quic_frame_stream_process ops sk skb type) = len skb.
Proof.
  intros (_ & _ & Hr) Hl Hb.
  unfold quic_frame_stream_process, quic_frame_stream_parse. rewrite Hb.
  repeat match goal with
         | |- context [quic_get_var ?p ?l] =>
             destruct (quic_get_var p l) as [[[? ?] ?]|]; cbv beta iota;
             try (left; cbn [fst]; unfold EINVAL; lia)
         | |- context [has_bit ?a QUIC_STREAM_BIT_OFF] =>
             destruct (has_bit a QUIC_STREAM_BIT_OFF); cbv beta iota;
             try (left; cbn [fst]; unfold EINVAL; lia)
         end.
  all: match goal with
       | |- context [quic_stream_recv_get ?o ?t ?i ?s] =>
           destruct (quic_stream_recv_get o t i s) as [[| e | sid] st]
       end; try (left; cbn [fst]; unfold EINVAL; lia).
  all: match goal with
       | |- context [alloc_atomic ?s] =>
           destruct (alloc_atomic s) as [[] ?]; cbn [negb]
       end; try (left; cbn [fst]; unfold ENOMEM; lia).
  all: match goal with
       | |- context [quic_inq_reasm_tail ?o ?s ?f] =>
           pose proof (Hr s f);
           destruct (quic_inq_reasm_tail o s f) as [err ?]
       end; cbn [fst] in *;
    destruct (Z.eqb_spec err 0); cbn [negb fst]; [right; lia | left; lia].
Qed.

(** X28: a STREAM frame without the LEN bit is the last frame of its
    packet.  Its payload is everything that is left, so once the decoder
    has accepted the frame the processing ends with 0; nothing behind the
    stream header is looked at as a frame.  An error of the decoder is
    handed back as it is.  (The errors of the stream getter and of
    reassembly are taken to be negative errnos.) *)
Theorem stream_without_length_ends_packet ops sk t b slack pki :
  errors_negative ops ->
  8 <= t <= 15 -> has_bit t QUIC_STREAM_BIT_LEN = false ->
  let r := quic_frame_stream_process ops sk (mk_skb b slack) t in
  (fst r < 0 \/ fst r = len_of b)
  /\ quic_frame_process ops sk (mk_skb (t :: b) slack) pki
     = Some (if fst r <? 0 then (fst r, snd r, pki)
             else (0, snd r, pki_update ops t pki)).
Proof.
  intros Hneg Ht Hb. cbv zeta.
  pose proof (@stream_without_length ops sk (mk_skb b slack) t Hneg
                ltac:(rewrite mk_skb_len; apply len_of_nonneg) Hb) as W.
  rewrite mk_skb_len in W. split; [exact W|].
  rewrite quic_frame_process_first
    by (unfold QUIC_FRAME_BASE_MAX, QUIC_FRAME_HANDSHAKE_DONE; lia).
  unfold frame_process_of. rewrite stream_process_dispatch by exact Ht.
  destruct (quic_frame_stream_process ops sk (mk_skb b slack) t)
    as [ret sk1].
  cbn [fst snd] in *.
  destruct (Z.ltb_spec ret 0); [reflexivity|].
  destruct W as [W|W]; [lia|]. subst ret.
  rewrite skb_pull_frame by lia. rewrite mk_skb_len.
  assert (L : len_of (skipn (Z.to_nat (len_of b)) b) = 0)
    by (unfold len_of; rewrite length_skipn; lia).
  rewrite L. reflexivity.
Qed.

Lemma stream_without_length_ends_packet_witness :
  let r := quic_frame_stream_process sample_ops (sample_sock [] [])
             (mk_skb [4; 0x01; 0x1f] []) QUIC_FRAME_STREAM in
  (fst r < 0 \/ fst r = len_of [4; 0x01; 0x1f])
  /\ quic_frame_process sample_ops (sample_sock [] [])
       (mk_skb [QUIC_FRAME_STREAM; 4; 0x01; 0x1f] []) pki_zero
     = Some (if fst r <? 0 then (fst r, snd r, pki_zero)
             else (0, snd r, pki_update sample_ops QUIC_FRAME_STREAM pki_zero)).
Proof.
  apply (@stream_without_length_ends_packet sample_ops (sample_sock [] [])
           QUIC_FRAME_STREAM [4; 0x01; 0x1f] [] pki_zero).
  - exact sample_ops_errors_negative.
  - vm_compute. split; discriminate.
  - reflexivity.
Defined.

(** ** ACK_ECN *)

(** Where a chain of reads that started at [p0] with [l0] bytes has
    arrived: the cursor [p] with [l] bytes left. *)
Lemma read_cursor_start (p0 : list Z) l0 :
  0 <= l0 -> p0 = skipn (Z.to_nat (l0 - l0)) p0 /\ 0 <= l0 <= l0.
Proof. intros H. rewrite Z.sub_diag. split; [reflexivity | lia]. Qed.

Lemma read_cursor_step (p0 : list Z) l0 p l v p' l' :
  p = skipn (Z.to_nat (l0 - l)) p0 /\ 0 <= l <= l0 ->
  quic_get_var p l = Some (v, p', l') ->
  p' = skipn (Z.to_nat (l0 - l')) p0 /\ 0 <= l' <= l0.
Proof.
  intros [Hp Hl] H. pose proof (quic_get_var_len _ _ H) as Hl'.
  unfold quic_get_var in H.
  set (n := Z.shiftl 1 (Z.shiftr (hd 0 p) 6)) in *.
  destruct (l <? n); [discriminate|].
  injection H as _ Hp' Hn. split; [|lia].
  clearbody n. rewrite <- Hp', Hp, skipn_skipn. f_equal. lia.
Qed.

Lemma quic_frame_ack_ranges_cursor (p0 : list Z) l0 count :
  forall sk p l smallest sk' p' l',
  quic_frame_ack_ranges count sk p l smallest = (true, sk', p', l') ->
  p = skipn (Z.to_nat (l0 - l)) p0 /\ 0 <= l <= l0 ->
  p' = skipn (Z.to_nat (l0 - l')) p0 /\ 0 <= l' <= l0.
Proof.
  induction count as [|n IH]; intros sk p l smallest sk' p' l' H C.
  - injection H as _ <- <-. exact C.
  - cbn [quic_frame_ack_ranges] in H.
    destruct (quic_get_var p l) as [[[gap p1] l1]|] eqn:E1; [|discriminate].
    destruct (quic_get_var p1 l1) as [[[range p2] l2]|] eqn:E2;
      [|discriminate].
    eapply IH; [exact H|].
    eapply read_cursor_step; [|exact E2].
    eapply read_cursor_step; [exact C | exact E1].
Qed.

(** X29: the ECN counts of an ACK_ECN frame are read and dropped.  On any
    buffer the decoder does what it does for the same bytes taken as a
    plain ACK, and where ACK has stopped it reads three more VarInts, the
    ECN counts, of which nothing is kept: the socket is the one ACK leaves,
    the answer is [-EINVAL] when one of the three counts is missing and
    otherwise the bytes of the ACK and of the three counts; an error of
    ACK is the same error, with the same socket, for ACK_ECN. *)
Theorem ack_ecn_counts_dropped sk skb :
  let ack := quic_frame_ack_process sk skb QUIC_FRAME_ACK in
  quic_frame_ack_process sk skb QUIC_FRAME_ACK_ECN
  = if fst ack <? 0 then ack
    else
      match get_var3 (skb_pull skb (fst ack)) with
      | Some (ect0, ect1, ce, p, l) => (len skb - l, snd ack)
      | None => (- EINVAL, snd ack)
      end.
Proof.
  cbv zeta. unfold quic_frame_ack_process.
  destruct (quic_frame_ack_parse skb)
    as [[[[[[largest delay] count] range] p] l]|] eqn:P; [|reflexivity].
  assert (C : p = skipn (Z.to_nat (len skb - l)) (data skb)
              /\ 0 <= l <= len skb).
  { unfold quic_frame_ack_parse in P.
    destruct (quic_get_var (data skb) (len skb)) as [[[a p1] l1]|] eqn:E1;
      [|discriminate].
    destruct (quic_get_var p1 l1) as [[[b p2] l2]|] eqn:E2; [|discriminate].
    destruct (quic_get_var p2 l2) as [[[c p3] l3]|] eqn:E3; [|discriminate].
    destruct (c >? 16); [discriminate|].
    destruct (quic_get_var p3 l3) as [[[d p4] l4]|] eqn:E4; [|discriminate].
    injection P as _ _ _ _ <- <-.
    pose proof (quic_get_var_len _ _ E1) as L1.
    eapply read_cursor_step; [|exact E4].
    eapply read_cursor_step; [|exact E3].
    eapply read_cursor_step; [|exact E2].
    eapply read_cursor_step; [|exact E1].
    apply read_cursor_start. lia. }
  match goal with
  | |- context [quic_frame_ack_ranges ?n ?s ?q ?m ?t] =>
      pose proof (@quic_frame_ack_ranges_cursor (data skb) (len skb) n s q m t)
        as G;
      destruct (quic_frame_ack_ranges n s q m t) as [[[[] sk2] p2] l2]
  end; [|reflexivity].
  specialize (G _ _ _ eq_refl C). destruct G as [Gp Gl].
  change (QUIC_FRAME_ACK =? QUIC_FRAME_ACK_ECN) with false.
  change (QUIC_FRAME_ACK_ECN =? QUIC_FRAME_ACK_ECN) with true.
  cbv iota. cbn [fst snd].
  destruct (Z.ltb_spec (len skb - l2) 0); [lia|].
  assert (S : skb_pull skb (len skb - l2) = {| data := p2; len := l2 |}).
  { unfold skb_pull. destruct (Z.gtb_spec (len skb - l2) (len skb)); [lia|].
    rewrite Gp. f_equal. lia. }
  rewrite S. unfold get_var3. cbn [data len].
  destruct (quic_get_var p2 l2) as [[[c0 p3] l3]|]; [|reflexivity].
  destruct (quic_get_var p3 l3) as [[[c1 p4] l4]|]; [|reflexivity].
  destruct (quic_get_var p4 l4) as [[[c2 p5] l5]|]; reflexivity.
Qed.

(** An ACK_ECN frame for packets 18 to 20 with the counts 1, 2 and 3, a
    PING behind it; the same frame cut short in its last count. *)
Example ack_ecn_frame :
  quic_frame_ack_process (sample_sock [] [])
    (mk_skb [20; 0; 0; 2; 1; 2; 3; 1] []) QUIC_FRAME_ACK_ECN
  = (7, quic_outq_retransmit_check (sample_sock [] []) 20 18 20 0)
  /\ quic_frame_ack_process (sample_sock [] [])
       (mk_skb [20; 0; 0; 2; 1; 2] []) QUIC_FRAME_ACK_ECN
     = (- EINVAL, quic_outq_retransmit_check (sample_sock [] []) 20 18 20 0).
Proof. split; reflexivity. Qed.

(** ** The arrays of the encoders *)






(** ** The fault mark stays

    No encoder and no decoder lowers the mark of a fault: a run that has
    faulted is a run that ends with the mark raised. *)

Lemma fault_kept_refl sk : fault_kept sk sk.
Proof. intros H. exact H. Qed.

Lemma fault_kept_trans a b c : fault_kept a b -> fault_kept b c -> fault_kept a c.
Proof. unfold fault_kept. auto. Qed.

Lemma alloc_atomic_fault sk : fault_kept sk (snd (alloc_atomic sk)).
Proof.
  unfold fault_kept, alloc_atomic.
  destruct (allocs (env sk)) as [|[] ?]; cbn; auto.
Qed.

Lemma encoders_keep_fault :
  Forall (fun enc : frame_create_fn =>
            forall sk d type, fault_kept sk (snd (enc sk d type)))
    quic_frame_ops_create.
Proof.
  unfold quic_frame_ops_create.
  repeat (constructor;
          [ intros sk d type; enc_unfold;
            destruct d; enc_open; enc_split;
            unfold fault_kept; cbn; auto |]).
  constructor.
Qed.

Lemma quic_frame_create_fault sk type d :
  fault_kept sk (snd (quic_frame_create sk type d)).
Proof.
  unfold quic_frame_create.
  destruct (type >? QUIC_FRAME_BASE_MAX); [apply fault_kept_refl|].
  pose proof (@Forall_nth_default _ _ quic_frame_ops_create
                (fun s _ _ => (None, s)) (Z.to_nat type) encoders_keep_fault)
    as H.
  cbv beta in H.
  specialize (H ltac:(intros; apply fault_kept_refl) sk d type).
  destruct (nth (Z.to_nat type) quic_frame_ops_create
              (fun s _ _ => (None, s)) sk d type) as [[fb|] sk1];
    exact H.
Qed.

Lemma quic_frame_retire_prior_fault n : forall sk first,
  fault_kept sk (snd (quic_frame_retire_prior n sk first)).
Proof.
  induction n as [|n IH]; intros sk first; cbn [quic_frame_retire_prior].
  - apply fault_kept_refl.
  - pose proof (quic_frame_create_fault sk QUIC_FRAME_RETIRE_CONNECTION_ID
                  (DATA_U64 first)) as E.
    destruct (quic_frame_create sk QUIC_FRAME_RETIRE_CONNECTION_ID
                (DATA_U64 first)) as [[fb|] sk1]; cbn [snd] in *;
      [|exact E].
    eapply fault_kept_trans; [|apply IH]. exact E.
Qed.

Lemma quic_frame_ack_ranges_fault count : forall sk p l smallest,
  fault_kept sk
    (snd (fst (fst (quic_frame_ack_ranges count sk p l smallest)))).
Proof.
  induction count as [|n IH]; intros sk p l smallest;
    cbn [quic_frame_ack_ranges].
  - apply fault_kept_refl.
  - destruct (quic_get_var p l) as [[[gap p1] l1]|];
      [|apply fault_kept_refl].
    destruct (quic_get_var p1 l1) as [[[range p2] l2]|];
      [|apply fault_kept_refl].
    eapply fault_kept_trans; [|apply IH]. intros H. exact H.
Qed.

Lemma quic_connection_id_append_fault r n c l sk :
  fault_kept sk (snd (quic_connection_id_append r n c l sk)).
Proof.
  unfold quic_connection_id_append.
  pose proof (alloc_atomic_fault sk) as E.
  destruct (alloc_atomic sk) as [[] sk1]; cbn [snd] in *; [|exact E].
  destruct r; exact E.
Qed.

Ltac fault_step :=
  match goal with
  | |- context [quic_get_var ?p ?l] =>
      destruct (quic_get_var p l) as [[[? ?] ?]|]
  | |- context [alloc_atomic ?s] =>
      generalize (alloc_atomic_fault s);
      destruct (alloc_atomic s) as [[] ?]; cbn [snd]; intros ?
  | |- context [quic_frame_create ?s ?t ?d] =>
      generalize (quic_frame_create_fault s t d);
      destruct (quic_frame_create s t d) as [[?|] ?]; cbn [snd]; intros ?
  | |- context [quic_connection_id_append ?r ?n ?c ?l ?s] =>
      generalize (quic_connection_id_append_fault r n c l s);
      destruct (quic_connection_id_append r n c l s) as [? ?];
      cbn [snd]; intros ?
  | |- context [quic_frame_retire_prior ?n ?s ?f] =>
      generalize (quic_frame_retire_prior_fault n s f);
      destruct (quic_frame_retire_prior n s f) as [[] ?];
      cbn [snd]; intros ?
  | |- context [quic_frame_ack_ranges ?n ?s ?p ?l ?m] =>
      generalize (quic_frame_ack_ranges_fault n s p l m);
      destruct (quic_frame_ack_ranges n s p l m) as [[[[] ?] ?] ?];
      cbn [fst snd]; intros ?
  | |- context [quic_stream_find ?a ?b] => destruct (quic_stream_find a b)
  | |- context [has_bit ?a ?b] => destruct (has_bit a b)
  | |- context [if ?c then _ else _] => destruct c
  end; cbv beta iota zeta; cbn [negb orb andb fst snd IS_ERR PTR_ERR].

Ltac fault_done :=
  cbn [snd];
  unfold fault_kept, quic_outq_ctrl_tail, quic_outq_retransmit_check,
    stream_store_at, kernel_fault, stream_store, sk_write_space,
    sk_state_change, quic_set_state in *;
  cbn [env set_outq set_inq set_streams set_source set_dest set_token
       set_ticket set_paths set_common set_env faulted set_faulted] in *;
  auto.

Ltac fault_stays := cbv zeta; repeat fault_step; fault_done.

Section FaultStays.

Variable ops : collaborators.
Hypothesis Hr : reasm_keeps_fault ops.
Lemma ack_fault sk skb type :
  fault_kept sk (snd (quic_frame_ack_process sk skb type)).
Proof.
  unfold quic_frame_ack_process, quic_frame_ack_parse. fault_stays.
Qed.

Lemma reset_stream_fault sk skb type :
  fault_kept sk (snd (quic_frame_reset_stream_process ops sk skb type)).
Proof.
  unfold quic_frame_reset_stream_process, get_var3.
  repeat fault_step; try solve [fault_done].
  all: match goal with
       | |- context [quic_stream_recv_get ops ?t ?i ?s] =>
           destruct (quic_stream_recv_get ops t i s) as [[| e | sid] st]
       end; cbn [IS_ERR PTR_ERR fst snd]; fault_done.
Qed.

Lemma stop_sending_fault sk skb type :
  fault_kept sk (snd (quic_frame_stop_sending_process ops sk skb type)).
Proof.
  unfold quic_frame_stop_sending_process, get_var2.
  repeat match goal with
         | |- context [quic_get_var ?p ?l] =>
             destruct (quic_get_var p l) as [[[? ?] ?]|];
             cbv beta iota; try apply fault_kept_refl
         end.
  match goal with
  | |- context [quic_stream_send_get ops ?t ?i ?o ?s] =>
      destruct (quic_stream_send_get ops t i o s) as [[| e | sid] st]
  end; cbn [IS_ERR PTR_ERR fst snd]; fault_stays.
Qed.

Lemma stream_fault sk skb type :
  fault_kept sk (snd (quic_frame_stream_process ops sk skb type)).
Proof.
  unfold quic_frame_stream_process, quic_frame_stream_parse.
  repeat match goal with
         | |- context [quic_get_var ?p ?l] =>
             destruct (quic_get_var p l) as [[[? ?] ?]|];
             cbv beta iota; try apply fault_kept_refl
         | |- context [has_bit ?a QUIC_STREAM_BIT_OFF] =>
             destruct (has_bit a QUIC_STREAM_BIT_OFF); cbv beta iota;
             try apply fault_kept_refl
         | |- context [has_bit ?a QUIC_STREAM_BIT_LEN] =>
             destruct (has_bit a QUIC_STREAM_BIT_LEN); cbv beta iota;
             try apply fault_kept_refl
         | |- context [?a >? ?b] =>
             destruct (a >? b); cbv beta iota; try apply fault_kept_refl
         end.
  all: match goal with
       | |- context [quic_stream_recv_get ops ?t ?i ?s] =>
           destruct (quic_stream_recv_get ops t i s) as [[| e | sid] st]
       end; try solve [fault_done].
  all: match goal with
       | |- context [alloc_atomic ?s] =>
           generalize (alloc_atomic_fault s);
           destruct (alloc_atomic s) as [[] ?]; cbn [snd negb]; intros A
       end; try solve [fault_done].
  all: match goal with
       | |- context [quic_inq_reasm_tail ops ?s ?f] =>
           pose proof (Hr s f) as G;
           destruct (quic_inq_reasm_tail ops s f) as [err sk3]
       end; cbn [snd] in G; destruct (negb (err =? 0)); fault_done.
Qed.

Lemma path_response_fault sk skb type :
  fault_kept sk (snd (quic_frame_path_response_process sk skb type)).
Proof.
  unfold quic_frame_path_response_process, quic_frame_path_parse.
  destruct (len skb <? 8); [apply fault_kept_refl|]. cbv zeta. cbn [snd].
  repeat match goal with
         | |- context [if ?c then _ else _] => destruct c
         end; fault_done.
Qed.

Lemma decoders_keep_fault :
  Forall (fun dec : frame_process_fn =>
            forall sk skb type, fault_kept sk (snd (dec sk skb type)))
    (quic_frame_ops_process ops).
Proof.
  unfold quic_frame_ops_process.
  repeat (constructor;
          [ intros sk skb type;
            first [ apply ack_fault | apply reset_stream_fault
                  | apply stop_sending_fault | apply stream_fault
                  | apply path_response_fault
                  | unfold quic_frame_padding_process,
                      quic_frame_ping_process,
                      quic_frame_handshake_done_process,
                      quic_frame_crypto_process, quic_frame_crypto_parse,
                      quic_frame_new_token_process,
                      quic_frame_new_token_parse,
                      quic_frame_max_data_process,
                      quic_frame_max_stream_data_process,
                      quic_frame_max_streams_bidi_process,
                      quic_frame_max_streams_uni_process,
                      quic_frame_data_blocked_process,
                      quic_frame_stream_data_blocked_process,
                      quic_frame_streams_blocked_bidi_process,
                      quic_frame_streams_blocked_uni_process,
                      quic_frame_new_connection_id_process,
                      quic_frame_new_connection_id_parse,
                      quic_frame_retire_connection_id_process,
                      quic_frame_path_challenge_process,
                      quic_frame_path_parse,
                      quic_frame_connection_close_process,
                      quic_frame_connection_close_parse,
                      quic_frame_connection_close_header,
                      get_var1, get_var2, get_var3;
                    fault_stays ] |]).
  constructor.
Qed.

End FaultStays.

Lemma quic_frame_process_loop_fault ops fuel :
  reasm_keeps_fault ops ->
  forall sk skb pki r sk' pki',
    quic_frame_process_loop ops fuel sk skb pki = Some (r, sk', pki') ->
    fault_kept sk sk'.
Proof.
  intros Hr. induction fuel as [|k IH]; intros sk skb pki r sk' pki' H;
    [discriminate|].
  cbn [quic_frame_process_loop] in H.
  destruct (hd 0 (data skb) >? QUIC_FRAME_BASE_MAX).
  { injection H as _ <- _. apply fault_kept_refl. }
  pose proof (@Forall_nth_default _ _ (quic_frame_ops_process ops)
                (fun s _ _ => (- EPROTONOSUPPORT, s))
                (Z.to_nat (hd 0 (data skb))) (decoders_keep_fault Hr)) as G.
  cbv beta in G.
  specialize (G ltac:(intros; apply fault_kept_refl) sk (skb_pull skb 1)
                (hd 0 (data skb))).
  destruct (nth (Z.to_nat (hd 0 (data skb))) (quic_frame_ops_process ops)
              (fun s _ _ => (- EPROTONOSUPPORT, s)) sk (skb_pull skb 1)
              (hd 0 (data skb))) as [ret sk1].
  cbn [snd] in G.
  destruct (ret <? 0). { injection H as _ <- _. exact G. }
  destruct (len (skb_pull (skb_pull skb 1) ret) <=? 0).
  { injection H as _ <- _. exact G. }
  eapply fault_kept_trans; [exact G|]. eapply IH. eassumption.
Qed.

(** The mark of a fault is on the socket a packet leaves whenever it was
    raised before the packet or by one of its frames. *)
Lemma quic_frame_process_fault ops sk skb pki r sk' pki' :
  reasm_keeps_fault ops ->
  quic_frame_process ops sk skb pki = Some (r, sk', pki') ->
  fault_kept sk sk'.
Proof.
  intros Hr H. unfold quic_frame_process in H.
  destruct (len skb =? 0).
  - injection H as _ <- _. apply fault_kept_refl.
  - exact (@quic_frame_process_loop_fault ops _ Hr _ _ _ _ _ _ H).
Qed.

Lemma sample_ops_reasm_keeps_fault : reasm_keeps_fault sample_ops.
Proof. intros sk f H. exact H. Qed.
